(* ===== verification/_CoqProject ===== *)
-Q . S2P
Prelude.v
PyStr.v
PyNum.v
Base64.v
Regex.v
World.v
Utils.v
UserCache.v
Testbed.v
UserCacheSpec.v
BecomeUser.v
Config.v
Connector.v
BSSCommon.v
IO.v
ACL.v
Script.v
Slurm.v
Torque.v
Lsf.v
UFTP.v
Requests.v
TSI.v
NoBatch.v
Variants.v
Server.v
Forwarder.v
Main.v
Runner.v
