(* ===== verification/Prelude.v ===== *)
(** * Verification of the UNICORE Target System Interface (TSI)

    The TSI runs on the login node of a cluster and does there what a remote
    UNICORE/X server asks for: it submits and controls batch jobs, transfers and
    lists files, and does so under the identity of the user each request names.
    This library models the Python code under [src/lib], [src/slurm], [src/torque]
    and [src/lsf] and proves what makes it correct.

    ** How the program works

    [TSI.main] reads the configuration, notes its own identity and waits in
    [Server.connect].  For each control message of an allowed peer the server
    calls UNICORE/X back and forks: the child is a worker, with a command and a
    data socket, or a forwarder.  A worker reads messages in [TSI.process], finds
    the function of each, changes to the identity of the user
    ([BecomeUser.become_user], which asks [UserCache]), calls the function, reports
    an exception as the reply, restores its identity and ends the answer with
    [ENDOFMESSAGE].  The functions are in [BSSCommon] and its variants, [IO], [ACL],
    [UFTP] and [TSI] itself.

    ** Files

    The language and its library:
    - [Prelude]: strings, exceptions and results, hints ([settles]);
    - [PyStr], [PyNum], [Base64], [Regex]: the methods of [str], floats (IEEE binary64
      on integers), [base64], and [re] as a backtracking matcher with its relational
      meaning [matches];
    - [World]: the state of a process (credentials, environment, directory,
      configuration, cache, channels) and the monad [M] on it; the system calls on
      credentials after credentials(7) and capabilities(7); [Ext], the interface to
      clock, user database, files and processes; [respects] and [completes], the
      two predicates by which components prove frames and termination;
    - [Testbed]: a small machine that instantiates [Ext], for concrete runs.

    The program, each file named after the module of [src/lib] it models:
    - [Utils]; [UserCache] (and [UserCacheSpec], its refinement of the user
      database); [BecomeUser]; [Connector] (the interface [Connector] with its laws,
      both implementations); [IO]; [ACL]; [UFTP];
    - [Config]: the part of [TSI.py] that reads the configuration;
    - [BSSCommon], with [lib/Quota.py]: the class [BSS] is what a variant overrides,
      [BSSLaws] what the common functions rely on; the variants are [Slurm], [Torque],
      [Lsf], with [Script] for what they share, and [NoBatch] ([lib/BSS.py]); [Variants]
      shows of all four what the worker expects;
    - [Requests]: what every request handler leaves alone ([RequestFrame]) and that
      it completes;
    - [TSI]: the remaining functions of [TSI.py], with [lib/PAM.py] and
      [lib/Reservation.py]: requests, table of functions, one request, main loop;
    - [Server], with [lib/SSL.py], on the socket interface [Net]; [Forwarder], the class
      of [Connector.py]; [Main]: [TSI.main]; [Runner]: the one-shot program [Runner.py].

    A Python function is a definition of the same name; a method [C.m] that would
    clash has the class or variant as a prefix ([slurm_extract_info]); a loop is a
    [Fixpoint] named after what it does.  [config] is [w_config], a finite map to the
    values [cval]; the objects [connector] and [bss] are instances of the classes
    [Connector] and [BSS] and the record [bss_object]; [os.environ] is [w_env].

    ** What is proved

    - Identity: [become_user] ends with exactly the ids, groups and environment that
      the user database grants, or with an error of the specification and untouched
      credentials ([become_user_spec]); it never runs a request as root or as another
      user ([become_user_identity]); [restore_id] undoes it whatever happened
      ([restore_after_become]); no request, however it fails, leaves the worker
      without its identity ([handle_function_restores]).
    - Protocol: the main loop answers every message in order, each with one reply
      ([process_answers_all]), and so does the whole server from its start
      ([main_serves]); the runner answers one message ([runner_answers]); every batch
      request has a single reply ([bss_single_reply]); messages and data blocks are
      read back as they were written.
    - Server: strangers get nothing ([stranger_refused]); the messages that can end
      the server are exactly four kinds ([server_stops_only]); the ports of a range
      are tried in turn ([open_connection_ports]).
    - Batch systems: each variant is an object the worker can rely on
      ([variants_serve]); the status listing, whose lines are read back
      ([listing_lines]), job details, partitions and job IDs; no value of a
      message adds a line to a script; a job without a batch system is found
      in the process list under the ID its submission returned.
    - Files: a chunk that is read or written is exactly the slice asked for; ACLs are
      decided by the longest configured path.
    - Configuration: what a file of [key=value] lines sets, and its types.
    - Forwarding: the request survives its way through the messages; in every
      interleaving of the threads the bytes arrive in order.
    - Errors of the program itself are theorems too: groups granted unchecked,
      requests answered twice or never, listings left open, loops that starve.

    ** Bounds and fuel

    Loops that are not structural take fuel, and the callers provide enough of
    it: reading a message takes one unit per character of the channel
    ([read_fuel]), the main loop one per character plus one ([process]; every message
    ends in a line), [get_file_chunk] and [put_file_chunk] one per byte,
    [cleanup] one per child.  The theorems show that the result is then not
    [OutOfFuel].  Where the program may really not end, the fuel is a parameter:
    [receive_loop] ([put_file_chunk_starves]: no fuel is enough), [wait_children], and
    [connect_loop], which bounds the number of connections accepted.  Python's
    integers are [Z]; ids are checked against 32 bits as the kernel and Python do;
    floats have their 53 bits.

    ** Not modelled, and why

    - [lib/Log.py] and all log lines: output only, read by no one.
    - The command line entry points, [sys.version_info] (a parameter), signal
      registration ([worker_completed] itself is modelled).
    - What is not part of the sources: [ssl], [libpam], [ftplib], batch system
      commands and the operating system, which are the parameters [Ext], [Libpam]
      and [Net] with their stated laws; in [UFTP], the client is the sequence of its
      operations on the session.
    - Code points above 255: text is Latin-1.  [re] is modelled for the constructs that
      the patterns in the sources use; a path of the ACL configuration, which the code
      compiles as a pattern, has to stay within them.
    - The failure of [os.fork] in a worker, and memory exhaustion.
    - A signal in the middle of a statement: a process is sequential, its children
      act through [Ext] only; the threads of the forwarder are the exception. *)

From Stdlib Require Export ZArith Lia Ascii.
From stdpp Require Export base tactics option list strings gmap.

(** ** Python strings

    A Python [str] is a sequence of code points.  The development models
    the code points 0..255 (Latin-1), as the list of their [ascii] values, so
    that the list library carries the proofs.  String literals are written in
    [py_scope]. *)

Abbreviation str := (list ascii).

Definition str_of_bytes (l : list Byte.byte) : str := map ascii_of_byte l.
Definition bytes_of_str (l : str) : list Byte.byte := map byte_of_ascii l.

Declare Scope py_scope.
Delimit Scope py_scope with py.
String Notation str str_of_bytes bytes_of_str : py_scope.

(** Characters that a literal cannot hold. *)
Definition NL : ascii := "010"%char.
Definition CR : ascii := "013"%char.
Definition TAB : ascii := "009"%char.
Definition DQ : ascii := "034"%char.
Definition nl : str := [NL].
Definition dq : str := [DQ].

(** Equality of strings as a boolean, Python's [==] on [str]. *)
Definition str_eqb (s t : str) : bool := bool_decide (s = t).

Lemma str_eqb_eq (s t : str) : str_eqb s t = true <-> s = t.
Proof. apply bool_decide_eq_true. Qed.

Lemma str_eqb_neq (s t : str) : str_eqb s t = false <-> s <> t.
Proof. apply bool_decide_eq_false. Qed.

Lemma str_eqb_refl (s : str) : str_eqb s s = true.
Proof. by apply str_eqb_eq. Qed.

(** ** Exceptions and results

    [exn] is a raised Python exception: its class and [str(e)].  [result] is
    what a statement does: it completes with a value, raises, or the process
    stops.  A [try] catches [Raise] only: [os._exit] ([Exited]) and a loop
    that used up the fuel of its model ([OutOfFuel]) are never caught. *)

Inductive exn_class :=
  | KeyError | ValueError | TypeError | IndexError | RuntimeError
  | AttributeError | OverflowError | ZeroDivisionError | UnboundLocalError
  | UnicodeError | ReError | BaseExn
  | OSError (errno : Z).

#[global] Instance exn_class_eq_dec : EqDecision exn_class.
Proof. solve_decision. Defined.

Record exn := Exn { exn_kind : exn_class; exn_msg : str }.

#[global] Instance exn_eq_dec : EqDecision exn.
Proof. solve_decision. Defined.

Inductive result (A : Type) : Type :=
  | Ok (a : A)
  | Raise (e : exn)
  | Exited (code : Z)
  | OutOfFuel.
Arguments Ok {A} a.
Arguments Raise {A} e.
Arguments Exited {A} code.
Arguments OutOfFuel {A}.

(** [raise K(msg)]. *)
Definition throw {A : Type} (k : exn_class) (msg : str) : result A :=
  Raise (Exn k msg).

#[global] Instance result_ret : MRet result := fun A a => Ok a.
#[global] Instance result_bind : MBind result := fun A B f m =>
  match m with
  | Ok a => f a
  | Raise e => Raise e
  | Exited c => Exited c
  | OutOfFuel => OutOfFuel
  end.
#[global] Instance result_fmap : FMap result := fun A B f m =>
  match m with
  | Ok a => Ok (f a)
  | Raise e => Raise e
  | Exited c => Exited c
  | OutOfFuel => OutOfFuel
  end.

(** [try m except: h]: the handler sees the exception. *)
Definition try_except {A : Type} (m : result A) (h : exn -> result A) : result A :=
  match m with Raise e => h e | _ => m end.

(** An optional value or an exception: [d[k]], [l[i]]. *)
Definition or_raise {A : Type} (o : option A) (k : exn_class) (msg : str) : result A :=
  match o with Some a => Ok a | None => throw k msg end.

Definition is_ok {A : Type} (m : result A) : bool :=
  match m with Ok _ => true | _ => false end.

Fixpoint mapR {A B : Type} (f : A -> result B) (l : list A) : result (list B) :=
  match l with
  | [] => Ok []
  | x :: l' => y ← f x; ys ← mapR f l'; Ok (y :: ys)
  end.

Lemma bind_ok {A B : Type} (m : result A) (f : A -> result B) (b : B) :
  m ≫= f = Ok b <-> exists a, m = Ok a /\ f a = Ok b.
Proof.
  destruct m; simpl; split; try (intros (?&?&?)); intros; simplify_eq; eauto;
    try discriminate.
Qed.

Lemma mapR_ok {A B : Type} (f : A -> result B) (l : list A) (k : list B) :
  mapR f l = Ok k <-> Forall2 (fun x y => f x = Ok y) l k.
Proof.
  revert k; induction l as [|x l IH]; intros k; simpl.
  - split; [intros [= <-]; constructor | by inversion 1].
  - rewrite bind_ok. setoid_rewrite bind_ok. setoid_rewrite IH. split.
    + intros (y & Hy & ys & Hys & [= <-]). by constructor.
    + inversion 1; subst; eauto 6.
Qed.

(** ** Automation *)

(** Rewriting equations and facts the components share. *)
Create HintDb tsi discriminated.

(** Destruct every [match] and [if] of the goal or of a hypothesis, keeping
    the equations. *)
Ltac split_matches :=
  repeat (case_match; simplify_eq/=).

(** Take apart a successful run of [bind]s. *)
Ltac inv_ok :=
  repeat match goal with
  | H : (_ ≫= _) = Ok _ |- _ =>
      apply bind_ok in H; let a := fresh "a" in let Ha := fresh "Ha" in
      destruct H as (a & Ha & H)
  | H : Ok _ = Ok _ |- _ => injection H as H; try subst
  | H : mret _ = Ok _ |- _ => injection H as H; try subst
  | H : Raise _ = Ok _ |- _ => discriminate H
  | H : throw _ _ = Ok _ |- _ => discriminate H
  | H : _ /\ _ |- _ => destruct H
  | H : exists _, _ |- _ => destruct H
  end.

(** ** Results that settle: a value or an exception *)

Definition settles {A : Type} (r : result A) : Prop :=
  match r with Ok _ | Raise _ => True | _ => False end.

Create HintDb settles discriminated.

Lemma settles_bind {A B : Type} (m : result A) (f : A -> result B) :
  settles m -> (forall a, settles (f a)) -> settles (m ≫= f).
Proof. destruct m; simpl; auto. Qed.

Lemma settles_fmap {A B : Type} (g : A -> B) (m : result A) : settles m -> settles (g <$> m).
Proof. by destruct m. Qed.

Lemma settles_or_raise {A : Type} (o : option A) (k : exn_class) (msg : str) :
  settles (or_raise o k msg).
Proof. by destruct o. Qed.

Lemma settles_mapR {A B : Type} (f : A -> result B) (l : list A) :
  (forall a, settles (f a)) -> settles (mapR f l).
Proof.
  intros Hf. induction l as [|a l IH]; [done|]. simpl.
  apply settles_bind; [done | intros b]. by apply settles_bind.
Qed.

#[export] Hint Resolve settles_or_raise : settles.

(** Take a result apart into the calls it makes; [settles] holds the facts
    about those. *)
Ltac settles_step :=
  match goal with
  | |- settles (let _ := _ in _) => cbv zeta
  | |- settles (Ok _) => exact I
  | |- settles (mret _) => exact I
  | |- settles (Raise _) => exact I
  | |- settles (throw _ _) => exact I
  | |- settles (_ ≫= _) => apply settles_bind; [|intros ?]
  | |- settles (_ <$> _) => apply settles_fmap
  | |- settles (mapR _ _) => apply settles_mapR; intros ?
  | |- settles _ => solve [auto with settles]
  | |- settles (if ?b then _ else _) => destruct b
  | |- settles (match ?x with _ => _ end) => destruct x
  end.
Ltac solve_settles := repeat settles_step.

(** ** Lists *)

Lemma Forall_not_elem_of {A : Type} (x : A) (l : list A) :
  Forall (fun y => y <> x) l <-> x ∉ l.
Proof. rewrite Forall_forall. set_solver. Qed.

Lemma app_inj_len {A : Type} (a b c d : list A) :
  length a = length c -> a ++ b = c ++ d -> a = c /\ b = d.
Proof. intros ? ?. by apply app_inj_1. Qed.

Lemma take_length_sub_app {A : Type} (a b : list A) :
  take (length (a ++ b) - length b) (a ++ b) = a.
Proof. rewrite length_app. by replace _ with (length a) by lia; rewrite take_app_length. Qed.
