(* ===== verification/PyStr.v ===== *)
(** * Python's [str] methods

    The operations of [str] (and of [int]) the sources call, on the code points
    0..255: character classes, [lower], [startswith], [endswith], [in],
    [replace], [strip], [split], [splitlines], [join], [rindex], decimal and
    octal conversion, with the facts the components use. *)

From S2P Require Import Prelude.
#[local] Open Scope py_scope.
#[local] Open Scope Z_scope.

(** ** Characters *)

Definition ord (c : ascii) : Z := Z.of_N (N_of_ascii c).
Definition chr (n : Z) : ascii := ascii_of_N (Z.to_N n).

Definition between (a b n : Z) : bool := (a <=? n) && (n <=? b).

(** [str.isspace] on Latin-1, which is also [\s] of [re]. *)
Definition is_space (c : ascii) : bool :=
  let n := ord c in
  between 9 13 n || between 28 32 n || (n =? 133) || (n =? 160).

(** [\d]: the decimal digits. *)
Definition is_digit (c : ascii) : bool := between 48 57 (ord c).

(** [\w]: alphanumeric or underscore; the Latin-1 letters and the superscript
    and fraction characters are alphanumeric for Python. *)
Definition is_word (c : ascii) : bool :=
  let n := ord c in
  is_digit c || between 65 90 n || between 97 122 n || (n =? 95)
  || (n =? 170) || (n =? 178) || (n =? 179) || (n =? 181) || (n =? 185) || (n =? 186)
  || between 188 190 n || between 192 214 n || between 216 246 n || between 248 255 n.

Definition is_alpha_ascii (c : ascii) : bool :=
  between 65 90 (ord c) || between 97 122 (ord c).

Definition lower_char (c : ascii) : ascii :=
  let n := ord c in
  if between 65 90 n || (between 192 222 n && negb (n =? 215))
  then chr (n + 32) else c.

Definition lower (s : str) : str := lower_char <$> s.

(** The characters at which [str.splitlines] breaks. *)
Definition is_break (c : ascii) : bool :=
  let n := ord c in between 10 13 n || between 28 30 n || (n =? 133).

(** ** Prefixes, suffixes, substrings *)

Fixpoint startswith (s p : str) {struct p} : bool :=
  match p, s with
  | [], _ => true
  | b :: p', a :: s' => Ascii.eqb a b && startswith s' p'
  | _ :: _, [] => false
  end.

Definition endswith (s p : str) : bool := startswith (reverse s) (reverse p).

(** [sub in s]. *)
Fixpoint contains (sub s : str) : bool :=
  startswith s sub || match s with [] => false | _ :: s' => contains sub s' end.

(** Everything before and after the first occurrence of [sep]. *)
Fixpoint partition (sep s : str) : option (str * str) :=
  if startswith s sep then Some ([], drop (length sep) s)
  else match s with
       | [] => None
       | c :: s' =>
           match partition sep s' with
           | Some (a, b) => Some (c :: a, b)
           | None => None
           end
       end.

(** [s.split(sep, 1)]. *)
Definition split1 (sep s : str) : list str :=
  match partition sep s with Some (a, b) => [a; b] | None => [s] end.

(** [s.split(c)] for a one-character separator. *)
Fixpoint split (c : ascii) (s : str) : list str :=
  match s with
  | [] => [[]]
  | a :: s' =>
      if Ascii.eqb a c then [] :: split c s'
      else match split c s' with
           | [] => [[a]]
           | w :: ws => (a :: w) :: ws
           end
  end.

(** [sep.join(l)]. *)
Fixpoint join (sep : str) (l : list str) : str :=
  match l with
  | [] => []
  | [x] => x
  | x :: l' => x ++ sep ++ join sep l'
  end.

(** [s.replace(old, new)] for a non-empty [old]: [skip] characters of the
    occurrence being replaced are still to be dropped. *)
Fixpoint replace_from (old new : str) (skip : nat) (s : str) : str :=
  match s with
  | [] => []
  | c :: s' =>
      match skip with
      | S k => replace_from old new k s'
      | O => if startswith s old then new ++ replace_from old new (pred (length old)) s'
             else c :: replace_from old new O s'
      end
  end.
Definition replace (s old new : str) : str := replace_from old new O s.

(** ** Whitespace *)

Fixpoint lstrip (s : str) : str :=
  match s with
  | [] => []
  | c :: s' => if is_space c then lstrip s' else s
  end.
Definition rstrip (s : str) : str := reverse (lstrip (reverse s)).
Definition strip (s : str) : str := rstrip (lstrip s).

(** [s.split()]: the words of [s], [w] being the reversed word in progress. *)
Fixpoint words_from (w : str) (s : str) : list str :=
  match s with
  | [] => match w with [] => [] | _ => [reverse w] end
  | c :: s' =>
      if is_space c
      then match w with [] => words_from [] s' | _ => reverse w :: words_from [] s' end
      else words_from (c :: w) s'
  end.
Definition split_ws (s : str) : list str := words_from [] s.

(** [s.splitlines()]: [\r\n] is one break, and the text after the last break
    is a line only if it is not empty. *)
Fixpoint lines_from (w : str) (cr : bool) (s : str) : list str :=
  match s with
  | [] => match w with [] => [] | _ => [reverse w] end
  | c :: s' =>
      if cr && Ascii.eqb c NL then lines_from [] false s'
      else if is_break c then reverse w :: lines_from [] (Ascii.eqb c CR) s'
      else lines_from (c :: w) false s'
  end.
Definition splitlines (s : str) : list str := lines_from [] false s.

(** A text stream with universal newlines: the next line with its terminator
    read as one line feed, and what is left; the line is empty at the end. *)
Fixpoint readline_from (w : str) (s : str) : str * str :=
  match s with
  | [] => (reverse w, [])
  | c :: s' =>
      if Ascii.eqb c NL then (reverse (NL :: w), s')
      else if Ascii.eqb c CR then
        (reverse (NL :: w),
         match s' with
         | d :: s'' => if Ascii.eqb d NL then s'' else s'
         | [] => []
         end)
      else readline_from (c :: w) s'
  end.
Definition readline (s : str) : str * str := readline_from [] s.

(** All lines of a text file, [f.readlines()]; [cr]: the last character read
    was a carriage return. *)
Fixpoint readlines_from (w : str) (cr : bool) (s : str) : list str :=
  match s with
  | [] => match w with [] => [] | _ => [reverse w] end
  | c :: s' =>
      if cr && Ascii.eqb c NL then readlines_from [] false s'
      else if Ascii.eqb c NL || Ascii.eqb c CR
      then reverse (NL :: w) :: readlines_from [] (Ascii.eqb c CR) s'
      else readlines_from (c :: w) false s'
  end.
Definition readlines (s : str) : list str := readlines_from [] false s.

(** [s.rindex(c)] for a one-character string: the last position. *)
Fixpoint rindex (c : ascii) (s : str) : option nat :=
  match s with
  | [] => None
  | a :: s' =>
      match rindex c s' with
      | Some i => Some (S i)
      | None => if Ascii.eqb a c then Some O else None
      end
  end.

(** ** Integers *)

Definition digit_char (d : Z) : ascii := chr (48 + d).
Definition digit_val (c : ascii) : Z := ord c - 48.

Fixpoint digits_from (fuel : nat) (n : Z) (acc : str) : str :=
  match fuel with
  | O => acc
  | S f =>
      let acc' := digit_char (n mod 10) :: acc in
      if n <? 10 then acc' else digits_from f (n / 10) acc'
  end.

(** [str(n)] and ["%d" % n] of an integer. *)
Definition str_of_Z (n : Z) : str :=
  if n <? 0 then "-" ++ digits_from (S (Z.to_nat (Z.log2 (- n)))) (- n) []
  else digits_from (S (Z.to_nat (Z.log2 n))) n [].

(** The value of a digit string in [base], continuing from [acc]. *)
Definition digits_val (base : Z) (acc : Z) (s : str) : Z :=
  foldl (fun v c => base * v + digit_val c) acc s.

(** A non-empty sequence of digits below [base], single underscores allowed
    between digits: [prev] tells whether the last character was a digit. *)
Fixpoint read_digits (base : Z) (acc : Z) (prev : bool) (s : str) : option Z :=
  match s with
  | [] => if prev then Some acc else None
  | c :: s' =>
      if between 0 (base - 1) (digit_val c)
      then read_digits base (base * acc + digit_val c) true s'
      else if Ascii.eqb c "_" && prev && match s' with [] => false | _ => true end
      then read_digits base acc false s'
      else None
  end.

(** [int(s, base)] for a base of at most ten, without a base prefix. *)
Definition parse_int (base : Z) (s : str) : option Z :=
  match strip s with
  | "-"%char :: r => Z.opp <$> read_digits base 0 false r
  | "+"%char :: r => read_digits base 0 false r
  | r => read_digits base 0 false r
  end.

(** [int(s)], raising [ValueError]. *)
Definition int_of_str (s : str) : result Z :=
  or_raise (parse_int 10 s) ValueError
    ("invalid literal for int() with base 10: '" ++ s ++ "'").

(** [int(s, 8)], where the literal may carry the prefix [0o]. *)
Definition strip_0o (s : str) : str :=
  match s with
  | "0"%char :: "o"%char :: r | "0"%char :: "O"%char :: r => r
  | _ => s
  end.
Definition int8_of_str (s : str) : result Z :=
  or_raise
    (match strip s with
     | "-"%char :: r => Z.opp <$> read_digits 8 0 false (strip_0o r)
     | "+"%char :: r => read_digits 8 0 false (strip_0o r)
     | r => read_digits 8 0 false (strip_0o r)
     end) ValueError ("invalid literal for int() with base 8: '" ++ s ++ "'").

(** [repr] of a string without quotes, backslashes or control characters. *)
Definition py_repr (s : str) : str := "'" ++ s ++ "'".

Example splitlines_ex :
  splitlines ("a" ++ nl ++ "b" ++ [CR; NL] ++ nl ++ "c") = ["a"; "b"; ""; "c"].
Proof. reflexivity. Qed.
Example split_ws_ex : split_ws "  foo  16 " = ["foo"; "16"].
Proof. reflexivity. Qed.
Example replace_ex : replace "a$HOME/$HOM$HOME" "$HOME" "X" = "aX/$HOMX".
Proof. reflexivity. Qed.
Example str_of_Z_ex : str_of_Z (-1207) = "-1207".
Proof. reflexivity. Qed.
Example parse_int_ex : parse_int 10 " 1_000 " = Some 1000.
Proof. reflexivity. Qed.

(** ** Facts: prefixes and substrings *)

Lemma startswith_spec (s p : str) : startswith s p = true <-> exists r, s = p ++ r.
Proof.
  revert s; induction p as [|b p IH]; intros [|a s]; simpl.
  - split; eauto.
  - split; eauto.
  - split; [discriminate | intros (r & ?); discriminate].
  - rewrite andb_true_iff, IH, Ascii.eqb_eq. split.
    + intros (-> & r & ->). by exists r.
    + intros (r & [= -> ->]). eauto.
Qed.

Lemma startswith_app (p r : str) : startswith (p ++ r) p = true.
Proof. apply startswith_spec. by exists r. Qed.

Lemma contains_spec (sub s : str) :
  contains sub s = true <-> exists a b, s = a ++ sub ++ b.
Proof.
  induction s as [|c s IH]; simpl; rewrite orb_true_iff, startswith_spec.
  - split.
    + intros [(r & Hr)|?]; [|discriminate]. exists [], r. done.
    + intros (a & b & H). left. destruct a; [by exists b | discriminate].
  - rewrite IH. split.
    + intros [(r & ->)|(a & b & ->)]; [by exists [], r | by exists (c :: a), b].
    + intros ([|x a] & b & H); simplify_eq/=; eauto.
Qed.

Lemma contains_false_tail (sub : str) (c : ascii) (s : str) :
  contains sub (c :: s) = false ->
  startswith (c :: s) sub = false /\ contains sub s = false.
Proof. simpl. by rewrite orb_false_iff. Qed.

Lemma partition_some (sep s a b : str) :
  partition sep s = Some (a, b) -> s = a ++ sep ++ b.
Proof.
  revert a; induction s as [|c s IH]; intros a; simpl.
  - destruct (startswith [] sep) eqn:E; [|done].
    apply startswith_spec in E as (r & Hr). intros [= <- <-].
    symmetry in Hr. apply app_eq_nil in Hr as [-> ->]. done.
  - destruct (startswith (c :: s) sep) eqn:E.
    + apply startswith_spec in E as (r & Hr). intros [= <- <-].
      rewrite Hr, drop_app_length. done.
    + destruct (partition sep s) as [[a' b']|]; [|done].
      intros [= <- <-]. simpl. f_equal. by apply IH.
Qed.

(** ** Facts: [replace] *)

Lemma replace_absent (s old new : str) :
  contains old s = false -> replace s old new = s.
Proof.
  unfold replace. induction s as [|c s IH]; [done|].
  intros [H1 H2]%contains_false_tail. simpl replace_from. rewrite H1. f_equal; auto.
Qed.

Lemma replace_char (s : str) (c : ascii) (new : str) :
  replace s [c] new = s ≫= fun x => if Ascii.eqb x c then new else [x].
Proof.
  unfold replace. induction s as [|x s IH]; [done|]. simpl.
  rewrite andb_true_r. destruct (Ascii.eqb x c); simpl; by rewrite IH.
Qed.

Lemma replace_char_absent (s : str) (c : ascii) (new : str) :
  c ∉ new -> c ∉ replace s [c] new.
Proof.
  rewrite replace_char. intros Hn (x & Hx & Hi)%list_elem_of_bind.
  destruct (Ascii.eqb_spec x c); [done|].
  apply list_elem_of_singleton in Hx. congruence.
Qed.

Lemma replace_char_length (s : str) (c d : ascii) :
  length (replace s [c] [d]) = length s.
Proof.
  rewrite replace_char. induction s as [|x s IH]; [done|].
  rewrite bind_cons, length_app, IH. by destruct (Ascii.eqb x c).
Qed.

(** A replacement that cannot start inside a character keeps the characters
    outside [old] and [new]. *)
Lemma replace_from_not_elem (old new : str) (k : nat) (s : str) (c : ascii) :
  c ∉ s -> c ∉ new -> c ∉ replace_from old new k s.
Proof.
  revert k; induction s as [|x s IH]; intros k Hs Hn; simpl; [set_solver|].
  apply not_elem_of_cons in Hs as [? ?].
  destruct k; [|by apply IH]. destruct (startswith _ _).
  - apply not_elem_of_app. split; [done | by apply IH].
  - apply not_elem_of_cons. split; [done | by apply IH].
Qed.

Lemma replace_not_elem (s old new : str) (c : ascii) :
  c ∉ s -> c ∉ new -> c ∉ replace s old new.
Proof. apply replace_from_not_elem. Qed.

(** ** Facts: [split] and [join] *)

Lemma split_nonempty (c : ascii) (s : str) : split c s <> [].
Proof.
  destruct s as [|a s]; simpl; [done|].
  destruct (Ascii.eqb a c); [done|]. by destruct (split c s).
Qed.

Lemma join_split (c : ascii) (s : str) : join [c] (split c s) = s.
Proof.
  induction s as [|a s IH]; [done|]. simpl.
  pose proof (split_nonempty c s) as Hn.
  destruct (Ascii.eqb_spec a c) as [->|].
  - destruct (split c s) as [|w ws]; [done|]. simpl in *. by rewrite IH.
  - destruct (split c s) as [|w ws]; [done|].
    destruct ws; simpl in *; by rewrite <-IH.
Qed.

Lemma split_no_sep (c : ascii) (s : str) : Forall (fun w => c ∉ w) (split c s).
Proof.
  assert (Hnil : c ∉ ([] : str)) by apply not_elem_of_nil.
  induction s as [|a s IH]; simpl; [by constructor|].
  destruct (Ascii.eqb_spec a c) as [->|Hne]; [by constructor|].
  assert (c <> a) by congruence.
  destruct (split c s) as [|w ws]; [constructor; [by apply not_elem_of_cons|done]|].
  apply Forall_cons in IH as [? ?]. constructor; [by apply not_elem_of_cons|done].
Qed.

Lemma split_absent (c : ascii) (s : str) : c ∉ s -> split c s = [s].
Proof.
  induction s as [|a s IH]; [done|]. intros [? ?]%not_elem_of_cons. simpl.
  destruct (Ascii.eqb_spec a c); [congruence|]. by rewrite IH.
Qed.

Lemma split_app_sep (c : ascii) (a b : str) :
  c ∉ a -> split c (a ++ (c :: b)) = a :: split c b.
Proof.
  induction a as [|x a IH]; intros Ha; simpl.
  - by rewrite Ascii.eqb_refl.
  - apply not_elem_of_cons in Ha as [? ?].
    destruct (Ascii.eqb_spec x c); [congruence|]. by rewrite IH.
Qed.

(** [split] undoes [join] on words without the separator. *)
Lemma split_join (c : ascii) (l : list str) :
  l <> [] -> Forall (fun w => c ∉ w) l -> split c (join [c] l) = l.
Proof.
  induction l as [|x l IH]; [done|]. intros _ [Hx Hl]%Forall_cons.
  destruct l as [|y l]; [by apply split_absent|].
  change (join [c] (x :: y :: l)) with (x ++ (c :: join [c] (y :: l))).
  rewrite split_app_sep by done. f_equal. by apply IH.
Qed.

(** ** Facts: whitespace *)

Lemma lstrip_suffix (s : str) : exists w, s = w ++ lstrip s /\ Forall (fun c => is_space c = true) w.
Proof.
  induction s as [|c s (w & Hw & Hf)]; [by exists []|]. simpl.
  destruct (is_space c) eqn:E; [|by exists []].
  exists (c :: w). rewrite <-app_comm_cons, <-Hw. split; [done|by constructor].
Qed.

Lemma lstrip_elem (s : str) (c : ascii) : c ∈ lstrip s -> c ∈ s.
Proof. destruct (lstrip_suffix s) as (w & Hw & _). rewrite Hw at 2. set_solver. Qed.

Lemma strip_elem (s : str) (c : ascii) : c ∈ strip s -> c ∈ s.
Proof.
  unfold strip, rstrip. rewrite elem_of_reverse.
  intros H%lstrip_elem. rewrite elem_of_reverse in H. by apply lstrip_elem.
Qed.

Lemma lstrip_id (s : str) :
  (forall c r, s = c :: r -> is_space c = false) -> lstrip s = s.
Proof. destruct s as [|c s]; [done|]. intros H. simpl. by rewrite (H c s). Qed.

Lemma strip_no_space (s : str) : Forall (fun c => is_space c = false) s -> strip s = s.
Proof.
  intros H. unfold strip, rstrip.
  rewrite (lstrip_id s), (lstrip_id (reverse s)); [apply reverse_involutive| |].
  - intros c r E. apply Forall_reverse in H. rewrite E in H. by inversion H.
  - intros c r ->. by inversion H.
Qed.

Lemma reverse_not_elem (s : str) (c : ascii) : c ∉ s -> c ∉ reverse s.
Proof. by rewrite elem_of_reverse. Qed.

(** No line of [splitlines] holds a line break. *)
Lemma lines_from_no_break (w s : str) (cr : bool) :
  Forall (fun c => is_break c = false) w ->
  Forall (Forall (fun c => is_break c = false)) (lines_from w cr s).
Proof.
  revert w cr; induction s as [|c s IH]; intros w cr Hw; simpl.
  - destruct w; repeat constructor. by apply Forall_reverse.
  - destruct (cr && _); [by apply IH; constructor|].
    destruct (is_break c) eqn:E.
    + constructor; [by apply Forall_reverse | by apply IH].
    + by apply IH; constructor.
Qed.

Lemma splitlines_no_break (s : str) :
  Forall (Forall (fun c => is_break c = false)) (splitlines s).
Proof. by apply lines_from_no_break. Qed.

(** ** Facts: decimal numerals *)

Lemma digit_val_char (d : Z) : 0 <= d < 10 -> digit_val (digit_char d) = d.
Proof.
  intros H. unfold digit_val, digit_char, ord, chr.
  rewrite N_ascii_embedding by lia. lia.
Qed.

Lemma digits_from_spec (f : nat) (n : Z) (acc : str) :
  0 <= n < 10 ^ Z.of_nat f -> (0 < f)%nat ->
  exists ds, digits_from f n acc = ds ++ acc /\ ds <> [] /\
    Forall (fun c => exists d, 0 <= d < 10 /\ c = digit_char d) ds /\
    digits_val 10 0 ds = n.
Proof.
  revert n acc; induction f as [|f IH]; intros n acc Hn Hf; [lia|]. simpl.
  assert (Hd : exists d, 0 <= d < 10 /\ digit_char (n mod 10) = digit_char d)
    by (exists (n mod 10); split; [apply Z.mod_pos_bound; lia | done]).
  destruct (Z.ltb_spec n 10).
  - exists [digit_char (n mod 10)].
    split; [done|]. split; [done|]. split; [by repeat constructor|].
    unfold digits_val. cbn [foldl]. rewrite digit_val_char by (apply Z.mod_pos_bound; lia).
    rewrite Z.mod_small; lia.
  - assert (Hf0 : (0 < f)%nat) by (destruct f; [simpl in Hn; lia | lia]).
    destruct (IH (n / 10) (digit_char (n mod 10) :: acc)) as (ds & -> & Hne & Hds & Hv);
      [|done|].
    { rewrite Nat2Z.inj_succ, Z.pow_succ_r in Hn by lia.
      split; [apply Z.div_pos; lia | apply Z.div_lt_upper_bound; lia]. }
    exists (ds ++ [digit_char (n mod 10)]).
    split; [by rewrite <-app_assoc|]. split; [by destruct ds|].
    split; [apply Forall_app; split; [done | by repeat constructor]|].
    unfold digits_val in *. rewrite foldl_app. cbn [foldl].
    rewrite Hv, digit_val_char by (apply Z.mod_pos_bound; lia).
    pose proof (Z.div_mod n 10). lia.
Qed.

Lemma read_digits_val (s : str) (acc : Z) (p : bool) :
  Forall (fun c => exists d, 0 <= d < 10 /\ c = digit_char d) s ->
  s <> [] \/ p = true -> read_digits 10 acc p s = Some (digits_val 10 acc s).
Proof.
  revert acc p; induction s as [|c s IH]; intros acc p H Hp; simpl.
  - destruct Hp as [?| ->]; done.
  - apply Forall_cons in H as [(d & Hd & ->) Hs].
    assert (Hb : between 0 (10 - 1) (digit_val (digit_char d)) = true)
      by (rewrite digit_val_char by done; unfold between; lia).
    rewrite Hb, IH; auto.
Qed.

(** The digits of a non-negative number. *)
Lemma str_of_Z_digits (n : Z) :
  0 <= n ->
  str_of_Z n <> [] /\
  Forall (fun c => exists d, 0 <= d < 10 /\ c = digit_char d) (str_of_Z n) /\
  digits_val 10 0 (str_of_Z n) = n.
Proof.
  intros Hn. unfold str_of_Z. destruct (Z.ltb_spec n 0); [lia|].
  destruct (digits_from_spec (S (Z.to_nat (Z.log2 n))) n [])
    as (ds & -> & ? & ? & ?); [split; [done|] | lia | by rewrite app_nil_r].
  rewrite Nat2Z.inj_succ, Z2Nat.id by apply Z.log2_nonneg.
  destruct (Z.eq_dec n 0) as [->|]; [done|].
  eapply Z.lt_le_trans; [apply Z.log2_spec; lia|].
  apply Z.pow_le_mono_l. lia.
Qed.

Lemma digit_char_not_space (d : Z) : 0 <= d < 10 -> is_space (digit_char d) = false.
Proof.
  intros H. pose proof (digit_val_char d H) as E. unfold digit_val in E.
  unfold is_space, between. lia.
Qed.

Lemma digit_char_is_digit (d : Z) : 0 <= d < 10 -> is_digit (digit_char d) = true.
Proof.
  intros H. pose proof (digit_val_char d H) as E. unfold digit_val in E.
  unfold is_digit, between. lia.
Qed.

(** [int(str(n)) = n]. *)
Lemma int_of_str_of_Z (n : Z) : int_of_str (str_of_Z n) = Ok n.
Proof.
  enough (parse_int 10 (str_of_Z n) = Some n) as E by (unfold int_of_str; by rewrite E).
  destruct (Z.ltb_spec n 0) as [Hneg|Hpos].
  - assert (E : str_of_Z n = "-"%char :: str_of_Z (- n)).
    { unfold str_of_Z. destruct (Z.ltb_spec n 0), (Z.ltb_spec (- n) 0); try lia. done. }
    destruct (str_of_Z_digits (- n)) as (Hne & Hd & Hv); [lia|].
    unfold parse_int. rewrite E, strip_no_space.
    + rewrite read_digits_val, Hv by auto. simpl. f_equal. lia.
    + constructor; [done|]. eapply Forall_impl; [done|].
      intros c (d & ? & ->). by apply digit_char_not_space.
  - destruct (str_of_Z_digits n) as (Hne & Hd & Hv); [lia|].
    unfold parse_int. rewrite strip_no_space.
    + destruct (str_of_Z n) as [|c s] eqn:E; [done|].
      pose proof (read_digits_val (c :: s) 0 false Hd) as Hr. rewrite Hv in Hr.
      apply Forall_cons in Hd as [(d & Hdd & ->) _].
      pose proof (digit_val_char d Hdd) as Hv'.
      assert (digit_char d <> "-"%char) by (intros E'; rewrite E' in Hv'; vm_compute in Hv'; lia).
      assert (digit_char d <> "+"%char) by (intros E'; rewrite E' in Hv'; vm_compute in Hv'; lia).
      rewrite <-(Hr ltac:(by left)).
      destruct (digit_char d) as [[] [] [] [] [] [] [] []]; try done; congruence.
    + eapply Forall_impl; [done|]. intros c (d & ? & ->). by apply digit_char_not_space.
Qed.

(** A decimal numeral holds digits and a sign only. *)
Lemma str_of_Z_not_elem (n : Z) (c : ascii) :
  is_digit c = false -> c <> "-"%char -> c ∉ str_of_Z n.
Proof.
  intros Hc Hm. rewrite <-Forall_not_elem_of.
  assert (Hd : forall m, 0 <= m -> Forall (fun y => y <> c) (str_of_Z m)).
  { intros m Hm0. destruct (str_of_Z_digits m Hm0) as (_ & Hd & _).
    eapply Forall_impl; [done|]. intros ? (d & Hd' & ->) <-.
    by rewrite digit_char_is_digit in Hc. }
  destruct (Z.ltb_spec n 0); [|by apply Hd].
  specialize (Hd (- n)). unfold str_of_Z in *.
  destruct (Z.ltb_spec n 0), (Z.ltb_spec (- n) 0); try lia.
  constructor; [done | by apply Hd; lia].
Qed.

(** ** Facts: reading lines *)

Lemma readline_from_line (w l r : str) :
  NL ∉ l -> CR ∉ l -> readline_from w (l ++ (NL :: r)) = (reverse w ++ l ++ nl, r).
Proof.
  revert w; induction l as [|c l IH]; intros w Hn Hc; simpl.
  - by rewrite reverse_cons.
  - rewrite not_elem_of_cons in Hn, Hc. destruct Hn as [Hn1 Hn2], Hc as [Hc1 Hc2].
    rewrite (proj2 (Ascii.eqb_neq c NL)), (proj2 (Ascii.eqb_neq c CR)) by done.
    rewrite IH by done. by rewrite reverse_cons, <-app_assoc.
Qed.

(** A line without terminators inside is read back. *)
Lemma readline_line (l r : str) :
  NL ∉ l -> CR ∉ l -> readline (l ++ (NL :: r)) = (l ++ nl, r).
Proof. apply readline_from_line. Qed.

Lemma readlines_from_line (w l r : str) :
  NL ∉ l -> CR ∉ l ->
  readlines_from w false (l ++ (NL :: r)) = (reverse w ++ l ++ nl) :: readlines_from [] false r.
Proof.
  revert w; induction l as [|c l IH]; intros w Hn Hc; simpl.
  - by rewrite reverse_cons.
  - rewrite not_elem_of_cons in Hn, Hc. destruct Hn as [Hn1 Hn2], Hc as [Hc1 Hc2].
    rewrite (proj2 (Ascii.eqb_neq c NL)), (proj2 (Ascii.eqb_neq c CR)) by done. simpl.
    rewrite IH by done. by rewrite reverse_cons, <-app_assoc.
Qed.

Lemma readlines_lines (ls : list str) :
  Forall (fun l => (NL ∉ l) /\ (CR ∉ l)) ls ->
  readlines (concat ((fun l => l ++ nl) <$> ls)) = (fun l => l ++ nl) <$> ls.
Proof.
  unfold readlines. induction 1 as [|l ls [Hn Hc] _ IH]; [done|]. rewrite fmap_cons. simpl.
  rewrite <-app_assoc. simpl. rewrite readlines_from_line by done. by rewrite IH.
Qed.

(** ** Facts: stripped strings *)

Lemma lstrip_fixed (s : str) : lstrip s = s -> match s with [] => True | c :: _ => is_space c = false end.
Proof.
  destruct s as [|c s]; [done|]. simpl. destruct (is_space c) eqn:Hc; [|done].
  intros Hs. exfalso. destruct (lstrip_suffix s) as (w & Hw & _).
  apply (f_equal length) in Hw, Hs. rewrite length_app in Hw. simpl in Hs. lia.
Qed.

Lemma rstrip_length (s : str) : (length (rstrip s) <= length s)%nat.
Proof.
  unfold rstrip. rewrite length_reverse. destruct (lstrip_suffix (reverse s)) as (w & Hw & _).
  apply (f_equal length) in Hw. rewrite length_app, length_reverse in Hw. lia.
Qed.

Lemma strip_fixed_head (s : str) : strip s = s -> match s with [] => True | c :: _ => is_space c = false end.
Proof.
  intros Hs. apply lstrip_fixed. unfold strip in Hs.
  destruct (lstrip_suffix s) as (w & Hw & _).
  pose proof (rstrip_length (lstrip s)) as Hl. rewrite Hs in Hl.
  rewrite Hw in Hl at 1. rewrite length_app in Hl.
  destruct w; [by rewrite Hw at 2|]. simpl in Hl. lia.
Qed.

(** ** Facts: words *)

Lemma words_from_word (w a r : str) (c : ascii) :
  Forall (fun c => is_space c = false) a -> is_space c = true -> w <> [] \/ a <> [] ->
  words_from w (a ++ (c :: r)) = (reverse w ++ a) :: words_from [] r.
Proof.
  intros Ha Hc. revert w; induction Ha as [|d a Hd _ IH]; intros w Hne; simpl.
  - rewrite Hc, app_nil_r. destruct w; [by destruct Hne | done].
  - rewrite Hd, IH by (by left). by rewrite reverse_cons, <-app_assoc.
Qed.

Lemma words_from_last (w a : str) :
  Forall (fun c => is_space c = false) a -> w <> [] \/ a <> [] -> words_from w a = [reverse w ++ a].
Proof.
  intros Ha. revert w; induction Ha as [|d a Hd _ IH]; intros w Hne; simpl.
  - rewrite app_nil_r. destruct w; [by destruct Hne | done].
  - rewrite Hd, IH by (by left). by rewrite reverse_cons, <-app_assoc.
Qed.

Lemma split_ws_two (a b : str) :
  a <> [] -> b <> [] -> Forall (fun c => is_space c = false) a ->
  Forall (fun c => is_space c = false) b -> split_ws (a ++ " " ++ b) = [a; b].
Proof.
  intros. unfold split_ws. change (" " ++ b) with (" "%char :: b).
  rewrite words_from_word by auto. by rewrite words_from_last by auto.
Qed.

Lemma split_lines (ls : list str) :
  Forall (fun l => NL ∉ l) ls -> split NL (concat ((fun l => l ++ nl) <$> ls)) = ls ++ [[]].
Proof.
  induction 1 as [|l ls Hl _ IH]; [done|]. rewrite fmap_cons. cbn [concat].
  rewrite <-app_assoc. change (nl ++ ?x) with (NL :: x). rewrite split_app_sep by done. by rewrite IH.
Qed.

Lemma str_of_Z_nonempty (n : Z) : str_of_Z n <> [].
Proof. intros He. pose proof (int_of_str_of_Z n) as Hn. rewrite He in Hn. discriminate Hn. Qed.

Lemma str_of_Z_no_space (n : Z) : Forall (fun c => is_space c = false) (str_of_Z n).
Proof.
  apply Forall_forall. intros c Hc. destruct (is_space c) eqn:Hs; [|done]. exfalso. revert Hc.
  apply str_of_Z_not_elem; destruct c as [[] [] [] [] [] [] [] []]; vm_compute in Hs |- *; congruence.
Qed.

(** ** Facts: conversions settle *)

Lemma settles_int_of_str (s : str) : settles (int_of_str s).
Proof. unfold int_of_str. solve_settles. Qed.
Lemma settles_int8_of_str (s : str) : settles (int8_of_str s).
Proof. unfold int8_of_str. solve_settles. Qed.
#[export] Hint Resolve settles_int_of_str settles_int8_of_str : settles.
