(* ===== verification/PyNum.v ===== *)
(** * Python's floats, as far as the sources use them

    [float(s)], [int(float)], [int / int] and the product of a float constant
    and an integer: IEEE binary64 with rounding to nearest, ties to even,
    computed exactly on integers.  A finite float is [m * 2^e]. *)

From S2P Require Import Prelude PyStr.
#[local] Open Scope py_scope.
#[local] Open Scope Z_scope.

Inductive pyfloat :=
  | FFin (m e : Z)
  | FInf (neg : bool)
  | FNaN.

(** The exponent of the float next to [n / d]: the result has 53 bits, fewer in the
    subnormal range. *)
Definition float_exp (n d : Z) : Z :=
  let e := Z.log2 n - Z.log2 d - 52 in
  let e' := if n * 2 ^ (Z.max 0 (- e)) / (d * 2 ^ (Z.max 0 e)) <? 2 ^ 52 then e - 1 else e in
  Z.max (-1074) e'.

(** [n / d] rounded to the nearest multiple of [2^e], ties to even. *)
Definition round_at (n d e : Z) : Z :=
  let num := n * 2 ^ (Z.max 0 (- e)) in
  let den := d * 2 ^ (Z.max 0 e) in
  let q := num / den in
  let r := num mod den in
  if (den <? 2 * r) || ((2 * r =? den) && Z.odd q) then q + 1 else q.

(** The binary64 value of [n / d], for [0 <= n] and [0 < d]. *)
Definition round_ratio (n d : Z) : pyfloat :=
  if n =? 0 then FFin 0 0 else
  let e := float_exp n d in
  let m := round_at n d e in
  if 2 ^ 1024 <=? m * 2 ^ (Z.max 0 e) / 2 ^ (Z.max 0 (- e)) then FInf false
  else FFin m e.

Definition float_neg (f : pyfloat) : pyfloat :=
  match f with
  | FFin m e => FFin (- m) e
  | FInf b => FInf (negb b)
  | FNaN => FNaN
  end.

(** [int(f)]: truncation towards zero. *)
Definition trunc_me (m e : Z) : Z := Z.quot (m * 2 ^ (Z.max 0 e)) (2 ^ (Z.max 0 (- e))).

Definition int_of_float (f : pyfloat) : result Z :=
  match f with
  | FFin m e => Ok (trunc_me m e)
  | FInf _ => throw OverflowError "cannot convert float infinity to integer"
  | FNaN => throw ValueError "cannot convert float NaN to integer"
  end.

(** [n / d] on integers. *)
Definition truediv (n d : Z) : result pyfloat :=
  if d =? 0 then throw ZeroDivisionError "division by zero" else
  let q := round_ratio (Z.abs n) (Z.abs d) in
  match (if xorb (n <? 0) (d <? 0) then float_neg q else q) with
  | FInf _ => throw OverflowError "integer division result too large for a float"
  | f => Ok f
  end.

(** The product of two finite floats, and [c * n] for an integer [n], which is
    converted first. *)
Definition float_mul (f g : pyfloat) : pyfloat :=
  match f, g with
  | FFin m1 e1, FFin m2 e2 =>
      let e := e1 + e2 in
      let q := round_ratio (Z.abs (m1 * m2) * 2 ^ (Z.max 0 e)) (2 ^ (Z.max 0 (- e))) in
      if m1 * m2 <? 0 then float_neg q else q
  | _, _ => FNaN
  end.

Definition float_times (c : pyfloat) (n : Z) : result pyfloat :=
  match (if n <? 0 then float_neg (round_ratio (- n) 1) else round_ratio n 1) with
  | FInf _ => throw OverflowError "int too large to convert to float"
  | f => Ok (float_mul c f)
  end.

(** [int(n / d)]. *)
Definition int_truediv (n d : Z) : result Z := truediv n d ≫= int_of_float.

(** ** Reading a float *)

(** A run of digits with single underscores between them: its value from
    [acc], the number of digits read, and what follows. *)
Fixpoint scan_digits (acc : Z) (cnt : nat) (s : str) : Z * nat * str :=
  match s with
  | [] => (acc, cnt, [])
  | c :: s' =>
      if is_digit c then scan_digits (10 * acc + digit_val c) (S cnt) s'
      else match s' with
           | d :: _ =>
               if Ascii.eqb c "_" && is_digit d && negb (Nat.eqb cnt 0)
               then scan_digits acc cnt s' else (acc, cnt, s)
           | [] => (acc, cnt, s)
           end
  end.

(** The exponent part: [Some 0] when there is none. *)
Definition scan_exponent (s : str) : option Z :=
  match s with
  | [] => Some 0
  | c :: r =>
      if Ascii.eqb c "e" || Ascii.eqb c "E" then
        let '(sg, r) := match r with
                        | "-"%char :: r' => (-1, r')
                        | "+"%char :: r' => (1, r')
                        | _ => (1, r)
                        end in
        match scan_digits 0 0 r with
        | (v, S _, []) => Some (sg * v)
        | _ => None
        end
      else None
  end.

(** [m * 10^x]; outside [10^-400 .. 10^400] the value is infinite or zero. *)
Definition float_of_decimal (m : Z) (digits : nat) (x : Z) : pyfloat :=
  if m =? 0 then FFin 0 0
  else if 400 <? x then FInf false
  else if x + Z.of_nat digits <? -400 then FFin 0 0
  else round_ratio (m * 10 ^ (Z.max 0 x)) (10 ^ (Z.max 0 (- x))).

(** An unsigned literal. *)
Definition float_unsigned (s : str) : option pyfloat :=
  let l := lower s in
  if str_eqb l "inf" || str_eqb l "infinity" then Some (FInf false)
  else if str_eqb l "nan" then Some FNaN
  else
    let '(ip, ni, r) := scan_digits 0 0 s in
    let '(m, nm, r) := match r with
                       | "."%char :: r' =>
                           let '(v, n, r'') := scan_digits ip 0 r' in (v, n, r'')
                       | _ => (ip, 0%nat, r)
                       end in
    if Nat.eqb (ni + nm) 0 then None
    else match scan_exponent r with
         | Some x => Some (float_of_decimal m (ni + nm) (x - Z.of_nat nm))
         | None => None
         end.

(** [float(s)]. *)
Definition float_of_str (s : str) : result pyfloat :=
  or_raise
    (match strip s with
     | "-"%char :: r => float_neg <$> float_unsigned r
     | "+"%char :: r => float_unsigned r
     | r => float_unsigned r
     end) ValueError ("could not convert string to float: " ++ py_repr s).

Example float_ex1 : (float_of_str "12.9" ≫= int_of_float) = Ok 12.
Proof. reflexivity. Qed.
Example float_ex2 : (float_of_str "1e3" ≫= int_of_float) = Ok 1000.
Proof. reflexivity. Qed.
Example float_ex3 : (float_of_str "9007199254740993" ≫= int_of_float) = Ok 9007199254740992.
Proof. reflexivity. Qed.
Example float_ex4 : (float_of_str "-0.5e1_0" ≫= int_of_float) = Ok (-5000000000).
Proof. reflexivity. Qed.
Example float_ex5 : is_ok (float_of_str "1e400" ≫= int_of_float) = false.
Proof. reflexivity. Qed.
Example truediv_zero_ex : int_truediv 3 0 = throw ZeroDivisionError "division by zero".
Proof. reflexivity. Qed.
Example truediv_neg_ex : int_truediv 7 (-2) = Ok (-3).
Proof. vm_compute. reflexivity. Qed.
Example truediv_ex : int_truediv (-1) 60 = Ok 0.
Proof. reflexivity. Qed.

(** ** Facts *)

Lemma pow2_pos (k : Z) : 0 <= k -> 0 < 2 ^ k.
Proof. intros. by apply Z.pow_pos_nonneg. Qed.

Lemma pow2_split (a b : Z) : 0 <= a -> 0 <= b -> 2 ^ (a + b) = 2 ^ a * 2 ^ b.
Proof. apply Z.pow_add_r. Qed.

(** The rounding error is at most half a unit. *)
Lemma round_at_error (n d e : Z) :
  0 <= n -> 0 < d ->
  let num := n * 2 ^ (Z.max 0 (- e)) in
  let den := d * 2 ^ (Z.max 0 e) in
  num / den <= round_at n d e <= num / den + 1 /\
  2 * Z.abs (round_at n d e * den - num) <= den.
Proof.
  intros Hn Hd num den.
  assert (0 < den) by (apply Z.mul_pos_pos; [lia | apply pow2_pos; lia]).
  pose proof (Z.div_mod num den ltac:(lia)) as Hq.
  pose proof (Z.mod_pos_bound num den ltac:(lia)) as Hr.
  unfold round_at. fold num den.
  destruct ((den <? 2 * (num mod den)) || _) eqn:E; split; try lia; nia.
Qed.

(** An exact quotient is not rounded. *)
Lemma round_at_exact (n d e k : Z) :
  0 < d -> n * 2 ^ (Z.max 0 (- e)) = k * (d * 2 ^ (Z.max 0 e)) -> round_at n d e = k.
Proof.
  intros Hd Hk. unfold round_at. rewrite Hk.
  assert (0 < d * 2 ^ (Z.max 0 e)) by (apply Z.mul_pos_pos; [lia | apply pow2_pos; lia]).
  rewrite Z.div_mul, Z.mod_mul by lia.
  destruct (_ || _) eqn:E; lia.
Qed.

(** The exponent chosen for an integer. *)
Lemma float_exp_int (n : Z) : 0 < n -> float_exp n 1 = Z.max (-1074) (Z.log2 n - 52).
Proof.
  intros Hn. unfold float_exp. change (Z.log2 1) with 0. rewrite Z.sub_0_r.
  set (e := Z.log2 n - 52). f_equal.
  pose proof (Z.log2_spec n Hn) as [Hl _].
  replace (_ <? 2 ^ 52) with false; [done|]. symmetry. apply Z.ltb_ge.
  apply Z.div_le_lower_bound; [pose proof (pow2_pos (Z.max 0 e)); lia|].
  destruct (Z.le_ge_cases 0 e).
  - replace (Z.max 0 e) with e by lia. replace (Z.max 0 (- e)) with 0 by lia.
    replace (Z.log2 n) with (52 + e) in Hl by lia.
    rewrite pow2_split in Hl by lia. lia.
  - replace (Z.max 0 e) with 0 by lia. replace (Z.max 0 (- e)) with (- e) by lia.
    transitivity (2 ^ (Z.log2 n + - e)).
    + apply Z.eq_le_incl. replace (Z.log2 n + - e) with 52 by lia. lia.
    + rewrite pow2_split by (pose proof (Z.log2_nonneg n); lia).
      apply Z.mul_le_mono_nonneg_r; [apply Z.pow_nonneg; lia | done].
Qed.

(** [int(float(n))] differs from [n] by at most [n / 2^53]. *)
Lemma float_int_error (n : Z) :
  0 <= n < 2 ^ 1023 ->
  exists v, int_of_float (round_ratio n 1) = Ok v /\ Z.abs (v - n) * 2 ^ 53 <= n.
Proof.
  intros [H0 Hmax]. unfold round_ratio. destruct (Z.eqb_spec n 0) as [->|Hn].
  { exists 0. done. }
  assert (0 < n) as Hpos by lia.
  rewrite float_exp_int by done.
  pose proof (Z.log2_spec n Hpos) as [Hl _]. pose proof (Z.log2_nonneg n).
  replace (Z.max (-1074) (Z.log2 n - 52)) with (Z.log2 n - 52) by lia.
  set (e := Z.log2 n - 52) in *.
  destruct (round_at_error n 1 e) as [_ Herr]; [lia..|].
  destruct (Z.le_ge_cases 0 e).
  - replace (Z.max 0 e) with e in * by lia. replace (Z.max 0 (- e)) with 0 in * by lia.
    rewrite Z.mul_1_l, Z.mul_1_r in Herr. rewrite Z.div_1_r.
    assert (2 ^ e * 2 ^ 52 <= n) as He.
    { rewrite <-pow2_split by lia. by replace (e + 52) with (Z.log2 n) by lia. }
    pose proof (pow2_pos e).
    assert (2 ^ 1024 = 2 * 2 ^ 1023) by (rewrite <-Z.pow_succ_r; done).
    set (m := round_at n 1 e) in *.
    destruct (Z.leb_spec (2 ^ 1024) (m * 2 ^ e)); [lia|].
    eexists; split; [reflexivity|]. unfold trunc_me.
    replace (Z.max 0 e) with e by lia. replace (Z.max 0 (- e)) with 0 by lia.
    rewrite Z.quot_1_r. lia.
  - replace (Z.max 0 e) with 0 in * by lia. replace (Z.max 0 (- e)) with (- e) in * by lia.
    assert (round_at n 1 e = n * 2 ^ (- e)) as ->.
    { apply round_at_exact; [lia|].
      replace (Z.max 0 e) with 0 by lia. replace (Z.max 0 (- e)) with (- e) by lia. lia. }
    pose proof (pow2_pos (- e)).
    rewrite Z.mul_1_r, Z.div_mul by lia.
    assert (2 ^ 1023 < 2 ^ 1024) by (apply Z.pow_lt_mono_r; lia).
    destruct (Z.leb_spec (2 ^ 1024) n); [lia|].
    exists n. split; [|lia]. simpl. unfold trunc_me.
    replace (Z.max 0 e) with 0 by lia. replace (Z.max 0 (- e)) with (- e) by lia.
    rewrite Z.mul_1_r, Z.quot_mul by lia. done.
Qed.

Lemma scan_digits_all (s : str) (acc : Z) (cnt : nat) :
  Forall (fun c => exists d, 0 <= d < 10 /\ c = digit_char d) s ->
  scan_digits acc cnt s = (digits_val 10 acc s, (cnt + length s)%nat, []).
Proof.
  revert acc cnt; induction s as [|c s IH]; intros acc cnt H; simpl.
  - by rewrite Nat.add_0_r.
  - apply Forall_cons in H as [(d & Hd & ->) Hs].
    rewrite digit_char_is_digit, IH by done. by rewrite Nat.add_succ_r.
Qed.

(** Reading the decimal numeral of [n] as a float rounds [n]. *)
Lemma float_of_str_of_Z (n : Z) :
  0 <= n -> float_of_str (str_of_Z n) = Ok (round_ratio n 1).
Proof.
  intros Hn. destruct (str_of_Z_digits n Hn) as (Hne & Hd & Hv).
  assert (float_unsigned (str_of_Z n) = Some (round_ratio n 1)) as Hu.
  { unfold float_unsigned. rewrite scan_digits_all, Hv by done.
    destruct (str_of_Z n) as [|c s]; [done|].
    apply Forall_cons in Hd as [(d & Hdd & ->) _].
    assert (lower_char (digit_char d) = digit_char d) as Hl.
    { pose proof (digit_val_char d Hdd) as E. unfold digit_val in E.
      unfold lower_char, between. replace (_ || _) with false; [done|lia]. }
    assert (forall t, str_eqb (lower (digit_char d :: s)) t
                      = str_eqb (digit_char d :: lower s) t) as Heq
      by (intros t; unfold lower; simpl; by rewrite Hl).
    assert (forall a t, is_digit a = false ->
              str_eqb (digit_char d :: lower s) (a :: t) = false) as Hno.
    { intros a t Ha. apply str_eqb_neq. intros [= E _]. subst a.
      by rewrite digit_char_is_digit in Ha. }
    rewrite !Heq, !Hno by done. simpl.
    unfold float_of_decimal. rewrite Nat.add_0_r. change (Z.of_nat 0) with 0.
    unfold round_ratio at 2. destruct (Z.eqb_spec n 0) as [->|]; [done|].
    change (400 <? 0 - 0) with false.
    destruct (Z.ltb_spec (0 - 0 + Z.of_nat (S (length s))) (-400)); [lia|].
    change (10 ^ Z.max 0 (0 - 0)) with 1. change (10 ^ Z.max 0 (- (0 - 0))) with 1.
    rewrite Z.mul_1_r. unfold round_ratio. by destruct (Z.eqb_spec n 0). }
  unfold float_of_str. rewrite strip_no_space.
  - destruct (str_of_Z n) as [|c s]; [done|].
    apply Forall_cons in Hd as [(d & Hdd & ->) _].
    assert (digit_char d <> "-"%char /\ digit_char d <> "+"%char) as [Hm Hp].
    { split; intros E; pose proof (digit_char_is_digit d Hdd) as F; rewrite E in F; done. }
    transitivity (or_raise (float_unsigned (digit_char d :: s)) ValueError
      ("could not convert string to float: " ++ py_repr (digit_char d :: s))); [|by rewrite Hu].
    destruct (digit_char d) as [[] [] [] [] [] [] [] []]; try done; congruence.
  - eapply Forall_impl; [done|]. intros c (d & ? & ->). by apply digit_char_not_space.
Qed.

(** [int(n / d)] is the integer quotient while the float has enough bits. *)
Lemma int_truediv_exact (n d : Z) :
  0 <= n < 2 ^ 45 -> 0 < d <= 64 -> int_truediv n d = Ok (n / d).
Proof.
  intros [Hn0 Hn] Hd. unfold int_truediv, truediv.
  destruct (Z.eqb_spec d 0) as [|_]; [lia|]. rewrite !Z.abs_eq by lia.
  destruct (Z.ltb_spec n 0) as [|_]; [lia|]. destruct (Z.ltb_spec d 0) as [|_]; [lia|].
  cbn [xorb]. unfold round_ratio.
  destruct (Z.eqb_spec n 0) as [->|Hnz]; [by rewrite Z.div_0_l by lia|].
  set (e := float_exp n d).
  assert (e <= -7) as He.
  { unfold e, float_exp.
    assert (Z.log2 n < 45) by (apply Z.log2_lt_pow2; lia).
    pose proof (Z.log2_nonneg d). destruct (_ <? _); lia. }
  destruct (round_at_error n d e Hn0 ltac:(lia)) as [[Hlo _] Herr].
  replace (Z.max 0 e) with 0 in * by lia. replace (Z.max 0 (- e)) with (- e) in * by lia.
  rewrite Z.mul_1_r in *. set (s := - e) in *.
  assert (2 ^ 7 <= 2 ^ s) as Hs by (apply Z.pow_le_mono_r; lia).
  set (m := round_at n d e) in *.
  pose proof (Z.div_mod n d ltac:(lia)) as Hk. pose proof (Z.mod_pos_bound n d ltac:(lia)).
  set (k := n / d) in *.
  assert (k * 2 ^ s <= n * 2 ^ s / d) by (apply Z.div_le_lower_bound; nia).
  assert (m < (k + 1) * 2 ^ s) by nia.
  assert (m / 2 ^ s = k) as Hq by (symmetry; apply Z.div_unique with (m - k * 2 ^ s); lia).
  assert (0 <= k) by (apply Z.div_pos; lia). assert (k <= n) by nia.
  rewrite Hq. destruct (Z.leb_spec (2 ^ 1024) k).
  { assert (2 ^ 45 < 2 ^ 1024) by done. lia. }
  simpl. unfold trunc_me.
  replace (Z.max 0 e) with 0 by lia. replace (Z.max 0 (- e)) with s by lia.
  rewrite Z.mul_1_r, Z.quot_div_nonneg by lia. by rewrite Hq.
Qed.

(** ** Facts: conversions settle *)

Lemma settles_int_of_float (f : pyfloat) : settles (int_of_float f).
Proof. destruct f; simpl; done. Qed.
Lemma settles_float_of_str (s : str) : settles (float_of_str s).
Proof. unfold float_of_str. solve_settles. Qed.
Lemma settles_int_truediv (n d : Z) : settles (int_truediv n d).
Proof.
  unfold int_truediv. apply settles_bind; [|apply settles_int_of_float].
  unfold truediv. solve_settles.
Qed.
Lemma settles_float_times (c : pyfloat) (n : Z) : settles (float_times c n).
Proof. unfold float_times. solve_settles. Qed.
#[export] Hint Resolve settles_float_times settles_int_of_float settles_float_of_str settles_int_truediv : settles.
