(* ===== verification/Base64.v ===== *)
(** * Python's [base64]

    [b64encode] and [b64decode] on byte strings: encoding pads with [=], and
    decoding, without validation, skips every character outside the alphabet
    and stops at a complete padding. *)

From S2P Require Import Prelude PyStr.
#[local] Open Scope py_scope.
#[local] Open Scope Z_scope.

(** ** Definitions *)

Definition b64_char (n : Z) : ascii :=
  if n <? 26 then chr (65 + n)
  else if n <? 52 then chr (97 + (n - 26))
  else if n <? 62 then chr (48 + (n - 52))
  else if n =? 62 then "+"%char else "/"%char.

Definition b64_val (c : ascii) : option Z :=
  let n := ord c in
  if between 65 90 n then Some (n - 65)
  else if between 97 122 n then Some (n - 97 + 26)
  else if between 48 57 n then Some (n - 48 + 52)
  else if Ascii.eqb c "+" then Some 62
  else if Ascii.eqb c "/" then Some 63
  else None.

Fixpoint b64encode (data : str) : str :=
  match data with
  | [] => []
  | [a] =>
      let x := ord a in
      [b64_char (x / 4); b64_char (x mod 4 * 16); "="; "="]%char
  | [a; b] =>
      let x := ord a in let y := ord b in
      [b64_char (x / 4); b64_char (x mod 4 * 16 + y / 16); b64_char (y mod 16 * 4); "="%char]
  | a :: b :: c :: rest =>
      let x := ord a in let y := ord b in let z := ord c in
      b64_char (x / 4) :: b64_char (x mod 4 * 16 + y / 16)
      :: b64_char (y mod 16 * 4 + z / 64) :: b64_char (z mod 64) :: b64encode rest
  end.

(** [quad]: characters of the current group read so far, [left]: the bits not
    yet written, [pads]: padding characters just seen. *)
Fixpoint b64_from (quad pads : nat) (left : Z) (s : str) : result str :=
  match s with
  | [] =>
      match quad with
      | O => Ok []
      | 1%nat => throw ValueError ("Invalid base64-encoded string: number of data characters "
                   ++ "cannot be 1 more than a multiple of 4")
      | _ => throw ValueError "Incorrect padding"
      end
  | c :: s' =>
      if Ascii.eqb c "=" then
        if (2 <=? quad)%nat && (4 <=? quad + S pads)%nat then Ok []
        else b64_from quad (if (2 <=? quad)%nat then S pads else pads) left s'
      else
        match b64_val c with
        | None => b64_from quad pads left s'
        | Some v =>
            match quad with
            | O => b64_from 1 0 v s'
            | 1%nat => cons (chr (left * 4 + v / 16)) <$> b64_from 2 0 (v mod 16) s'
            | 2%nat => cons (chr (left * 16 + v / 4)) <$> b64_from 3 0 (v mod 4) s'
            | _ => cons (chr (left * 64 + v)) <$> b64_from 0 0 0 s'
            end
        end
  end.

Definition b64decode (s : str) : result str := b64_from 0 0 0 s.

Example b64_ex : b64encode "Hello" = "SGVsbG8=".
Proof. vm_compute. reflexivity. Qed.
Example b64_dec_ex : b64decode ("SGV" ++ nl ++ "sbG8=xyz") = Ok "Hello".
Proof. vm_compute. reflexivity. Qed.
Example b64_dec_err : is_ok (b64decode "SGVsb") = false.
Proof. vm_compute. reflexivity. Qed.

(** ** Facts *)

Lemma ord_range (c : ascii) : 0 <= ord c < 256.
Proof. unfold ord. pose proof (N_ascii_bounded c). lia. Qed.

Lemma chr_ord (c : ascii) : chr (ord c) = c.
Proof. unfold chr, ord. rewrite N2Z.id. apply ascii_N_embedding. Qed.

Lemma ord_chr (n : Z) : 0 <= n < 256 -> ord (chr n) = n.
Proof. intros Hn. unfold chr, ord. rewrite N_ascii_embedding by lia. lia. Qed.

(** A statement about the numbers below [k], checked one by one. *)
Lemma check_below (P : Z -> bool) (k : nat) :
  forallb P (Z.of_nat <$> seq 0 k) = true -> forall n, 0 <= n < Z.of_nat k -> P n = true.
Proof.
  intros Hall n Hn. rewrite forallb_forall in Hall. apply Hall.
  apply list_elem_of_In, list_elem_of_fmap. exists (Z.to_nat n).
  split; [lia|]. apply elem_of_seq. lia.
Qed.

Lemma b64_val_char (n : Z) : 0 <= n < 64 -> b64_val (b64_char n) = Some n.
Proof.
  intros Hn.
  assert (forallb (fun n => match b64_val (b64_char n) with Some m => m =? n | None => false end)
    (Z.of_nat <$> seq 0 64) = true) as Hall by (vm_compute; reflexivity).
  pose proof (check_below _ 64 Hall n ltac:(lia)) as H. cbv beta in H.
  destruct (b64_val (b64_char n)); [|done]. f_equal. lia.
Qed.

(** The alphabet has no padding, line feed, carriage return or hyphen. *)
Lemma b64_char_plain (n : Z) : 0 <= n < 64 ->
  b64_char n <> "="%char /\ b64_char n <> NL /\ b64_char n <> CR /\ b64_char n <> "-"%char.
Proof.
  intros Hn.
  assert (forallb (fun n => let c := b64_char n in negb (Ascii.eqb c "=") && negb (Ascii.eqb c NL)
    && negb (Ascii.eqb c CR) && negb (Ascii.eqb c "-")) (Z.of_nat <$> seq 0 64) = true) as Hall by (vm_compute; reflexivity).
  pose proof (check_below _ 64 Hall n ltac:(lia)) as H. cbv beta zeta in H.
  rewrite !andb_true_iff, !negb_true_iff, !Ascii.eqb_neq in H. tauto.
Qed.

Lemma b64_step (quad pads : nat) (left n : Z) (s : str) :
  0 <= n < 64 ->
  b64_from quad pads left (b64_char n :: s)
  = match quad with
    | O => b64_from 1 0 n s
    | 1%nat => cons (chr (left * 4 + n / 16)) <$> b64_from 2 0 (n mod 16) s
    | 2%nat => cons (chr (left * 16 + n / 4)) <$> b64_from 3 0 (n mod 4) s
    | _ => cons (chr (left * 64 + n)) <$> b64_from 0 0 0 s
    end.
Proof.
  intros Hn. cbn [b64_from]. destruct (b64_char_plain n Hn) as [Hp _].
  rewrite (proj2 (Ascii.eqb_neq _ _) Hp).
  by rewrite b64_val_char.
Qed.

(** The division facts of one group. *)
Ltac b64_arith := repeat (Z.to_euclidean_division_equations; lia).

Lemma group_bytes (x y z : Z) :
  0 <= x < 256 -> 0 <= y < 256 -> 0 <= z < 256 ->
  (0 <= x / 4 < 64 /\ 0 <= x mod 4 * 16 + y / 16 < 64 /\
   0 <= y mod 16 * 4 + z / 64 < 64 /\ 0 <= z mod 64 < 64) /\
  (x / 4 * 4 + (x mod 4 * 16 + y / 16) / 16 = x /\
   (x mod 4 * 16 + y / 16) mod 16 * 16 + (y mod 16 * 4 + z / 64) / 4 = y /\
   (y mod 16 * 4 + z / 64) mod 4 * 64 + z mod 64 = z).
Proof. intros. Z.to_euclidean_division_equations. lia. Qed.

(** Decoding undoes encoding, whatever characters outside the alphabet follow. *)
Lemma b64_roundtrip (data tail : str) :
  Forall (fun c => b64_val c = None /\ c <> "="%char) tail ->
  b64decode (b64encode data ++ tail) = Ok data.
Proof.
  intros Htail. unfold b64decode.
  assert (b64_from 0 0 0 tail = Ok []) as Ht.
  { induction Htail as [|c tail [Hc Hne] _ IH]; [done|]. cbn [b64_from].
    by rewrite (proj2 (Ascii.eqb_neq c "=") Hne), Hc. }
  remember (length data) as k eqn:Hk. revert data Hk.
  induction k as [k IH] using lt_wf_ind; intros data Hk.
  destruct data as [|a [|b [|c rest]]].
  - done.
  - destruct (group_bytes (ord a) 0 0 (ord_range a)) as ((H1 & H2 & _) & H3 & _); [lia..|].
    change (0 / 16) with 0 in *. rewrite Z.add_0_r in *.
    cbn [b64encode app]. rewrite !b64_step by done. cbn. by rewrite H3, chr_ord.
  - destruct (group_bytes (ord a) (ord b) 0 (ord_range a) (ord_range b))
      as ((H1 & H2 & H3 & _) & H4 & H5 & _); [lia..|].
    change (0 / 64) with 0 in *. rewrite Z.add_0_r in H3, H5.
    cbn [b64encode app]. rewrite !b64_step by done. cbn. by rewrite H4, H5, !chr_ord.
  - destruct (group_bytes _ _ _ (ord_range a) (ord_range b) (ord_range c))
      as ((H1 & H2 & H3 & H4) & H5 & H6 & H7).
    cbn [b64encode app]. rewrite !b64_step by done.
    rewrite (IH (length rest)) by (subst k; simpl; lia || done). cbn.
    by rewrite H5, H6, H7, !chr_ord.
Qed.

Lemma b64encode_plain (data : str) (c : ascii) : c ∈ b64encode data -> c <> NL /\ c <> CR /\ c <> "-"%char.
Proof.
  remember (length data) as k eqn:Hk. revert data Hk.
  induction k as [k IH] using lt_wf_ind; intros data Hk.
  destruct data as [|a [|b [|d rest]]]; cbn [b64encode].
  - intros Hc. by apply elem_of_nil in Hc.
  - destruct (group_bytes (ord a) 0 0 (ord_range a)) as ((H1 & H2 & _) & _); [lia..|].
    change (0 / 16) with 0 in *. rewrite Z.add_0_r in *.
    rewrite !elem_of_cons, elem_of_nil. intros [->|[->|[->|[->|[]]]]]; try done;
      by apply b64_char_plain.
  - destruct (group_bytes (ord a) (ord b) 0 (ord_range a) (ord_range b)) as ((H1 & H2 & H3 & _) & _);
      [lia..|]. change (0 / 64) with 0 in *. rewrite Z.add_0_r in H3.
    rewrite !elem_of_cons, elem_of_nil. intros [->|[->|[->|[->|[]]]]]; try done;
      by apply b64_char_plain.
  - destruct (group_bytes _ _ _ (ord_range a) (ord_range b) (ord_range d)) as ((H1 & H2 & H3 & H4) & _).
    rewrite !elem_of_cons. intros [->|[->|[->|[->|Hc]]]]; try (by apply b64_char_plain).
    apply (IH (length rest)) with rest; [subst k; simpl; lia | done | done].
Qed.
