(* ===== verification/Regex.v ===== *)
(** * Python's [re], as far as the sources use it

    Every pattern of the sources is a concatenation of repeated character
    classes, capture groups and anchors: [compile] parses this subset from the
    pattern text as it stands in the source, and the backtracking matcher runs
    the result with Python's semantics: leftmost match, greedy repetitions,
    numbered captures, the [MULTILINE] flag.  [matches] is the relational
    meaning of a compiled pattern; the matcher is sound and complete for it. *)

From S2P Require Import Prelude PyStr.
#[local] Open Scope py_scope.

(** ** Patterns *)

Inductive citem :=
  | CChar (c : ascii)
  | CRange (a b : ascii)
  | CDigit (neg : bool)
  | CSpace (neg : bool)
  | CWord (neg : bool).

Record cset := CSet { cs_neg : bool; cs_items : list citem }.

Inductive tok :=
  | TRep (cs : cset) (mn : nat) (mx : option nat)
  | TOpen (g : nat)
  | TClose (g : nat)
  | TBol
  | TEol.

Definition in_item (c : ascii) (i : citem) : bool :=
  match i with
  | CChar a => Ascii.eqb c a
  | CRange a b => between (ord a) (ord b) (ord c)
  | CDigit n => xorb n (is_digit c)
  | CSpace n => xorb n (is_space c)
  | CWord n => xorb n (is_word c)
  end.

Definition in_set (c : ascii) (cs : cset) : bool :=
  xorb (cs_neg cs) (existsb (in_item c) (cs_items cs)).

(** ** Compilation *)

(** An escape sequence [\c]. *)
Definition escape (c : ascii) : option citem :=
  match c with
  | "d"%char => Some (CDigit false)
  | "D"%char => Some (CDigit true)
  | "s"%char => Some (CSpace false)
  | "S"%char => Some (CSpace true)
  | "w"%char => Some (CWord false)
  | "W"%char => Some (CWord true)
  | "n"%char => Some (CChar NL)
  | "r"%char => Some (CChar CR)
  | "t"%char => Some (CChar TAB)
  | _ => if is_word c then None else Some (CChar c)
  end.

(** The items of a class, up to the closing bracket. *)
Fixpoint class_items (fuel : nat) (s : str) : option (list citem * str) :=
  match fuel with
  | O => None
  | S f =>
      let more i r := match class_items f r with
                      | Some (its, r') => Some (i :: its, r')
                      | None => None
                      end in
      match s with
      | "]"%char :: r => Some ([], r)
      | "\"%char :: c :: r => match escape c with Some i => more i r | None => None end
      | a :: "-"%char :: b :: r =>
          if Ascii.eqb b "]" then more (CChar a) ("-"%char :: b :: r)
          else if Ascii.eqb b "\" then None else more (CRange a b) r
      | c :: r => more (CChar c) r
      | [] => None
      end
  end.

Definition is_meta (c : ascii) : bool :=
  existsb (Ascii.eqb c)
    ["."; "^"; "$"; "*"; "+"; "?"; "{"; "}"; "["; "]"; "\"; "|"; "("; ")"]%char.

(** One character class: a literal, [.], an escape or a bracketed class. *)
Definition parse_set (s : str) : option (cset * str) :=
  match s with
  | [] => None
  | c :: r =>
      if Ascii.eqb c "." then Some (CSet true [CChar NL], r)
      else if Ascii.eqb c "\" then
        match r with
        | e :: r' => match escape e with Some i => Some (CSet false [i], r') | None => None end
        | [] => None
        end
      else if Ascii.eqb c "[" then
        match r with
        | "^"%char :: r' =>
            match class_items (length r') r' with
            | Some (its, r'') => Some (CSet true its, r'')
            | None => None
            end
        | _ =>
            match class_items (length r) r with
            | Some (its, r') => Some (CSet false its, r')
            | None => None
            end
        end
      else if is_meta c then None
      else Some (CSet false [CChar c], r)
  end.

(** A decimal number of a counted repetition. *)
Fixpoint parse_num (acc : nat) (s : str) : nat * str :=
  match s with
  | c :: r => if is_digit c then parse_num (10 * acc + Z.to_nat (digit_val c)) r else (acc, s)
  | [] => (acc, s)
  end.

(** The quantifier that follows a class; without one the class stands for one
    character.  A second quantifier is refused. *)
Definition parse_quant (s : str) : option (nat * option nat * str) :=
  match s with
  | [] => Some (1, Some 1, [])
  | c :: r =>
      if Ascii.eqb c "*" then Some (0, None, r)
      else if Ascii.eqb c "+" then Some (1, None, r)
      else if Ascii.eqb c "?" then Some (0, Some 1, r)
      else if Ascii.eqb c "{" then
        let '(a, r1) := parse_num 0 r in
        match r1 with
        | ","%char :: r2 =>
            let '(b, r3) := parse_num 0 r2 in
            match r3 with "}"%char :: r4 => Some (a, Some b, r4) | _ => None end
        | _ => None
        end
      else Some (1, Some 1, s)
  end.

(** [next] is the number of the next group, [stack] the groups still open. *)
Fixpoint compile_from (fuel next : nat) (stack : list nat) (s : str) : option (list tok) :=
  match fuel with
  | O => None
  | S f =>
      match s with
      | [] => match stack with [] => Some [] | _ => None end
      | c :: r =>
          if Ascii.eqb c "(" then
            match r with
            | "?"%char :: _ => None
            | _ => cons (TOpen next) <$> compile_from f (S next) (next :: stack) r
            end
          else if Ascii.eqb c ")" then
            match stack with
            | g :: stack' => cons (TClose g) <$> compile_from f next stack' r
            | [] => None
            end
          else if Ascii.eqb c "^" then cons TBol <$> compile_from f next stack r
          else if Ascii.eqb c "$" then cons TEol <$> compile_from f next stack r
          else
            match parse_set s with
            | Some (cs, r1) =>
                match parse_quant r1 with
                | Some (mn, mx, r2) => cons (TRep cs mn mx) <$> compile_from f next stack r2
                | None => None
                end
            | None => None
            end
      end
  end.

(** [re.compile(pattern)] on the subset; [None] on any other pattern. *)
Definition compile (p : str) : option (list tok) := compile_from (S (length p)) 1 [] p.

(** ** Matching *)

Section matcher.
Context {R : Type}.

(** A greedy repetition: take one more character if the class and the bound
    allow it, and fall back to stopping here. *)
Fixpoint greedy (cs : cset) (k : option ascii -> str -> option R)
    (mn : nat) (mx : option nat) (prev : option ascii) (s : str) {struct s} : option R :=
  let stop := match mn with O => k prev s | S _ => None end in
  match s with
  | [] => stop
  | c :: r =>
      if in_set c cs && negb (bool_decide (mx = Some O)) then
        match greedy cs k (pred mn) (pred <$> mx) (Some c) r with
        | Some x => Some x
        | None => stop
        end
      else stop
  end.
End matcher.

Definition at_bol (ml : bool) (prev : option ascii) : bool :=
  match prev with None => true | Some c => ml && Ascii.eqb c NL end.

Definition at_eol (ml : bool) (s : str) : bool :=
  match s with
  | [] => true
  | [c] => Ascii.eqb c NL
  | c :: _ => ml && Ascii.eqb c NL
  end.

(** Groups opened so far, each with the text that was left, and captured
    texts. *)
Abbreviation opens := (list (nat * str)).
Abbreviation caps := (list (nat * str)).

Fixpoint assoc (g : nat) (l : list (nat * str)) : option str :=
  match l with
  | [] => None
  | (h, s) :: l' => if Nat.eqb g h then Some s else assoc g l'
  end.

Definition close_group (g : nat) (op : opens) (s : str) : str :=
  match assoc g op with
  | Some s0 => take (length s0 - length s) s0
  | None => []
  end.

(** Match [ts] at the current position: the text left and the captures. *)
Fixpoint run (ml : bool) (ts : list tok) (op : opens) (cp : caps)
    (prev : option ascii) (s : str) : option (str * caps) :=
  match ts with
  | [] => Some (s, cp)
  | TRep cs mn mx :: ts' => greedy cs (fun p r => run ml ts' op cp p r) mn mx prev s
  | TOpen g :: ts' => run ml ts' ((g, s) :: op) cp prev s
  | TClose g :: ts' => run ml ts' op ((g, close_group g op s) :: cp) prev s
  | TBol :: ts' => if at_bol ml prev then run ml ts' op cp prev s else None
  | TEol :: ts' => if at_eol ml s then run ml ts' op cp prev s else None
  end.

(** A match object: the text matched (group 0) and the captures. *)
Record rmatch := RMatch { rm_text : str; rm_caps : caps }.

Definition run_at (ml : bool) (ts : list tok) (prev : option ascii) (s : str) : option rmatch :=
  match run ml ts [] [] prev s with
  | Some (r, cp) => Some (RMatch (take (length s - length r) s) cp)
  | None => None
  end.

Fixpoint search_from (ml : bool) (ts : list tok) (prev : option ascii) (s : str) : option rmatch :=
  match run_at ml ts prev s with
  | Some m => Some m
  | None => match s with [] => None | c :: r => search_from ml ts (Some c) r end
  end.

(** [m.group(i)] for a group of the pattern. *)
Definition group (m : rmatch) (i : nat) : str :=
  match assoc i (rm_caps m) with Some t => t | None => [] end.

(** [re.match(p, s)], [re.search(p, s)] and [re.search(p, s, re.M)].  A pattern
    outside the subset gives no match; [compile] tells it apart. *)
Definition re_match (p s : str) : option rmatch :=
  match compile p with Some ts => run_at false ts None s | None => None end.
Definition re_search (p s : str) : option rmatch :=
  match compile p with Some ts => search_from false ts None s | None => None end.
Definition re_search_M (p s : str) : option rmatch :=
  match compile p with Some ts => search_from true ts None s | None => None end.

(** [re.compile("\\s+").split(s)]: [w] is the reversed piece in progress,
    [sep] whether the last character was a separator. *)
Fixpoint re_split_ws_from (w : str) (sep : bool) (s : str) : list str :=
  match s with
  | [] => [reverse w]
  | c :: r =>
      if is_space c
      then if sep then re_split_ws_from [] true r
           else reverse w :: re_split_ws_from [] true r
      else re_split_ws_from (c :: w) false r
  end.
Definition re_split_ws (s : str) : list str := re_split_ws_from [] false s.

Example re_ex1 :
  (fun m => (group m 1, group m 2, group m 3)) <$>
    re_match "(\d+)_?\S*\s+(\w+)\s+(\w+)" "177071_[0-99] PENDING small"
  = Some ("177071", "PENDING", "small").
Proof. vm_compute. reflexivity. Qed.
Example re_ex2 :
  (fun m => group m 1) <$> re_search "([a-zA-Z]\S{0,14})" "12 ab-c d" = Some "ab-c".
Proof. vm_compute. reflexivity. Qed.
Example re_ex3 :
  (fun m => group m 1) <$>
    re_search_M ".*^#TSI_foo (.*)\n.*" ("x #TSI_foo n" ++ nl ++ "#TSI_foo ham " ++ nl) = Some "ham ".
Proof. vm_compute. reflexivity. Qed.

(** ** The meaning of a pattern *)

(** The character before the position reached after [pre]. *)
Definition prev_after (p : option ascii) (pre : str) : option ascii :=
  foldl (fun _ c => Some c) p pre.

Definition all_in (cs : cset) (s : str) : Prop := Forall (fun c => in_set c cs = true) s.
Definition within (mn : nat) (mx : option nat) (n : nat) : Prop :=
  mn <= n /\ forall b, mx = Some b -> n <= b.

Inductive matches (ml : bool) :
    list tok -> opens -> caps -> option ascii -> str -> str -> caps -> Prop :=
  | M_nil op cp p s : matches ml [] op cp p s s cp
  | M_rep cs mn mx ts op cp p pre s s' cp' :
      all_in cs pre -> within mn mx (length pre) ->
      matches ml ts op cp (prev_after p pre) s s' cp' ->
      matches ml (TRep cs mn mx :: ts) op cp p (pre ++ s) s' cp'
  | M_open g ts op cp p s s' cp' :
      matches ml ts ((g, s) :: op) cp p s s' cp' ->
      matches ml (TOpen g :: ts) op cp p s s' cp'
  | M_close g ts op cp p s s' cp' :
      matches ml ts op ((g, close_group g op s) :: cp) p s s' cp' ->
      matches ml (TClose g :: ts) op cp p s s' cp'
  | M_bol ts op cp p s s' cp' :
      at_bol ml p = true -> matches ml ts op cp p s s' cp' ->
      matches ml (TBol :: ts) op cp p s s' cp'
  | M_eol ts op cp p s s' cp' :
      at_eol ml s = true -> matches ml ts op cp p s s' cp' ->
      matches ml (TEol :: ts) op cp p s s' cp'.

(** One step of the meaning, as equivalences to rewrite with. *)
Section step.
Context (ml : bool) (ts : list tok) (op : opens) (cp : caps) (p : option ascii).
Context (s s' : str) (cp' : caps).

Lemma matches_nil : matches ml [] op cp p s s' cp' <-> s' = s /\ cp' = cp.
Proof. split; [by inversion 1 | intros [-> ->]; constructor]. Qed.

Lemma matches_rep (cs : cset) (mn : nat) (mx : option nat) :
  matches ml (TRep cs mn mx :: ts) op cp p s s' cp' <->
  exists pre post, s = pre ++ post /\ all_in cs pre /\ within mn mx (length pre) /\
    matches ml ts op cp (prev_after p pre) post s' cp'.
Proof.
  split.
  - inversion 1; subst; eauto 10.
  - intros (pre & post & -> & ? & ? & ?). by constructor.
Qed.

Lemma matches_open (g : nat) :
  matches ml (TOpen g :: ts) op cp p s s' cp' <-> matches ml ts ((g, s) :: op) cp p s s' cp'.
Proof. split; [by inversion 1 | by constructor]. Qed.

Lemma matches_close (g : nat) :
  matches ml (TClose g :: ts) op cp p s s' cp' <->
  matches ml ts op ((g, close_group g op s) :: cp) p s s' cp'.
Proof. split; [by inversion 1 | by constructor]. Qed.

Lemma matches_bol :
  matches ml (TBol :: ts) op cp p s s' cp' <->
  at_bol ml p = true /\ matches ml ts op cp p s s' cp'.
Proof. split; [by inversion 1 | intros [??]; by constructor]. Qed.

Lemma matches_eol :
  matches ml (TEol :: ts) op cp p s s' cp' <->
  at_eol ml s = true /\ matches ml ts op cp p s s' cp'.
Proof. split; [by inversion 1 | intros [??]; by constructor]. Qed.
End step.

(** The text a group captures when it closes. *)
Lemma close_group_here (g : nat) (a b : str) (op : opens) :
  close_group g ((g, a ++ b) :: op) b = a.
Proof. unfold close_group. simpl. by rewrite Nat.eqb_refl, take_length_sub_app. Qed.

Lemma prev_after_app (p : option ascii) (a b : str) :
  prev_after p (a ++ b) = prev_after (prev_after p a) b.
Proof. unfold prev_after. by rewrite foldl_app. Qed.

Section greedy_facts.
Context {R : Type} (cs : cset) (k : option ascii -> str -> option R).

Lemma within_succ (mn : nat) (mx : option nat) (n : nat) :
  within (pred mn) (pred <$> mx) n -> mx <> Some O -> within mn mx (S n).
Proof.
  unfold within. intros [H1 H2] Hm. split; [lia|].
  intros b ->. specialize (H2 (pred b) eq_refl).
  assert (b <> O) by congruence. lia.
Qed.

Lemma within_pred_succ (mn : nat) (mx : option nat) (n : nat) :
  within mn mx (S n) -> within (pred mn) (pred <$> mx) n /\ mx <> Some O.
Proof.
  unfold within. intros [H1 H2]. split; [split; [lia|]|].
  - intros b. destruct mx as [b'|]; [|done]. intros [= <-]. specialize (H2 _ eq_refl). lia.
  - intros ->. specialize (H2 _ eq_refl). lia.
Qed.

(** What a repetition returns comes from one of its splits. *)
Lemma greedy_sound (mn : nat) (mx : option nat) (p : option ascii) (s : str) (x : R) :
  greedy cs k mn mx p s = Some x ->
  exists pre post, s = pre ++ post /\ all_in cs pre /\ within mn mx (length pre) /\
    k (prev_after p pre) post = Some x.
Proof.
  revert mn mx p; induction s as [|c s IH]; intros mn mx p; simpl.
  - destruct mn; [|done]. intros. exists [], [].
    split; [done|]. split; [constructor|]. split; [split; [done|simpl; lia]|done].
  - assert (Hstop : match mn with O => k p (c :: s) | S _ => None end = Some x ->
      exists pre post, c :: s = pre ++ post /\ all_in cs pre /\ within mn mx (length pre) /\
        k (prev_after p pre) post = Some x).
    { destruct mn; [|done]. intros. exists [], (c :: s).
      split; [done|]. split; [constructor|]. split; [split; [done|simpl; lia]|done]. }
    destruct (in_set c cs && negb _) eqn:E; [|done].
    apply andb_true_iff in E as [Ec Em%negb_true_iff%bool_decide_eq_false].
    destruct (greedy cs k (pred mn) _ _ s) eqn:G; [|done].
    intros [= ->]. apply IH in G as (pre & post & -> & Hp & Hw & Hk).
    exists (c :: pre), post. split; [done|]. split; [by constructor|].
    split; [by apply within_succ | done].
Qed.

(** A repetition finds a result when one of its splits has one. *)
Lemma greedy_complete (mn : nat) (mx : option nat) (p : option ascii) (pre post : str) :
  all_in cs pre -> within mn mx (length pre) -> is_Some (k (prev_after p pre) post) ->
  is_Some (greedy cs k mn mx p (pre ++ post)).
Proof.
  revert mn mx p; induction pre as [|c pre IH]; intros mn mx p Hp Hw Hk; simpl.
  - destruct Hw as [Hmn _]. simpl in Hmn. replace mn with 0 by lia.
    destruct post as [|c post]; simpl; [done|].
    destruct (_ && _); [|done]. by case_match.
  - apply Forall_cons in Hp as [Hc Hp]. apply within_pred_succ in Hw as [Hw Hm].
    rewrite Hc, bool_decide_eq_false_2 by done. simpl.
    destruct (IH _ _ (Some c) Hp Hw Hk) as [x ->]. done.
Qed.

(** Greedy: the longest run is tried first. *)
Lemma greedy_longest (mn : nat) (p : option ascii) (pre post : str) (x : R) :
  all_in cs pre -> mn <= length pre ->
  (forall c r, post = c :: r -> in_set c cs = false) ->
  k (prev_after p pre) post = Some x ->
  greedy cs k mn None p (pre ++ post) = Some x.
Proof.
  intros Hp Hmn Hpost Hk. revert mn p Hmn Hk.
  induction pre as [|c pre IH]; intros mn p Hmn Hk; simpl in *.
  - replace mn with 0 by lia. destruct post as [|c post]; [done|]. simpl.
    by rewrite (Hpost c post).
  - apply Forall_cons in Hp as [Hc Hp]. rewrite Hc. simpl.
    rewrite (IH Hp (pred mn) (Some c)); [done | lia | done].
Qed.
End greedy_facts.

Lemma run_sound (ml : bool) (ts : list tok) (op : opens) (cp : caps) (p : option ascii)
    (s s' : str) (cp' : caps) :
  run ml ts op cp p s = Some (s', cp') -> matches ml ts op cp p s s' cp'.
Proof.
  revert op cp p s; induction ts as [|t ts IH]; intros op cp p s; simpl.
  - intros [= <- <-]. constructor.
  - destruct t as [cs mn mx|g|g| |].
    + intros (pre & post & -> & Hp & Hw & Hk)%greedy_sound. constructor; auto.
    + intros H. constructor; auto.
    + intros H. constructor; auto.
    + destruct (at_bol ml p) eqn:E; [|done]. intros H. constructor; auto.
    + destruct (at_eol ml s) eqn:E; [|done]. intros H. constructor; auto.
Qed.

Lemma run_complete (ml : bool) (ts : list tok) (op : opens) (cp : caps) (p : option ascii)
    (s s' : str) (cp' : caps) :
  matches ml ts op cp p s s' cp' -> is_Some (run ml ts op cp p s).
Proof.
  induction 1 as [|? ? ? ? ? ? ? ? ? ? ? Hp Hw _ IH| | |? ? ? ? ? ? ? E|? ? ? ? ? ? ? E];
    simpl; [done| |done|done|by rewrite E|by rewrite E].
  by apply greedy_complete.
Qed.

(** A search succeeds exactly when the pattern matches somewhere. *)
Lemma search_some (ml : bool) (ts : list tok) (p : option ascii) (s : str) (m : rmatch) :
  search_from ml ts p s = Some m ->
  exists a b r cp, s = a ++ b /\ matches ml ts [] [] (prev_after p a) b r cp /\
    rm_text m = take (length b - length r) b /\ rm_caps m = cp.
Proof.
  revert p; induction s as [|c s IH]; intros p; simpl; unfold run_at.
  - destruct (run ml ts [] [] p []) as [[r cp]|] eqn:E; [|done]. intros [= <-].
    exists [], [], r, cp. split; [done|]. split; [by apply run_sound | done].
  - destruct (run ml ts [] [] p (c :: s)) as [[r cp]|] eqn:E.
    + intros [= <-]. exists [], (c :: s), r, cp.
      split; [done|]. split; [by apply run_sound | done].
    + intros (a & b & r & cp & -> & ?)%IH. by exists (c :: a), b, r, cp.
Qed.

Lemma search_is_some (ml : bool) (ts : list tok) (p : option ascii) (a b r : str) (cp : caps) :
  matches ml ts [] [] (prev_after p a) b r cp -> is_Some (search_from ml ts p (a ++ b)).
Proof.
  revert p; induction a as [|c a IH]; intros p H; simpl.
  - apply run_complete in H as [[r' cp'] E]. simpl in E.
    destruct b; simpl; unfold run_at; by rewrite E.
  - destruct (run_at ml ts p (c :: a ++ b)); [done|]. by apply IH.
Qed.

(** ** Literal text in a pattern *)

Definition lit (c : ascii) : tok := TRep (CSet false [CChar c]) 1 (Some 1).
Definition lits (w : str) : list tok := lit <$> w.
Definition plain (c : ascii) : Prop := is_meta c = false.

Lemma in_set_char (c a : ascii) : in_set c (CSet false [CChar a]) = Ascii.eqb c a.
Proof. unfold in_set. simpl. by rewrite orb_false_r. Qed.

Lemma matches_lits (ml : bool) (w : str) (ts : list tok) (op : opens) (cp : caps)
    (p : option ascii) (s s' : str) (cp' : caps) :
  matches ml (lits w ++ ts) op cp p s s' cp' <->
  exists r, s = w ++ r /\ matches ml ts op cp (prev_after p w) r s' cp'.
Proof.
  revert p s; induction w as [|c w IH]; intros p s; simpl.
  - split; [by exists s | by intros (r & -> & ?)].
  - split.
    + inversion 1 as [|? ? ? ? ? ? ? pre s0 ? ? Hin [Hmn Hmx] Hm| | | |]; subst.
      specialize (Hmx 1 eq_refl).
      destruct pre as [|x [|y pre]]; simpl in Hmn, Hmx; try lia.
      apply Forall_cons in Hin as [Hx _]. rewrite in_set_char in Hx.
      apply Ascii.eqb_eq in Hx as ->. apply IH in Hm as (r & -> & Hr).
      by exists r.
    + intros (r & -> & Hr).
      apply (M_rep ml (CSet false [CChar c]) 1 (Some 1) (lits w ++ ts) op cp p [c] (w ++ r)).
      * repeat constructor. by rewrite in_set_char, Ascii.eqb_refl.
      * split; [done|]. by intros b [= <-].
      * apply IH. eauto.
Qed.

Definition not_quant (s : str) : Prop :=
  match s with
  | [] => True
  | c :: _ => c <> "*"%char /\ c <> "+"%char /\ c <> "?"%char /\ c <> "{"%char
  end.

Lemma parse_quant_none (s : str) : not_quant s -> parse_quant s = Some (1, Some 1, s).
Proof.
  destruct s as [|c s]; [done|]. intros (H1 & H2 & H3 & H4). unfold parse_quant.
  rewrite (proj2 (Ascii.eqb_neq _ _) H1), (proj2 (Ascii.eqb_neq _ _) H2),
    (proj2 (Ascii.eqb_neq _ _) H3), (proj2 (Ascii.eqb_neq _ _) H4). done.
Qed.

Lemma plain_neq (c a : ascii) : plain c -> is_meta a = true -> Ascii.eqb c a = false.
Proof.
  intros Hc Ha. destruct (Ascii.eqb_spec c a) as [->|]; [|done].
  unfold plain in Hc. congruence.
Qed.

Lemma plain_not_quant (w r : str) : Forall plain w -> not_quant r -> not_quant (w ++ r).
Proof.
  intros Hw Hr. destruct w as [|c w]; [done|]. apply Forall_cons in Hw as [Hc _].
  simpl. repeat split; intros ->; done.
Qed.

Lemma fmap_Some_cons {A : Type} (x : A) (l : list A) (o : option (list A)) :
  cons x <$> (app l <$> o) = app (x :: l) <$> o.
Proof. by destruct o. Qed.

(** Literal text compiles to itself. *)
Lemma compile_lits (w : str) (f next : nat) (stack : list nat) (r : str) :
  Forall plain w -> not_quant r ->
  compile_from (length w + f) next stack (w ++ r)
  = app (lits w) <$> compile_from f next stack r.
Proof.
  intros Hw Hr. induction w as [|c w IH].
  - simpl. by destruct (compile_from f next stack r).
  - apply Forall_cons in Hw as [Hc Hw]. simpl length. cbn [Nat.add app compile_from].
    rewrite !(plain_neq c) by done. unfold parse_set.
    rewrite !(plain_neq c) by done. rewrite Hc.
    rewrite parse_quant_none by (by apply plain_not_quant).
    rewrite IH by done. by rewrite fmap_Some_cons.
Qed.

(** ** Deterministic runs *)

Definition space_set : cset := CSet false [CSpace false].

Lemma run_rep_longest (ml : bool) (cs : cset) (mn : nat) (ts : list tok) (op : opens) (cp : caps)
    (p : option ascii) (pre post : str) (x : str * caps) :
  all_in cs pre -> (mn <= length pre)%nat ->
  (forall c r, post = c :: r -> in_set c cs = false) ->
  run ml ts op cp (prev_after p pre) post = Some x ->
  run ml (TRep cs mn None :: ts) op cp p (pre ++ post) = Some x.
Proof. intros. cbn [run]. by apply greedy_longest. Qed.

Lemma run_open (ml : bool) (g : nat) (ts : list tok) (op : opens) (cp : caps)
    (p : option ascii) (s : str) :
  run ml (TOpen g :: ts) op cp p s = run ml ts ((g, s) :: op) cp p s.
Proof. done. Qed.

Lemma run_close (ml : bool) (g : nat) (ts : list tok) (op : opens) (cp : caps)
    (p : option ascii) (a b : str) :
  run ml (TClose g :: ts) ((g, a ++ b) :: op) cp p b = run ml ts ((g, a ++ b) :: op) ((g, a) :: cp) p b.
Proof. cbn [run]. by rewrite close_group_here. Qed.

Lemma run_one (ml : bool) (cs : cset) (c : ascii) (ts : list tok) (op : opens) (cp : caps)
    (p : option ascii) (s : str) (x : str * caps) :
  in_set c cs = true -> run ml ts op cp (Some c) s = Some x ->
  run ml (TRep cs 1 (Some 1) :: ts) op cp p (c :: s) = Some x.
Proof.
  intros Hc Hx. cbn [run greedy]. rewrite Hc. simpl.
  change (Pos.to_nat 1) with 1%nat in *. destruct s as [|d s]; simpl.
  - by rewrite Hx.
  - rewrite andb_false_r. by rewrite Hx.
Qed.

Lemma run_lit (ml : bool) (c : ascii) (ts : list tok) (op : opens) (cp : caps)
    (p : option ascii) (s : str) (x : str * caps) :
  run ml ts op cp (Some c) s = Some x ->
  run ml (lit c :: ts) op cp p (c :: s) = Some x.
Proof. apply run_one. by rewrite in_set_char, Ascii.eqb_refl. Qed.

(** Literal text: the run goes on behind it, or there is none. *)
Lemma run_lits (ml : bool) (w : str) (op : opens) (cp : caps) (p : option ascii) (s : str) :
  run ml (lits w) op cp p s = if startswith s w then Some (drop (length w) s, cp) else None.
Proof.
  revert p s; induction w as [|c w IH]; intros p s; [by rewrite drop_0|].
  change (lits (c :: w)) with (lit c :: lits w).
  destruct s as [|d s]; [done|]. cbn [startswith length drop].
  destruct (Ascii.eqb_spec d c) as [->|Hne]; cbn [andb].
  - specialize (IH (Some c) s). destruct (startswith s w).
    + by apply run_lit.
    + destruct (run ml (lit c :: lits w) op cp p (c :: s)) as [[r cp']|] eqn:E; [exfalso|done].
      apply run_sound in E. change (lit c :: lits w) with (lits [c] ++ lits w) in E.
      apply matches_lits in E as (r' & [= ->] & Hr). apply run_complete in Hr as [x Hx].
      simpl in Hx. congruence.
  - unfold lit. cbn [run greedy]. rewrite in_set_char.
    by rewrite (proj2 (Ascii.eqb_neq d c) Hne).
Qed.

(** An optional character, taken or not there. *)
Lemma run_opt_take (ml : bool) (cs : cset) (ts : list tok) (op : opens) (cp : caps)
    (p : option ascii) (c : ascii) (s : str) (x : str * caps) :
  in_set c cs = true -> run ml ts op cp (Some c) s = Some x ->
  run ml (TRep cs 0 (Some 1) :: ts) op cp p (c :: s) = Some x.
Proof.
  intros Hc Hx. cbn [run greedy]. rewrite Hc. simpl. destruct s as [|d s]; simpl.
  - by rewrite Hx.
  - rewrite andb_false_r. by rewrite Hx.
Qed.

Lemma run_opt_skip (ml : bool) (cs : cset) (ts : list tok) (op : opens) (cp : caps)
    (p : option ascii) (s : str) (x : str * caps) :
  (forall c r, s = c :: r -> in_set c cs = false) -> run ml ts op cp p s = Some x ->
  run ml (TRep cs 0 (Some 1) :: ts) op cp p s = Some x.
Proof.
  intros Hs Hx. cbn [run]. destruct s as [|c s]; cbn [greedy]; [done|]. by rewrite (Hs c s).
Qed.

(** ** Captured texts *)

(** The groups of a match consist of characters of the text. *)
Lemma matches_caps (P : ascii -> Prop) (ml : bool) (ts : list tok) (op : opens) (cp : caps)
    (p : option ascii) (s s' : str) (cp' : caps) :
  matches ml ts op cp p s s' cp' -> Forall P s ->
  (forall g t, assoc g op = Some t -> Forall P t) -> (forall g t, assoc g cp = Some t -> Forall P t) ->
  forall g t, assoc g cp' = Some t -> Forall P t.
Proof.
  induction 1 as [|? ? ? ? ? ? ? ? ? ? ? _ _ _ IH|? ? ? ? ? ? ? ? _ IH|? ? ? ? ? ? ? ? _ IH
    |? ? ? ? ? ? ? _ _ IH|? ? ? ? ? ? ? _ _ IH]; intros Hs Hop Hcp; auto.
  - apply IH; auto. by apply Forall_app in Hs as [_ ?].
  - apply IH; auto. intros h t. simpl. destruct (Nat.eqb h _); [by intros [= <-]|apply Hop].
  - apply IH; auto. intros h t. simpl. destruct (Nat.eqb h _); [|apply Hcp].
    intros [= <-]. unfold close_group. destruct (assoc _ _) as [s0|] eqn:E; [|constructor].
    apply Forall_take. by eapply Hop.
  - by apply IH.
  - by apply IH.
Qed.

Lemma search_group (P : ascii -> Prop) (p s : str) (m : rmatch) (i : nat) :
  re_search p s = Some m -> Forall P s -> Forall P (group m i).
Proof.
  unfold re_search. destruct (compile p) as [ts|]; [|done]. intros Hm Hs.
  apply search_some in Hm as (a & b & r & cp & -> & Hm & _ & Hcp).
  apply Forall_app in Hs as [_ Hb]. unfold group. rewrite Hcp.
  destruct (assoc i cp) as [t|] eqn:E; [|constructor].
  eapply (matches_caps P); [exact Hm | exact Hb | | | exact E]; by intros.
Qed.

(** ** Backtracking *)

(** A repetition that has to give back: every longer run fails. *)
Lemma greedy_split {R : Type} (cs : cset) (k : option ascii -> str -> option R) (mn : nat)
    (p : option ascii) (pre post : str) (x : R) :
  all_in cs pre -> mn <= length pre -> k (prev_after p pre) post = Some x ->
  (forall a b, post = a ++ b -> a <> [] -> k (prev_after p (pre ++ a)) b = None) ->
  greedy cs k mn None p (pre ++ post) = Some x.
Proof.
  revert mn p. induction pre as [|c pre IH]; intros mn p Hp Hmn Hk Hfail; cbn [app] in *.
  - simpl in Hmn. replace mn with 0 by lia. simpl in Hk. destruct post as [|c post]; [done|]. simpl.
    destruct (in_set c cs); [|done]. simpl.
    destruct (greedy cs k 0 None (Some c) post) as [y|] eqn:G; [exfalso|done].
    apply greedy_sound in G as (a & b & -> & _ & _ & Hy).
    specialize (Hfail (c :: a) b eq_refl ltac:(done)). simpl in Hfail. congruence.
  - apply Forall_cons in Hp as [Hc Hp]. simpl in Hmn. cbn [greedy]. rewrite Hc. simpl.
    rewrite (IH (pred mn) (Some c)); [done|done|lia|done|exact Hfail].
Qed.

Lemma run_rep_split (ml : bool) (cs : cset) (mn : nat) (ts : list tok) (op : opens) (cp : caps)
    (p : option ascii) (pre post : str) (x : str * caps) :
  all_in cs pre -> mn <= length pre -> run ml ts op cp (prev_after p pre) post = Some x ->
  (forall a b, post = a ++ b -> a <> [] -> run ml ts op cp (prev_after p (pre ++ a)) b = None) ->
  run ml (TRep cs mn None :: ts) op cp p (pre ++ post) = Some x.
Proof. intros. cbn [run]. by apply greedy_split. Qed.

Lemma run_lits_app (ml : bool) (w : str) (ts : list tok) (op : opens) (cp : caps) (p : option ascii)
    (s : str) (x : str * caps) :
  run ml ts op cp (prev_after p w) s = Some x -> run ml (lits w ++ ts) op cp p (w ++ s) = Some x.
Proof.
  revert p. induction w as [|c w IH]; intros p Hx; [done|]. cbn [app].
  change (lits (c :: w) ++ ts) with (lit c :: (lits w ++ ts)). apply run_lit. by apply IH.
Qed.

(** A literal that is not there. *)
Lemma run_lits_fail (ml : bool) (w : str) (ts : list tok) (op : opens) (cp : caps) (p : option ascii)
    (s : str) :
  startswith s w = false -> run ml (lits w ++ ts) op cp p s = None.
Proof.
  intros Hs. destruct (run ml (lits w ++ ts) op cp p s) as [[r cp']|] eqn:E; [exfalso|done].
  apply run_sound, matches_lits in E as (r' & -> & _). by rewrite startswith_app in Hs.
Qed.

(** A final run of any length ends the match. *)
Lemma run_rep_last (ml : bool) (cs : cset) (op : opens) (cp : caps) (p : option ascii) (s : str) :
  exists r, run ml [TRep cs 0 None] op cp p s = Some (r, cp).
Proof.
  assert (matches ml [TRep cs 0 None] op cp p ([] ++ s) s cp) as Hm.
  { apply M_rep; [constructor | split; [simpl; lia | done] | constructor]. }
  apply run_complete in Hm as [[r cp'] Hr]. change ([] ++ s) with s in Hr. exists r. rewrite Hr.
  apply run_sound in Hr. apply matches_rep in Hr as (? & ? & _ & _ & _ & [_ ->]%matches_nil). done.
Qed.
