(* ===== verification/World.v ===== *)
(** * The process, its configuration and its environment

    The state every operation of the TSI reads and writes: the Linux process
    credentials, the environment variables, the working directory, the
    configuration dictionary, the user cache, the two channels to UNICORE/X;
    and [Ext], the interface to everything outside the program: clock, user
    database, file system, child processes.  The monad [M] runs statements on
    this state: state passing with Python exceptions. *)

From S2P Require Import Prelude PyStr.
#[local] Open Scope py_scope.
#[local] Open Scope Z_scope.

(** ** The statement monad *)

Definition M (S A : Type) : Type := S -> result A * S.

#[global] Instance M_ret {S} : MRet (M S) := fun A a s => (Ok a, s).
#[global] Instance M_bind {S} : MBind (M S) := fun A B f m s =>
  match m s with
  | (Ok a, s') => f a s'
  | (Raise e, s') => (Raise e, s')
  | (Exited c, s') => (Exited c, s')
  | (OutOfFuel, s') => (OutOfFuel, s')
  end.

Section statements.
Context {S : Type}.

Definition raise {A} (k : exn_class) (msg : str) : M S A := fun s => (throw k msg, s).
Definition lift {A} (r : result A) : M S A := fun s => (r, s).
Definition gets {A} (f : S -> A) : M S A := fun s => (Ok (f s), s).
Definition modify (f : S -> S) : M S unit := fun s => (Ok tt, f s).
Definition exit_process {A} (code : Z) : M S A := fun s => (Exited code, s).
Definition out_of_fuel {A} : M S A := fun s => (OutOfFuel, s).

(** [try: m except: h]: the state reached at the exception is kept. *)
Definition try_catch {A} (m : M S A) (h : exn -> M S A) : M S A := fun s =>
  match m s with
  | (Raise e, s') => h e s'
  | r => r
  end.

(** [try: m except: ..], handing on what was raised. *)
Definition attempt {A} (m : M S A) : M S (exn + A) := fun s =>
  match m s with
  | (Ok a, s') => (Ok (inr a), s')
  | (Raise e, s') => (Ok (inl e), s')
  | (Exited c, s') => (Exited c, s')
  | (OutOfFuel, s') => (OutOfFuel, s')
  end.

(** [except EnvironmentError]: the other exceptions go on. *)
Definition attempt_os {A} (m : M S A) : M S (exn + A) :=
  r ← attempt m;
  match r with
  | inl e => match exn_kind e with OSError _ => mret r | _ => lift (Raise e) end
  | inr _ => mret r
  end.

Definition when (b : bool) (m : M S unit) : M S unit := if b then m else mret tt.

(** [for x in l: f(x)]. *)
Fixpoint for_each {A} (l : list A) (f : A -> M S unit) : M S unit :=
  match l with
  | [] => mret tt
  | x :: l' => f x ;; for_each l' f
  end.
End statements.

Lemma M_bind_assoc {S A B C : Type} (m : M S A) (f : A -> M S B) (g : B -> M S C) (s : S) :
  ((m ≫= f) ≫= g) s = (m ≫= (fun a => f a ≫= g)) s.
Proof. unfold mbind, M_bind. by destruct (m s) as [[]]. Qed.

Lemma M_bind_ok {S A B : Type} (m : M S A) (f : A -> M S B) (s s' : S) (b : B) :
  (m ≫= f) s = (Ok b, s') <-> exists a s1, m s = (Ok a, s1) /\ f a s1 = (Ok b, s').
Proof.
  unfold mbind, M_bind. destruct (m s) as [[] ?]; split; try (intros (?&?&?&?));
    intros; simplify_eq; eauto.
Qed.

(** One step of a run whose outcome is known. *)
Lemma bind_run {S A B : Type} (m : M S A) (f : A -> M S B) (s s' : S) (a : A) :
  m s = (Ok a, s') -> (m ≫= f) s = f a s'.
Proof. intros Hm. unfold mbind, M_bind. by rewrite Hm. Qed.

Lemma bind_match {S A B : Type} (m : M S A) (f : A -> M S B) (s : S) :
  (m ≫= f) s = match m s with
  | (Ok a, s') => f a s'
  | (Raise e, s') => (Raise e, s')
  | (Exited c, s') => (Exited c, s')
  | (OutOfFuel, s') => (OutOfFuel, s')
  end.
Proof. reflexivity. Qed.

Lemma bind_raises {S A B : Type} (m : M S A) (f : A -> M S B) (s s' : S) (e : exn) :
  m s = (Raise e, s') -> (m ≫= f) s = (Raise e, s').
Proof. intros Hm. unfold mbind, M_bind. by rewrite Hm. Qed.

(** ** Linux process credentials

    Real, effective and saved ids, supplementary groups, and the permitted and
    effective sets of the two capabilities that matter, CAP_SETUID and
    CAP_SETGID, with the transitions of credentials(7) and capabilities(7). *)

Record creds := Creds {
  ruid : Z; euid : Z; suid : Z;
  rgid : Z; egid : Z; sgid : Z;
  groups : list Z;
  perm_setuid : bool; perm_setgid : bool;
  eff_setuid : bool; eff_setgid : bool
}.

#[global] Instance creds_eq_dec : EqDecision creds.
Proof. solve_decision. Defined.

Definition EPERM : Z := 1.
Definition EINVAL : Z := 22.
Definition os_error {A} (errno : Z) (msg : str) : result A := throw (OSError errno) msg.
Definition eperm {A} : result A := os_error EPERM "[Errno 1] Operation not permitted".
Definition einval {A} : result A := os_error EINVAL "[Errno 22] Invalid argument".

(** The effect of a change of user ids on the capability sets. *)
Definition fix_caps (old new : creds) : creds :=
  let had_root := (ruid old =? 0) || (euid old =? 0) || (suid old =? 0) in
  let has_root := (ruid new =? 0) || (euid new =? 0) || (suid new =? 0) in
  let keep := negb (had_root && negb has_root) in
  let pu := keep && perm_setuid old in
  let pg := keep && perm_setgid old in
  let eff (p e : bool) :=
    if (euid old =? 0) && negb (euid new =? 0) then false
    else if negb (euid old =? 0) && (euid new =? 0) then p
    else keep && e in
  Creds (ruid new) (euid new) (suid new) (rgid new) (egid new) (sgid new) (groups new)
    pu pg (eff pu (eff_setuid old)) (eff pg (eff_setgid old)).

Definition set_uids (r e s : Z) (c : creds) : creds :=
  fix_caps c (Creds r e s (rgid c) (egid c) (sgid c) (groups c)
    (perm_setuid c) (perm_setgid c) (eff_setuid c) (eff_setgid c)).
Definition set_gids (r e s : Z) (c : creds) : creds :=
  Creds (ruid c) (euid c) (suid c) r e s (groups c)
    (perm_setuid c) (perm_setgid c) (eff_setuid c) (eff_setgid c).
Definition set_groups (l : list Z) (c : creds) : creds :=
  Creds (ruid c) (euid c) (suid c) (rgid c) (egid c) (sgid c) l
    (perm_setuid c) (perm_setgid c) (eff_setuid c) (eff_setgid c).

(** The id argument of a call: -1 stands for 2^32 - 1. *)
Definition id_arg (z : Z) : result Z :=
  if (z <? -1) || (2 ^ 32 - 1 <? z) then throw OverflowError "uid/gid is out of range"
  else Ok (if z =? 2 ^ 32 - 1 then -1 else z).

(** setgid(2). *)
Definition sys_setgid (g : Z) (c : creds) : result creds :=
  g ← id_arg g;
  if g =? -1 then einval
  else if eff_setgid c then Ok (set_gids g g g c)
  else if (g =? rgid c) || (g =? sgid c) then Ok (set_gids (rgid c) g (sgid c) c)
  else eperm.

(** setegid(3), which is setresgid(-1, g, -1). *)
Definition sys_setegid (g : Z) (c : creds) : result creds :=
  g ← id_arg g;
  if g =? -1 then einval
  else if eff_setgid c || (g =? rgid c) || (g =? egid c) || (g =? sgid c)
  then Ok (set_gids (rgid c) g (sgid c) c)
  else eperm.

(** setgroups(2).  The kernel keeps the list sorted; the sources compare it as a
    set only. *)
Definition sys_setgroups (l : list Z) (c : creds) : result creds :=
  if 65536 <? Z.of_nat (length l) then throw ValueError "too many groups" else
  l' ← mapR id_arg l;
  if negb (eff_setgid c) then eperm
  else if existsb (Z.eqb (-1)) l' then einval
  else Ok (set_groups l' c).

(** setresuid(2): -1 leaves an id unchanged. *)
Definition sys_setresuid (r e s : Z) (c : creds) : result creds :=
  r ← id_arg r; e ← id_arg e; s ← id_arg s;
  let may z := eff_setuid c || (z =? -1) || (z =? ruid c) || (z =? euid c) || (z =? suid c) in
  if may r && may e && may s
  then Ok (set_uids (if r =? -1 then ruid c else r) (if e =? -1 then euid c else e)
             (if s =? -1 then suid c else s) c)
  else eperm.

(** ** The configuration dictionary *)

(** The values the program stores in [config]. *)
Inductive cval :=
  | VNone
  | VBool (b : bool)
  | VInt (n : Z)
  | VStr (s : str)
  | VList (l : list str)
  | VPids (l : list Z)
  | VIps (l : list str)
  | VDict (d : list (str * str))
  | VDns (l : list (list (option (str * str))))
  | VRange (first lower upper : Z).

#[global] Instance cval_eq_dec : EqDecision cval.
Proof. solve_decision. Defined.

Abbreviation config_t := (gmap str cval).

(** Python's truth value. *)
Definition truthy (v : cval) : bool :=
  match v with
  | VNone => false
  | VBool b => b
  | VInt n => negb (n =? 0)
  | VStr s => negb (str_eqb s [])
  | VList l | VIps l => negb (bool_decide (l = []))
  | VPids l => negb (bool_decide (l = []))
  | VDict d => negb (bool_decide (d = []))
  | VDns l => negb (bool_decide (l = []))
  | VRange _ _ _ => true
  end.

(** [config[k]], raising [KeyError], and [config.get(k, default)]. *)
Definition cfg_at (c : config_t) (k : str) : result cval := or_raise (c !! k) KeyError (py_repr k).
Definition cfg_get (c : config_t) (k : str) (d : cval) : cval := default d (c !! k).

(** A value where the code needs a string. *)
Definition as_str (v : cval) : result str :=
  match v with VStr s => Ok s | _ => throw TypeError "can only concatenate str" end.

(** [config[k]] used as a string. *)
Definition cfg_str (c : config_t) (k : str) : result str := v ← cfg_at c k; as_str v.

(** A Python dictionary with string keys, in insertion order. *)
Section dict.
Context {V : Type}.

Fixpoint dict_set (d : list (str * V)) (k : str) (v : V) : list (str * V) :=
  match d with
  | [] => [(k, v)]
  | (k', v') :: d' => if str_eqb k k' then (k, v) :: d' else (k', v') :: dict_set d' k v
  end.
Fixpoint dict_get (d : list (str * V)) (k : str) : option V :=
  match d with
  | [] => None
  | (k', v) :: d' => if str_eqb k k' then Some v else dict_get d' k
  end.
End dict.

(** ** The user cache's data *)

Record ucache := UCache {
  uc_ttl : cval;
  uc_use_id : bool;
  uc_all_groups : gmap str (option (list Z));
  uc_uids : gmap str (option Z);
  uc_gids : gmap str (option Z);
  uc_homes : gmap str (option str);
  uc_groups : gmap str (option Z);
  uc_users_ts : gmap str (option Z);
  uc_groups_ts : gmap str (option Z)
}.

(** ** The outside *)

(** What a child process inherits. *)
Record proc := Proc { p_creds : creds; p_env : gmap str str; p_cwd : str }.

(** The outcome of [subprocess.check_output]. *)
Inductive cmd_result :=
  | CmdOk (out : str)
  | CmdFail (code : Z) (out : str)
  | CmdRaise (e : exn).

(** A passwd entry: uid, gid, home. *)
Record pw := Pw { pw_uid : Z; pw_gid : Z; pw_dir : str; pw_name : str }.

(** [os.stat]: mode, owner, group, size, modification time in seconds. *)
Record stat_t := Stat { st_mode : Z; st_uid : Z; st_gid : Z; st_size : Z; st_mtime : Z }.

(** Everything the program asks of its environment.  [E] is the environment's
    own state; each operation that may change it returns the new one.  Time is
    in microseconds. *)
Class Ext (E : Type) := {
  x_time : E -> Z * E;
  x_getpwnam : E -> str -> option pw;
  x_getpwuid : E -> Z -> option str;
  x_getgrnam : E -> str -> option Z;
  x_getgrgid : E -> Z -> option str;
  x_getgrall : E -> list (Z * list str);
  x_getpid : E -> Z;
  x_choice : nat -> E -> nat * E;
  x_check_output : proc -> list str -> E -> cmd_result * E;
  x_popen : proc -> list str -> E -> result Z * E;
  x_waitpid : Z -> E -> option Z * E;
  x_chdir : proc -> str -> E -> result str;
  x_exists : proc -> str -> E -> bool;
  x_isdir : proc -> str -> E -> bool;
  x_access : proc -> str -> Z -> E -> bool;
  x_stat : proc -> str -> E -> result stat_t;
  x_listdir : proc -> str -> E -> result (list str);
  x_mkdir : proc -> str -> E -> result unit * E;
  x_chmod : proc -> str -> Z -> E -> result unit * E;
  x_write_text : proc -> str -> str -> E -> result unit * E;
  x_read_text : proc -> str -> E -> result str;
  (** binary files: open in a mode, read at an offset, append *)
  x_open : proc -> str -> str -> E -> result unit * E;
  x_seekable : str -> E -> bool;
  x_readinto : proc -> str -> Z -> Z -> E -> result str * E;
  x_write : proc -> str -> str -> E -> result Z * E
}.

(** ** The state of a TSI worker *)

Record world (E : Type) := World {
  w_creds : creds;
  w_env : gmap str str;
  w_cwd : str;
  w_config : config_t;
  w_cache : ucache;
  w_in : str;       (** control channel, not yet read *)
  w_out : str;      (** control channel, written *)
  w_din : str;      (** data channel, not yet read *)
  w_dout : str;     (** data channel, written *)
  w_ext : E
}.
Arguments World {E}.
Arguments w_creds {E}. Arguments w_env {E}. Arguments w_cwd {E}. Arguments w_config {E}.
Arguments w_cache {E}. Arguments w_in {E}. Arguments w_out {E}. Arguments w_din {E}.
Arguments w_dout {E}. Arguments w_ext {E}.

Section updates.
Context {E : Type}.
Implicit Type w : world E.

Definition with_creds (c : creds) w : world E :=
  World c (w_env w) (w_cwd w) (w_config w) (w_cache w) (w_in w) (w_out w) (w_din w) (w_dout w) (w_ext w).
Definition with_env (e : gmap str str) w : world E :=
  World (w_creds w) e (w_cwd w) (w_config w) (w_cache w) (w_in w) (w_out w) (w_din w) (w_dout w) (w_ext w).
Definition with_cwd (d : str) w : world E :=
  World (w_creds w) (w_env w) d (w_config w) (w_cache w) (w_in w) (w_out w) (w_din w) (w_dout w) (w_ext w).
Definition with_config (c : config_t) w : world E :=
  World (w_creds w) (w_env w) (w_cwd w) c (w_cache w) (w_in w) (w_out w) (w_din w) (w_dout w) (w_ext w).
Definition with_cache (c : ucache) w : world E :=
  World (w_creds w) (w_env w) (w_cwd w) (w_config w) c (w_in w) (w_out w) (w_din w) (w_dout w) (w_ext w).
Definition with_in (i : str) w : world E :=
  World (w_creds w) (w_env w) (w_cwd w) (w_config w) (w_cache w) i (w_out w) (w_din w) (w_dout w) (w_ext w).
Definition with_out (o : str) w : world E :=
  World (w_creds w) (w_env w) (w_cwd w) (w_config w) (w_cache w) (w_in w) o (w_din w) (w_dout w) (w_ext w).
Definition with_din (i : str) w : world E :=
  World (w_creds w) (w_env w) (w_cwd w) (w_config w) (w_cache w) (w_in w) (w_out w) i (w_dout w) (w_ext w).
Definition with_dout (o : str) w : world E :=
  World (w_creds w) (w_env w) (w_cwd w) (w_config w) (w_cache w) (w_in w) (w_out w) (w_din w) o (w_ext w).
Definition with_ext (e : E) w : world E :=
  World (w_creds w) (w_env w) (w_cwd w) (w_config w) (w_cache w) (w_in w) (w_out w) (w_din w) (w_dout w) e.

Definition proc_of w : proc := Proc (w_creds w) (w_env w) (w_cwd w).

(** A credentials call: on an error nothing changes. *)
Definition sys (f : creds -> result creds) : M (world E) unit := fun w =>
  match f (w_creds w) with
  | Ok c => (Ok tt, with_creds c w)
  | Raise e => (Raise e, w)
  | Exited k => (Exited k, w)
  | OutOfFuel => (OutOfFuel, w)
  end.

(** A call of the environment that may change it. *)
Definition ext_call {A} (f : proc -> E -> result A * E) : M (world E) A := fun w =>
  let '(r, e) := f (proc_of w) (w_ext w) in (r, with_ext e w).
Definition ext_read {A} (f : proc -> E -> result A) : M (world E) A := fun w =>
  (f (proc_of w) (w_ext w), w).

Definition get_config : M (world E) config_t := gets w_config.
Definition set_config (k : str) (v : cval) : M (world E) unit :=
  modify (fun w => with_config (<[k := v]> (w_config w)) w).
Definition config_at (k : str) : M (world E) cval :=
  c ← get_config; lift (cfg_at c k).
Definition config_get (k : str) (d : cval) : M (world E) cval :=
  c ← get_config; mret (cfg_get c k d).

(** [os.environ[k] = v]: the value has to be a string. *)
Definition set_environ (k : str) (v : option str) : M (world E) unit :=
  match v with
  | Some s => modify (fun w => with_env (<[k := s]> (w_env w)) w)
  | None => raise TypeError "str expected, not NoneType"
  end.
End updates.

(** ** Statements that respect a relation

    [respects R m]: whatever the outcome of [m], the state it leaves is related
    to the state it found.  With a preorder [R] the property passes through
    the statement forms, so that a component proves it by [solve_respects]. *)

Definition respects {S A : Type} (R : S -> S -> Prop) (m : M S A) : Prop :=
  forall s, R s (snd (m s)).

Section respects.
Context {S : Type} (R : S -> S -> Prop) `{!PreOrder R}.

Lemma respects_ret {A} (a : A) : respects R (mret a).
Proof. intros s. simpl. reflexivity. Qed.
Lemma respects_lift {A} (r : result A) : respects R (lift r).
Proof. intros s. simpl. reflexivity. Qed.
Lemma respects_raise {A} k msg : respects R (raise (A := A) k msg).
Proof. intros s. simpl. reflexivity. Qed.
Lemma respects_gets {A} (f : S -> A) : respects R (gets f).
Proof. intros s. simpl. reflexivity. Qed.
Lemma respects_exit {A} (n : Z) : respects R (exit_process (A := A) n).
Proof. intros s. simpl. reflexivity. Qed.
Lemma respects_fuel {A} : respects R (out_of_fuel (A := A)).
Proof. intros s. simpl. reflexivity. Qed.
Lemma respects_modify (f : S -> S) : (forall s, R s (f s)) -> respects R (modify f).
Proof. intros Hf s. apply Hf. Qed.
Lemma respects_bind {A B} (m : M S A) (f : A -> M S B) :
  respects R m -> (forall a, respects R (f a)) -> respects R (m ≫= f).
Proof.
  intros Hm Hf s. specialize (Hm s). unfold mbind, M_bind.
  destruct (m s) as [[a| | |] s']; simpl in *; try done.
  transitivity s'; [done | apply Hf].
Qed.
(** Pointwise, when the continuation depends on the value. *)
Lemma respects_bind_at {A B} (m : M S A) (f : A -> M S B) s :
  R s (snd (m s)) -> (forall a s', m s = (Ok a, s') -> R s' (snd (f a s'))) ->
  R s (snd ((m ≫= f) s)).
Proof.
  intros Hm Hf. unfold mbind, M_bind.
  destruct (m s) as [[a| | |] s']; simpl in *; try done.
  transitivity s'; [done | by apply Hf].
Qed.
Lemma respects_try {A} (m : M S A) (h : exn -> M S A) :
  respects R m -> (forall e, respects R (h e)) -> respects R (try_catch m h).
Proof.
  intros Hm Hh s. specialize (Hm s). unfold try_catch.
  destruct (m s) as [[| e| |] s']; simpl in *; try done.
  transitivity s'; [done | apply Hh].
Qed.
Lemma respects_attempt {A} (m : M S A) : respects R m -> respects R (attempt m).
Proof. intros Hm s. specialize (Hm s). unfold attempt. by destruct (m s) as [[] ?]. Qed.
Lemma respects_attempt_os {A} (m : M S A) : respects R m -> respects R (attempt_os m).
Proof.
  intros Hm. unfold attempt_os. apply respects_bind; [by apply respects_attempt|].
  intros [e|a]; [destruct (exn_kind e)|]; first [apply respects_ret | apply respects_lift].
Qed.
Lemma respects_when (b : bool) (m : M S unit) : respects R m -> respects R (when b m).
Proof. intros. destruct b; [done | apply respects_ret]. Qed.
Lemma respects_for_each {A} (l : list A) (f : A -> M S unit) :
  (forall a, respects R (f a)) -> respects R (for_each l f).
Proof.
  intros Hf. induction l as [|x l IH]; simpl; [apply respects_ret|].
  by apply respects_bind.
Qed.
End respects.

Lemma respects_weaken {S A : Type} (R1 R2 : S -> S -> Prop) (m : M S A) :
  (forall s s', R1 s s' -> R2 s s') -> respects R1 m -> respects R2 m.
Proof. intros HR Hm s. apply HR, Hm. Qed.

Create HintDb respects discriminated.

(** Decompose a statement into the calls it makes; [respects] holds the facts
    about those. *)
Ltac respects_step :=
  match goal with
  | |- respects _ (let _ := _ in _) => cbv zeta
  | |- respects _ (mret _) => apply respects_ret; exact _
  | |- respects _ (lift _) => apply respects_lift; exact _
  | |- respects _ (raise _ _) => apply respects_raise; exact _
  | |- respects _ (gets _) => apply respects_gets; exact _
  | |- respects _ get_config => apply respects_gets; exact _
  | |- respects _ (exit_process _) => apply respects_exit; exact _
  | |- respects _ out_of_fuel => apply respects_fuel; exact _
  | |- respects _ (_ ≫= _) => apply respects_bind; [exact _ | | intros ?]
  | |- respects _ (try_catch _ _) => apply respects_try; [exact _ | | intros ?]
  | |- respects _ (attempt _) => apply respects_attempt
  | |- respects _ (attempt_os _) => apply respects_attempt_os; [exact _ |]
  | |- respects _ (when _ _) => apply respects_when; [exact _ |]
  | |- respects _ (for_each _ _) => apply respects_for_each; [exact _ | intros ?]
  | |- respects _ _ => solve [auto with respects]
  | |- respects _ (if ?b then _ else _) => destruct b
  | |- respects _ (match ?x with _ => _ end) => destruct x
  end.
Ltac solve_respects := repeat respects_step.

(** ** Statements that complete: with a value or an exception *)

Definition completes {S A : Type} (m : M S A) : Prop := forall s, settles (fst (m s)).

Create HintDb completes discriminated.

Section completes.
Context {S : Type}.

Lemma completes_lift {A} (r : result A) : settles r -> completes (lift (S := S) r).
Proof. by intros Hr s. Qed.
Lemma completes_bind {A B} (m : M S A) (f : A -> M S B) :
  completes m -> (forall a, completes (f a)) -> completes (m ≫= f).
Proof.
  intros Hm Hf s. specialize (Hm s). unfold mbind, M_bind.
  destruct (m s) as [[a| | |] s']; simpl in *; [apply Hf | done..].
Qed.
Lemma completes_try {A} (m : M S A) (h : exn -> M S A) :
  completes m -> (forall e, completes (h e)) -> completes (try_catch m h).
Proof.
  intros Hm Hh s. specialize (Hm s). unfold try_catch.
  destruct (m s) as [[| e| |] s']; simpl in *; [done | apply Hh | done..].
Qed.
Lemma completes_for_each {A} (l : list A) (f : A -> M S unit) :
  (forall a, completes (f a)) -> completes (for_each l f).
Proof.
  intros Hf. induction l as [|x l IH]; simpl; [done|]. by apply completes_bind.
Qed.
End completes.

(** System calls return or fail. *)
Class SaneExt (E : Type) `{Ext E} := {
  sane_popen : forall p a e, settles (fst (x_popen p a e));
  sane_chdir : forall p d e, settles (x_chdir p d e);
  sane_stat : forall p d e, settles (x_stat p d e);
  sane_listdir : forall p d e, settles (x_listdir p d e);
  sane_mkdir : forall p d e, settles (fst (x_mkdir p d e));
  sane_chmod : forall p d m e, settles (fst (x_chmod p d m e));
  sane_write_text : forall p d t e, settles (fst (x_write_text p d t e));
  sane_read_text : forall p d e, settles (x_read_text p d e)
}.

#[export] Hint Resolve sane_popen sane_chdir sane_stat sane_listdir sane_mkdir sane_chmod
  sane_write_text sane_read_text : settles.

Lemma settles_id_arg (z : Z) : settles (id_arg z).
Proof. unfold id_arg. solve_settles. Qed.
#[export] Hint Resolve settles_id_arg : settles.
Lemma settles_setgid (g : Z) (c : creds) : settles (sys_setgid g c).
Proof. unfold sys_setgid, einval, eperm, os_error. solve_settles. Qed.
Lemma settles_setegid (g : Z) (c : creds) : settles (sys_setegid g c).
Proof. unfold sys_setegid, einval, eperm, os_error. solve_settles. Qed.
Lemma settles_setgroups (l : list Z) (c : creds) : settles (sys_setgroups l c).
Proof. unfold sys_setgroups, einval, eperm, os_error. solve_settles. Qed.
Lemma settles_setresuid (r e s : Z) (c : creds) : settles (sys_setresuid r e s c).
Proof. unfold sys_setresuid, eperm, os_error. solve_settles. Qed.
Lemma settles_cfg_at (c : config_t) (k : str) : settles (cfg_at c k).
Proof. unfold cfg_at. solve_settles. Qed.
Lemma settles_as_str (v : cval) : settles (as_str v).
Proof. by destruct v. Qed.
Lemma settles_cfg_str (c : config_t) (k : str) : settles (cfg_str c k).
Proof. unfold cfg_str. apply settles_bind; [apply settles_cfg_at | apply settles_as_str]. Qed.
#[export] Hint Resolve settles_setgid settles_setegid settles_setgroups settles_setresuid
  settles_cfg_at settles_as_str settles_cfg_str : settles.

Section completes_world.
Context {E : Type}.

Lemma completes_sys (f : creds -> result creds) :
  (forall c, settles (f c)) -> completes (sys (E := E) f).
Proof. intros Hf w. unfold sys. specialize (Hf (w_creds w)). by destruct (f (w_creds w)). Qed.
Lemma completes_ext_call {A} (f : proc -> E -> result A * E) :
  (forall p e, settles (fst (f p e))) -> completes (ext_call f).
Proof.
  intros Hf w. unfold ext_call. specialize (Hf (proc_of w) (w_ext w)).
  by destruct (f (proc_of w) (w_ext w)).
Qed.
Lemma completes_ext_read {A} (f : proc -> E -> result A) :
  (forall p e, settles (f p e)) -> completes (ext_read f).
Proof. intros Hf w. apply Hf. Qed.
End completes_world.

Ltac completes_step :=
  match goal with
  | |- completes (let _ := _ in _) => cbv zeta
  | |- completes (mret _) => by intros ?
  | |- completes (lift _) => apply completes_lift; solve_settles
  | |- completes (raise _ _) => by intros ?
  | |- completes (gets _) => by intros ?
  | |- completes (modify _) => by intros ?
  | |- completes get_config => by intros ?
  | |- completes (set_config _ _) => by intros ?
  | |- completes (config_at _) => unfold config_at
  | |- completes (config_get _ _) => by intros ?
  | |- completes (set_environ _ ?v) => by destruct v; intros ?
  | |- completes (sys _) => apply completes_sys; intros ?; solve_settles
  | |- completes (ext_call _) => apply completes_ext_call; intros ? ?; try solve_settles
  | |- completes (ext_read _) => apply completes_ext_read; intros ? ?; solve_settles
  | |- completes (_ ≫= _) => apply completes_bind; [|intros ?]
  | |- completes (try_catch _ _) => apply completes_try; [|intros ?]
  | |- completes (for_each _ _) => apply completes_for_each; intros ?
  | |- completes (when ?b _) => unfold when
  | |- completes _ => solve [auto with completes]
  | |- completes (if ?b then _ else _) => destruct b
  | |- completes (match ?x with _ => _ end) => destruct x
  end.
Ltac solve_completes := repeat completes_step.

(** ** Dictionaries *)

Section dict_facts.
Context {V : Type}.
Implicit Type d : list (str * V).

Lemma dict_get_set d k v : dict_get (dict_set d k v) k = Some v.
Proof.
  induction d as [|[k' v'] d IH]; simpl; [by rewrite str_eqb_refl|].
  destruct (str_eqb k k') eqn:E; simpl; by rewrite ?str_eqb_refl, ?E.
Qed.

Lemma dict_get_set_ne d k k' v : k <> k' -> dict_get (dict_set d k v) k' = dict_get d k'.
Proof.
  intros Hne. induction d as [|[k2 v2] d IH]; simpl.
  - by rewrite (proj2 (str_eqb_neq k' k)).
  - destruct (str_eqb k k2) eqn:E; simpl; [|by rewrite IH].
    apply str_eqb_eq in E as <-. by rewrite (proj2 (str_eqb_neq k' k)).
Qed.

Lemma dict_get_none d k : dict_get d k = None <-> k ∉ d.*1.
Proof.
  induction d as [|[k' v'] d IH]; simpl; [rewrite elem_of_nil; tauto|].
  rewrite not_elem_of_cons. destruct (str_eqb k k') eqn:E.
  - apply str_eqb_eq in E. split; [done | by intros []].
  - apply str_eqb_neq in E. rewrite IH. tauto.
Qed.

Lemma dict_set_keys d k v :
  (dict_set d k v).*1 = if bool_decide (k ∈ d.*1) then d.*1 else d.*1 ++ [k].
Proof.
  induction d as [|[k' v'] d IH]; [done|]. cbn [dict_set].
  destruct (str_eqb k k') eqn:E; rewrite !fmap_cons; cbn [fst].
  - apply str_eqb_eq in E as ->. rewrite bool_decide_eq_true_2 by (by left). done.
  - apply str_eqb_neq in E. rewrite IH. repeat case_bool_decide; try done;
      rewrite ?elem_of_cons in *; tauto.
Qed.
End dict_facts.

(** ** Successful runs *)

Lemma when_raise_ok {S : Type} (b : bool) k msg (s s' : S) :
  when b (raise k msg) s = (Ok tt, s') <-> b = false /\ s' = s.
Proof.
  destruct b; simpl; split; try (intros [??]); try (intros [= ->]); subst; done.
Qed.

Lemma sys_ok {E : Type} (f : creds -> result creds) (w w' : world E) :
  sys f w = (Ok tt, w') <-> exists c, f (w_creds w) = Ok c /\ w' = with_creds c w.
Proof.
  unfold sys. destruct (f (w_creds w)); split; try (intros (? & ? & ?)); intros;
    simplify_eq; eauto.
Qed.

Lemma id_arg_valid (z : Z) : 0 <= z < 2 ^ 32 - 1 -> id_arg z = Ok z.
Proof.
  intros Hz. unfold id_arg.
  destruct (Z.ltb_spec z (-1)), (Z.ltb_spec (2 ^ 32 - 1) z), (Z.eqb_spec z (2 ^ 32 - 1));
    try lia; done.
Qed.

Lemma id_arg_ok (z y : Z) : id_arg z = Ok y -> y = z \/ y = -1.
Proof.
  unfold id_arg. destruct (_ || _); [done|]. destruct (z =? _); intros [= <-]; auto.
Qed.

(** Take apart [(x ← m; f x) s = (Ok b, s')]. *)
Ltac inv_run :=
  repeat match goal with
  | H : (_ ≫= _) _ = (Ok _, _) |- _ =>
      apply M_bind_ok in H;
      let a := fresh "a" in let s := fresh "s" in let Ha := fresh "Ha" in
      destruct H as (a & s & Ha & H)
  | H : mret _ _ = (Ok _, _) |- _ => injection H as <- <-
  | H : gets _ _ = (Ok _, _) |- _ => injection H as <- <-
  | H : lift _ _ = (Ok _, _) |- _ => injection H as H <-
  | H : raise _ _ _ = (Ok _, _) |- _ => discriminate H
  | H : when _ (raise _ _) _ = (Ok ?u, _) |- _ =>
      destruct u; apply when_raise_ok in H as [H ->]
  | H : sys _ _ = (Ok ?u, _) |- _ =>
      destruct u; apply sys_ok in H; let c := fresh "c" in let Hc := fresh "Hc" in
      destruct H as (c & Hc & ->)
  end.
