(* ===== verification/Utils.v ===== *)
(** * [lib/Utils.py]: helper functions

    Message parameters, variable expansion, running commands, and the matching
    of certificate subjects against the access control list. *)

From S2P Require Import Prelude PyStr PyNum Regex World.
#[local] Open Scope py_scope.
#[local] Open Scope Z_scope.

(** ** Parameters of a message *)

Definition extract_parameter (message parameter : str) (default_value : option str) : option str :=
  match re_search_M (".*^#TSI_" ++ parameter ++ " (.*)\n.*") message with
  | None => default_value
  | Some m => if str_eqb (group m 1) "" then default_value else Some (group m 1)
  end.

(** [int(float(result))], where [float(None)] is a [TypeError]. *)
Definition extract_number (message parameter : str) : Z :=
  let result :=
    match extract_parameter message parameter None with
    | None => throw TypeError "float() argument must be a string or a real number, not 'NoneType'"
    | Some s => float_of_str s ≫= int_of_float
    end in
  match result with Ok value => value | _ => -1 end.

(** The environment lookups default to the empty string. *)
Definition expand_variables (env : gmap str str) (message : str) : str :=
  let message := replace message "$HOME" (default "" (env !! "HOME")) in
  let message := replace message "$LOGNAME" (default "" (env !! "LOGNAME")) in
  replace message "$USER" (default "" (env !! "USER")).

(** ** Distinguished names *)

Definition rdn_map : list (str * str) :=
  [("C", "countryName"); ("CN", "commonName"); ("O", "organizationName");
   ("OU", "organizationalUnitName"); ("L", "localityName");
   ("ST", "stateOrProvinceName"); ("DC", "domainComponent")].

Definition convert_rdn (rdn : str) : result (option (str * str)) :=
  let split := split "=" rdn in
  translated ← Ok (match split with k :: _ => dict_get rdn_map k | [] => None end);
  match translated with
  | None => Ok None
  | Some t =>
      val ← or_raise (split !! 1%nat) IndexError "list index out of range";
      Ok (Some (t, val))
  end.

(** An element that [convert_rdn] does not know is appended as [None]. *)
Definition convert_dn (dn : str) : result (list (option (str * str))) :=
  let elements := strip <$> split "," dn in
  mapR convert_rdn (base.filter (fun e => e <> "") elements).

(** A subject as [ssl.getpeercert()['subject']] gives it: a tuple of RDNs, each
    a tuple of pairs. *)
Abbreviation subject_t := (list (list (str * str))).

(** The comparisons run in order; subscripting a [None] entry raises. *)
Fixpoint match_pairs (rdn : option (str * str)) (pairs : list (str * str)) : result bool :=
  match pairs with
  | [] => Ok false
  | y :: pairs' =>
      match rdn with
      | None => throw TypeError "'NoneType' object is not subscriptable"
      | Some (k, v) =>
          if str_eqb (fst y) k && str_eqb (snd y) v then Ok true else match_pairs rdn pairs'
      end
  end.

Definition match_rdn (rdn : option (str * str)) (subject : subject_t) : result bool :=
  match_pairs rdn (concat subject).

Fixpoint match_dn (dn : list (option (str * str))) (subject : subject_t) : result bool :=
  match dn with
  | [] => Ok true
  | rdn :: dn' =>
      accept ← match_rdn rdn subject;
      if (accept : bool) then match_dn dn' subject else Ok false
  end.

Fixpoint check_access (subject : subject_t) (acl : list (list (option (str * str)))) : result bool :=
  match acl with
  | [] => Ok false
  | dn :: acl' =>
      accept ← match_dn dn subject;
      if (accept : bool) then Ok true else check_access subject acl'
  end.

(** An access control list all of whose attribute types are known. *)
Definition known_acl (acl : list (list (str * str))) : list (list (option (str * str))) :=
  (fun dn : list (str * str) => @Some (str * str) <$> dn) <$> acl.

(** ** Reference definitions

    What the regular expressions of the message syntax mean, without regular
    expressions: the lines of a message that end in a line feed, the first of
    them that starts with [#TSI_<parameter> ]. *)

Definition terminated_lines (message : str) : list str := removelast (split NL message).

Definition param_prefix (parameter : str) : str := "#TSI_" ++ parameter ++ " ".

Definition first_param (parameter : str) (lines : list str) : option str :=
  drop (length (param_prefix parameter)) <$>
    find (fun l => startswith l (param_prefix parameter)) lines.

Definition extract_parameter_ref (message parameter : str) (default_value : option str) : option str :=
  match first_param parameter (terminated_lines message) with
  | None | Some [] => default_value
  | Some v => Some v
  end.

(** A parameter name: letters, digits and underscores. *)
Definition is_name (p : str) : Prop := Forall (fun c => is_word c = true) p.

(** The compiled pattern of [extract_parameter]. *)
Definition dot : cset := CSet true [CChar NL].
Definition param_tail : list tok :=
  [TOpen 1; TRep dot 0 None; TClose 1; lit NL; TRep dot 0 None].
Definition param_toks (p : str) : list tok :=
  TRep dot 0 None :: TBol :: (lits (param_prefix p) ++ param_tail).

(** ** Commands and files *)

Section commands.
Context {E : Type} `{Ext E}.

Definition expand (message : str) : M (world E) str :=
  env ← gets w_env; mret (expand_variables env message).

Definition addperms (path : str) (mode : Z) : M (world E) unit :=
  st ← ext_read (fun p => x_stat p path);
  ext_call (fun p => x_chmod p path (Z.lor (st_mode st) mode)).

(** [if child_pids is not None: child_pids.append(pid)] on the list object
    stored under [key]. *)
Definition append_pid (key : str) (pid : Z) : M (world E) unit :=
  v ← config_get key VNone;
  match v with
  | VPids l => set_config key (VPids (l ++ [pid]))
  | VNone => mret tt
  | _ => raise AttributeError "object has no attribute 'append'"
  end.

Definition shell_argv (cmd : str) (login_shell : bool) : list str :=
  if login_shell then ["/bin/bash"; "-l"; "-c"; cmd] else ["/bin/bash"; "-c"; cmd].

(** [child_pids] is the configuration key of the list handed over, or [None].  A
    [CalledProcessError] is the only exception that is caught. *)
Definition run_command (cmd : str) (discard : bool) (child_pids : option str)
    (login_shell : bool) : M (world E) (bool * str) :=
  let cmds := shell_argv cmd login_shell in
  if negb discard then
    r ← ext_call (fun p e => let '(r, e') := x_check_output p cmds e in (Ok r, e'));
    match r with
    | CmdOk out => mret (true, out)
    | CmdFail code out =>
        mret (false, "Command '" ++ cmd ++ "' failed with code " ++ str_of_Z code ++ ": " ++ out)
    | CmdRaise e => lift (Raise e)
    end
  else
    pid ← ext_call (fun p => x_popen p cmds);
    match child_pids with
    | Some key => append_pid key pid
    | None => mret tt
    end ;;
    mret (true, "").

Definition random_chars : str := "ABCDEFGHIJKLMNOPQRSTUVWXYZ0123456789".

Fixpoint random_string (size : nat) : M (world E) str :=
  match size with
  | O => mret []
  | S n =>
      i ← ext_call (fun _ e => let '(i, e') := x_choice (length random_chars) e in (Ok i, e'));
      rest ← random_string n;
      mret (default "A"%char (random_chars !! i) :: rest)
  end.
End commands.

Lemma expand_run {E : Type} (m : str) (w : world E) : expand m w = (Ok (expand_variables (w_env w) m), w).
Proof. done. Qed.

(** ** Facts: the pattern of [extract_parameter] *)

Lemma is_word_plain (c : ascii) : is_word c = true -> plain c.
Proof. destruct c as [[] [] [] [] [] [] [] []]; vm_compute; congruence. Qed.

Lemma is_word_not_nl (c : ascii) : is_word c = true -> c <> NL.
Proof. intros H ->. done. Qed.

Lemma is_name_plain (p : str) : is_name p -> Forall plain p.
Proof. intros H. eapply Forall_impl; [done|]. apply is_word_plain. Qed.

Lemma is_name_no_nl (p : str) : is_name p -> NL ∉ p.
Proof. intros H. apply Forall_not_elem_of. eapply Forall_impl; [done|]. apply is_word_not_nl. Qed.

Lemma param_prefix_no_nl (p : str) : is_name p -> NL ∉ param_prefix p.
Proof.
  intros H. unfold param_prefix. rewrite !not_elem_of_app. split_and!.
  - by apply Forall_not_elem_of; repeat constructor.
  - by apply is_name_no_nl.
  - by apply Forall_not_elem_of; repeat constructor.
Qed.

Lemma all_in_dot (s : str) : all_in dot s <-> NL ∉ s.
Proof.
  rewrite <-Forall_not_elem_of. unfold all_in. apply Forall_iff. intros c. unfold in_set, dot. simpl. rewrite orb_false_r. destruct (Ascii.eqb_spec c NL); naive_solver.
Qed.

Lemma compile_param (p : str) :
  is_name p -> compile (".*^#TSI_" ++ p ++ " (.*)\n.*") = Some (param_toks p).
Proof.
  intros Hp. unfold compile.
  replace (".*^#TSI_" ++ p ++ " (.*)\n.*") with (".*^" ++ (param_prefix p ++ "(.*)\n.*"))
    by (unfold param_prefix; by rewrite <-!app_assoc).
  assert (Forall plain (param_prefix p)) as Hpl.
  { unfold param_prefix. rewrite !Forall_app. split_and!; [by repeat constructor| |by repeat constructor].
    by apply is_name_plain. }
  rewrite length_app. set (w := param_prefix p) in *. rewrite length_app.
  replace (S (length ".*^" + (length w + length "(.*)\n.*")))%nat
    with (2 + (length w + (2 + length "(.*)\n.*")))%nat by (simpl; lia).
  assert (forall f x, compile_from (2 + f) 1 [] (".*^" ++ x)
            = cons (TRep dot 0 None) <$> (cons TBol <$> compile_from f 1 [] x)) as -> by done.
  rewrite compile_lits by (try done; by simpl). reflexivity.
Qed.

(** A match of the pattern is a line that starts with the prefix. *)
Lemma param_match_inv (w : str) (pv : option ascii) (s s' : str) (cp : caps) :
  matches true (TRep dot 0 None :: TBol :: (lits w ++ param_tail)) [] [] pv s s' cp ->
  at_bol true pv = true /\
  exists v r, s = w ++ v ++ (NL :: r) /\ (NL ∉ v) /\ cp = [(1%nat, v)].
Proof.
  rewrite matches_rep. intros (pre & ? & -> & Hin%all_in_dot & _ & Hm).
  apply matches_bol in Hm as [Hbol Hm].
  assert (pre = []) as ->.
  { destruct pre as [|c pre] using rev_ind; [done|]. rewrite prev_after_app in Hbol.
    simpl in Hbol. apply Ascii.eqb_eq in Hbol as ->. set_solver. }
  split; [done|]. apply matches_lits in Hm as (? & -> & Hm).
  apply matches_open, matches_rep in Hm as (v & ? & -> & Hv%all_in_dot & _ & Hm).
  apply matches_close in Hm. rewrite close_group_here in Hm.
  apply (matches_lits true nl) in Hm as (r & -> & Hm).
  apply matches_rep in Hm as (? & ? & _ & _ & _ & [_ ->]%matches_nil). by exists v, r.
Qed.

Lemma param_match_intro (w : str) (pv : option ascii) (v r : str) :
  at_bol true pv = true -> NL ∉ v ->
  exists cp, matches true (TRep dot 0 None :: TBol :: (lits w ++ param_tail)) [] [] pv
    (w ++ v ++ (NL :: r)) r cp.
Proof.
  intros Hbol Hv. eexists.
  apply (M_rep true dot 0 None _ [] [] pv [] _); [constructor|split; [done|done]|].
  constructor; [done|]. apply matches_lits. eexists. split; [done|].
  unfold param_tail. constructor.
  apply (M_rep true dot 0 None _ _ _ _ v); [by apply all_in_dot|split; [lia|done]|].
  constructor. apply (matches_lits true nl). eexists. split; [done|].
  apply (M_rep true dot 0 None _ _ _ _ []); [constructor|split; [done|done]|]. constructor.
Qed.

(** ** Facts: lines *)

Lemma split_cases (s : str) :
  ((NL ∉ s) /\ split NL s = [s]) \/
  exists l r, s = l ++ (NL :: r) /\ (NL ∉ l) /\ split NL s = l :: split NL r.
Proof.
  destruct (decide (NL ∈ s)) as [Hin|]; [right | left; by rewrite split_absent].
  apply list_elem_of_split_l in Hin as (l & r & -> & Hl).
  exists l, r. by rewrite split_app_sep.
Qed.

Lemma removelast_split (l s : str) :
  removelast (l :: split NL s) = l :: removelast (split NL s).
Proof. pose proof (split_nonempty NL s). by destruct (split NL s). Qed.

Lemma first_param_cons (p l : str) (ls : list str) :
  first_param p (l :: ls) =
    if startswith l (param_prefix p) then Some (drop (length (param_prefix p)) l)
    else first_param p ls.
Proof. unfold first_param. simpl. by case_match. Qed.

Lemma startswith_nil_prefix (p : str) : startswith [] (param_prefix p) = false.
Proof. done. Qed.

(** The lines the search still has to look at: the current one only if the
    search stands at its beginning. *)
Definition lines_ahead (pv : option ascii) (s : str) : list str :=
  if at_bol true pv then split NL s else tail (split NL s).

Lemma lines_ahead_step (pv : option ascii) (c : ascii) (s : str) :
  lines_ahead pv (c :: s) =
    (if at_bol true pv
     then if Ascii.eqb c NL then [[]] else [c :: default [] (head (split NL s))]
     else []) ++ lines_ahead (Some c) s.
Proof.
  unfold lines_ahead. simpl. pose proof (split_nonempty NL s).
  destruct (at_bol true pv), (Ascii.eqb c NL), (split NL s); done.
Qed.

Lemma param_search (p : str) (pv : option ascii) (s : str) :
  is_name p ->
  (fun m => group m 1) <$> search_from true (param_toks p) pv s
  = first_param p (removelast (lines_ahead pv s)).
Proof.
  intros Hp. unfold param_toks. set (toks := TRep dot 0 None :: _).
  revert pv; induction s as [|c s IH]; intros pv.
  - simpl. destruct (run_at true toks pv []) as [m|] eqn:E; unfold run_at in E.
    + destruct (run true toks [] [] pv []) as [[s1 cp]|] eqn:R; [|done].
      apply run_sound, param_match_inv in R as (_ & v & r & Hs & _). by destruct v.
    + unfold lines_ahead. by destruct (at_bol true pv).
  - simpl. unfold run_at at 1.
    destruct (run true toks [] [] pv (c :: s)) as [[s' cp]|] eqn:R.
    + apply run_sound, param_match_inv in R as (Hb & v & r & Hs & Hv & ->).
      unfold lines_ahead. rewrite Hb, Hs, app_assoc, split_app_sep.
      * rewrite removelast_split, first_param_cons, startswith_app, drop_app_length. done.
      * rewrite not_elem_of_app. split; [by apply param_prefix_no_nl | done].
    + rewrite IH, lines_ahead_step.
      destruct (at_bol true pv) eqn:Hb; [|done].
      destruct (Ascii.eqb_spec c NL) as [->|Hc].
      * change (lines_ahead (Some NL) s) with (split NL s).
        change ([[]] ++ split NL s) with ([] :: split NL s).
        by rewrite removelast_split, first_param_cons.
      * assert (at_bol true (Some c) = false) as Hb' by (simpl; by apply Ascii.eqb_neq).
        unfold lines_ahead. rewrite Hb'.
        destruct (split_cases s) as [[_ ->]|(l & r & Hs0 & Hl & ->)]; [done|]. subst s.
        simpl ([_] ++ _). rewrite removelast_split, first_param_cons.
        simpl tail. destruct (startswith (c :: l) (param_prefix p)) eqn:Hs; [|done].
        exfalso. apply startswith_spec in Hs as (v & Hv).
        destruct (param_match_intro (param_prefix p) pv v r Hb) as [cp Hm].
        { intros ?. apply Hl. assert (NL ∈ c :: l) as Hin by (rewrite Hv; set_solver).
          apply elem_of_cons in Hin as [?|?]; [congruence|done]. }
        apply run_complete in Hm as [x Hx]. fold toks in Hx.
        rewrite app_assoc, <-Hv in Hx.
        change ((c :: l) ++ NL :: r) with (c :: (l ++ NL :: r)) in Hx. congruence.
Qed.

(** The regular expression finds what the line-by-line reading finds. *)
Lemma extract_parameter_lines (message p : str) (d : option str) :
  is_name p -> extract_parameter message p d = extract_parameter_ref message p d.
Proof.
  intros Hp. unfold extract_parameter, extract_parameter_ref, re_search_M, terminated_lines.
  rewrite compile_param by done. pose proof (param_search p None message Hp) as Hs.
  unfold lines_ahead in Hs. simpl in Hs.
  destruct (search_from true (param_toks p) None message) as [m|]; simpl in Hs; rewrite <-Hs; [|done].
  destruct (str_eqb (group m 1) "") eqn:E.
  - apply str_eqb_eq in E. by rewrite E.
  - apply str_eqb_neq in E. by destruct (group m 1).
Qed.

Lemma terminated_lines_no_nl (message : str) : Forall (fun l => NL ∉ l) (terminated_lines message).
Proof.
  unfold terminated_lines. pose proof (split_no_sep NL message) as H.
  induction (split NL message) as [|l ls IH]; [done|].
  apply Forall_cons in H as [Hl Hls]. destruct ls; [constructor|].
  constructor; [done | by apply IH].
Qed.

Lemma first_param_elem (p v : str) (ls : list str) :
  first_param p ls = Some v -> param_prefix p ++ v ∈ ls.
Proof.
  induction ls as [|l ls IH]; [done|]. rewrite first_param_cons.
  destruct (startswith l (param_prefix p)) eqn:E.
  - apply startswith_spec in E as (r & ->). rewrite drop_app_length. intros [= ->]. set_solver.
  - set_solver.
Qed.

(** A parameter value is a part of one line. *)
Lemma extract_parameter_no_nl (message p v : str) (d : option str) :
  is_name p -> extract_parameter message p d = Some v ->
  (forall s, d = Some s -> NL ∉ s) -> NL ∉ v.
Proof.
  intros Hp. rewrite extract_parameter_lines by done. unfold extract_parameter_ref.
  destruct (first_param p (terminated_lines message)) as [[|c w]|] eqn:E; intros Hv Hd; auto.
  injection Hv as <-. apply first_param_elem in E.
  pose proof (terminated_lines_no_nl message) as H. rewrite Forall_forall in H.
  specialize (H _ E). rewrite not_elem_of_app in H. tauto.
Qed.

(** ** Facts: access control *)

Lemma match_pairs_known (k v : str) (pairs : list (str * str)) :
  match_pairs (Some (k, v)) pairs = Ok (bool_decide ((k, v) ∈ pairs)).
Proof.
  induction pairs as [|[k' v'] pairs IH]; simpl; [done|].
  destruct (str_eqb k' k && str_eqb v' v) eqn:E.
  - apply andb_true_iff in E as [->%str_eqb_eq ->%str_eqb_eq].
    rewrite bool_decide_eq_true_2; [done | set_solver].
  - rewrite IH. f_equal. apply bool_decide_ext. rewrite elem_of_cons.
    split; [by right|]. intros [[= -> ->]|?]; [|done].
    by rewrite !str_eqb_refl in E.
Qed.

Lemma match_dn_known (dn : list (str * str)) (subject : subject_t) :
  match_dn (Some <$> dn) subject = Ok (bool_decide (Forall (fun rdn => rdn ∈ concat subject) dn)).
Proof.
  induction dn as [|[k v] dn IH]; [done|].
  rewrite fmap_cons. cbn [match_dn]. unfold match_rdn. rewrite match_pairs_known. simpl mbind.
  destruct (decide ((k, v) ∈ concat subject)).
  - rewrite bool_decide_eq_true_2 by done. rewrite IH. f_equal. apply bool_decide_ext.
    rewrite Forall_cons. tauto.
  - rewrite bool_decide_eq_false_2 by done. f_equal. symmetry.
    apply bool_decide_eq_false_2. rewrite Forall_cons. tauto.
Qed.

(** * Properties *)

(** C23: For every parameter name, the multi-line regular expression search of
    [extract_parameter] returns exactly what a line-by-line reading of the
    message gives: the text after [#TSI_<name> ] on the first line that starts
    with it and ends in a line feed, and the default value when there is no
    such line or the text is empty. *)
Theorem extract_parameter_spec (message parameter : str) (default_value : option str) :
  is_name parameter ->
  extract_parameter message parameter default_value
  = extract_parameter_ref message parameter default_value.
Proof. apply extract_parameter_lines. Qed.

Lemma extract_parameter_spec_witness :
  is_name "STDOUT" /\
  extract_parameter ("#TSI_STDOUT2 a" ++ nl ++ " #TSI_STDOUT b" ++ nl ++ "#TSI_STDOUT c d" ++ nl) "STDOUT" None
  = Some "c d" /\
  extract_parameter ("#TSI_STDOUT " ++ nl ++ "#TSI_STDOUT b" ++ nl) "STDOUT" (Some "out") = Some "out".
Proof.
  assert (H : is_name "STDOUT") by (repeat constructor).
  split; [exact H|]. split.
  - rewrite (extract_parameter_spec _ "STDOUT" None H). vm_compute. reflexivity.
  - rewrite (extract_parameter_spec _ "STDOUT" (Some "out") H). vm_compute. reflexivity.
Defined.

(** A numeric parameter written as a decimal numeral is read through a float:
    the value of [extract_number] differs from the number by at most its
    2^53-th part, so that every number below 2^53 is read exactly. *)
Theorem extract_number_bounds (message parameter : str) (n : Z) :
  extract_parameter message parameter None = Some (str_of_Z n) ->
  0 <= n < 2 ^ 1023 ->
  Z.abs (extract_number message parameter - n) * 2 ^ 53 <= n /\
  (n < 2 ^ 53 -> extract_number message parameter = n).
Proof.
  intros Hp Hn. unfold extract_number. rewrite Hp, float_of_str_of_Z by lia. simpl.
  destruct (float_int_error n Hn) as (v & -> & Hv). split; [done|].
  intros Hs. lia.
Qed.

Lemma extract_number_bounds_witness :
  extract_number ("#TSI_NODES 16" ++ nl) "NODES" = 16 /\
  extract_number ("#TSI_MEMORY 9007199254740993" ++ nl) "MEMORY" = 9007199254740992.
Proof.
  split.
  - apply (extract_number_bounds ("#TSI_NODES 16" ++ nl) "NODES" 16);
      [vm_compute; reflexivity | lia | lia].
  - vm_compute. reflexivity.
Defined.


(** An access control entry with an attribute type that [rdn_map] does not
    list does not reject a subject: [convert_dn] stores [None] for it, and the
    comparison with any non-empty subject raises a [TypeError]. *)
Theorem check_access_unknown_rdn (subject : subject_t) (key value : str) :
  concat subject <> [] ->
  dict_get rdn_map key = None -> "="%char ∉ key -> ","%char ∉ key ++ "=" ++ value ->
  Forall (fun c => is_space c = false) (key ++ "=" ++ value) ->
  (dn ← convert_dn (key ++ "=" ++ value); check_access subject [dn])
  = throw TypeError "'NoneType' object is not subscriptable".
Proof.
  intros Hs Hk He Hc Hw.
  assert (convert_rdn (key ++ "=" ++ value) = Ok None) as Hr.
  { unfold convert_rdn. change ("=" ++ value) with ("="%char :: value).
    rewrite (split_app_sep "=" key value) by done. cbn [mbind result_bind].
    by rewrite Hk. }
  unfold convert_dn. rewrite split_absent by done.
  rewrite list_fmap_singleton, strip_no_space by done.
  rewrite filter_cons_True by (by destruct key). cbn [mapR filter list_filter].
  rewrite Hr. simpl. unfold match_rdn. by destruct (concat subject).
Qed.

Lemma check_access_unknown_rdn_witness :
  (dn ← convert_dn "EMAIL=root@host"; check_access [[("commonName", "ux")]] [dn])
  = throw TypeError "'NoneType' object is not subscriptable".
Proof.
  apply (check_access_unknown_rdn [[("commonName", "ux")]] "EMAIL" "root@host");
    [done | reflexivity | | | by repeat constructor];
    by apply Forall_not_elem_of; repeat constructor.
Defined.
