(* ===== verification/UserCache.v ===== *)
(** * [lib/UserCache.py]: the cache of user and group information

    Dictionaries keyed by user and group names with a timestamp each; an entry
    is fetched again from the user database when it is missing or older than
    the configured time to live. *)

From S2P Require Import Prelude PyStr World Utils.
#[local] Open Scope py_scope.
#[local] Open Scope Z_scope.

(** ** Field updates *)

Definition uc_set_groups_of (u : str) (v : option (list Z)) (c : ucache) : ucache :=
  UCache (uc_ttl c) (uc_use_id c) (<[u := v]> (uc_all_groups c)) (uc_uids c) (uc_gids c)
    (uc_homes c) (uc_groups c) (uc_users_ts c) (uc_groups_ts c).
Definition uc_set_ids (u : str) (uid gid : option Z) (home : option str) (c : ucache) : ucache :=
  UCache (uc_ttl c) (uc_use_id c) (uc_all_groups c) (<[u := uid]> (uc_uids c))
    (<[u := gid]> (uc_gids c)) (<[u := home]> (uc_homes c)) (uc_groups c)
    (uc_users_ts c) (uc_groups_ts c).
Definition uc_set_user_ts (u : str) (t : option Z) (c : ucache) : ucache :=
  UCache (uc_ttl c) (uc_use_id c) (uc_all_groups c) (uc_uids c) (uc_gids c)
    (uc_homes c) (uc_groups c) (<[u := t]> (uc_users_ts c)) (uc_groups_ts c).
Definition uc_set_group (g : str) (gid t : option Z) (c : ucache) : ucache :=
  UCache (uc_ttl c) (uc_use_id c) (uc_all_groups c) (uc_uids c) (uc_gids c)
    (uc_homes c) (<[g := gid]> (uc_groups c)) (uc_users_ts c) (<[g := t]> (uc_groups_ts c)).

(** [UserCache(cache_ttl, LOG, use_id)]. *)
Definition new_cache (ttl : cval) (use_id : bool) : ucache :=
  UCache ttl use_id ∅ ∅ ∅ ∅ ∅ ∅ ∅.

(** [d.get(k)] on a dictionary that may store [None]. *)
Definition dget {A : Type} (d : gmap str (option A)) (k : str) : option A := default None (d !! k).

(** The time to live in microseconds; a string cannot be added to a float. *)
Definition ttl_ticks (v : cval) : result Z :=
  match v with
  | VInt n => Ok (n * 1000000)
  | VBool b => Ok (if b then 1000000 else 0)
  | _ => throw TypeError "unsupported operand type(s) for +: 'float' and 'str'"
  end.

Section cache.
Context {E : Type} `{Ext E}.

Definition cache_mod (f : ucache -> ucache) : M (world E) unit :=
  modify (fun w => with_cache (f (w_cache w)) w).
Definition cache_get {A} (f : ucache -> A) : M (world E) A := gets (fun w => f (w_cache w)).
Definition time_time : M (world E) Z :=
  ext_call (fun _ e => let '(t, e') := x_time e in (Ok t, e')).

(** [timestamp is None or timestamp + self.cache_ttl < time.time()]. *)
Definition expired (timestamp : option Z) : M (world E) bool :=
  match timestamp with
  | None => mret true
  | Some t =>
      ttl ← cache_get uc_ttl;
      ticks ← lift (ttl_ticks ttl);
      now ← time_time;
      mret (t + ticks <? now)
  end.

Definition get_gids_4user_via_getgrall (user : str) (gid : Z) : M (world E) (list Z) :=
  groups ← ext_read (fun _ e => Ok (x_getgrall e));
  mret ((fst <$> base.filter (fun g => user ∈ snd g) groups) ++ [gid]).

Definition get_gids_4user_via_id (user : str) (gid : Z) : M (world E) (list Z) :=
  '(success, out) ← run_command ("id -G " ++ user) false None false;
  if negb success then mret [] else
  all_groups ← lift (mapR int_of_str (split " " out));
  mret (if bool_decide (gid ∈ all_groups) then all_groups else all_groups ++ [gid]).

Definition get_gids_4user_nc (user : str) (gid : Z) : M (world E) (list Z) :=
  use_id ← cache_get uc_use_id;
  if (use_id : bool) then get_gids_4user_via_id user gid
  else get_gids_4user_via_getgrall user gid.

Definition update_user_info (user : str) : M (world E) unit :=
  cache_mod (uc_set_ids user None None None) ;;
  cache_mod (uc_set_groups_of user None) ;;
  cache_mod (uc_set_user_ts user None) ;;
  entry ← ext_read (fun _ e => Ok (x_getpwnam e user));
  match entry with
  | None => mret tt
  | Some p =>
      cache_mod (uc_set_ids user (Some (pw_uid p)) (Some (pw_gid p)) (Some (pw_dir p))) ;;
      gids ← get_gids_4user_nc user (pw_gid p);
      cache_mod (uc_set_groups_of user (Some gids)) ;;
      now ← time_time;
      cache_mod (uc_set_user_ts user (Some now))
  end.

Definition update_group_info (group : str) : M (world E) unit :=
  cache_mod (uc_set_group group None None) ;;
  entry ← ext_read (fun _ e => Ok (x_getgrnam e group));
  match entry with
  | None => mret tt
  | Some gid =>
      now ← time_time;
      cache_mod (uc_set_group group (Some gid) (Some now))
  end.

Definition prepare_users (user : str) : M (world E) unit :=
  timestamp ← cache_get (fun c => dget (uc_users_ts c) user);
  old ← expired timestamp;
  when old (update_user_info user).

Definition prepare_groups (group : str) : M (world E) unit :=
  timestamp ← cache_get (fun c => dget (uc_groups_ts c) group);
  old ← expired timestamp;
  when old (update_group_info group).

Definition get_gids_4user (user : str) : M (world E) (list Z) :=
  prepare_users user ;; cache_get (fun c => default [] (dget (uc_all_groups c) user)).
Definition get_gid_4group (group : str) : M (world E) Z :=
  prepare_groups group ;; cache_get (fun c => default (-1) (dget (uc_groups c) group)).
Definition get_gid_4user (user : str) : M (world E) Z :=
  prepare_users user ;; cache_get (fun c => default (-1) (dget (uc_gids c) user)).
Definition get_uid_4user (user : str) : M (world E) Z :=
  prepare_users user ;; cache_get (fun c => default (-1) (dget (uc_uids c) user)).
Definition get_home_4user (user : str) : M (world E) (option str) :=
  prepare_users user ;; cache_get (fun c => dget (uc_homes c) user).
End cache.

(** ** What the operating system says

    The contract the cache relies on: a user database that does not change
    while the TSI runs, and an [id -G] that answers with the numbers of the
    user's groups. *)

Class UserDB (E : Type) `{Ext E} := {
  udb : str -> option pw;
  gdb : str -> option Z;
  grall : list (Z * list str);
  id_gids : str -> list Z;
  id_out : str -> str;
  udb_law : forall e u, x_getpwnam e u = udb u;
  gdb_law : forall e g, x_getgrnam e g = gdb g;
  grall_law : forall e, x_getgrall e = grall;
  id_law : forall p u e, fst (x_check_output p (shell_argv ("id -G " ++ u) false) e) = CmdOk (id_out u);
  id_parse_law : forall u, mapR int_of_str (split " " (id_out u)) = Ok (id_gids u)
}.

Section spec.
Context {E : Type} `{UserDB E}.

(** The pure reading of the database. *)
Definition os_uid (u : str) : Z := default (-1) (pw_uid <$> udb u).
Definition os_gid (u : str) : Z := default (-1) (pw_gid <$> udb u).
Definition os_home (u : str) : option str := pw_dir <$> udb u.
Definition os_group (g : str) : Z := default (-1) (gdb g).
Definition os_gids_nc (use_id : bool) (u : str) (gid : Z) : list Z :=
  if use_id
  then if bool_decide (gid ∈ id_gids u) then id_gids u else id_gids u ++ [gid]
  else (fst <$> base.filter (fun g => u ∈ snd g) grall) ++ [gid].
Definition os_gids (use_id : bool) (u : str) : list Z :=
  match udb u with Some p => os_gids_nc use_id u (pw_gid p) | None => [] end.

(** The invariant of the cache: every entry with a timestamp holds what the
    database says. *)
Record cache_ok (use_id : bool) (c : ucache) : Prop := {
  ok_mode : uc_use_id c = use_id;
  ok_ttl : exists n, uc_ttl c = VInt n;
  ok_user : forall u t, dget (uc_users_ts c) u = Some t ->
    exists p, udb u = Some p /\ dget (uc_uids c) u = Some (pw_uid p) /\
      dget (uc_gids c) u = Some (pw_gid p) /\ dget (uc_homes c) u = Some (pw_dir p) /\
      dget (uc_all_groups c) u = Some (os_gids_nc use_id u (pw_gid p));
  ok_group : forall g t, dget (uc_groups_ts c) g = Some t ->
    exists gid, gdb g = Some gid /\ dget (uc_groups c) g = Some gid
}.

(** Only the cache and the environment's own state change. *)
Definition frame (w w' : world E) : Prop :=
  exists c e, w' = with_ext e (with_cache c w).

(** [m] completes with [r], leaves the process alone and keeps the cache
    coherent. *)
Definition steady (use_id : bool) {A : Type} (m : M (world E) A) (r : result A) : Prop :=
  forall w, cache_ok use_id (w_cache w) ->
    exists w', m w = (r, w') /\ frame w w' /\ cache_ok use_id (w_cache w').
End spec.

(** ** Facts: dictionaries *)

Lemma dget_insert {A : Type} (d : gmap str (option A)) (k : str) (v : option A) :
  dget (<[k := v]> d) k = v.
Proof. unfold dget. by rewrite lookup_insert_eq. Qed.

Lemma dget_insert_ne {A : Type} (d : gmap str (option A)) (k k' : str) (v : option A) :
  k <> k' -> dget (<[k := v]> d) k' = dget d k'.
Proof. intros. unfold dget. by rewrite lookup_insert_ne. Qed.

Section facts.
Context {E : Type} `{UserDB E}.
Context (use_id : bool).
Implicit Types (w : world E) (u g : str).

Lemma frame_refl w : frame w w.
Proof. exists (w_cache w), (w_ext w). by destruct w. Qed.

Lemma frame_trans w1 w2 w3 : frame w1 w2 -> frame w2 w3 -> frame w1 w3.
Proof.
  intros (c & e & ->) (c' & e' & ->). by exists c', e'.
Qed.

#[export] Instance frame_preorder : PreOrder (frame (E := E)).
Proof. split; [exact frame_refl | exact frame_trans]. Qed.

Lemma steady_ret {A} (a : A) : steady use_id (mret a) (Ok a).
Proof. intros w Hw. exists w. split; [done|]. split; [reflexivity | done]. Qed.

Lemma steady_bind {A B} (m : M (world E) A) (f : A -> M (world E) B) a r :
  steady use_id m (Ok a) -> steady use_id (f a) r -> steady use_id (m ≫= f) r.
Proof.
  intros Hm Hf w Hw. destruct (Hm w Hw) as (w1 & E1 & F1 & O1).
  destruct (Hf w1 O1) as (w2 & E2 & F2 & O2). exists w2.
  split; [unfold mbind, M_bind; by rewrite E1|]. split; [by transitivity w1 | done].
Qed.

Lemma steady_bind_raise {A B} (m : M (world E) A) (f : A -> M (world E) B) e :
  steady use_id m (Raise e) -> steady use_id (m ≫= f) (Raise e).
Proof.
  intros Hm w Hw. destruct (Hm w Hw) as (w1 & E1 & F1 & O1). exists w1.
  split; [unfold mbind, M_bind; by rewrite E1 | done].
Qed.

(** A statement whose parts have known results. *)
Lemma steady_bind_result {A B} (m : M (world E) A) (f : A -> M (world E) B) r (g : A -> result B) :
  steady use_id m r -> (forall a, r = Ok a -> steady use_id (f a) (g a)) ->
  steady use_id (m ≫= f) (r ≫= g).
Proof.
  intros Hm Hf w Hw. destruct (Hm w Hw) as (w1 & E1 & F1 & O1).
  destruct r as [a|e|c|]; simpl;
    try (exists w1; split; [unfold mbind, M_bind; by rewrite E1 | done]).
  by apply (steady_bind m f a (g a) Hm (Hf a eq_refl)).
Qed.

Lemma steady_lift {A} (r : result A) : steady use_id (lift r) r.
Proof. intros w Hw. exists w. split; [done|]. split; [reflexivity | done]. Qed.

Lemma with_cache_frame w c : frame w (with_cache c w).
Proof. exists c, (w_ext w). by destruct w. Qed.

Lemma with_ext_frame w e : frame w (with_ext e w).
Proof. exists (w_cache w), e. by destruct w. Qed.

(** Chains of updates of the cache and the environment. *)
Ltac solve_frame :=
  first [ reflexivity
        | apply with_cache_frame
        | apply with_ext_frame
        | etransitivity; [|first [apply with_cache_frame | apply with_ext_frame]]; solve_frame ].

(** A missing entry is looked up again, a present one only when it is old; either way the
    test itself changes nothing but the clock. *)
Lemma expired_steady w (o : option Z) :
  cache_ok use_id (w_cache w) ->
  exists b e, expired o w = (Ok b, with_ext e w) /\ (o = None -> b = true).
Proof.
  intros Hw. destruct o as [t|]; [|by exists true, (w_ext w); destruct w].
  destruct (ok_ttl _ _ Hw) as [n Hn]. unfold expired, time_time, ext_call.
  unfold cache_get, gets, lift, mbind, M_bind. rewrite Hn. simpl.
  destruct (x_time (w_ext w)) as [now e]. by eexists _, _.
Qed.

Lemma get_gids_nc_steady w u gid :
  exists e, get_gids_4user_nc u gid w
            = (Ok (os_gids_nc (uc_use_id (w_cache w)) u gid), with_ext e w).
Proof.
  unfold get_gids_4user_nc, cache_get, gets, mbind, M_bind. simpl.
  destruct (uc_use_id (w_cache w)); simpl.
  - unfold get_gids_4user_via_id, run_command, ext_call, mbind, M_bind. simpl.
    pose proof (id_law (proc_of w) u (w_ext w)) as Hid.
    destruct (x_check_output _ _ _) as [r e]. simpl in Hid. subst r. exists e. simpl.
    unfold lift, mbind, M_bind. rewrite id_parse_law. done.
  - exists (w_ext w). unfold get_gids_4user_via_getgrall, ext_read, mbind, M_bind.
    rewrite grall_law. by destruct w.
Qed.

(** The cache after a look-up that failed, and after one that succeeded. *)
Lemma cache_ok_forget c u :
  cache_ok use_id c ->
  cache_ok use_id (uc_set_user_ts u None (uc_set_groups_of u None (uc_set_ids u None None None c))).
Proof.
  intros [Hm Httl Hu Hg]. split; simpl; [done|done| |done].
  intros u' t. destruct (decide (u = u')) as [<-|Hne]; [by rewrite dget_insert|].
  rewrite !dget_insert_ne by done. apply Hu.
Qed.

Lemma cache_ok_store c u p now :
  cache_ok use_id c -> udb u = Some p ->
  cache_ok use_id (uc_set_user_ts u (Some now)
    (uc_set_groups_of u (Some (os_gids_nc use_id u (pw_gid p)))
      (uc_set_ids u (Some (pw_uid p)) (Some (pw_gid p)) (Some (pw_dir p)) c))).
Proof.
  intros [Hm Httl Hu Hg] Hp. split; simpl; [done|done| |done].
  intros u' t. destruct (decide (u = u')) as [<-|Hne].
  - intros _. exists p. by rewrite !dget_insert.
  - rewrite !dget_insert_ne by done. apply Hu.
Qed.

Lemma cache_ok_group c g t :
  cache_ok use_id c -> (gdb g = None -> t = None) -> cache_ok use_id (uc_set_group g (gdb g) t c).
Proof.
  intros [Hm Httl Hu Hg] Ht. split; simpl; [done|done|done|].
  intros g' t'. destruct (decide (g = g')) as [<-|Hne].
  - rewrite !dget_insert. intros ->. destruct (gdb g); [by eauto | by specialize (Ht eq_refl)].
  - rewrite !dget_insert_ne by done. apply Hg.
Qed.

(** The entry of [u] is what the database says. *)
Definition entry_ok (c : ucache) u : Prop :=
  dget (uc_uids c) u = pw_uid <$> udb u /\ dget (uc_gids c) u = pw_gid <$> udb u /\
  dget (uc_homes c) u = pw_dir <$> udb u /\
  default [] (dget (uc_all_groups c) u) = os_gids use_id u.

Lemma update_user_info_spec w u :
  cache_ok use_id (w_cache w) ->
  exists w', update_user_info u w = (Ok tt, w') /\ frame w w' /\
    cache_ok use_id (w_cache w') /\ entry_ok (w_cache w') u.
Proof.
  intros Hw. unfold update_user_info, cache_mod, modify, ext_read.
  unfold mbind at 1 2 3 4, M_bind at 1 2 3 4. simpl. rewrite udb_law.
  destruct (udb u) as [p|] eqn:Hp.
  - unfold mbind at 1, M_bind at 1. simpl.
    match goal with |- context [ (get_gids_4user_nc u (pw_gid p) ≫= _) ?w1 ] => set (w1' := w1) end.
    destruct (get_gids_nc_steady w1' u (pw_gid p)) as [e He].
    replace (uc_use_id (w_cache w1')) with use_id in He by (symmetry; apply (ok_mode _ _ Hw)).
    unfold mbind at 1, M_bind at 1. rewrite He. unfold mbind, M_bind. simpl.
    unfold time_time, ext_call. simpl. destruct (x_time e) as [now e']. simpl.
    eexists. split; [reflexivity|]. split; [|split].
    + solve_frame.
    + simpl. by apply (cache_ok_store _ u p now (cache_ok_forget _ u Hw)).
    + unfold entry_ok, os_gids. simpl. rewrite !dget_insert, Hp. done.
  - eexists. split; [reflexivity|]. split; [|split].
    + solve_frame.
    + simpl. by apply cache_ok_forget.
    + unfold entry_ok, os_gids. simpl. by rewrite !dget_insert, Hp.
Qed.

Lemma prepare_users_spec w u :
  cache_ok use_id (w_cache w) ->
  exists w', prepare_users u w = (Ok tt, w') /\ frame w w' /\
    cache_ok use_id (w_cache w') /\ entry_ok (w_cache w') u.
Proof.
  intros Hw. unfold prepare_users, cache_get, gets.
  unfold mbind at 1, M_bind at 1.
  destruct (expired_steady w (dget (uc_users_ts (w_cache w)) u) Hw) as (b & e & He & Hb).
  unfold mbind, M_bind. rewrite He. destruct b; simpl.
  - destruct (update_user_info_spec (with_ext e w) u Hw) as (w' & Hu & Hf & Ho).
    exists w'. split; [done|]. split; [|done].
    transitivity (with_ext e w); [apply with_ext_frame | done].
  - destruct (dget (uc_users_ts (w_cache w)) u) as [t|] eqn:Ht; [|by specialize (Hb eq_refl)].
    destruct (ok_user _ _ Hw u t Ht) as (p & Hp & H1 & H2 & H3 & H4).
    exists (with_ext e w). split; [done|]. split; [apply with_ext_frame|]. split; [done|].
    unfold entry_ok, os_gids. simpl. by rewrite Hp, H1, H2, H3, H4.
Qed.

Lemma prepare_groups_spec w g :
  cache_ok use_id (w_cache w) ->
  exists w', prepare_groups g w = (Ok tt, w') /\ frame w w' /\
    cache_ok use_id (w_cache w') /\ dget (uc_groups (w_cache w')) g = gdb g.
Proof.
  intros Hw. unfold prepare_groups, cache_get, gets.
  unfold mbind at 1, M_bind at 1.
  destruct (expired_steady w (dget (uc_groups_ts (w_cache w)) g) Hw) as (b & e & He & Hb).
  unfold mbind, M_bind. rewrite He. destruct b; simpl.
  - unfold update_group_info, cache_mod, modify, ext_read.
    unfold mbind at 1 2, M_bind at 1 2. simpl. rewrite gdb_law.
    destruct (gdb g) as [gid|] eqn:Hg.
    + unfold time_time, ext_call, mbind, M_bind. simpl. destruct (x_time e) as [now e']. simpl.
      eexists. split; [reflexivity|]. split; [solve_frame|]. split.
      * simpl. rewrite <-Hg. apply cache_ok_group; [|by rewrite Hg].
        pose proof (cache_ok_group (w_cache w) g None Hw (fun _ => eq_refl)) as Hn.
        destruct Hn as [Hm Httl Hu _]. split; simpl in *; [done|done|done|].
        intros g' t'. destruct (decide (g = g')) as [<-|Hne]; [by rewrite !dget_insert|].
        rewrite !dget_insert_ne by done. apply (ok_group _ _ Hw).
      * simpl. by rewrite dget_insert.
    + eexists. split; [reflexivity|]. split; [solve_frame|]. split.
      * simpl. rewrite <-Hg. by apply cache_ok_group.
      * simpl. by rewrite dget_insert.
  - destruct (dget (uc_groups_ts (w_cache w)) g) as [t|] eqn:Ht; [|by specialize (Hb eq_refl)].
    destruct (ok_group _ _ Hw g t Ht) as (gid & Hg & H1).
    exists (with_ext e w). split; [done|]. split; [apply with_ext_frame|]. split; [done|].
    simpl. by rewrite Hg.
Qed.

(** The look-ups implement the database. *)
Lemma steady_prepared {A} (f : ucache -> A) u (v : A) :
  (forall c, entry_ok c u -> f c = v) ->
  steady use_id (prepare_users u ;; cache_get f) (Ok v).
Proof.
  intros Hf w Hw. destruct (prepare_users_spec w u Hw) as (w' & Hp & Hfr & Ho & He).
  exists w'. unfold mbind, M_bind. rewrite Hp. unfold cache_get, gets. by rewrite Hf.
Qed.

Lemma get_uid_steady u : steady use_id (get_uid_4user u) (Ok (os_uid u)).
Proof. apply steady_prepared. intros c (Hu & _). unfold os_uid. by rewrite Hu. Qed.
Lemma get_gid_steady u : steady use_id (get_gid_4user u) (Ok (os_gid u)).
Proof. apply steady_prepared. intros c (_ & Hg & _). unfold os_gid. by rewrite Hg. Qed.
Lemma get_home_steady u : steady use_id (get_home_4user u) (Ok (os_home u)).
Proof. apply steady_prepared. by intros c (_ & _ & Hh & _). Qed.
Lemma get_gid_4group_steady g : steady use_id (get_gid_4group g) (Ok (os_group g)).
Proof.
  intros w Hw. destruct (prepare_groups_spec w g Hw) as (w' & Hp & Hfr & Ho & He).
  exists w'. unfold get_gid_4group, mbind, M_bind. rewrite Hp. unfold cache_get, gets, os_group.
  by rewrite He.
Qed.

Lemma get_gids_steady u : steady use_id (get_gids_4user u) (Ok (os_gids use_id u)).
Proof. apply steady_prepared. by intros c (_ & _ & _ & Hg). Qed.
End facts.

Section any_environment.
Context {E : Type} `{Ext E}.

(** Whatever happens in a look-up, the process is left alone. *)
Lemma cache_mod_frame (f : ucache -> ucache) : respects (frame (E := E)) (cache_mod f).
Proof. apply respects_modify. intros w. apply with_cache_frame. Qed.
Lemma ext_call_frame {A} (f : proc -> E -> result A * E) : respects frame (ext_call f).
Proof. intros w. unfold ext_call. destruct (f _ _). simpl. apply with_ext_frame. Qed.
Lemma ext_read_frame {A} (f : proc -> E -> result A) : respects frame (ext_read f).
Proof. intros w. simpl. reflexivity. Qed.
Lemma config_at_frame (k : str) : respects (frame (E := E)) (config_at k).
Proof. unfold config_at. solve_respects. Qed.
#[local] Hint Resolve ext_call_frame ext_read_frame cache_mod_frame : respects.

Lemma run_command_frame (cmd : str) (login : bool) :
  respects frame (run_command (E := E) cmd false None login).
Proof. unfold run_command. simpl. solve_respects. Qed.
#[local] Hint Resolve run_command_frame : respects.

Lemma expired_frame (o : option Z) : respects frame (expired o).
Proof. unfold expired, cache_get, time_time. solve_respects. Qed.
Lemma update_user_frame (u : str) : respects frame (update_user_info u).
Proof.
  unfold update_user_info, get_gids_4user_nc, get_gids_4user_via_id,
    get_gids_4user_via_getgrall, cache_get, time_time. solve_respects.
Qed.
Lemma update_group_frame (g : str) : respects frame (update_group_info g).
Proof. unfold update_group_info, time_time. solve_respects. Qed.
#[local] Hint Resolve expired_frame update_user_frame update_group_frame : respects.

Lemma get_gids_frame (u : str) : respects frame (get_gids_4user u).
Proof. unfold get_gids_4user, prepare_users, cache_get. solve_respects. Qed.
Lemma get_gid_4group_frame (g : str) : respects frame (get_gid_4group g).
Proof. unfold get_gid_4group, prepare_groups, cache_get. solve_respects. Qed.
Lemma get_gid_frame (u : str) : respects frame (get_gid_4user u).
Proof. unfold get_gid_4user, prepare_users, cache_get. solve_respects. Qed.
Lemma get_uid_frame (u : str) : respects frame (get_uid_4user u).
Proof. unfold get_uid_4user, prepare_users, cache_get. solve_respects. Qed.
Lemma get_home_frame (u : str) : respects frame (get_home_4user u).
Proof. unfold get_home_4user, prepare_users, cache_get. solve_respects. Qed.
End any_environment.

#[export] Hint Resolve steady_ret steady_lift get_uid_steady get_gid_steady get_home_steady
  get_gid_4group_steady get_gids_steady : tsi.
#[export] Hint Resolve get_gids_frame get_gid_4group_frame get_gid_frame get_uid_frame
  get_home_frame : respects.
