(* ===== verification/Testbed.v ===== *)
(** * A concrete environment

    A small in-memory machine: a clock, a user database with [root] and
    [alice], files, child processes and canned command output.  It instantiates [Ext] and
    [UserDB], so that the theorems of the development can be run on concrete
    inputs. *)

From S2P Require Import Prelude PyStr World Utils UserCache.
#[local] Open Scope py_scope.
#[local] Open Scope Z_scope.

Record bed := Bed {
  b_clock : Z;
  b_files : gmap str str;
  b_modes : gmap str Z;
  b_running : list Z;
  b_finished : list Z;
  b_next_pid : Z;
  b_replies : list cmd_result;   (** answers to the next commands *)
  b_ran : list (list str)        (** commands run so far, latest first *)
}.

Definition bed_users : list (str * pw) :=
  [("alice", Pw 1000 1000 "/home/alice" "alice"); ("root", Pw 0 0 "/root" "root")].
Definition bed_groups : list (str * Z) :=
  [("alice", 1000); ("users", 100); ("wheel", 10); ("root", 0)].

Fixpoint look {A : Type} (l : list (str * A)) (k : str) : option A :=
  match l with
  | [] => None
  | (k', v) :: l' => if str_eqb k k' then Some v else look l' k
  end.

Definition bed_gids (u : str) : list Z := if str_eqb u "alice" then [1000; 100] else [0].
Definition bed_id_out (u : str) : str := if str_eqb u "alice" then "1000 100" ++ nl else "0" ++ nl.

Definition bed_run (argv : list str) (b : bed) : cmd_result * bed :=
  let b' rs := Bed (b_clock b) (b_files b) (b_modes b) (b_running b) (b_finished b)
                 (b_next_pid b) rs (argv :: b_ran b) in
  match argv with
  | [_; _; c] =>
      if startswith c "id -G " then (CmdOk (bed_id_out (drop 6 c)), b' (b_replies b))
      else match b_replies b with r :: rs => (r, b' rs) | [] => (CmdOk "", b' []) end
  | _ => match b_replies b with r :: rs => (r, b' rs) | [] => (CmdOk "", b' []) end
  end.

Definition bed_abs (p : proc) (path : str) : str :=
  if startswith path "/" then path else p_cwd p ++ "/" ++ path.

#[export] Instance bed_ext : Ext bed := {|
  x_time b := (b_clock b, Bed (b_clock b + 1000000) (b_files b) (b_modes b) (b_running b)
                 (b_finished b) (b_next_pid b) (b_replies b) (b_ran b));
  x_getpwnam _ u := look bed_users u;
  x_getpwuid _ n := if n =? 1000 then Some "alice" else if n =? 0 then Some "root" else None;
  x_getgrnam _ g := look bed_groups g;
  x_getgrgid _ n := if n =? 100 then Some "users" else None;
  x_getgrall _ := [(100, ["alice"]); (10, ["bob"])];
  x_getpid _ := 4711;
  x_choice n b := (Z.to_nat (b_clock b mod Z.of_nat n), b);
  x_check_output _ argv b := bed_run argv b;
  x_popen _ argv b := (Ok (b_next_pid b),
    Bed (b_clock b) (b_files b) (b_modes b) (b_running b ++ [b_next_pid b]) (b_finished b)
      (b_next_pid b + 1) (b_replies b) (argv :: b_ran b));
  x_waitpid pid b :=
    if bool_decide (pid ∈ b_running b) then (Some 0, b)
    else if bool_decide (pid ∈ b_finished b) then
      (Some pid, Bed (b_clock b) (b_files b) (b_modes b) (b_running b)
         (base.filter (fun q => q <> pid) (b_finished b)) (b_next_pid b) (b_replies b) (b_ran b))
    else (None, b);
  x_chdir p d _ := Ok (bed_abs p d);
  x_exists p d b := bool_decide (is_Some (b_files b !! bed_abs p d));
  x_isdir _ _ _ := false;
  x_access _ _ _ _ := true;
  x_stat p d b :=
    match b_files b !! bed_abs p d with
    | Some s => Ok (Stat (default 33188 (b_modes b !! bed_abs p d))
        (if startswith d "/orphan" then 4242 else 1000) 100 (Z.of_nat (length s)) 0)
    | None => os_error 2 "No such file or directory"
    end;
  x_listdir _ _ _ := Ok [];
  x_mkdir p d b := (Ok tt, Bed (b_clock b) (<[bed_abs p d := ""]> (b_files b)) (b_modes b)
    (b_running b) (b_finished b) (b_next_pid b) (b_replies b) (b_ran b));
  x_chmod p d m b := (Ok tt, Bed (b_clock b) (b_files b) (<[bed_abs p d := m]> (b_modes b))
    (b_running b) (b_finished b) (b_next_pid b) (b_replies b) (b_ran b));
  x_write_text p d s b := (Ok tt, Bed (b_clock b) (<[bed_abs p d := s]> (b_files b)) (b_modes b)
    (b_running b) (b_finished b) (b_next_pid b) (b_replies b) (b_ran b));
  x_read_text p d b :=
    match b_files b !! bed_abs p d with
    | Some s => Ok s
    | None => os_error 2 "No such file or directory"
    end;
  x_open p d mode b :=
    let file := b_files b !! bed_abs p d in
    if str_eqb mode "rb" then
      match file with Some _ => (Ok tt, b) | None => (os_error 2 "No such file or directory", b) end
    else
      let text := if str_eqb mode "ab" then default "" file else "" in
      (Ok tt, Bed (b_clock b) (<[bed_abs p d := text]> (b_files b)) (b_modes b)
        (b_running b) (b_finished b) (b_next_pid b) (b_replies b) (b_ran b));
  x_seekable _ _ := true;
  x_readinto p d off n b :=
    (Ok (take (Z.to_nat n) (drop (Z.to_nat off) (default "" (b_files b !! bed_abs p d)))), b);
  x_write p d s b :=
    (Ok (Z.of_nat (length s)),
     Bed (b_clock b) (<[bed_abs p d := default "" (b_files b !! bed_abs p d) ++ s]> (b_files b)) (b_modes b)
       (b_running b) (b_finished b) (b_next_pid b) (b_replies b) (b_ran b))
|}.

#[export] Instance bed_db : UserDB bed.
Proof.
  refine {| udb := look bed_users; gdb := look bed_groups;
            grall := [(100, ["alice"]); (10, ["bob"])];
            id_gids := bed_gids; id_out := bed_id_out |}; try done.
  intros u. unfold bed_id_out, bed_gids. destruct (str_eqb u "alice"); vm_compute; reflexivity.
Defined.

Definition bed0 : bed := Bed 1000000000 ∅ ∅ [] [] 5000 [] [].

(** The configuration of a privileged TSI. *)
Definition bed_config : config_t := {[
  "tsi.switch_uid" := VBool true;
  "tsi.effective_uid" := VInt 0;
  "tsi.effective_gid" := VInt 0;
  "tsi.enforce_os_gids" := VBool true;
  "tsi.fail_on_invalid_gids" := VBool false;
  "tsi.open_user_sessions" := VBool false;
  "tsi.use_login_shell" := VBool true;
  "tsi.default_job_name" := VStr "UnicoreJob";
  "tsi.child_pids" := VPids [];
  "tsi.safe_dir" := VStr "/tmp"
]}.

Definition root_creds : creds := Creds 0 0 0 0 0 0 [0] true true true true.

(** A worker started as root. *)
Definition bed_world : world bed :=
  World root_creds ∅ "/" bed_config (new_cache (VInt 600) true) "" "" "" "" bed0.

#[export] Instance bed_sane : SaneExt bed.
Proof.
  split; intros; simpl; try done.
  - by destruct (b_files e !! _).
  - by destruct (b_files e !! _).
Qed.
