(* ===== verification/UserCacheSpec.v ===== *)
(** * Properties of the user cache

    The look-ups of [lib/UserCache.py] answer what the user database says, and
    go back to the database exactly when an entry is older than the time to
    live.  The lemmas are those of [UserCache]; the concrete environment of
    [Testbed] serves for the witnesses. *)

From S2P Require Import Prelude PyStr World Utils UserCache Testbed.
#[local] Open Scope py_scope.
#[local] Open Scope Z_scope.

(** A look-up answers [r] from a coherent cache, which it keeps coherent, and touches
    nothing of the process but the cache. *)
Definition answers {E : Type} `{UserDB E} (use_id : bool) {A : Type} (m : M (world E) A) (r : A)
    (w : world E) : Prop :=
  exists w', m w = (Ok r, w') /\ frame w w' /\ cache_ok use_id (w_cache w').

(** When the entry of a user or a group was made. *)
Definition user_stamp {E : Type} (w : world E) (user : str) : option Z :=
  dget (uc_users_ts (w_cache w)) user.
Definition group_stamp {E : Type} (w : world E) (group : str) : option Z :=
  dget (uc_groups_ts (w_cache w)) group.

Section facts.
Context {E : Type} `{Ext E}.

Lemma expired_run (t n now : Z) (w : world E) (e : E) :
  uc_ttl (w_cache w) = VInt n -> x_time (w_ext w) = (now, e) ->
  expired (Some t) w = (Ok (t + n * 1000000 <? now), with_ext e w).
Proof.
  intros Hn Ht. unfold expired, cache_get, gets, time_time, ext_call, lift, mbind, M_bind.
  by rewrite Hn, Ht.
Qed.

Lemma prepare_users_run (u : str) (t n now : Z) (w : world E) (e : E) :
  dget (uc_users_ts (w_cache w)) u = Some t ->
  uc_ttl (w_cache w) = VInt n -> x_time (w_ext w) = (now, e) ->
  prepare_users u w = when (t + n * 1000000 <? now) (update_user_info u) (with_ext e w).
Proof.
  intros Hts Hn Ht. unfold prepare_users. unfold cache_get at 1, gets.
  unfold mbind at 1, M_bind at 1. rewrite Hts. unfold mbind, M_bind.
  by rewrite (expired_run t n now w e).
Qed.

Lemma prepare_groups_run (g : str) (t n now : Z) (w : world E) (e : E) :
  dget (uc_groups_ts (w_cache w)) g = Some t ->
  uc_ttl (w_cache w) = VInt n -> x_time (w_ext w) = (now, e) ->
  prepare_groups g w = when (t + n * 1000000 <? now) (update_group_info g) (with_ext e w).
Proof.
  intros Hts Hn Ht. unfold prepare_groups. unfold cache_get at 1, gets.
  unfold mbind at 1, M_bind at 1. rewrite Hts. unfold mbind, M_bind.
  by rewrite (expired_run t n now w e).
Qed.
End facts.



(** Within the time to live a cached user entry is used as it is: preparing
    it reads the clock and does nothing else, so no look-up and no [id -G] is
    made for it. *)
Theorem user_cache_hit {E : Type} `{Ext E} (user : str) (t n now : Z) (w : world E) (e : E) :
  user_stamp w user = Some t ->
  uc_ttl (w_cache w) = VInt n -> x_time (w_ext w) = (now, e) ->
  now <= t + n * 1000000 ->
  prepare_users user w = (Ok tt, with_ext e w).
Proof.
  unfold user_stamp, group_stamp. intros Hts Hn Ht Hnow. rewrite (prepare_users_run user t n now w e) by done.
  by rewrite (proj2 (Z.ltb_ge _ _) Hnow).
Qed.

Definition warm_world : world bed := snd (prepare_users "alice" bed_world).

Lemma user_cache_hit_witness :
  prepare_users "alice" warm_world = (Ok tt, with_ext (snd (x_time (w_ext warm_world))) warm_world).
Proof.
  apply (user_cache_hit "alice" 1000000000 600 (fst (x_time (w_ext warm_world)))).
  - vm_compute. reflexivity.
  - vm_compute. reflexivity.
  - apply surjective_pairing.
  - vm_compute. congruence.
Defined.

(** The gid of a group whose entry exists is the cached one up to the time
    to live, and after it what the group database says at that moment, -1 when
    the group is gone. *)
Theorem group_cache_ttl {E : Type} `{Ext E} (group : str) (t n now : Z) (w : world E) (e : E) :
  group_stamp w group = Some t ->
  uc_ttl (w_cache w) = VInt n -> x_time (w_ext w) = (now, e) ->
  fst (get_gid_4group group w)
  = Ok (if t + n * 1000000 <? now then default (-1) (x_getgrnam e group)
        else default (-1) (dget (uc_groups (w_cache w)) group)).
Proof.
  unfold user_stamp, group_stamp. intros Hts Hn Ht. unfold get_gid_4group, mbind, M_bind.
  rewrite (prepare_groups_run group t n now w e) by done.
  destruct (_ <? now); [|done]. simpl.
  unfold update_group_info, cache_mod, modify, ext_read, time_time, ext_call, mbind, M_bind. simpl.
  destruct (x_getgrnam e group) as [gid|]; simpl; [|by rewrite dget_insert].
  destruct (x_time e) as [now' e']. simpl. by rewrite dget_insert.
Qed.

Definition stale_world : world bed :=
  with_cache (uc_set_group "wheel" (Some 77) (Some 0) (new_cache (VInt 600) true)) bed_world.

Lemma group_cache_ttl_witness : fst (get_gid_4group "wheel" stale_world) = Ok 10.
Proof.
  exact (group_cache_ttl "wheel" 0 600 (fst (x_time (w_ext stale_world))) stale_world _
    eq_refl eq_refl (surjective_pairing _)).
Defined.

(** A time to live that is a string, which is what a configuration file
    gives, makes every look-up of a user seen before fail with a [TypeError],
    and leaves the cache as it is. *)
Theorem user_cache_ttl_string {E : Type} `{Ext E} (user s : str) (t : Z) (w : world E) :
  user_stamp w user = Some t -> uc_ttl (w_cache w) = VStr s ->
  exists msg, get_uid_4user user w = (throw TypeError msg, w) /\
    get_gids_4user user w = (throw TypeError msg, w).
Proof.
  unfold user_stamp. intros Hts Hs. eexists.
  assert (prepare_users user w
    = (throw TypeError "unsupported operand type(s) for +: 'float' and 'str'", w)) as Hp.
  { unfold prepare_users, cache_get, gets, mbind, M_bind. rewrite Hts.
    unfold expired, cache_get, gets, lift, mbind, M_bind. by rewrite Hs. }
  unfold get_uid_4user, get_gids_4user, mbind, M_bind. by rewrite Hp.
Qed.

Lemma user_cache_ttl_string_witness :
  let w := snd (get_uid_4user "alice" (with_cache (new_cache (VStr "600") true) bed_world)) in
  exists msg, get_uid_4user "alice" w = (throw TypeError msg, w).
Proof.
  intros w.
  destruct (user_cache_ttl_string "alice" "600" 1000000000 w) as (msg & Hm & _).
  - vm_compute. reflexivity.
  - vm_compute. reflexivity.
  - exists msg. exact Hm.
Defined.
