(* ===== verification/BecomeUser.v ===== *)
(** * [lib/BecomeUser.py]: switching the identity of the process

    The worker runs every request as the requested user: it resolves the user
    and the groups through the user cache, changes the credentials of the
    process, runs the request and restores the credentials. *)

From S2P Require Import Prelude PyStr World Utils UserCache Testbed.
#[local] Open Scope py_scope.
#[local] Open Scope Z_scope.

Section become_user.
Context {E : Type} `{Ext E}.

(** [initialize]: remember the ids to return to, decide whether to switch, set
    up the cache. *)
Definition initialize : M (world E) unit :=
  c ← gets w_creds;
  set_config "tsi.effective_uid" (VInt (euid c)) ;;
  set_config "tsi.effective_gid" (VInt (egid c)) ;;
  switch_uid ← config_at "tsi.switch_uid";
  (if truthy switch_uid || (euid c =? 0)
   then set_config "tsi.switch_uid" (VBool true)
   else set_config "tsi.switch_uid" (VBool false)) ;;
  config_at "tsi.enforce_os_gids" ;;
  cache_ttl ← config_at "tsi.userCacheTtl";
  use_id ← config_at "tsi.use_id_to_resolve_gids";
  modify (fun w => with_cache (new_cache cache_ttl (truthy use_id)) w).

(** [check_membership(group, group_gid, user, config)]: the group name is not
    used. *)
Definition check_membership (group_gid : Z) (user : str) (config : config_t) : M (world E) bool :=
  enforce_os_gids ← lift (cfg_at config "tsi.enforce_os_gids");
  if truthy enforce_os_gids then
    gid ← get_gid_4user user;
    if group_gid =? gid then mret true else
    user_gids ← get_gids_4user user;
    mret (bool_decide (group_gid ∈ user_gids))
  else mret true.

Definition get_primary_group (primary user : str) (fail_on_invalid_gids : bool)
    (config : config_t) : M (world E) Z :=
  if str_eqb primary "DEFAULT_GID" then get_gid_4user user
  else
    new_gid ← get_gid_4group primary;
    new_gid ← (if new_gid =? -1 then
                 if fail_on_invalid_gids
                 then raise RuntimeError
                   ("Attempt to run a task with an unknown primary group: " ++ primary)
                 else get_gid_4user user
               else mret new_gid);
    member ← check_membership new_gid user config;
    if (member : bool) then mret new_gid
    else if fail_on_invalid_gids
    then raise RuntimeError
      ("The user " ++ user ++ " is not a member of the group " ++ primary)
    else get_gid_4user user.

(** [sup_gids[gid] = True] on a dictionary with the keys [l]. *)
Definition key_add (l : list Z) (gid : Z) : list Z :=
  if bool_decide (gid ∈ l) then l else l ++ [gid].

(** The loop over the requested groups: [sup] holds the keys of [sup_gids].
    A group the user is not a member of is only logged when invalid groups
    are tolerated. *)
Fixpoint supplementary_loop (requested_groups : list str) (added_default : bool)
    (sup : list Z) (user : str) (fail_on_invalid_gids : bool) (config : config_t)
    : M (world E) (list Z) :=
  match requested_groups with
  | [] => mret sup
  | g :: rest =>
      if str_eqb g "DEFAULT_GID" then
        if added_default then
          supplementary_loop rest added_default sup user fail_on_invalid_gids config
        else
          default_gids ← get_gids_4user user;
          supplementary_loop rest true (foldl key_add sup default_gids) user
            fail_on_invalid_gids config
      else
        tmp ← get_gid_4group g;
        if tmp =? -1 then
          if fail_on_invalid_gids
          then raise RuntimeError
            ("Attempt to run a task with an unknown supplementary group " ++ g)
          else supplementary_loop rest added_default sup user fail_on_invalid_gids config
        else
          member ← check_membership tmp user config;
          if negb member && fail_on_invalid_gids
          then raise RuntimeError
            ("The user " ++ user ++ " is not a member of the group " ++ g)
          else supplementary_loop rest added_default (key_add sup tmp) user
                 fail_on_invalid_gids config
  end.

Definition get_supplementary_groups (requested_groups : list str) (primary : Z) (user : str)
    (config : config_t) : M (world E) (list Z) :=
  fail_on_invalid_gids ← lift (cfg_at config "tsi.fail_on_invalid_gids");
  supplementary_loop requested_groups false [primary] user (truthy fail_on_invalid_gids) config.

(** A configuration value used as a uid or gid. *)
Definition as_id (v : cval) : result Z :=
  match v with
  | VInt n => Ok n
  | VBool b => Ok (if b then 1 else 0)
  | _ => throw TypeError "uid should be integer, not NoneType"
  end.

Definition same_ids (l k : list Z) : bool :=
  bool_decide ((list_to_set l : gset Z) = list_to_set k).

(** The change of credentials, with the checks that follow it. *)
Definition switch_to (user : str) (new_uid new_gid : Z) (new_gids : list Z) (euid0 : Z)
    : M (world E) unit :=
  sys (sys_setgid new_gid) ;;
  sys (sys_setgroups new_gids) ;;
  sys (sys_setegid new_gid) ;;
  sys (sys_setresuid new_uid new_uid euid0) ;;
  c ← gets w_creds;
  when (negb ((ruid c =? new_uid) && (euid c =? new_uid)))
    (raise RuntimeError ("Could not set TSI uid (real,effective) for " ++ user ++ " to "
       ++ str_of_Z new_uid)) ;;
  when (negb ((rgid c =? new_gid) && (egid c =? new_gid)))
    (raise RuntimeError ("Could not set TSI gid (real, effective) for " ++ user ++ " to "
       ++ str_of_Z new_gid)) ;;
  when (negb (same_ids (groups c) new_gids))
    (raise RuntimeError ("Could not set TSI identity (supplementary groups) for " ++ user)).

(** The uid, the primary gid and the list of gids for a request. *)
Definition resolve_identity (user : str) (requested_groups : list str) (config : config_t)
    : M (world E) (Z * Z * list Z) :=
  fail_on_invalid_gids ← lift (cfg_at config "tsi.fail_on_invalid_gids");
  primary ← lift (or_raise (head requested_groups) IndexError "list index out of range");
  new_uid ← get_uid_4user user;
  if new_uid =? -1
  then raise RuntimeError ("Attempted to run a task for an unknown user " ++ user)
  else if new_uid =? 0
  then raise RuntimeError ("Attempted to run a command as root " ++ user)
  else if str_eqb primary "NONE" then
    new_gid ← get_gid_4user user;
    new_gids ← get_gids_4user user;
    mret (new_uid, new_gid, new_gids)
  else
    new_gid ← get_primary_group primary user (truthy fail_on_invalid_gids) config;
    new_gids ← get_supplementary_groups requested_groups new_gid user config;
    mret (new_uid, new_gid, new_gids).

Definition become_user (user : str) (requested_groups : list str) : M (world E) bool :=
  config ← get_config;
  setting_uids ← lift (cfg_at config "tsi.switch_uid");
  let euid0 := cfg_get config "tsi.effective_uid" VNone in
  if negb (truthy setting_uids) then
    if bool_decide (euid0 = VInt 0)
    then raise RuntimeError ("Running as root and not setting uids --- this is not "
           ++ "allowed. Please check your TSI installation!")
    else mret true
  else
    '(new_uid, new_gid, new_gids) ← resolve_identity user requested_groups config;
    euid0 ← lift (as_id euid0);
    switch_to user new_uid new_gid new_gids euid0 ;;
    home ← get_home_4user user;
    set_environ "HOME" home ;;
    set_environ "USER" (Some user) ;;
    set_environ "LOGNAME" (Some user) ;;
    mret true.

Definition restore_id : M (world E) unit :=
  setting_uids ← config_at "tsi.switch_uid";
  when (truthy setting_uids) (
    euid0 ← config_at "tsi.effective_uid";
    egid0 ← config_at "tsi.effective_gid";
    u ← lift (as_id euid0);
    g ← lift (as_id egid0);
    sys (sys_setresuid u u u) ;;
    sys (sys_setgid g) ;;
    sys (sys_setgroups [g]) ;;
    sys (sys_setegid g) ;;
    set_environ "HOME" (Some "/tmp") ;;
    set_environ "USER" (Some "nobody") ;;
    set_environ "LOGNAME" (Some "nobody")).
End become_user.

(** ** Specification over the user database *)

(** A uid or gid the kernel accepts. *)
Definition valid_id (z : Z) : Prop := 0 <= z < 2 ^ 32 - 1.

(** The identity of a process: what the checks of [become_user] look at. *)
Record runs_as (c : creds) (uid gid : Z) (gids : list Z) : Prop := {
  as_ruid : ruid c = uid; as_euid : euid c = uid;
  as_rgid : rgid c = gid; as_egid : egid c = gid;
  as_groups : forall g, g ∈ groups c <-> g ∈ gids
}.

(** The credentials of the main process, from which a worker is forked: root, or an account that
    holds the two capabilities. *)
Definition privileged (u g : Z) (gs : list Z) : creds :=
  Creds u u u g g g gs true true true true.

(** What every state between [become_user] and [restore_id] satisfies: the
    way back to [u] is open. *)
Definition recoverable (u : Z) (c : creds) : Prop :=
  perm_setuid c = true /\ perm_setgid c = true /\ suid c = u /\
  (u = 0 -> euid c = 0 -> eff_setuid c = true /\ eff_setgid c = true) /\
  (u <> 0 -> ruid c <> 0 /\ euid c <> 0 /\ eff_setuid c = true /\ eff_setgid c = true).

(** The configuration [initialize] leaves behind when the identity is switched. *)
Record switching (config : config_t) (u g : Z) : Prop := {
  sw_on : exists v, config !! "tsi.switch_uid" = Some v /\ truthy v = true;
  sw_uid : config !! "tsi.effective_uid" = Some (VInt u);
  sw_gid : config !! "tsi.effective_gid" = Some (VInt g)
}.

(** The group options of the configuration. *)
Record group_options (config : config_t) (enforce fail : bool) : Prop := {
  go_enforce : exists v, config !! "tsi.enforce_os_gids" = Some v /\ truthy v = enforce;
  go_fail : exists v, config !! "tsi.fail_on_invalid_gids" = Some v /\ truthy v = fail
}.

Section spec.
Context {E : Type} `{UserDB E}.
Context (enforce fail use_id : bool).

Definition spec_member (gid : Z) (user : str) : bool :=
  negb enforce || (gid =? os_gid user) || bool_decide (gid ∈ os_gids use_id user).

Definition spec_primary (primary user : str) : result Z :=
  if str_eqb primary "DEFAULT_GID" then Ok (os_gid user)
  else if os_group primary =? -1 then
    if fail then throw RuntimeError
      ("Attempt to run a task with an unknown primary group: " ++ primary)
    else Ok (os_gid user)
  else if spec_member (os_group primary) user then Ok (os_group primary)
  else if fail then throw RuntimeError
    ("The user " ++ user ++ " is not a member of the group " ++ primary)
  else Ok (os_gid user).

Fixpoint spec_supplementary (requested : list str) (added : bool) (sup : list Z) (user : str)
    : result (list Z) :=
  match requested with
  | [] => Ok sup
  | g :: rest =>
      if str_eqb g "DEFAULT_GID" then
        spec_supplementary rest true
          (if added then sup else foldl key_add sup (os_gids use_id user)) user
      else if os_group g =? -1 then
        if fail then throw RuntimeError
          ("Attempt to run a task with an unknown supplementary group " ++ g)
        else spec_supplementary rest added sup user
      else if negb (spec_member (os_group g) user) && fail
      then throw RuntimeError
        ("The user " ++ user ++ " is not a member of the group " ++ g)
      else spec_supplementary rest added (key_add sup (os_group g)) user
  end.

(** The identity a request is entitled to: uid, gid, supplementary gids. *)
Definition spec_identity (user : str) (requested : list str) : result (Z * Z * list Z) :=
  match requested with
  | [] => throw IndexError "list index out of range"
  | primary :: _ =>
      if os_uid user =? -1
      then throw RuntimeError ("Attempted to run a task for an unknown user " ++ user)
      else if os_uid user =? 0
      then throw RuntimeError ("Attempted to run a command as root " ++ user)
      else if str_eqb primary "NONE" then Ok (os_uid user, os_gid user, os_gids use_id user)
      else
        gid ← spec_primary primary user;
        gids ← spec_supplementary requested false [gid] user;
        Ok (os_uid user, gid, gids)
  end.
End spec.

(** ** Facts: the resolution of the identity *)

Lemma cfg_at_some (c : config_t) (k : str) (v : cval) : c !! k = Some v -> cfg_at c k = Ok v.
Proof. unfold cfg_at. by intros ->. Qed.

Section resolution.
Context {E : Type} `{UserDB E}.
Context (config : config_t) (enforce fail use_id : bool).
Context (Hopt : group_options config enforce fail).

(** Walk through a statement whose calls are steady. *)
Ltac steady_step :=
  match goal with
  | |- steady _ (_ ≫= _) _ => eapply steady_bind; [solve [eauto with tsi]|]; cbn beta
  | |- steady _ (mret _) _ => apply steady_ret
  | |- steady _ (raise _ _) _ => apply steady_lift
  | |- steady _ (if ?b then _ else _) _ => destruct b eqn:?
  end.

Lemma enforce_steady : exists v, cfg_at config "tsi.enforce_os_gids" = Ok v /\ truthy v = enforce.
Proof. destruct Hopt as [(v & Hv & Ht) _]. exists v. by rewrite (cfg_at_some _ _ _ Hv). Qed.

Lemma fail_steady : exists v, cfg_at config "tsi.fail_on_invalid_gids" = Ok v /\ truthy v = fail.
Proof. destruct Hopt as [_ (v & Hv & Ht)]. exists v. by rewrite (cfg_at_some _ _ _ Hv). Qed.

Lemma check_membership_steady (gid : Z) (user : str) :
  steady use_id (check_membership (E := E) gid user config)
    (Ok (spec_member enforce use_id gid user)).
Proof.
  unfold check_membership, spec_member. destruct enforce_steady as (v & -> & <-).
  steady_step. destruct (truthy v); simpl; [|apply steady_ret].
  steady_step. destruct (gid =? os_gid user); simpl; [apply steady_ret|].
  steady_step. apply steady_ret.
Qed.
#[local] Hint Resolve check_membership_steady : tsi.

Lemma get_primary_group_steady (primary user : str) :
  steady use_id (get_primary_group (E := E) primary user fail config)
    (spec_primary enforce fail use_id primary user).
Proof.
  unfold get_primary_group, spec_primary.
  destruct (str_eqb primary "DEFAULT_GID"); [eauto with tsi|].
  steady_step. destruct (os_group primary =? -1) eqn:Hg.
  - remember fail as f eqn:Hf in |- *. destruct f.
    + apply steady_bind_raise, steady_lift.
    + steady_step. steady_step.
      assert (spec_member enforce use_id (os_gid user) user = true) as ->
        by (unfold spec_member; by rewrite Z.eqb_refl, orb_true_r).
      apply steady_ret.
  - steady_step. steady_step.
    destruct (spec_member enforce use_id (os_group primary) user); [apply steady_ret|].
    remember fail as f eqn:Hf in |- *. destruct f; [apply steady_lift | eauto with tsi].
Qed.

Lemma supplementary_steady (requested : list str) (added : bool) (sup : list Z) (user : str) :
  steady use_id (supplementary_loop (E := E) requested added sup user fail config)
    (spec_supplementary enforce fail use_id requested added sup user).
Proof.
  revert added sup; induction requested as [|g rest IH]; intros added sup; simpl.
  { apply steady_ret. }
  destruct (str_eqb g "DEFAULT_GID").
  - destruct added; [apply IH|]. steady_step. apply IH.
  - steady_step. destruct (os_group g =? -1).
    + remember fail as f eqn:Hf in |- *. destruct f; [apply steady_lift | rewrite Hf; apply IH].
    + steady_step. destruct (_ && _); [apply steady_lift | apply IH].
Qed.

Lemma resolve_identity_steady (user : str) (requested : list str) :
  steady use_id (resolve_identity (E := E) user requested config)
    (spec_identity enforce fail use_id user requested).
Proof.
  unfold resolve_identity, spec_identity. destruct fail_steady as (v & Hv & Ht).
  rewrite Hv. steady_step. rewrite Ht.
  destruct requested as [|primary rest]; [apply steady_bind_raise, steady_lift|].
  simpl. steady_step. steady_step.
  destruct (os_uid user =? -1); [apply steady_lift|].
  destruct (os_uid user =? 0); [apply steady_lift|].
  destruct (str_eqb primary "NONE"); [by repeat steady_step|].
  apply steady_bind_result; [apply get_primary_group_steady|]. intros gid _.
  apply steady_bind_result; [|intros gids _; apply steady_ret].
  unfold get_supplementary_groups. rewrite Hv. steady_step. rewrite Ht.
  apply supplementary_steady.
Qed.
End resolution.

(** ** Facts: the change of credentials *)

Section credentials.
Context {E : Type} `{Ext E}.
Implicit Types (w : world E) (c : creds).

(** The checks after the system calls are sufficient: if [switch_to] returns,
    the process has the identity, whatever its privileges were. *)
Lemma switch_to_runs_as user uid gid gids u0 w w' :
  switch_to user uid gid gids u0 w = (Ok tt, w') ->
  exists c, w' = with_creds c w /\ runs_as c uid gid gids.
Proof.
  unfold switch_to. intros Hs. inv_run. rename Hs into Hg.
  simpl in *.
  exists c. split; [by destruct w|].
  repeat match goal with
  | H : negb _ = false |- _ => apply negb_false_iff in H
  | H : _ && _ = true |- _ => apply andb_true_iff in H as [?%Z.eqb_eq ?%Z.eqb_eq]
  end.
  split; [done..|]. intros g.
  apply bool_decide_eq_true in Hg.
  rewrite <-(elem_of_list_to_set (C := gset Z)), Hg, elem_of_list_to_set. done.
Qed.

Lemma id_eqb_minus1 z : valid_id z -> (z =? -1) = false.
Proof. intros [? ?]. apply Z.eqb_neq. lia. Qed.

Lemma setgid_capable g c :
  eff_setgid c = true -> valid_id g -> sys_setgid g c = Ok (set_gids g g g c).
Proof.
  intros He Hg. unfold sys_setgid. rewrite id_arg_valid by done. simpl.
  by rewrite id_eqb_minus1, He.
Qed.

Lemma setegid_capable g c :
  eff_setgid c = true -> valid_id g -> sys_setegid g c = Ok (set_gids (rgid c) g (sgid c) c).
Proof.
  intros He Hg. unfold sys_setegid. rewrite id_arg_valid by done. simpl.
  by rewrite id_eqb_minus1, He.
Qed.

Lemma setgroups_capable gids c :
  eff_setgid c = true -> Forall valid_id gids -> Z.of_nat (length gids) <= 65536 ->
  sys_setgroups gids c = Ok (set_groups gids c).
Proof.
  intros He Hg Hl. unfold sys_setgroups.
  destruct (Z.ltb_spec 65536 (Z.of_nat (length gids))); [lia|].
  assert (mapR id_arg gids = Ok gids) as ->.
  { apply mapR_ok. clear -Hg. induction Hg; constructor; [by apply id_arg_valid | done]. }
  simpl. rewrite He. simpl.
  assert (existsb (Z.eqb (-1)) gids = false) as ->; [|done].
  clear -Hg. induction Hg as [|z l Hz _ IH]; [done|]. cbn [existsb]. rewrite IH, Z.eqb_sym.
  by rewrite id_eqb_minus1.
Qed.

Lemma setresuid_allowed r e s c :
  valid_id r -> valid_id e -> valid_id s ->
  eff_setuid c = true \/ (r = suid c /\ e = suid c /\ s = suid c) ->
  sys_setresuid r e s c = Ok (set_uids r e s c).
Proof.
  intros Hr He Hs Hc. unfold sys_setresuid. rewrite !id_arg_valid by done. simpl.
  rewrite !id_eqb_minus1 by done.
  assert (forall z, (eff_setuid c = true \/ z = suid c) ->
    eff_setuid c || false || (z =? ruid c) || (z =? euid c) || (z =? suid c) = true) as Hz.
  { intros z [->| ->]; [done|]. by rewrite Z.eqb_refl, !orb_true_r. }
  destruct Hc as [Hc|(? & ? & ?)]; rewrite !Hz by auto; done.
Qed.

(** With the capabilities every call succeeds. *)
Lemma switch_to_privileged user uid gid gids u g gs w :
  w_creds w = privileged u g gs ->
  valid_id u -> valid_id uid -> valid_id gid -> Forall valid_id gids ->
  Z.of_nat (length gids) <= 65536 ->
  exists c, switch_to user uid gid gids u w = (Ok tt, with_creds c w) /\ runs_as c uid gid gids.
Proof.
  intros Hc Hu Huid Hgid Hgids Hlen.
  set (c := set_uids uid uid u (Creds u u u gid gid gid gids true true true true)).
  assert (switch_to user uid gid gids u w = (Ok tt, with_creds c w)) as Hrun.
  { unfold switch_to, sys, gets, mbind, M_bind. rewrite Hc.
    rewrite setgid_capable by done. simpl. rewrite setgroups_capable by done. simpl.
    rewrite setegid_capable by done. simpl. rewrite setresuid_allowed by (done || by left).
    simpl. rewrite !Z.eqb_refl. simpl.
    unfold same_ids. rewrite bool_decide_eq_true_2 by done. simpl. by destruct w. }
  exists c. split; [done|]. by apply switch_to_runs_as in Hrun as (c' & [= ->] & ?).
Qed.

(** ** The way back *)

Lemma recoverable_gids u r e s c : recoverable u c -> recoverable u (set_gids r e s c).
Proof. done. Qed.
Lemma recoverable_groups u l c : recoverable u c -> recoverable u (set_groups l c).
Proof. done. Qed.

Lemma sys_setgid_recoverable u g c c' :
  sys_setgid g c = Ok c' -> recoverable u c -> recoverable u c'.
Proof.
  unfold sys_setgid. intros Hs. inv_ok. repeat case_match; try discriminate;
    injection Hs as <-; auto using recoverable_gids.
Qed.
Lemma sys_setegid_recoverable u g c c' :
  sys_setegid g c = Ok c' -> recoverable u c -> recoverable u c'.
Proof.
  unfold sys_setegid. intros Hs. inv_ok. repeat case_match; try discriminate;
    injection Hs as <-; auto using recoverable_gids.
Qed.
Lemma sys_setgroups_recoverable u l c c' :
  sys_setgroups l c = Ok c' -> recoverable u c -> recoverable u c'.
Proof.
  unfold sys_setgroups. intros Hs. case_match; [discriminate|]. inv_ok.
  repeat case_match; try discriminate; injection Hs as <-; auto using recoverable_groups.
Qed.
Lemma sys_setresuid_recoverable u uid c c' :
  valid_id u -> uid <> 0 ->
  sys_setresuid uid uid u c = Ok c' -> recoverable u c -> recoverable u c'.
Proof.
  intros Hu Hz Hs (H1 & H2 & H3 & H4 & H5). unfold sys_setresuid in Hs. inv_ok.
  rewrite id_arg_valid in * by done. simplify_eq.
  match goal with
  | H1 : id_arg uid = Ok ?x, H2 : id_arg uid = Ok ?y |- _ =>
      assert (y = x) as -> by congruence
  end.
  assert (a = uid \/ a = -1) as Hau by (by apply id_arg_ok).
  case_match; [|discriminate]. injection Hs as <-.
  rewrite (id_eqb_minus1 (suid c)) by done.
  set (r := if a =? -1 then ruid c else a). set (e := if a =? -1 then euid c else a).
  assert (r = ruid c \/ r = uid) as Hr by (unfold r; destruct (a =? -1) eqn:?; lia).
  assert (e = euid c \/ e = uid) as He by (unfold e; destruct (a =? -1) eqn:?; lia).
  clearbody r e. unfold recoverable, set_uids, fix_caps. simpl. rewrite H1, H2.
  destruct (Z.eqb_spec (suid c) 0) as [E0|E0].
  - rewrite !orb_true_r. simpl. split_and!; try done.
    intros _ ->. simpl. rewrite E0, Z.eqb_refl in *.
    destruct (Z.eqb_spec (euid c) 0) as [E1|E1]; simpl; [|done]. by apply H4.
  - destruct (H5 E0) as (Hru & Heu & Hsu & Hsg). rewrite Hsu, Hsg.
    rewrite (proj2 (Z.eqb_neq (ruid c) 0)), (proj2 (Z.eqb_neq (euid c) 0)) by done.
    assert (r <> 0 /\ e <> 0) as [Hr0 He0] by lia.
    rewrite (proj2 (Z.eqb_neq r 0)), (proj2 (Z.eqb_neq e 0)) by done. done.
Qed.

(** Everything but the credentials, the environment variables, the cache and
    the outside stays, and the way back to [u] stays open. *)
Record switched (u : Z) w w' : Prop := {
  sd_config : w_config w' = w_config w;
  sd_cwd : w_cwd w' = w_cwd w;
  sd_in : w_in w' = w_in w; sd_out : w_out w' = w_out w;
  sd_din : w_din w' = w_din w; sd_dout : w_dout w' = w_dout w;
  sd_back : recoverable u (w_creds w) -> recoverable u (w_creds w')
}.

#[export] Instance switched_preorder u : PreOrder (switched u).
Proof.
  split; [by split|]. intros w1 w2 w3 [] []. split; try congruence. auto.
Qed.

Lemma frame_switched u w w' : frame w w' -> switched u w w'.
Proof. by intros (c & e & ->). Qed.

Lemma sys_switched u (f : creds -> result creds) :
  (forall c c', f c = Ok c' -> recoverable u c -> recoverable u c') ->
  respects (switched u) (sys (E := E) f).
Proof.
  intros Hf w. unfold sys. destruct (f (w_creds w)) as [c| | |] eqn:Ef; simpl; try done.
  split; simpl; try done. eauto.
Qed.

Lemma set_environ_switched u k v : respects (switched u) (set_environ (E := E) k v).
Proof.
  unfold set_environ. destruct v; [|apply respects_raise; exact _].
  apply respects_modify. by split.
Qed.

Lemma switch_to_switched u user uid gid gids :
  valid_id u -> uid <> 0 -> respects (switched u) (switch_to (E := E) user uid gid gids u).
Proof.
  intros Hu Hz. unfold switch_to.
  repeat first [ apply respects_bind; [exact _ | | intros ?]
               | apply respects_when; [exact _|]
               | apply respects_raise; exact _ | apply respects_gets; exact _
               | apply sys_switched; intros ? ? ? ? ];
    eauto using sys_setgid_recoverable, sys_setegid_recoverable, sys_setgroups_recoverable,
      sys_setresuid_recoverable.
Qed.

Lemma check_membership_frame gid user config :
  respects (frame (E := E)) (check_membership gid user config).
Proof. unfold check_membership. solve_respects. Qed.
#[local] Hint Resolve check_membership_frame : respects.

Lemma supplementary_frame requested added sup user fail config :
  respects (frame (E := E)) (supplementary_loop requested added sup user fail config).
Proof.
  revert added sup. induction requested as [|g rest IH]; intros added sup; simpl;
    solve_respects; apply IH.
Qed.
#[local] Hint Resolve supplementary_frame : respects.

Lemma resolve_identity_frame user requested config :
  respects (frame (E := E)) (resolve_identity user requested config).
Proof.
  unfold resolve_identity, get_primary_group, get_supplementary_groups. solve_respects.
Qed.

(** A request never resolves to root or to an unknown user. *)
Lemma resolve_identity_uid user requested config w w' uid gid gids :
  resolve_identity user requested config w = (Ok (uid, gid, gids), w') -> uid <> 0 /\ uid <> -1.
Proof.
  unfold resolve_identity. intros Hr. inv_run.
  destruct (a1 =? -1) eqn:E1; [discriminate|]. destruct (a1 =? 0) eqn:E0; [discriminate|].
  destruct (str_eqb _ _); inv_run; simplify_eq; lia.
Qed.

Lemma switching_on w u g :
  switching (w_config w) u g ->
  exists v, cfg_at (w_config w) "tsi.switch_uid" = Ok v /\ truthy v = true.
Proof. intros [(v & Hv & Ht) _ _]. exists v. by rewrite (cfg_at_some _ _ _ Hv). Qed.

(** Whatever the outcome of [become_user], the way back is open. *)
Lemma become_user_switched user requested u g w :
  switching (w_config w) u g -> valid_id u ->
  switched u w (snd (become_user user requested w)).
Proof.
  intros Hsw Hu. destruct (switching_on w u g Hsw) as (v & Hv & Ht).
  destruct Hsw as [_ Huid _].
  unfold become_user, get_config.
  apply (respects_bind_at (switched u)); [done|]. intros config w1 [= <- <-].
  apply (respects_bind_at (switched u)); [done|]. intros v' w1 [= Hv' <-].
  rewrite Hv in Hv'. injection Hv' as <-. rewrite Ht. simpl negb. cbv iota.
  apply (respects_bind_at (switched u)).
  { apply frame_switched, resolve_identity_frame. }
  intros [[uid gid] gids] w1 Hr. apply resolve_identity_uid in Hr as [Hz _].
  unfold cfg_get. rewrite Huid. simpl default.
  apply (respects_bind_at (switched u)); [done|]. intros u' w2 [= <- <-].
  revert w1. fold (respects (switched u)
    (switch_to user uid gid gids u ;;
     home ← get_home_4user user;
     set_environ "HOME" home ;; set_environ "USER" (Some user) ;;
     set_environ "LOGNAME" (Some user) ;; mret true)).
  apply respects_bind; [exact _|by apply switch_to_switched|]. intros _.
  apply respects_bind; [exact _| |].
  { eapply respects_weaken; [|apply get_home_frame]. apply frame_switched. }
  intros home. repeat (apply respects_bind; [exact _|apply set_environ_switched|intros _]).
  apply respects_ret; exact _.
Qed.

(** From there [restore_id] succeeds and reinstates the credentials of the
    main process. *)
Lemma restore_id_recoverable u g w :
  switching (w_config w) u g -> valid_id u -> valid_id g -> recoverable u (w_creds w) ->
  exists w', restore_id w = (Ok tt, w') /\ w_creds w' = privileged u g [g] /\
    w_config w' = w_config w /\ w_out w' = w_out w /\ w_in w' = w_in w /\
    w_env w' !! "HOME" = Some "/tmp" /\ w_env w' !! "USER" = Some "nobody".
Proof.
  intros Hsw Hu Hg (H1 & H2 & H3 & H4 & H5).
  destruct (switching_on w u g Hsw) as (v & Hv & Ht). destruct Hsw as [_ Huid Hgid].
  assert (exists r e s gs,
    set_uids u u u (w_creds w) = Creds u u u r e s gs true true true true) as (r & e & s & gs & Hset).
  { unfold set_uids, fix_caps. simpl. rewrite H1, H2, H3. do 4 eexists.
    destruct (Z.eqb_spec u 0) as [Hz|Hz].
    - rewrite !orb_true_r. simpl.
      destruct (Z.eqb_spec (euid (w_creds w)) 0) as [E0|E0]; simpl; [|done].
      by destruct (H4 Hz E0) as [-> ->].
    - destruct (H5 Hz) as (Hr & He & -> & ->).
      by rewrite (proj2 (Z.eqb_neq (ruid (w_creds w)) 0)),
        (proj2 (Z.eqb_neq (euid (w_creds w)) 0)) by done. }
  unfold restore_id, config_at, get_config, gets, lift, mbind, M_bind.
  rewrite Hv. simpl. rewrite Ht. simpl.
  rewrite (cfg_at_some _ _ _ Huid), (cfg_at_some _ _ _ Hgid). simpl.
  unfold sys at 1. rewrite setresuid_allowed, Hset by (done || (right; done)).
  unfold sys. simpl. rewrite setgid_capable by done. simpl.
  rewrite setgroups_capable by (done || (by apply Forall_singleton)). simpl.
  rewrite setegid_capable by done.
  eexists. split; [reflexivity|]. simpl. repeat (split; [done|]). split.
  - rewrite !lookup_insert_ne by done. by rewrite lookup_insert_eq.
  - rewrite lookup_insert_ne by done. by rewrite lookup_insert_eq.
Qed.

Lemma privileged_recoverable u g gs : recoverable u (privileged u g gs).
Proof. unfold recoverable. simpl. tauto. Qed.
End credentials.

(** ** Facts: the groups granted *)

Section groups.
Context {E : Type} `{UserDB E}.

Lemma key_add_elem (l : list Z) (x y : Z) : y ∈ key_add l x <-> y ∈ l \/ y = x.
Proof.
  unfold key_add. case_bool_decide; [|rewrite elem_of_app, list_elem_of_singleton; tauto].
  split; [by left | by intros [?| ->]].
Qed.

Lemma foldl_key_add_elem (ds l : list Z) (y : Z) :
  y ∈ foldl key_add l ds <-> y ∈ l \/ y ∈ ds.
Proof.
  revert l; induction ds as [|d ds IH]; intros l; simpl.
  - rewrite elem_of_nil. tauto.
  - rewrite IH, key_add_elem, elem_of_cons. tauto.
Qed.

(** The loop only adds. *)
Lemma spec_supplementary_keeps enforce fail use_id requested added sup user gids x :
  spec_supplementary enforce fail use_id requested added sup user = Ok gids ->
  x ∈ sup -> x ∈ gids.
Proof.
  revert added sup; induction requested as [|g rest IH]; intros added sup; simpl.
  - by intros [= <-].
  - repeat case_match; try discriminate; intros Hs Hx; eapply IH; eauto;
      rewrite ?foldl_key_add_elem, ?key_add_elem; auto.
Qed.

Lemma spec_supplementary_adds enforce use_id requested added sup user gids g :
  spec_supplementary enforce false use_id requested added sup user = Ok gids ->
  g ∈ requested -> g <> "DEFAULT_GID" -> os_group g <> -1 -> os_group g ∈ gids.
Proof.
  revert added sup; induction requested as [|g' rest IH]; intros added sup Hs Hg Hd Hn;
    [by apply elem_of_nil in Hg|].
  simpl in Hs. apply elem_of_cons in Hg as [<-|Hg].
  - apply str_eqb_neq in Hd. rewrite Hd in Hs.
    rewrite (proj2 (Z.eqb_neq _ _) Hn), andb_false_r in Hs.
    eapply spec_supplementary_keeps; [done|]. apply key_add_elem. by right.
  - repeat case_match; try discriminate; eauto.
Qed.

Lemma spec_supplementary_members use_id requested added sup user gids x :
  spec_supplementary true true use_id requested added sup user = Ok gids ->
  x ∈ gids -> x ∈ sup \/ x = os_gid user \/ x ∈ os_gids use_id user.
Proof.
  revert added sup; induction requested as [|g rest IH]; intros added sup; simpl.
  - intros [= <-]. auto.
  - repeat case_match; try discriminate; intros Hs Hx; specialize (IH _ _ Hs Hx).
    + tauto.
    + rewrite foldl_key_add_elem in IH. tauto.
    + rewrite key_add_elem in IH. rewrite andb_true_r in *.
      match goal with H : negb _ = false |- _ => apply negb_false_iff in H;
        unfold spec_member in H; simpl in H; apply orb_true_iff in H as [?%Z.eqb_eq|?%bool_decide_eq_true]
      end; destruct IH as [[?| ->]|?]; auto.
Qed.

Lemma spec_primary_member fail use_id primary user gid :
  spec_primary true fail use_id primary user = Ok gid ->
  gid = os_gid user \/ gid ∈ os_gids use_id user.
Proof.
  unfold spec_primary. repeat case_match; try discriminate; intros [= <-]; auto.
  match goal with H : spec_member _ _ _ _ = true |- _ =>
    unfold spec_member in H; simpl in H; apply orb_true_iff in H as [?%Z.eqb_eq|?%bool_decide_eq_true] end; auto.
Qed.
End groups.

Section become_user_facts.
Context {E : Type} `{UserDB E}.

Lemma spec_supplementary_total enforce fail use_id requested added sup user :
  match spec_supplementary enforce fail use_id requested added sup user with
  | Ok _ | Raise _ => True | _ => False
  end.
Proof.
  revert added sup; induction requested as [|g rest IH]; intros added sup; simpl; [done|].
  destruct (str_eqb g _); [apply IH|]. destruct (os_group g =? -1).
  - destruct fail; [done | apply IH].
  - destruct (_ && _); [done | apply IH].
Qed.

Lemma spec_primary_total enforce fail use_id primary user :
  match spec_primary enforce fail use_id primary user with
  | Ok _ | Raise _ => True | _ => False
  end.
Proof. unfold spec_primary. by repeat case_match. Qed.

Lemma spec_identity_total enforce fail use_id user requested :
  match spec_identity enforce fail use_id user requested with
  | Ok (uid, _, _) => uid <> 0 /\ uid = os_uid user /\ is_Some (os_home user)
  | Raise _ => True | _ => False
  end.
Proof.
  unfold spec_identity. destruct requested as [|primary rest]; [done|].
  destruct (Z.eqb_spec (os_uid user) (-1)) as [|Hn]; [done|].
  destruct (Z.eqb_spec (os_uid user) 0) as [|Hz]; [done|].
  assert (is_Some (os_home user)) as Hh.
  { unfold os_uid, os_home in *. destruct (udb user); [done | by destruct Hn]. }
  destruct (str_eqb primary "NONE"); [done|].
  pose proof (spec_primary_total enforce fail use_id primary user) as Hp.
  destruct (spec_primary enforce fail use_id primary user) as [gid| | |]; try done.
  pose proof (spec_supplementary_total enforce fail use_id (primary :: rest) false [gid] user) as Hs.
  change (Ok gid ≫= ?f) with (f gid). cbv beta.
  by destruct (spec_supplementary enforce fail use_id (primary :: rest) false [gid] user).
Qed.

(** The run of [become_user] up to the change of credentials. *)
Lemma become_user_resolved enforce fail use_id u g user requested (w : world E) :
  switching (w_config w) u g -> group_options (w_config w) enforce fail ->
  cache_ok use_id (w_cache w) ->
  exists w1, frame w w1 /\ cache_ok use_id (w_cache w1) /\
    become_user user requested w
    = (lift (spec_identity enforce fail use_id user requested) ≫= fun '(uid, gid, gids) =>
         switch_to user uid gid gids u ;;
         home ← get_home_4user user;
         set_environ "HOME" home ;; set_environ "USER" (Some user) ;;
         set_environ "LOGNAME" (Some user) ;; mret true) w1.
Proof.
  intros Hsw Hopt Hc. destruct (switching_on w u g Hsw) as (v & Hv & Ht).
  destruct Hsw as [_ Huid _].
  destruct (resolve_identity_steady (w_config w) enforce fail use_id Hopt user requested w Hc)
    as (w1 & Hr & Hf & Ho).
  exists w1. split; [done|]. split; [done|].
  unfold become_user, get_config, gets, lift, mbind, M_bind. rewrite Hv, Ht. simpl.
  rewrite Hr. destruct (spec_identity _ _ _ _ _) as [[[uid gid] gids]| | |]; simpl; try done.
  unfold cfg_get. rewrite Huid. done.
Qed.

(** The run of a [become_user] that returns. *)
Lemma become_user_runs enforce fail use_id u g user requested (w w' : world E) b :
  switching (w_config w) u g -> group_options (w_config w) enforce fail ->
  cache_ok use_id (w_cache w) -> become_user user requested w = (Ok b, w') ->
  exists gid gids,
    spec_identity enforce fail use_id user requested = Ok (os_uid user, gid, gids) /\
    runs_as (w_creds w') (os_uid user) gid gids /\ os_uid user <> 0.
Proof.
  intros Hsw Hopt Hcache.
  destruct (become_user_resolved enforce fail use_id u g user requested w Hsw Hopt Hcache)
    as (w1 & _ & Ho & ->).
  pose proof (spec_identity_total enforce fail use_id user requested) as Ht.
  destruct (spec_identity enforce fail use_id user requested) as [[[uid gid] gids]|e| |]; try done.
  destruct Ht as (Hnz & -> & _). intros Hr. inv_run. subst a. inv_run.
  destruct a. apply switch_to_runs_as in Ha as (c & -> & Has).
  exists gid, gids. split; [done|]. split; [|done].
  assert (w_creds s3 = c) as ->; [|done].
  pose proof (get_home_frame user (with_creds c w1)) as (c2 & e2 & Hw2).
  rewrite Ha0 in Hw2. simpl in Hw2. subst s0.
  repeat match goal with
  | H : set_environ _ ?o _ = (Ok _, _) |- _ =>
      destruct o; simpl in H; [injection H as _ <- | discriminate H]
  end. done.
Qed.

Lemma spec_identity_enforced use_id user requested uid gid gids x :
  spec_identity true true use_id user requested = Ok (uid, gid, gids) ->
  x = gid \/ x ∈ gids -> x = os_gid user \/ x ∈ os_gids use_id user.
Proof.
  unfold spec_identity. destruct requested as [|primary rest]; [done|].
  destruct (os_uid user =? -1); [done|]. destruct (os_uid user =? 0); [done|].
  destruct (str_eqb primary "NONE"); [intros [= <- <- <-]; by auto|].
  intros Hs. inv_ok. apply spec_primary_member in Ha. intros [->|Hx]; [done|].
  eapply spec_supplementary_members in Hx as [Hx|Hx]; [|exact Hx|exact Ha0].
  apply list_elem_of_singleton in Hx as ->. done.
Qed.

Lemma spec_identity_grants use_id user primary rest uid gid gids group :
  spec_identity true false use_id user (primary :: rest) = Ok (uid, gid, gids) ->
  primary <> "NONE" -> group ∈ rest -> group <> "DEFAULT_GID" -> os_group group <> -1 ->
  os_group group ∈ gids.
Proof.
  unfold spec_identity. intros Hs Hp Hin Hd Hn.
  destruct (os_uid user =? -1); [done|]. destruct (os_uid user =? 0); [done|].
  apply str_eqb_neq in Hp. rewrite Hp in Hs. inv_ok.
  eapply spec_supplementary_adds; eauto. by right.
Qed.
End become_user_facts.

(** * Properties *)

(** C1: [become_user], run with the two capabilities on a coherent user cache,
    does what the user database entitles the request to: it either raises the
    error of the specification and leaves the credentials alone, or ends with
    the real and effective ids, the groups and the environment variables of
    the user. *)
Theorem become_user_spec {E : Type} `{UserDB E} (enforce fail use_id : bool) (u g : Z)
    (gs : list Z) (user : str) (requested : list str) (w : world E) :
  w_creds w = privileged u g gs -> valid_id u ->
  switching (w_config w) u g -> group_options (w_config w) enforce fail ->
  cache_ok use_id (w_cache w) ->
  match spec_identity enforce fail use_id user requested with
  | Ok (uid, gid, gids) =>
      valid_id uid -> valid_id gid -> Forall valid_id gids -> Z.of_nat (length gids) <= 65536 ->
      exists w', become_user user requested w = (Ok true, w') /\
        runs_as (w_creds w') uid gid gids /\ uid = os_uid user /\ uid <> 0 /\
        w_env w' !! "HOME" = os_home user /\ w_env w' !! "USER" = Some user /\
        w_env w' !! "LOGNAME" = Some user /\ cache_ok use_id (w_cache w')
  | Raise e =>
      exists w', become_user user requested w = (Raise e, w') /\
        w_creds w' = w_creds w /\ w_env w' = w_env w
  | _ => False
  end.
Proof.
  intros Hc Hu Hsw Hopt Hcache.
  destruct (become_user_resolved enforce fail use_id u g user requested w Hsw Hopt Hcache)
    as (w1 & (c1 & e1 & ->) & Ho & ->).
  pose proof (spec_identity_total enforce fail use_id user requested) as Ht.
  destruct (spec_identity enforce fail use_id user requested) as [[[uid gid] gids]|e| |]; try done.
  - intros Huid Hgid Hgids Hlen. destruct Ht as (Hnz & Hos & [h Hh]).
    destruct (switch_to_privileged user uid gid gids u g gs (with_ext e1 (with_cache c1 w)))
      as (c & Hrun & Has); [done..|].
    unfold lift, mbind, M_bind. rewrite Hrun. simpl.
    match goal with |- context [get_home_4user user ?s] =>
      destruct (get_home_steady use_id user s Ho) as (w2 & -> & (c2 & e2 & ->) & Ho2) end.
    rewrite Hh. simpl. eexists. split; [reflexivity|]. split; [done|]. split; [done|].
    split; [done|]. split; [|split; [|split; [|done]]].
    + simpl. rewrite !lookup_insert_ne by done. by rewrite lookup_insert_eq.
    + simpl. rewrite lookup_insert_ne by done. by rewrite lookup_insert_eq.
    + simpl. by rewrite lookup_insert_eq.
  - eexists. split; [reflexivity|]. done.
Qed.

Definition strict_world : world bed :=
  with_config (<["tsi.fail_on_invalid_gids" := VBool true]> bed_config) bed_world.

Lemma bed_switching : switching bed_config 0 0.
Proof. split; [by exists (VBool true) | done | done]. Qed.
Lemma bed_group_options : group_options bed_config true false.
Proof. split; [by exists (VBool true) | by exists (VBool false)]. Qed.
Lemma bed_cache_ok : cache_ok true (new_cache (VInt 600) true).
Proof. split; [done | by exists 600 | |]; intros ? ?; done. Qed.

Lemma become_user_spec_witness :
  exists w', become_user "alice" ["users"; "DEFAULT_GID"] bed_world = (Ok true, w') /\
    runs_as (w_creds w') 1000 100 [100; 1000] /\ w_env w' !! "HOME" = Some "/home/alice".
Proof.
  destruct (become_user_spec true false true 0 0 [0] "alice" ["users"; "DEFAULT_GID"] bed_world
    eq_refl ltac:(split; vm_compute; congruence) bed_switching bed_group_options bed_cache_ok)
    as (w' & Hr & Ha & _ & _ & Hh & _).
  - by split.
  - by split.
  - replace (foldl key_add _ _) with [100; 1000] by (vm_compute; reflexivity).
    apply Forall_cons_2; [by split|]. apply Forall_cons_2; [by split|]. apply Forall_nil_2.
  - vm_compute. congruence.
  - exists w'. split; [exact Hr|]. split; [exact Ha | exact Hh].
Defined.

(** C5: Whatever privileges the process has, a [become_user] that returns has switched to
    exactly the identity the user database and the group options grant, and
    never to root: the checks after the system calls catch every call that
    did not have its effect. *)
Theorem become_user_identity {E : Type} `{UserDB E} (enforce fail use_id : bool) (u g : Z)
    (user : str) (requested : list str) (w w' : world E) (b : bool) :
  switching (w_config w) u g -> group_options (w_config w) enforce fail ->
  cache_ok use_id (w_cache w) ->
  become_user user requested w = (Ok b, w') ->
  exists gid gids,
    spec_identity enforce fail use_id user requested = Ok (os_uid user, gid, gids) /\
    runs_as (w_creds w') (os_uid user) gid gids /\ os_uid user <> 0.
Proof.
  apply become_user_runs.
Qed.

Lemma become_user_identity_witness :
  exists gid gids, spec_identity true false true "alice" ["NONE"] = Ok (1000, gid, gids) /\
    runs_as (w_creds (snd (become_user "alice" ["NONE"] bed_world))) 1000 gid gids.
Proof.
  destruct (become_user_identity true false true 0 0 "alice" ["NONE"] bed_world
    (snd (become_user "alice" ["NONE"] bed_world)) true
    bed_switching bed_group_options bed_cache_ok) as (gid & gids & H1 & H2 & _).
  - vm_compute. reflexivity.
  - exists gid, gids. split; [exact H1 | exact H2].
Defined.

(** C3: [restore_id] undoes [become_user] whatever its outcome: from the
    credentials of the main process, after a switch that succeeded, failed on
    the way or was refused, the worker is back to the ids it started with, and
    to an environment that names nobody. *)
Theorem restore_after_become {E : Type} `{Ext E} (u g : Z) (gs : list Z) (user : str)
    (requested : list str) (w : world E) :
  w_creds w = privileged u g gs -> valid_id u -> valid_id g -> switching (w_config w) u g ->
  exists w', restore_id (snd (become_user user requested w)) = (Ok tt, w') /\
    w_creds w' = privileged u g [g] /\ w_env w' !! "HOME" = Some "/tmp" /\
    w_env w' !! "USER" = Some "nobody" /\ w_out w' = w_out w /\ w_in w' = w_in w.
Proof.
  intros Hc Hu Hg Hsw.
  destruct (become_user_switched user requested u g w Hsw Hu) as [Hcfg _ Hin Hout _ _ Hr].
  assert (switching (w_config (snd (become_user user requested w))) u g) as Hsw' by congruence.
  destruct (restore_id_recoverable u g _ Hsw' Hu Hg) as (w' & H1 & H2 & _ & H3 & H4 & H5 & H6).
  { apply Hr. rewrite Hc. apply privileged_recoverable. }
  exists w'. repeat (split; [done || congruence|]). congruence.
Qed.

Lemma restore_after_become_witness :
  exists w', restore_id (snd (become_user "alice" ["DEFAULT_GID"] bed_world)) = (Ok tt, w') /\
    w_creds w' = privileged 0 0 [0].
Proof.
  destruct (restore_after_become 0 0 [0] "alice" ["DEFAULT_GID"] bed_world eq_refl
    ltac:(split; vm_compute; congruence) ltac:(split; vm_compute; congruence) bed_switching)
    as (w' & H1 & H2 & _).
  exists w'. split; [exact H1 | exact H2].
Defined.

(** C21: With [tsi.enforce_os_gids] and [tsi.fail_on_invalid_gids] on, a
    request that is let through runs with groups the operating system gives
    the user and with no other. *)
Theorem become_user_enforced {E : Type} `{UserDB E} (use_id : bool) (u g : Z) (user : str)
    (requested : list str) (w w' : world E) (b : bool) :
  switching (w_config w) u g -> group_options (w_config w) true true ->
  cache_ok use_id (w_cache w) -> become_user user requested w = (Ok b, w') ->
  forall gid, gid = egid (w_creds w') \/ gid ∈ groups (w_creds w') ->
    gid = os_gid user \/ gid ∈ os_gids use_id user.
Proof.
  intros Hsw Hopt Hcache Hr.
  destruct (become_user_runs true true use_id u g user requested w w' b Hsw Hopt Hcache Hr)
    as (gid & gids & Hs & [_ _ _ Hegid Hgroups] & _).
  intros gid' [->|Hin]; rewrite ?Hegid.
  - eapply spec_identity_enforced; [done|]. by left.
  - eapply spec_identity_enforced; [done|]. right. by apply Hgroups.
Qed.

Lemma become_user_enforced_witness :
  100 = os_gid "alice" \/ 100 ∈ os_gids true "alice".
Proof.
  refine (become_user_enforced true 0 0 "alice" ["users"; "DEFAULT_GID"] strict_world
    (snd (become_user "alice" ["users"; "DEFAULT_GID"] strict_world)) true _ _ bed_cache_ok _ 100 _).
  - split; [by exists (VBool true) | done | done].
  - split; [by exists (VBool true) | by exists (VBool true)].
  - vm_compute. reflexivity.
  - left. vm_compute. reflexivity.
Defined.

(** C29: With [tsi.fail_on_invalid_gids] off, [become_user] grants a requested
    supplementary group although the user is not a member and
    [tsi.enforce_os_gids] is on: only a warning that it is skipped is logged. *)
Theorem become_user_grants_unchecked {E : Type} `{UserDB E} (use_id : bool) (u g : Z)
    (user : str) (primary : str) (rest : list str) (group : str) (w w' : world E) (b : bool) :
  switching (w_config w) u g -> group_options (w_config w) true false ->
  cache_ok use_id (w_cache w) ->
  primary <> "NONE" -> group ∈ rest -> group <> "DEFAULT_GID" -> os_group group <> -1 ->
  become_user user (primary :: rest) w = (Ok b, w') ->
  os_group group ∈ groups (w_creds w').
Proof.
  intros Hsw Hopt Hcache Hp Hin Hd Hn Hr.
  destruct (become_user_runs true false use_id u g user (primary :: rest) w w' b Hsw Hopt Hcache Hr)
    as (gid & gids & Hs & [_ _ _ _ Hgroups] & _).
  apply Hgroups. eapply spec_identity_grants; eauto.
Qed.

Lemma become_user_grants_unchecked_witness :
  10 ∈ groups (w_creds (snd (become_user "alice" ["DEFAULT_GID"; "wheel"] bed_world))) /\
  ~ (10 ∈ os_gids true "alice").
Proof.
  split.
  - replace 10 with (os_group "wheel") by (vm_compute; reflexivity).
    eapply (become_user_grants_unchecked true 0 0 "alice" "DEFAULT_GID" ["wheel"] "wheel" bed_world
      _ true bed_switching bed_group_options bed_cache_ok).
    + vm_compute. congruence.
    + by left.
    + vm_compute. congruence.
    + vm_compute. congruence.
    + vm_compute. reflexivity.
  - intros Hx. vm_compute in Hx. inversion Hx as [|? ? ? Hx1]; subst.
    inversion Hx1 as [|? ? ? Hx2]; subst. inversion Hx2.
Defined.
