(* ===== verification/Config.v ===== *)
(** * [lib/TSI.py], start-up: the configuration

    The defaults, the parser of the configuration file with the values it
    checks and converts, and the settings derived from it: ACL support, the
    addresses of the UNICORE/X servers, the local port range. *)

From S2P Require Import Prelude PyStr Regex World Utils UserCache Testbed.
#[local] Open Scope py_scope.
#[local] Open Scope Z_scope.

(** ** Definitions *)

Definition get_default_config : config_t := list_to_map [
  ("tsi.default_job_name", VStr "UnicoreJob");
  ("tsi.nodes_filter", VStr "");
  ("tsi.userCacheTtl", VInt 600);
  ("tsi.enforce_os_gids", VBool true);
  ("tsi.fail_on_invalid_gids", VBool false);
  ("tsi.use_id_to_resolve_gids", VBool true);
  ("tsi.open_user_sessions", VBool false);
  ("tsi.switch_uid", VBool true);
  ("tsi.debug", VInt 0);
  ("tsi.use_syslog", VBool false);
  ("tsi.worker.id", VInt 1);
  ("tsi.my_addr", VStr "");
  ("tsi.my_port", VInt 4433);
  ("tsi.unicorex_machine", VStr "localhost");
  ("tsi.disable_ipv6", VBool false);
  ("tsi.local_portrange", VNone);
  ("tsi.safe_dir", VStr "/tmp");
  ("tsi.keyfiles", VList [".ssh/authorized_keys"]);
  ("tsi.use_login_shell", VBool true);
  ("tsi.child_pids", VPids []);
  ("tsi.testing", VBool false)
].

Definition boolean_keys : list str :=
  ["tsi.open_user_sessions"; "tsi.switch_uid"; "tsi.enforce_os_gids";
   "tsi.fail_on_invalid_gids"; "tsi.use_id_to_resolve_gids"; "tsi.use_syslog";
   "tsi.debug"; "tsi.disable_ipv6"; "tsi.use_login_shell"].

Definition acl_types : list str := ["NONE"; "POSIX"; "NFS"].

(** The key files of a value: the non-empty elements, stripped. *)
Definition keyfiles (value : str) : list str :=
  base.filter (fun v => v <> "") (strip <$> split ":" value).

Definition process_config_value (key value : str) (config : config_t) : result config_t :=
  if bool_decide (key ∈ boolean_keys) then
    Ok (<[key := VBool (bool_decide (lower value ∈ ["1"; "true"]))]> config)
  else if startswith key "tsi.acl" then
    if bool_decide (value ∈ acl_types) then
      match cfg_get config "tsi.acl" (VDict []) with
      | VDict acl => Ok (<["tsi.acl" := VDict (dict_set acl (drop 8 key) value)]> config)
      | _ => throw TypeError "object does not support item assignment"
      end
    else throw KeyError ("Invalid value '" ++ value ++ "' for parameter '" ++ key ++ "', "
           ++ "must be 'NONE', 'POSIX' or 'NFS'")
  else if startswith key "tsi.allowed_dn." then
    let allowed_dns := cfg_get config "tsi.allowed_dns" (VDns []) in
    dn ← convert_dn value;
    match allowed_dns with
    | VDns l => Ok (<["tsi.allowed_dns" := VDns (l ++ [dn])]> config)
    | _ => throw AttributeError "object has no attribute 'append'"
    end
  else if str_eqb key "tsi.keyfiles" then
    Ok (<["tsi.keyfiles" := VList (keyfiles value)]> config)
  else if str_eqb key "tsi.njs_machine" then
    Ok (<["tsi_unicorex_machine" := VStr value]> config)
  else if str_eqb key "tsi_njs_port" then
    Ok (<["tsi_unicorex_port" := VStr value]> config)
  else Ok (<[key := VStr value]> config).

(** A line of the form [key=value]. *)
Definition parse_line (line : str) : option (str * str) :=
  match re_match "\s*([a-zA-Z0-9.\-_/]+)\s*=\s*(.*)$" line with
  | Some m => Some (group m 1, strip (group m 2))
  | None => None
  end.

Fixpoint process_lines (lines : list str) (config : config_t) : result config_t :=
  match lines with
  | [] => Ok config
  | line :: lines' =>
      config' ← match parse_line line with
                | Some (key, value) => process_config_value key value config
                | None => Ok config
                end;
      process_lines lines' config'
  end.

Definition setup_acl (config : config_t) : config_t :=
  let have k := negb (bool_decide (cfg_get config k VNone = VNone)) in
  let config := <["tsi.posixacl_enabled" :=
    VBool (have "tsi.getfacl_cmd" && have "tsi.setfacl_cmd")]> config in
  <["tsi.nfsacl_enabled" :=
    VBool (have "tsi.nfs_getfacl_cmd" && have "tsi.nfs_setfacl_cmd")]> config.

(** [int(lower)] and [int(upper)] of a specification [lower:upper]; every
    failure ends in the same exception. *)
Definition setup_portrange (config : config_t) : result config_t :=
  let invalid : result (Z * Z * Z) :=
    throw BaseExn "Invalid 'tsi.local_portrange' specified, must be 'lower:upper'" in
  rangespec ← cfg_at config "tsi.local_portrange";
  '(first, lower, upper) ←
    match rangespec with
    | VNone => Ok (0, -1, -1)
    | VStr s =>
        try_except
          (match split ":" (strip s) with
           | [l; u] =>
               lower ← int_of_str l; upper ← int_of_str u;
               if upper <=? lower then throw BaseExn "" else Ok (lower, lower, upper)
           | _ => throw ValueError "not enough values to unpack (expected 2)"
           end)
          (fun _ => invalid)
    | _ => invalid
    end;
  Ok (<["tsi.local_portrange" := VRange first lower upper]> config).

Section setup.
Context {E : Type} `{Ext E}.
(** [socket.getaddrinfo]: the addresses of a machine, or an error. *)
Context (getaddrinfo : str -> result (list str)).

Definition read_config_file (file_name : str) : M (world E) config_t :=
  text ← ext_read (fun p => x_read_text p file_name);
  lift (process_lines (readlines text) get_default_config).

Definition add_ip (ips : list str) (ip : str) : list str :=
  if bool_decide (ip ∈ ips) then ips else ips ++ [ip].

(** The addresses of the machines; one that does not resolve is logged. *)
Fixpoint resolve_machines (machines : list str) (ips : list str) : list str :=
  match machines with
  | [] => ips
  | machine :: rest =>
      resolve_machines rest
        (match getaddrinfo (strip machine) with
         | Ok infos => foldl add_ip ips infos
         | _ => ips
         end)
  end.

Definition setup_allowed_ips (config : config_t) : result config_t :=
  v ← cfg_at config "tsi.unicorex_machine";
  match v with
  | VStr s => Ok (<["tsi.allowed_ips" := VIps (resolve_machines (split "," s) [])]> config)
  | _ => throw AttributeError "object has no attribute 'split'"
  end.

Definition finish_setup (config : config_t) : result config_t :=
  config ← setup_allowed_ips (setup_acl config);
  setup_portrange config.
End setup.

(** ** Specification *)

(** The keys whose type the parser guarantees. *)
Record config_typed (config : config_t) : Prop := {
  ct_bool : forall k v, k ∈ boolean_keys -> config !! k = Some v ->
    v = VInt 0 \/ exists b, v = VBool b;
  ct_acl : forall v, config !! "tsi.acl" = Some v ->
    exists d, v = VDict d /\ Forall (fun kv => kv.2 ∈ acl_types) d;
  ct_keyfiles : forall v, config !! "tsi.keyfiles" = Some v ->
    exists l, v = VList l /\ Forall (fun f => f <> "") l
}.

(** The keys an entry of the file can change. *)
Definition touches (key k : str) : Prop :=
  k = key \/
  (startswith key "tsi.acl" = true /\ k = "tsi.acl") \/
  (startswith key "tsi.allowed_dn." = true /\ k = "tsi.allowed_dns") \/
  (key = "tsi.njs_machine" /\ k = "tsi_unicorex_machine") \/
  (key = "tsi_njs_port" /\ k = "tsi_unicorex_port").

(** The characters of a key. *)
Definition key_set : cset :=
  CSet false [CRange "a" "z"; CRange "A" "Z"; CRange "0" "9"; CChar "."; CChar "-"; CChar "_";
              CChar "/"].
Definition is_key (k : str) : Prop := k <> "" /\ Forall (fun c => in_set c key_set = true) k.

(** A value as [strip] leaves it, on one line. *)
Definition is_value (v : str) : Prop := (NL ∉ v) /\ (CR ∉ v) /\ strip v = v.

Definition render (kv : str * str) : str := kv.1 ++ "=" ++ kv.2 ++ nl.

(** The settings of [kvs] in order. *)
Fixpoint apply_settings (kvs : list (str * str)) (config : config_t) : result config_t :=
  match kvs with
  | [] => Ok config
  | (k, v) :: kvs' => config' ← process_config_value k v config; apply_settings kvs' config'
  end.

Example parse_line_ex : parse_line ("  tsi.my_port = 4433  " ++ nl) = Some ("tsi.my_port", "4433").
Proof. vm_compute. reflexivity. Qed.
Example parse_line_comment : parse_line ("# a=b" ++ nl) = None.
Proof. vm_compute. reflexivity. Qed.
Example portrange_ex : cfg_at <$> setup_portrange {["tsi.local_portrange" := VStr " 50:60 "]}
  = Ok (cfg_at {["tsi.local_portrange" := VRange 50 50 60]}).
Proof. vm_compute. reflexivity. Qed.

(** ** Facts: values *)

(** Membership in a concrete list of strings. *)
Ltac not_in_list :=
  let H := fresh in let B := fresh in
  intros H;
  match type of H with
  | ?P => assert (bool_decide P = true) as B by (apply bool_decide_eq_true_2; exact H)
  end;
  vm_compute in B; discriminate B.

Lemma process_config_value_frame (key value k : str) (c c' : config_t) :
  process_config_value key value c = Ok c' -> ~ touches key k -> c' !! k = c !! k.
Proof.
  unfold process_config_value, touches. intros Hp Ht.
  repeat case_match; inv_ok; try discriminate;
    repeat match goal with H : str_eqb _ _ = true |- _ => apply str_eqb_eq in H end;
    rewrite lookup_insert_ne; try done; intros <-; apply Ht; subst; tauto.
Qed.

Lemma dict_set_values (P : str -> Prop) (d : list (str * str)) (k v : str) :
  P v -> Forall (fun kv => P kv.2) d -> Forall (fun kv => P kv.2) (dict_set d k v).
Proof.
  intros Hv Hd. induction Hd as [|[k' v'] d Hkv Hd IH]; simpl; [by constructor|].
  destruct (str_eqb k k'); by constructor.
Qed.

(** An entry under a key that is not one of the typed ones keeps the types. *)
Lemma config_typed_other (key : str) (v : cval) (c : config_t) :
  key ∉ boolean_keys -> key <> "tsi.acl" -> key <> "tsi.keyfiles" ->
  config_typed c -> config_typed (<[key := v]> c).
Proof.
  intros Hb Ha Hk [Cb Ca Ck]. split.
  - intros k v' Hin. rewrite lookup_insert_ne by congruence. by apply Cb.
  - intros v'. rewrite lookup_insert_ne by done. apply Ca.
  - intros v'. rewrite lookup_insert_ne by done. apply Ck.
Qed.

Lemma process_config_value_typed (key value : str) (c c' : config_t) :
  process_config_value key value c = Ok c' -> config_typed c -> config_typed c'.
Proof.
  unfold process_config_value. intros Hp Hc. pose proof Hc as [Cb Ca Ck].
  destruct (bool_decide (key ∈ boolean_keys)) eqn:Hb.
  { inv_ok. apply bool_decide_eq_true in Hb. split.
    - intros k v Hin. destruct (decide (key = k)) as [<-|].
      + rewrite lookup_insert_eq. intros [= <-]. eauto.
      + rewrite lookup_insert_ne by done. by apply Cb.
    - intros v. rewrite lookup_insert_ne; [apply Ca|]. intros ->. revert Hb. not_in_list.
    - intros v. rewrite lookup_insert_ne; [apply Ck|]. intros ->. revert Hb. not_in_list. }
  apply bool_decide_eq_false in Hb.
  destruct (startswith key "tsi.acl") eqn:Hacl.
  { destruct (bool_decide (value ∈ acl_types)) eqn:Ht; [|discriminate].
    apply bool_decide_eq_true in Ht. destruct (cfg_get _ _ _) eqn:Hg; try discriminate. inv_ok. split.
    - intros k v Hin. rewrite lookup_insert_ne; [by apply Cb|]. intros <-. revert Hin. not_in_list.
    - intros v. rewrite lookup_insert_eq. intros [= <-]. eexists. split; [done|].
      apply (dict_set_values (fun v => v ∈ acl_types)); [done|].
      unfold cfg_get in Hg. destruct (c !! "tsi.acl") as [v|] eqn:Hv; simpl in Hg.
      + subst v. destruct (Ca _ eq_refl) as (d' & [= <-] & Hd). done.
      + injection Hg as <-. constructor.
    - intros v. rewrite lookup_insert_ne by done. apply Ck. }
  destruct (startswith key "tsi.allowed_dn.") eqn:Hdn.
  { inv_ok. repeat case_match; inv_ok. apply config_typed_other; try done. not_in_list. }
  repeat case_match; inv_ok;
    repeat match goal with
    | H : str_eqb _ _ = true |- _ => apply str_eqb_eq in H
    | H : str_eqb _ _ = false |- _ => apply str_eqb_neq in H
    end.
  - split.
    + intros k v Hin. rewrite lookup_insert_ne; [by apply Cb|]. intros <-. revert Hin. not_in_list.
    + intros v. rewrite lookup_insert_ne by done. apply Ca.
    + intros v. rewrite lookup_insert_eq. intros [= <-]. eexists. split; [done|].
      unfold keyfiles. apply Forall_forall. intros f [Hf _]%list_elem_of_filter. done.
  - apply config_typed_other; try done. not_in_list.
  - apply config_typed_other; try done. not_in_list.
  - apply config_typed_other; try done. intros ->. by vm_compute in Hacl.
Qed.

Lemma process_lines_typed (lines : list str) (c c' : config_t) :
  process_lines lines c = Ok c' -> config_typed c -> config_typed c'.
Proof.
  revert c; induction lines as [|l lines IH]; intros c; simpl; [by intros [= ->]|].
  intros Hp Hc. inv_ok. eapply IH; [done|].
  destruct (parse_line l) as [[k v]|]; [by eapply process_config_value_typed | by inv_ok].
Qed.

Lemma default_typed : config_typed get_default_config.
Proof.
  split.
  - intros k v Hin. unfold boolean_keys in Hin. rewrite !elem_of_cons in Hin.
    repeat destruct Hin as [->|Hin]; try (vm_compute; intros [= <-]; eauto). by apply elem_of_nil in Hin.
  - intros v. vm_compute. discriminate.
  - intros v. vm_compute. intros [= <-]. eexists. split; [done|]. constructor; [done | constructor].
Qed.

(** ** Facts: lines *)

Lemma key_set_no_space (c : ascii) : in_set c key_set = true -> in_set c space_set = false.
Proof. destruct c as [[] [] [] [] [] [] [] []]; vm_compute; congruence. Qed.

Lemma compile_line : compile "\s*([a-zA-Z0-9.\-_/]+)\s*=\s*(.*)$"
  = Some [TRep space_set 0 None; TOpen 1; TRep key_set 1 None; TClose 1; TRep space_set 0 None;
          lit "="; TRep space_set 0 None; TOpen 2; TRep dot 0 None; TClose 2; TEol].
Proof. vm_compute. reflexivity. Qed.

(** What the pattern of a line captures. *)
Lemma parse_line_render (k v : str) : is_key k -> is_value v -> parse_line (render (k, v)) = Some (k, v).
Proof.
  intros [Hk0 Hk] (Hn & Hc & Hv). unfold parse_line, re_match. rewrite compile_line.
  change (render (k, v)) with (k ++ "=" ++ v ++ nl). unfold run_at.
  pose proof (strip_fixed_head v Hv) as Hhead.
  assert (forall (c : ascii) r, k ++ "=" ++ v ++ nl = c :: r -> in_set c space_set = false) as Hks.
  { intros c r E. destruct k as [|c' k]; [done|]. injection E as -> _.
    apply Forall_cons in Hk as [Hk _]. by apply key_set_no_space. }
  assert (exists s' w, run false
    [TRep space_set 0 None; TOpen 1; TRep key_set 1 None; TClose 1; TRep space_set 0 None;
     lit "="; TRep space_set 0 None; TOpen 2; TRep dot 0 None; TClose 2; TEol] [] [] None
    (k ++ "=" ++ v ++ nl) = Some (s', [(2%nat, w); (1%nat, k)]) /\ strip w = v) as (s' & w & Hr & Hw).
  2: { rewrite Hr. unfold group. simpl. by rewrite Hw. }
  assert (forall op cp pv, exists s' w, run false
    [TRep space_set 0 None; TOpen 2; TRep dot 0 None; TClose 2; TEol] op cp pv (v ++ nl)
    = Some (s', (2%nat, w) :: cp) /\ strip w = v) as Htail.
  { intros op cp pv. destruct v as [|c v].
    - exists [], []. split; [|done].
      apply (run_rep_longest _ space_set 0 _ _ _ _ nl []); [by repeat constructor | simpl; lia | done|].
      cbn. by rewrite ?Nat.eqb_refl.
    - exists nl, (c :: v). split; [|done].
      apply (run_rep_longest _ space_set 0 _ _ _ _ [] ((c :: v) ++ nl)); [constructor | simpl; lia | |].
      { intros c' r [= <- _]. unfold in_set. simpl. by rewrite Hhead. }
      rewrite run_open.
      apply (run_rep_longest _ dot 0 _ _ _ _ (c :: v) nl); [by apply all_in_dot | lia | |].
      { intros c' r [= <- _]. done. }
      by rewrite run_close. }
  edestruct Htail as (s' & w & Hr & Hw). exists s', w. split; [|exact Hw].
  apply (run_rep_longest _ space_set 0 _ _ _ _ [] (k ++ "=" ++ v ++ nl));
    [constructor | simpl; lia | done|].
  rewrite run_open.
  apply (run_rep_longest _ key_set 1 _ _ _ _ k ("=" ++ v ++ nl)); [done| | |].
  { destruct k; [done | simpl; lia]. }
  { intros c' r [= <- _]. done. }
  rewrite run_close.
  apply (run_rep_longest _ space_set 0 _ _ _ _ [] ("=" ++ v ++ nl)); [constructor | simpl; lia | |].
  { intros c' r [= <- _]. done. }
  apply run_lit. exact Hr.
Qed.

Lemma process_lines_render (kvs : list (str * str)) (c : config_t) :
  Forall (fun kv => is_key kv.1 /\ is_value kv.2) kvs ->
  process_lines (render <$> kvs) c = apply_settings kvs c.
Proof.
  intros Hkvs. revert c; induction Hkvs as [|[k v] kvs [Hk Hv] _ IH]; intros c; [done|].
  rewrite fmap_cons. cbn [process_lines apply_settings]. rewrite parse_line_render by done.
  destruct (process_config_value k v c); [apply IH | done..].
Qed.

Lemma render_lines (kvs : list (str * str)) :
  Forall (fun kv => is_key kv.1 /\ is_value kv.2) kvs ->
  readlines (concat (render <$> kvs)) = render <$> kvs.
Proof.
  intros Hkvs.
  replace (render <$> kvs) with ((fun l => l ++ nl) <$> ((fun kv => kv.1 ++ "=" ++ kv.2) <$> kvs)).
  2: { rewrite <-list_fmap_compose. apply list_fmap_ext. intros i [k v] _. unfold render. simpl.
       by rewrite <-!app_assoc. }
  apply readlines_lines, Forall_fmap. eapply Forall_impl; [exact Hkvs|].
  intros [k v] [[_ Hk] (Hn & Hc & _)]. simpl in *.
  assert (forall x, x ∈ k -> x <> NL /\ x <> CR) as Hx.
  { intros x Hx. rewrite Forall_forall in Hk. specialize (Hk x Hx). split; intros ->; discriminate. }
  split; rewrite not_elem_of_app, not_elem_of_cons; (split; [|split; [done|done]]);
    intros Hin; by destruct (Hx _ Hin).
Qed.

Lemma apply_settings_app (kvs1 kvs2 : list (str * str)) (c : config_t) :
  apply_settings (kvs1 ++ kvs2) c = apply_settings kvs1 c ≫= apply_settings kvs2.
Proof.
  revert c; induction kvs1 as [|[k v] kvs1 IH]; intros c; simpl; [done|].
  destruct (process_config_value k v c); simpl; [apply IH | done..].
Qed.

Lemma apply_settings_frame (kvs : list (str * str)) (k : str) (c c' : config_t) :
  apply_settings kvs c = Ok c' -> Forall (fun kv => ~ touches kv.1 k) kvs -> c' !! k = c !! k.
Proof.
  intros Ha Hkvs. revert c Ha; induction Hkvs as [|[k' v] kvs Hk _ IH]; intros c Ha; simpl in Ha.
  - by inv_ok.
  - inv_ok. rewrite (IH _ Ha). by eapply process_config_value_frame.
Qed.

(** A key that the parser stores as it is. *)
Definition ordinary (k : str) : Prop :=
  (k ∉ boolean_keys) /\ startswith k "tsi.acl" = false /\ startswith k "tsi.allowed_dn." = false /\
  k <> "tsi.keyfiles" /\ k <> "tsi.njs_machine" /\ k <> "tsi_njs_port".

Lemma process_ordinary (k v : str) (c : config_t) :
  ordinary k -> process_config_value k v c = Ok (<[k := VStr v]> c).
Proof.
  intros (H1 & H2 & H3 & H4 & H5 & H6). unfold process_config_value.
  rewrite bool_decide_eq_false_2 by done. rewrite H2, H3.
  apply str_eqb_neq in H4, H5, H6. by rewrite H4, H5, H6.
Qed.

(** ** Facts: derived settings *)

Lemma foldl_add_ip_elem (infos ips : list str) (ip : str) :
  ip ∈ foldl add_ip ips infos <-> ip ∈ ips \/ ip ∈ infos.
Proof.
  revert ips; induction infos as [|x infos IH]; intros ips; simpl.
  - rewrite elem_of_nil. tauto.
  - rewrite IH, elem_of_cons. unfold add_ip. case_bool_decide.
    + split; [tauto|]. intros [?|[->|?]]; tauto.
    + rewrite elem_of_app, list_elem_of_singleton. tauto.
Qed.

Lemma foldl_add_ip_nodup (infos ips : list str) : NoDup ips -> NoDup (foldl add_ip ips infos).
Proof.
  revert ips; induction infos as [|x infos IH]; intros ips Hips; simpl; [done|].
  apply IH. unfold add_ip. case_bool_decide as Hx; [done|].
  apply NoDup_app. split; [done|]. split; [|apply NoDup_singleton].
  intros y Hy ->%list_elem_of_singleton. done.
Qed.

Lemma resolve_machines_elem (resolve : str -> result (list str)) machines ips ip :
  ip ∈ resolve_machines resolve machines ips <->
  ip ∈ ips \/ exists m l, m ∈ machines /\ resolve (strip m) = Ok l /\ ip ∈ l.
Proof.
  revert ips; induction machines as [|m machines IH]; intros ips; simpl.
  - split; [tauto|]. intros [?|(m & l & Hm & _)]; [done|]. by apply elem_of_nil in Hm.
  - rewrite IH. setoid_rewrite elem_of_cons. destruct (resolve (strip m)) as [infos| | |] eqn:Hr.
    1: rewrite foldl_add_ip_elem. all: split.
    all: try (intros [?|(m' & l & ? & ?)]; [tauto | right; exists m', l; tauto]).
    + intros [[?|?]|(m' & l & ? & ?)]; [tauto| |]; right; [exists m, infos | exists m', l]; tauto.
    + intros [?|(m' & l & [->|?] & Hl & ?)]; [tauto| |].
      * rewrite Hr in Hl. injection Hl as <-. tauto.
      * right. by exists m', l.
    + intros [?|(m' & l & [->|?] & Hl & ?)]; [tauto|congruence|]. right. by exists m', l.
    + intros [?|(m' & l & [->|?] & Hl & ?)]; [tauto|congruence|]. right. by exists m', l.
    + intros [?|(m' & l & [->|?] & Hl & ?)]; [tauto|congruence|]. right. by exists m', l.
Qed.

Lemma resolve_machines_nodup (resolve : str -> result (list str)) machines ips :
  NoDup ips -> NoDup (resolve_machines resolve machines ips).
Proof.
  revert ips; induction machines as [|m machines IH]; intros ips Hips; simpl; [done|].
  apply IH. destruct (resolve _); try done. by apply foldl_add_ip_nodup.
Qed.

Section read.
Context {E : Type} `{Ext E}.

Lemma read_config_file_run (file : str) (kvs : list (str * str)) (w : world E) :
  x_read_text (proc_of w) file (w_ext w) = Ok (concat (render <$> kvs)) ->
  Forall (fun kv => is_key kv.1 /\ is_value kv.2) kvs ->
  read_config_file file w = (apply_settings kvs get_default_config, w).
Proof.
  intros Hf Hkvs. unfold read_config_file, ext_read, lift, mbind, M_bind. rewrite Hf.
  by rewrite render_lines, process_lines_render.
Qed.
End read.

(** * Properties *)

(** A machine with a configuration file. *)
Definition conf_text : str :=
  concat (render <$> [("tsi.my_port", "7654"); ("tsi.switch_uid", "False"); ("tsi.my_port", "4433")]).
Definition conf_world : world bed :=
  with_ext (Bed 0 {["/tsi.properties" := conf_text]} ∅ [] [] 5000 [] []) bed_world.

(** C24: A file of [key=value] lines is read back entry by entry: reading it
    performs exactly the settings it lists, in order, on the defaults, and
    fails exactly when one of them is refused. *)
Theorem read_config_roundtrip {E : Type} `{Ext E} (file : str) (kvs : list (str * str)) (w : world E) :
  x_read_text (proc_of w) file (w_ext w) = Ok (concat (render <$> kvs)) ->
  Forall (fun kv => is_key kv.1 /\ is_value kv.2) kvs ->
  read_config_file file w = (apply_settings kvs get_default_config, w).
Proof. apply read_config_file_run. Qed.

Definition bed_settings : list (str * str) :=
  [("tsi.my_port", "7654"); ("tsi.switch_uid", "False"); ("tsi.my_port", "4433")].

Lemma bed_settings_ok : Forall (fun kv => is_key kv.1 /\ is_value kv.2) bed_settings.
Proof.
  unfold bed_settings.
  repeat (apply Forall_cons; split; [|]); [..|apply Forall_nil; exact I];
    (split; [split; [discriminate | repeat (apply Forall_cons_2; [vm_compute; reflexivity|]); apply Forall_nil_2] |
      split; [apply (bool_decide_unpack _); vm_compute; exact I|];
      split; [apply (bool_decide_unpack _); vm_compute; exact I | vm_compute; reflexivity]]).
Qed.

Lemma read_config_roundtrip_witness :
  read_config_file "/tsi.properties" conf_world
  = (apply_settings bed_settings get_default_config, conf_world).
Proof.
  apply (read_config_roundtrip "/tsi.properties" bed_settings conf_world).
  - vm_compute. reflexivity.
  - exact bed_settings_ok.
Defined.

(** For a key that is not interpreted, the last line of the file that sets
    it decides, whatever stands before it. *)
Theorem read_config_last_wins {E : Type} `{Ext E} (file : str) (before after : list (str * str))
    (k v : str) (w w' : world E) (c : config_t) :
  x_read_text (proc_of w) file (w_ext w) = Ok (concat (render <$> (before ++ ((k, v) :: after)))) ->
  Forall (fun kv => is_key kv.1 /\ is_value kv.2) (before ++ ((k, v) :: after)) ->
  ordinary k -> Forall (fun kv => ~ touches kv.1 k) after ->
  read_config_file file w = (Ok c, w') ->
  c !! k = Some (VStr v).
Proof.
  intros Hf Hkvs Hk Hafter Hr. rewrite (read_config_file_run _ _ _ Hf Hkvs) in Hr.
  injection Hr as Hr _. rewrite apply_settings_app in Hr. inv_ok. cbn [apply_settings] in Hr.
  rewrite process_ordinary in Hr by done. cbn in Hr.
  rewrite (apply_settings_frame _ k _ _ Hr Hafter). by rewrite lookup_insert_eq.
Qed.

Lemma read_config_last_wins_witness :
  match fst (read_config_file "/tsi.properties" conf_world) with
  | Ok c => c !! "tsi.my_port" = Some (VStr "4433")
  | _ => False
  end.
Proof.
  assert (is_ok (fst (read_config_file "/tsi.properties" conf_world)) = true) as R
    by (vm_compute; reflexivity).
  destruct (read_config_file "/tsi.properties" conf_world) as [[c|e|n|] w'] eqn:E.
  - apply (read_config_last_wins "/tsi.properties"
      [("tsi.my_port", "7654"); ("tsi.switch_uid", "False")] [] "tsi.my_port" "4433" conf_world w' c).
    + vm_compute. reflexivity.
    + exact bed_settings_ok.
    + repeat split; try (vm_compute; congruence).
      apply (bool_decide_unpack _). vm_compute. exact I.
    + apply Forall_nil_2.
    + exact E.
  - discriminate R.
  - discriminate R.
  - discriminate R.
Defined.

(** C31: Whatever the file says, the configuration read from it has booleans
    under the boolean keys (the default of [tsi.debug] apart), ACL types
    NONE, POSIX or NFS only, and non-empty key file names. *)
Theorem read_config_typed {E : Type} `{Ext E} (file : str) (w w' : world E) (c : config_t) :
  read_config_file file w = (Ok c, w') -> config_typed c.
Proof.
  unfold read_config_file. intros Hr. inv_run.
  eapply process_lines_typed; [eassumption | apply default_typed].
Qed.

Lemma read_config_typed_witness :
  match fst (read_config_file "/tsi.properties" conf_world) with
  | Ok c => exists v, c !! "tsi.switch_uid" = Some v /\ (v = VInt 0 \/ exists b, v = VBool b)
  | _ => False
  end.
Proof.
  assert (is_ok (fst (read_config_file "/tsi.properties" conf_world)) = true) as R
    by (vm_compute; reflexivity).
  destruct (read_config_file "/tsi.properties" conf_world) as [[c|e|n|] w'] eqn:E.
  - pose proof (ct_bool c (read_config_typed "/tsi.properties" conf_world w' c E) "tsi.switch_uid") as T.
    destruct (c !! "tsi.switch_uid") as [v|] eqn:V.
    + exists v. split; [exact V|]. apply T; [by right; left | reflexivity].
    + exfalso.
      assert (match fst (read_config_file "/tsi.properties" conf_world) with
              | Ok c => bool_decide (is_Some (c !! "tsi.switch_uid")) | _ => false end = true) as S
        by (vm_compute; reflexivity).
      rewrite E in S. cbn [fst] in S. rewrite V in S. discriminate S.
  - discriminate R.
  - discriminate R.
  - discriminate R.
Defined.

(** The addresses allowed to connect are exactly those the configured
    machines resolve to, each listed once; a machine that does not resolve
    contributes none. *)
Theorem allowed_ips_exact (getaddrinfo : str -> result (list str)) (config c : config_t) (s : str) :
  config !! "tsi.unicorex_machine" = Some (VStr s) ->
  setup_allowed_ips getaddrinfo config = Ok c ->
  exists ips, c = <["tsi.allowed_ips" := VIps ips]> config /\ NoDup ips /\
    forall ip, ip ∈ ips <->
      exists m l, m ∈ split "," s /\ getaddrinfo (strip m) = Ok l /\ ip ∈ l.
Proof.
  intros Hs. unfold setup_allowed_ips, cfg_at. rewrite Hs. simpl. intros [= <-].
  eexists. split; [done|]. split; [apply resolve_machines_nodup, NoDup_nil_2|].
  intros ip. rewrite resolve_machines_elem, elem_of_nil. tauto.
Qed.

Definition bed_resolve (m : str) : result (list str) :=
  if str_eqb m "localhost" then Ok ["::1"; "127.0.0.1"; "::1"] else os_error 2 "unknown".

Definition bed_machines : config_t := {["tsi.unicorex_machine" := VStr "localhost, nowhere"]}.

Lemma allowed_ips_exact_witness :
  exists ips, "127.0.0.1" ∈ ips /\
    setup_allowed_ips bed_resolve bed_machines
    = Ok (<["tsi.allowed_ips" := VIps ips]> bed_machines).
Proof.
  destruct (setup_allowed_ips bed_resolve bed_machines) as [c|e|n|] eqn:E;
    [|discriminate E|discriminate E|discriminate E].
  destruct (allowed_ips_exact bed_resolve bed_machines c "localhost, nowhere"
    ltac:(vm_compute; reflexivity) E) as (ips & Hc & _ & Hips).
  exists ips. split.
  - apply Hips. exists "localhost", ["::1"; "127.0.0.1"; "::1"].
    split; [by left|]. split; [vm_compute; reflexivity | by right; left].
  - f_equal. exact Hc.
Defined.

(** C32: A port range is accepted exactly when it is two integers, the upper
    larger than the lower; it is then stored with the lower port as the next
    one to use, and any other text ends the start-up with one message. *)
Theorem setup_portrange_spec (config : config_t) (s : str) :
  config !! "tsi.local_portrange" = Some (VStr s) ->
  match setup_portrange config with
  | Ok c => exists a b l u, split ":" (strip s) = [a; b] /\ int_of_str a = Ok l /\
      int_of_str b = Ok u /\ l < u /\ c = <["tsi.local_portrange" := VRange l l u]> config
  | Raise e =>
      e = Exn BaseExn "Invalid 'tsi.local_portrange' specified, must be 'lower:upper'" /\
      forall a b l u, split ":" (strip s) = [a; b] -> int_of_str a = Ok l ->
        int_of_str b = Ok u -> u <= l
  | _ => False
  end.
Proof.
  intros Hs. unfold setup_portrange, cfg_at. rewrite Hs. simpl.
  destruct (split ":" (strip s)) as [|a [|b [|]]]; simpl;
    try (split; [done|]; intros ? ? ? ?; discriminate).
  unfold int_of_str, or_raise, throw.
  destruct (parse_int 10 a) as [l|] eqn:Ha; simpl;
    [|split; [done|]; intros ? ? ? ? [= <- <-] Hl; rewrite Ha in Hl; discriminate Hl].
  destruct (parse_int 10 b) as [u|] eqn:Hb; simpl;
    [|split; [done|]; intros ? ? ? ? [= <- <-] _ Hu; rewrite Hb in Hu; discriminate Hu].
  destruct (Z.leb_spec u l) as [Hul|Hul]; simpl.
  - split; [done|]. intros ? ? ? ? [= <- <-]. rewrite Ha, Hb. by intros [= <-] [= <-].
  - exists a, b, l, u. by rewrite Ha, Hb.
Qed.

Definition bed_range : config_t := {["tsi.local_portrange" := VStr "50000:50010"]}.

Lemma setup_portrange_spec_witness :
  match setup_portrange bed_range with
  | Ok c => exists l u, l < u /\ c = <["tsi.local_portrange" := VRange l l u]>
      bed_range
  | _ => False
  end.
Proof.
  pose proof (setup_portrange_spec bed_range "50000:50010"
    ltac:(vm_compute; reflexivity)) as Hp.
  assert (is_ok (setup_portrange bed_range) = true) as R
    by (vm_compute; reflexivity).
  destruct (setup_portrange bed_range) as [c|e|n|].
  - destruct Hp as (a & b & l & u & _ & _ & _ & Hlt & Hc). exists l, u. split; [exact Hlt | exact Hc].
  - discriminate R.
  - discriminate R.
  - discriminate R.
Defined.
