(* ===== verification/Connector.v ===== *)
(** * [lib/Connector.py]: the channels to UNICORE/X

    The message protocol on the control channel, the data channel, and the
    variant that carries both on standard input and output.  [Connector] is
    the interface the request handlers use, [ConnectorLaws] what they may rely
    on; both classes of the source implement it. *)

From S2P Require Import Prelude PyStr Base64 World Testbed.
#[local] Open Scope py_scope.
#[local] Open Scope Z_scope.

(** ** The interface *)

Class Connector (E : Type) := {
  write_message : str -> M (world E) unit;
  read_message : M (world E) str;
  read_data : Z -> M (world E) str;
  write_data : str -> M (world E) Z;
  ok : option str -> M (world E) unit;
  failed : str -> M (world E) unit
}.

(** A reply on the control channel. *)
Definition line_text (message : str) : str := message ++ nl.
Definition ok_text (message : option str) : str :=
  match message with
  | None => "TSI_OK" ++ nl
  | Some m => "TSI_OK" ++ nl ++ m ++ nl
  end.
Definition failed_text (message : str) : str := "TSI_FAILED: " ++ replace message nl ":" ++ nl.

(** Only the channels differ. *)
Record channels {E : Type} (w w' : world E) : Prop := {
  ch_creds : w_creds w' = w_creds w; ch_env : w_env w' = w_env w;
  ch_cwd : w_cwd w' = w_cwd w; ch_config : w_config w' = w_config w;
  ch_cache : w_cache w' = w_cache w; ch_ext : w_ext w' = w_ext w
}.

#[export] Instance channels_preorder {E : Type} : PreOrder (channels (E := E)).
Proof. split; [by split|]. intros w1 w2 w3 [] []. split; congruence. Qed.

(** Append to the control channel. *)
Definition emit {E : Type} (text : str) (w : world E) : world E := with_out (w_out w ++ text) w.

Class ConnectorLaws (E : Type) `{Connector E} := {
  write_message_law : forall m (w : world E), write_message m w = (Ok tt, emit (line_text m) w);
  ok_law : forall m (w : world E), ok m w = (Ok tt, emit (ok_text m) w);
  failed_law : forall m (w : world E), failed m w = (Ok tt, emit (failed_text m) w);
  read_message_law : respects (channels (E := E)) read_message;
  read_data_law : forall n, respects (channels (E := E)) (read_data n);
  write_data_law : forall d (w : world E), exists w',
    write_data d w = (Ok (Z.of_nat (length d)), w') /\ channels w w'
}.

(** ** The implementations *)

Definition buf_size : Z := 32768.

(** Lines up to one that [stop] accepts: the text of the lines before it, what
    is left, and whether it was found before the end of the stream. *)
Fixpoint read_lines_until (fuel : nat) (stop : str -> bool) (acc s : str)
    : option (str * str * bool) :=
  match fuel with
  | O => None
  | S f =>
      let '(line, rest) := readline s in
      if bool_decide (line = []) then Some (acc, rest, false)
      else if stop line then Some (acc, rest, true)
      else read_lines_until f stop (acc ++ line) rest
  end.

(** Enough for every line of the stream. *)
Definition read_fuel (s : str) : nat := S (length s).

Section connectors.
Context {E : Type}.

(** The class [Connector]: [control_in] and [control_out] are text streams. *)
Definition socket_write_message (message : str) : M (world E) unit :=
  modify (fun w => with_out (w_out w ++ message ++ nl) w).

Definition socket_failed (message : str) : M (world E) unit :=
  socket_write_message ("TSI_FAILED: " ++ replace message nl ":").

Definition socket_ok (message : option str) : M (world E) unit :=
  let msg := "TSI_OK" in
  let msg := match message with Some m => (msg ++ nl) ++ m | None => msg end in
  socket_write_message msg.

(** [IOError("Socket closed")] has no errno; 0 stands for that. *)
Definition socket_read_message : M (world E) str :=
  s ← gets w_in;
  match read_lines_until (read_fuel s) (fun l => str_eqb l ("ENDOFMESSAGE" ++ nl)) [] s with
  | None => out_of_fuel
  | Some (message, rest, found) =>
      modify (with_in rest) ;;
      if (found : bool) then mret message else raise (OSError 0) "Socket closed"
  end.

(** [BufferedReader.read]: up to [limit] bytes, fewer at the end only. *)
Definition buffered_read (limit : Z) : M (world E) str :=
  if limit <? -1 then raise ValueError "read length must be non-negative or -1" else
  s ← gets w_din;
  let n := if limit =? -1 then length s else Z.to_nat limit in
  modify (with_din (drop n s)) ;;
  mret (take n s).

Definition socket_read_data (maxlen : Z) : M (world E) str :=
  let limit := Z.min maxlen buf_size in
  buffered_read limit.

Definition socket_write_data (data : str) : M (world E) Z :=
  modify (fun w => with_dout (w_dout w ++ data) w) ;;
  mret (Z.of_nat (length data)).

Definition socket_connector : Connector E := {|
  write_message := socket_write_message; read_message := socket_read_message;
  read_data := socket_read_data; write_data := socket_write_data;
  ok := socket_ok; failed := socket_failed
|}.

(** The class [StreamConnector]: everything on [in_stream] and [out_stream]. *)
Definition stream_write_message (message : str) : M (world E) unit :=
  modify (fun w => with_out (w_out w ++ message ++ nl) w).

Definition stream_read_until (termination : str) : M (world E) str :=
  s ← gets w_in;
  match read_lines_until (read_fuel s) (fun l => str_eqb (strip l) termination) [] s with
  | None => out_of_fuel
  | Some (message, rest, _) => modify (with_in rest) ;; mret message
  end.

Definition stream_read_message : M (world E) str := stream_read_until "ENDOFMESSAGE".

Definition stream_failed (message : str) : M (world E) unit :=
  stream_write_message ("TSI_FAILED: " ++ replace message nl ":").

Definition stream_ok (message : option str) : M (world E) unit :=
  stream_write_message "TSI_OK" ;;
  match message with
  | Some m => stream_write_message m
  | None => mret tt
  end.

Definition stream_read_data (_ : Z) : M (world E) str :=
  msg ← stream_read_until "---END DATA---";
  match split1 nl msg with
  | [header; msg] =>
      if startswith header "---BEGIN DATA BASE64" then lift (b64decode msg)
      else raise ValueError "Expected base64 encoded data chunk"
  | _ => raise ValueError "not enough values to unpack (expected 2, got 1)"
  end.

Definition stream_write_data (data : str) : M (world E) Z :=
  stream_write_message "---BEGIN DATA BASE64---" ;;
  stream_write_message (b64encode data) ;;
  stream_write_message "---END DATA---" ;;
  mret (Z.of_nat (length data)).

Definition stream_connector : Connector E := {|
  write_message := stream_write_message; read_message := stream_read_message;
  read_data := stream_read_data; write_data := stream_write_data;
  ok := stream_ok; failed := stream_failed
|}.
End connectors.

(** ** Reference definitions *)

(** The message among the lines of the control channel. *)
Fixpoint message_of (stop : str -> bool) (lines : list str) : option str :=
  match lines with
  | [] => None
  | l :: lines' => if stop l then Some [] else app l <$> message_of stop lines'
  end.

Definition is_end (l : str) : bool := str_eqb l ("ENDOFMESSAGE" ++ nl).

(** ** Facts: reading lines *)

Lemma readline_from_readlines (w s : str) :
  readlines_from w false s =
    let '(l, r) := readline_from w s in
    if bool_decide (l = []) then [] else l :: readlines_from [] false r.
Proof.
  revert w; induction s as [|c s IH]; intros w; simpl.
  - destruct w as [|c w]; [done|]. rewrite bool_decide_eq_false_2; [done|].
    rewrite reverse_cons. by destruct (reverse w).
  - assert (forall x, x ++ [NL] <> []) as Hne by (intros x Hx; apply app_nil in Hx as [_ Hx]; discriminate Hx).
    destruct (Ascii.eqb_spec c NL) as [->|Hn]; simpl.
    { rewrite reverse_cons, bool_decide_eq_false_2 by done. done. }
    destruct (Ascii.eqb_spec c CR) as [->|Hc]; simpl.
    { rewrite reverse_cons, bool_decide_eq_false_2 by done. f_equal.
      destruct s as [|d s]; [done|]. simpl.
      destruct (Ascii.eqb d NL) eqn:Hd; simpl; by rewrite ?Hd. }
    apply IH.
Qed.

Lemma readline_readlines (s : str) :
  readlines s = let '(l, r) := readline s in if bool_decide (l = []) then [] else l :: readlines r.
Proof. apply readline_from_readlines. Qed.

Lemma readline_from_length (w s : str) :
  (length (snd (readline_from w s)) <= length s)%nat /\
  (w = [] -> fst (readline_from w s) <> [] -> (length (snd (readline_from w s)) < length s)%nat).
Proof.
  assert (forall w s, (length (snd (readline_from w s)) <= length s)%nat) as Hle.
  { clear. intros w s. revert w; induction s as [|c s IH]; intros w; simpl; [lia|].
    destruct (Ascii.eqb c NL); simpl; [lia|]. destruct (Ascii.eqb c CR); simpl.
    - destruct s as [|d s]; simpl; [lia|]. destruct (Ascii.eqb d NL); simpl; lia.
    - specialize (IH (c :: w)). lia. }
  split; [apply Hle|]. intros ->. destruct s as [|c s]; simpl; [done|]. intros _.
  destruct (Ascii.eqb c NL); simpl; [lia|]. destruct (Ascii.eqb c CR); simpl.
  - destruct s as [|d s]; simpl; [lia|]. destruct (Ascii.eqb d NL); simpl; lia.
  - pose proof (Hle [c] s). lia.
Qed.

Lemma read_lines_until_spec (fuel : nat) (stop : str -> bool) (acc s : str) :
  (length s < fuel)%nat ->
  exists text rest found, read_lines_until fuel stop acc s = Some (acc ++ text, rest, found) /\
    (length rest <= length s)%nat /\
    message_of stop (readlines s) = if (found : bool) then Some text else None.
Proof.
  revert acc s; induction fuel as [|f IH]; intros acc s Hf; [lia|]. cbn [read_lines_until].
  rewrite readline_readlines.
  pose proof (readline_from_length [] s) as [Hle Hlt]. fold (readline s) in Hle, Hlt.
  destruct (readline s) as [l r]. simpl in Hle, Hlt.
  case_bool_decide as Hl.
  { exists [], r, false. rewrite app_nil_r. done. }
  destruct (stop l) eqn:Hs.
  { exists [], r, true. rewrite app_nil_r. simpl. by rewrite Hs. }
  destruct (IH (acc ++ l) r) as (text & rest & found & Hr & Hlen & Hm); [specialize (Hlt eq_refl Hl); lia|].
  exists (l ++ text), rest, found. rewrite Hr, app_assoc. split; [done|]. split; [lia|].
  simpl. rewrite Hs, Hm. by destruct found.
Qed.

(** A message of clean lines. *)
Lemma read_lines_until_lines (stop : str -> bool) (fuel : nat) (acc : str) (lines : list str)
    (last rest : str) :
  Forall (fun l => (NL ∉ l) /\ (CR ∉ l) /\ stop (l ++ nl) = false) lines ->
  NL ∉ last -> CR ∉ last -> stop (last ++ nl) = true -> (length lines < fuel)%nat ->
  read_lines_until fuel stop acc (concat ((fun l => l ++ nl) <$> lines) ++ (last ++ (NL :: rest)))
  = Some (acc ++ concat ((fun l => l ++ nl) <$> lines), rest, true).
Proof.
  intros Hlines Hn Hc Hs. revert acc fuel.
  induction Hlines as [|l lines (Hln & Hlc & Hls) _ IH]; intros acc fuel Hf;
    (destruct fuel as [|f]; [simpl in Hf; lia|]); cbn [read_lines_until].
  - cbn. rewrite readline_line by done. rewrite bool_decide_eq_false_2 by (by destruct last).
    by rewrite Hs, app_nil_r.
  - rewrite fmap_cons. cbn [concat].
    replace ((l ++ nl) ++ concat ((fun l => l ++ nl) <$> lines)) with
      (l ++ (NL :: concat ((fun l => l ++ nl) <$> lines))) by (by rewrite <-app_assoc).
    rewrite <-(app_assoc l). rewrite <-app_comm_cons.
    rewrite readline_line by done. rewrite bool_decide_eq_false_2 by (by destruct l).
    rewrite Hls, IH by (simpl in Hf; lia). rewrite <-!app_assoc. done.
Qed.

Lemma concat_lines_length (lines : list str) :
  (length lines <= length (concat ((fun l => l ++ nl) <$> lines)))%nat.
Proof.
  induction lines as [|l lines IH]; [done|]. rewrite fmap_cons. cbn [concat length].
  rewrite !length_app. simpl. lia.
Qed.

(** An encoded block is never taken for the end marker. *)
Lemma b64_strip_not_end (data : str) : strip (b64encode data ++ nl) <> "---END DATA---".
Proof.
  intros He. assert ("-"%char ∈ strip (b64encode data ++ nl)) as Hin by (rewrite He; by left).
  apply strip_elem in Hin. apply elem_of_app in Hin as [Hin|Hin].
  - by apply b64encode_plain in Hin as (_ & _ & []).
  - by apply list_elem_of_singleton in Hin.
Qed.

(** ** Facts: both connectors satisfy the laws *)

Section laws.
Context {E : Type}.
Implicit Type w : world E.

Lemma with_out_channels o w : channels w (with_out o w).
Proof. by split. Qed.
Lemma with_in_channels i w : channels w (with_in i w).
Proof. by split. Qed.

Lemma socket_read_message_channels : respects channels (socket_read_message (E := E)).
Proof.
  unfold socket_read_message. apply respects_bind; [exact _ | solve_respects | intros s].
  destruct (read_lines_until _ _ _ _) as [[[m r] []]|]; solve_respects;
    apply respects_modify; intros w; apply with_in_channels.
Qed.

Lemma stream_read_until_channels (t : str) : respects channels (stream_read_until (E := E) t).
Proof.
  unfold stream_read_until. apply respects_bind; [exact _ | solve_respects | intros s].
  destruct (read_lines_until _ _ _ _) as [[[m r] ?]|]; solve_respects;
    apply respects_modify; intros w; apply with_in_channels.
Qed.

#[export] Instance socket_laws : ConnectorLaws E (H := socket_connector).
Proof.
  split; simpl.
  - done.
  - intros [m|] w; unfold socket_ok, socket_write_message, modify, emit, ok_text; simpl;
      by rewrite <-?app_assoc.
  - intros m w. unfold socket_failed, socket_write_message, modify, emit, failed_text.
    by rewrite <-!app_assoc.
  - apply socket_read_message_channels.
  - intros n. unfold socket_read_data, buffered_read. solve_respects.
    apply respects_modify. by split.
  - intros d w. eexists. split; [reflexivity|]. by split.
Qed.

#[export] Instance stream_laws : ConnectorLaws E (H := stream_connector).
Proof.
  split; simpl.
  - done.
  - intros [m|] w; unfold stream_ok, stream_write_message, modify, emit, ok_text, mbind, M_bind; simpl.
    + destruct w; simpl. unfold with_out. simpl. by rewrite <-?app_assoc.
    + by rewrite <-?app_assoc.
  - intros m w. unfold stream_failed, stream_write_message, modify, emit, failed_text.
    by rewrite <-!app_assoc.
  - apply stream_read_until_channels.
  - intros n. unfold stream_read_data. apply respects_bind; [exact _ | | intros msg].
    + apply stream_read_until_channels.
    + solve_respects.
  - intros d w. eexists. split; [reflexivity|]. by split.
Qed.
End laws.

(** ** Replies

    A handler answers a request with one reply.  [silent]: a statement writes
    nothing to the control channel; [single_reply]: a statement that completes
    has written exactly one reply, and one that raises has written nothing, so
    that the error can still be reported. *)

Definition same_out {E : Type} (w w' : world E) : Prop := w_out w' = w_out w.

#[export] Instance same_out_preorder {E : Type} : PreOrder (same_out (E := E)).
Proof. split; [done|]. unfold same_out. intros w1 w2 w3. congruence. Qed.

Definition is_reply (text : str) : Prop :=
  (exists m, text = ok_text m) \/ (exists m, text = failed_text m).

Abbreviation silent := (respects same_out).

Definition single_reply {E : Type} (m : M (world E) unit) : Prop :=
  forall w, match m w with
  | (Ok _, w') => exists text, is_reply text /\ w_out w' = w_out w ++ text
  | (Raise _, w') => w_out w' = w_out w
  | _ => True
  end.

(** A step that may already answer: [None] when it has. *)
Definition maybe_reply {E A : Type} (m : M (world E) (option A)) : Prop :=
  forall w, match m w with
  | (Ok None, w') => exists text, is_reply text /\ w_out w' = w_out w ++ text
  | (Ok (Some _), w') | (Raise _, w') => w_out w' = w_out w
  | _ => True
  end.

Section replies.
Context {E : Type} `{Ext E} `{ConnectorLaws E}.

Lemma reply_ok (m : option str) : single_reply (E := E) (ok m).
Proof. intros w. rewrite ok_law. exists (ok_text m). split; [left; by exists m | done]. Qed.

Lemma reply_failed (m : str) : single_reply (E := E) (failed m).
Proof. intros w. rewrite failed_law. exists (failed_text m). split; [right; by exists m | done]. Qed.

Lemma reply_raise (k : exn_class) (msg : str) : single_reply (E := E) (raise k msg).
Proof. intros w. done. Qed.

Lemma reply_bind {A} (m : M (world E) A) (f : A -> M (world E) unit) :
  silent m -> (forall a, single_reply (f a)) -> single_reply (m ≫= f).
Proof.
  intros Hm Hf w. specialize (Hm w). unfold same_out in Hm. unfold mbind, M_bind.
  destruct (m w) as [[a|e|n|] w1]; simpl in Hm; try done.
  specialize (Hf a w1). destruct (f a w1) as [[b|e|n|] w2]; try done; by rewrite <-Hm.
Qed.

Lemma maybe_reply_bind {A} (m : M (world E) (option A)) (f : option A -> M (world E) unit) :
  maybe_reply m -> f None = mret tt -> (forall a, single_reply (f (Some a))) ->
  single_reply (m ≫= f).
Proof.
  intros Hm Hn Hf w. specialize (Hm w). unfold mbind, M_bind.
  destruct (m w) as [[[a|]|e|n|] w1]; try done.
  - specialize (Hf a w1). destruct (f (Some a) w1) as [[b|e|n|] w2]; try done; by rewrite <-Hm.
  - by rewrite Hn.
Qed.

Lemma maybe_reply_step {A B} (m : M (world E) B) (f : B -> M (world E) (option A)) :
  silent m -> (forall b, maybe_reply (f b)) -> maybe_reply (m ≫= f).
Proof.
  intros Hm Hf w. specialize (Hm w). unfold same_out in Hm. unfold mbind, M_bind.
  destruct (m w) as [[b|e|n|] w1]; simpl in Hm; try done.
  specialize (Hf b w1). destruct (f b w1) as [[[a|]|e|n|] w2]; try done; by rewrite <-Hm.
Qed.

Lemma maybe_reply_ret {A} (a : A) : maybe_reply (E := E) (mret (Some a)).
Proof. by intros w. Qed.

Lemma maybe_reply_some {A} (m : M (world E) A) : silent m -> maybe_reply (a ← m; mret (Some a)).
Proof.
  intros Hm w. specialize (Hm w). unfold same_out in Hm. unfold mbind, M_bind.
  by destruct (m w) as [[a|e|n|] w1].
Qed.

Lemma maybe_reply_none {A} (m : M (world E) unit) :
  single_reply m -> maybe_reply (m ;; mret (@None A)).
Proof.
  intros Hm w. specialize (Hm w). unfold mbind, M_bind.
  by destruct (m w) as [[a|e|n|] w1].
Qed.

Lemma maybe_reply_catch {A} (m : M (world E) A) (h : exn -> M (world E) unit) :
  silent m -> (forall e, single_reply (h e)) ->
  maybe_reply (try_catch (a ← m; mret (Some a)) (fun e => h e ;; mret None)).
Proof.
  intros Hm Hh w. specialize (Hm w). unfold same_out in Hm. unfold try_catch, mbind, M_bind.
  destruct (m w) as [[a|e|n|] w1]; simpl in Hm; try done.
  specialize (Hh e w1). destruct (h e w1) as [[b|e'|n|] w2]; try done.
  all: simpl; rewrite <-Hm; done.
Qed.

Lemma reply_run_bool {A} (m : M (world E) (bool * A)) (f : bool -> A -> M (world E) unit) :
  silent m -> (forall b a, single_reply (f b a)) -> single_reply ('(b, a) ← m; f b a).
Proof. intros Hm Hf. apply reply_bind; [done|]. by intros [b a]. Qed.

(** What is silent. *)
Lemma channel_free_silent {A} (m : M (world E) A) :
  (forall w, w_out (snd (m w)) = w_out w) -> silent m.
Proof. intros Hm w. apply Hm. Qed.
Lemma ext_call_silent {A} (f : proc -> E -> result A * E) : silent (ext_call f).
Proof. intros w. unfold ext_call. by destruct (f _ _). Qed.
Lemma ext_read_silent {A} (f : proc -> E -> result A) : silent (ext_read f).
Proof. by intros w. Qed.
Lemma set_config_silent (k : str) (v : cval) : silent (set_config (E := E) k v).
Proof. by intros w. Qed.
Lemma config_at_silent (k : str) : silent (config_at (E := E) k).
Proof. unfold config_at. solve_respects. Qed.
Lemma config_get_silent (k : str) (v : cval) : silent (config_get (E := E) k v).
Proof. unfold config_get. solve_respects. Qed.
End replies.

#[export] Hint Resolve reply_ok reply_failed reply_raise : respects.
#[export] Hint Resolve ext_call_silent ext_read_silent set_config_silent config_at_silent
  config_get_silent : respects.

(** Take a handler apart into silent steps and the reply. *)
Ltac reply_step :=
  match goal with
  | |- single_reply (let _ := _ in _) => cbv zeta
  | |- single_reply _ => solve [auto with respects]
  | |- single_reply (_ ≫= _) => apply reply_bind; [solve_respects | intros ?]
  | |- single_reply (if ?b then _ else _) => destruct b
  | |- single_reply (match ?x with _ => _ end) => destruct x
  end.
Ltac solve_reply := repeat reply_step.

(** ** Facts: whole messages *)

(** The lines of a message: without line ends, none of them the end marker. *)
Definition message_lines (lines : list str) : Prop :=
  Forall (fun l => (NL ∉ l) /\ (CR ∉ l) /\ l <> "ENDOFMESSAGE") lines.
Definition message_text (lines : list str) : str := concat ((fun l => l ++ nl) <$> lines).

Lemma read_message_lines {E : Type} (lines : list str) (rest : str) (w : world E) :
  message_lines lines -> w_in w = message_text lines ++ ("ENDOFMESSAGE" ++ (NL :: rest)) ->
  socket_read_message w = (Ok (message_text lines), with_in rest w).
Proof.
  intros Hlines Hin. unfold socket_read_message, gets, mbind, M_bind.
  unfold message_text in *. rewrite Hin, read_lines_until_lines.
  - done.
  - eapply Forall_impl; [exact Hlines|]. intros l (H1 & H2 & H3). split; [done|]. split; [done|].
    apply str_eqb_neq. intros He. apply H3. by apply app_inj_2 in He as [-> _].
  - apply (bool_decide_unpack _). by vm_compute.
  - apply (bool_decide_unpack _). by vm_compute.
  - by vm_compute.
  - unfold read_fuel. rewrite length_app. pose proof (concat_lines_length lines). lia.
Qed.

(** * Properties *)

Definition msg_world (text : str) : world bed := with_in text bed_world.

(** C25: Reading a message always ends. It returns the text of the lines before
    the first [ENDOFMESSAGE] line, and it raises the error that stops the
    worker exactly when the stream ends before such a line. *)
Theorem read_message_spec {E : Type} (w : world E) :
  fst (socket_read_message w)
  = match message_of is_end (readlines (w_in w)) with
    | Some message => Ok message
    | None => throw (OSError 0) "Socket closed"
    end.
Proof.
  unfold socket_read_message, gets, mbind, M_bind. fold is_end.
  destruct (read_lines_until_spec (read_fuel (w_in w)) is_end [] (w_in w))
    as (text & rest & found & Hr & _ & Hm); [unfold read_fuel; lia|].
  rewrite Hm. change (fun l => str_eqb l ("ENDOFMESSAGE" ++ nl)) with is_end.
  rewrite Hr. by destruct found.
Qed.

(** A message sent as lines followed by [ENDOFMESSAGE] is read back whole,
    and the next message is left on the channel. *)
Theorem read_message_roundtrip {E : Type} (lines : list str) (rest : str) (w : world E) :
  message_lines lines -> w_in w = message_text lines ++ ("ENDOFMESSAGE" ++ (NL :: rest)) ->
  socket_read_message w = (Ok (message_text lines), with_in rest w).
Proof. apply read_message_lines. Qed.

Lemma read_message_roundtrip_witness :
  socket_read_message (msg_world ("#TSI_PING" ++ nl ++ "ENDOFMESSAGE" ++ nl ++ "x"))
  = (Ok ("#TSI_PING" ++ nl), msg_world "x").
Proof.
  apply (read_message_roundtrip ["#TSI_PING"] "x"
    (msg_world ("#TSI_PING" ++ nl ++ "ENDOFMESSAGE" ++ nl ++ "x"))).
  - apply Forall_cons_2; [|apply Forall_nil_2]. split; [|split; [|discriminate]];
      apply (bool_decide_unpack _); vm_compute; exact I.
  - vm_compute. reflexivity.
Defined.

(** An error reply is one line whatever the error message contains: the
    line feeds of the message become colons, so that it cannot be mistaken
    for further lines of the protocol. *)
Theorem failed_single_line {E : Type} `{ConnectorLaws E} (message : str) (w : world E) :
  exists text, failed message w = (Ok tt, emit ("TSI_FAILED: " ++ text ++ nl) w) /\
    (NL ∉ text) /\ length text = length message.
Proof.
  exists (replace message nl ":"). rewrite failed_law. split; [done|].
  split; [|apply (replace_char_length message NL ":"%char)].
  apply (replace_char_absent message NL ":"). apply (bool_decide_unpack _). by vm_compute.
Qed.

Lemma failed_single_line_witness :
  exists text, failed (Connector := socket_connector) ("a" ++ nl ++ "b") bed_world
    = (Ok tt, emit ("TSI_FAILED: " ++ text ++ nl) bed_world) /\ (NL ∉ text).
Proof.
  destruct (failed_single_line (H := socket_connector) ("a" ++ nl ++ "b") bed_world)
    as (text & Hf & Hn & _).
  exists text. split; [exact Hf | exact Hn].
Defined.

(** C26: Data written by the stream connector is read back unchanged by its
    peer, which is left at the text that follows, whatever bytes the data
    holds. *)
Theorem stream_data_roundtrip {E : Type} (data rest : str) (n : Z) (w v : world E) :
  w_in v = w_out (snd (stream_write_data data (with_out [] w))) ++ rest ->
  stream_read_data n v = (Ok data, with_in rest v).
Proof.
  intros Hin.
  assert (w_in v = concat ((fun l => l ++ nl) <$> ["---BEGIN DATA BASE64---"; b64encode data])
    ++ ("---END DATA---" ++ (NL :: rest))) as Hv.
  { rewrite Hin. cbn [fmap list_fmap concat]. unfold stream_write_data, stream_write_message, modify,
      mbind, M_bind, mret, M_ret. simpl. by rewrite <-!app_assoc. }
  assert (split1 nl (concat ((fun l => l ++ nl) <$> ["---BEGIN DATA BASE64---"; b64encode data]))
    = ["---BEGIN DATA BASE64---"; b64encode data ++ nl]) as Hsplit.
  { rewrite fmap_cons. cbn [concat]. rewrite fmap_cons. cbn [concat fmap list_fmap].
    rewrite app_nil_r. reflexivity. }
  unfold stream_read_data, stream_read_until, gets. unfold mbind at 1 2, M_bind at 1 2.
  rewrite Hv, read_lines_until_lines.
  - rewrite app_nil_l. unfold mbind, M_bind, modify, mret, M_ret. rewrite Hsplit.
    unfold lift. rewrite b64_roundtrip; [done|]. by repeat constructor.
  - apply Forall_cons_2; [split; [|split; [|by vm_compute]]; apply (bool_decide_unpack _); by vm_compute|].
    apply Forall_cons_2; [|apply Forall_nil_2].
    split; [|split].
    + intros Hc%b64encode_plain. tauto.
    + intros Hc%b64encode_plain. tauto.
    + apply str_eqb_neq. by apply b64_strip_not_end.
  - apply (bool_decide_unpack _). by vm_compute.
  - apply (bool_decide_unpack _). by vm_compute.
  - by vm_compute.
  - unfold read_fuel. rewrite length_app. cbn [fmap list_fmap concat]. rewrite !length_app. simpl. lia.
Qed.

Lemma stream_data_roundtrip_witness :
  stream_read_data 100 (msg_world ("---BEGIN DATA BASE64---" ++ nl ++ "AAEC" ++ nl
    ++ "---END DATA---" ++ nl ++ "x"))
  = (Ok ["000"; "001"; "002"]%char, msg_world "x").
Proof.
  apply (stream_data_roundtrip ["000"; "001"; "002"]%char "x" 100 bed_world).
  vm_compute. reflexivity.
Defined.
