(* ===== verification/BSSCommon.v ===== *)
(** * [lib/BSSCommon.py]: the functions common to all batch systems

    Job submission, the parsing of status listings and job details, job
    control and the clean-up of child processes.  [BSS] is the interface a
    batch system variant implements (the methods the subclasses override),
    [BSSLaws] what the common functions rely on. *)

From S2P Require Import Prelude PyStr Regex World Utils UserCache Testbed Connector.
#[local] Open Scope py_scope.
#[local] Open Scope Z_scope.

(** ** The interface of a variant *)

Abbreviation info_t := (option (str * str * str)).
Abbreviation partitions_t := (list (str * (Z * bool))).

Class BSS := {
  get_variant : str;
  defaults : list (str * str);
  create_submit_script : str -> config_t -> result (list str);
  create_alloc_script : str -> config_t -> result (list str);
  get_extract_id_expr : str;
  extract_info : str -> result info_t;
  convert_status : str -> result str;
  parse_job_details : str -> list (str * str);
  parse_partitions : str -> result partitions_t
}.

Definition ustates : list str := ["COMPLETED"; "QUEUED"; "SUSPENDED"; "RUNNING"; "UNKNOWN"].

Class BSSLaws `{BSS} := {
  extract_info_law : forall line, exists o, extract_info line = Ok o;
  convert_status_law : forall state, exists u, convert_status state = Ok u /\ u ∈ ustates;
  submit_script_law : forall msg config, settles (create_submit_script msg config);
  alloc_script_law : forall msg config, settles (create_alloc_script msg config);
  parse_partitions_law : forall raw, settles (parse_partitions raw)
}.

(** ** The methods of the base class a variant may inherit *)

Definition base_defaults : list (str * str) := [
  ("tsi.qstat_cmd", "ps -e -os,args");
  ("tsi.abort_cmd", "SID=$(ps -e -osid,args | grep " ++ dq ++ "nice .* ./UNICORE_Job_%s" ++ dq
     ++ " | grep -v " ++ dq ++ "grep " ++ dq ++ " | egrep -o " ++ dq ++ "^\s*([0-9]+)" ++ dq
     ++ " ); pkill -SIGTERM -s $SID");
  ("tsi.get_processes_cmd", "ps -e");
  ("tsi.get_partitions_cmd", "echo")
].

Definition base_extract_id_expr : str := "\D*(\d+)\D*".
Definition base_extract_info (_ : str) : result info_t := throw RuntimeError "Method not implemented!".
Definition base_convert_status (_ : str) : result str := throw RuntimeError "Method not implemented!".
Definition base_script (_ : str) (_ : config_t) : result (list str) := Ok [].
Definition base_parse_partitions (_ : str) : result partitions_t := Ok [].

(** [kv = t.split("=", 1); result[kv[0]] = kv[1]], a token without [=] being
    skipped. *)
Definition base_parse_job_details (raw_info : str) : list (str * str) :=
  foldl (fun (result : list (str * str)) (t : str) =>
      match split1 "=" t with
      | [k; v] => dict_set result k v
      | _ => result
      end) [] (re_split_ws (strip raw_info)).

(** [None] in a format string. *)
Definition fmt (o : option str) : str := default "None" o.

(** [template % value] for a template with the conversions [%s] and [%%];
    [used]: the value has been inserted. *)
Fixpoint percent (template value : str) (used : bool) : result str :=
  match template with
  | [] => if used then Ok [] else throw TypeError "not all arguments converted during string formatting"
  | c :: t =>
      if Ascii.eqb c "%" then
        match t with
        | "s"%char :: t' =>
            if used then throw TypeError "not enough arguments for format string"
            else app value <$> percent t' value true
        | "%"%char :: t' => cons "%"%char <$> percent t' value used
        | _ => throw ValueError "unsupported format character"
        end
      else cons c <$> percent t value used
  end.

(** ** [json.dumps] of the dictionaries that are reported *)

Definition hex_digit (n : Z) : ascii := if n <? 10 then chr (48 + n) else chr (87 + n).

Definition json_char (c : ascii) : str :=
  let n := ord c in
  if Ascii.eqb c DQ then "\" ++ dq
  else if Ascii.eqb c "\" then "\\"
  else if n =? 10 then "\n"
  else if n =? 13 then "\r"
  else if n =? 9 then "\t"
  else if n =? 12 then "\f"
  else if n =? 8 then "\b"
  else if between 32 127 n then [c]
  else "\u00" ++ [hex_digit (n / 16); hex_digit (n mod 16)].

Definition json_string (s : str) : str := dq ++ (s ≫= json_char) ++ dq.
Definition json_object (members : list (str * str)) : str :=
  "{" ++ join ", " ((fun kv => json_string kv.1 ++ ": " ++ kv.2) <$> members) ++ "}".
Definition json_details (d : list (str * str)) : str :=
  json_object ((fun kv => (kv.1, json_string kv.2)) <$> d).
Definition json_partitions (d : partitions_t) : str :=
  json_object ((fun kv : str * (Z * bool) => (kv.1, json_object
    [("Nodes", str_of_Z kv.2.1); ("isDefault", if kv.2.2 then "true" else "false")])) <$> d).

(** [l.remove(x)] of an element that is there. *)
Fixpoint remove_first (x : Z) (l : list Z) : list Z :=
  match l with
  | [] => []
  | y :: l' => if x =? y then l' else y :: remove_first x l'
  end.

(** ** Status listings *)

Section status.
Context `{BSS}.

(** The value of a dictionary of states: the UNICORE state, the queue and the
    state of the batch system. *)
Abbreviation states_t := (list (str * (str * str * str))).

Fixpoint index_of (x : str) (l : list str) : option nat :=
  match l with
  | [] => None
  | y :: l' => if str_eqb x y then Some O else S <$> index_of x l'
  end.
Definition state_index (ustate : str) : result nat :=
  or_raise (index_of ustate ustates) ValueError (py_repr ustate ++ " is not in list").

Definition add_state (states : states_t) (bssid ustate queue_name state : str) : result states_t :=
  match dict_get states bssid with
  | None => Ok (dict_set states bssid (ustate, queue_name, state))
  | Some (have_state, _, _) =>
      i ← state_index ustate;
      j ← state_index have_state;
      if (j <? i)%nat then Ok (dict_set states bssid (ustate, queue_name, state)) else Ok states
  end.

Fixpoint collect_states (lines : list str) (states : states_t) : result states_t :=
  match lines with
  | [] => Ok states
  | line :: lines' =>
      info ← extract_info line;
      states' ← match info with
                | None => Ok states
                | Some (bssid, state, queue_name) =>
                    ustate ← convert_status state;
                    add_state states bssid ustate queue_name state
                end;
      collect_states lines' states'
  end.

Definition status_line (entry : str * (str * str * str)) : str :=
  let '(bssid, (ustate, queue_name, original_state)) := entry in
  " " ++ bssid ++ " " ++ ustate ++ " " ++ queue_name ++ " " ++ original_state ++ nl.

Definition parse_status_listing (qstat_result : str) : result str :=
  states ← collect_states (splitlines qstat_result) [];
  Ok ("QSTAT" ++ nl ++ concat (status_line <$> states)).

(** The ID in the output of the submit command: a failed search is [None]. *)
Definition extract_job_id (submit_result : str) : option str :=
  (fun m => group m 1) <$> re_search get_extract_id_expr submit_result.
End status.

(** ** The operations *)

Section operations.
Context {E : Type} `{Ext E} `{Connector E} `{BSS}.
(** [self.use_login_shell], read from the configuration by [init]. *)
Context (use_login_shell : bool).

(** Reap finished children.  The source removes from the list it iterates
    over: [i] is the iterator's position. *)
Fixpoint cleanup_loop (fuel i : nat) : M (world E) unit :=
  match fuel with
  | O => out_of_fuel
  | S f =>
      v ← config_at "tsi.child_pids";
      match v with
      | VPids children =>
          match children !! i with
          | None => mret tt
          | Some child_pid =>
              r ← ext_call (fun _ e => let '(r, e') := x_waitpid child_pid e in (Ok r, e'));
              (if bool_decide (r = Some 0) then mret tt
               else set_config "tsi.child_pids" (VPids (remove_first child_pid children))) ;;
              cleanup_loop f (S i)
          end
      | _ => raise TypeError "an integer is required"
      end
  end.

(** Enough for one step per child and the one that ends the loop. *)
Definition cleanup : M (world E) unit :=
  v ← config_at "tsi.child_pids";
  match v with
  | VPids children => cleanup_loop (S (length children)) 0
  | VStr [] => mret tt
  | _ => raise TypeError "an integer is required"
  end.

(** [defs.update(self.defaults)]: the defaults of the variant win. *)
Definition all_defaults : list (str * str) :=
  foldl (fun d kv => dict_set d kv.1 kv.2) base_defaults defaults.

Definition init : M (world E) unit :=
  for_each all_defaults (fun kv =>
    v ← config_get kv.1 VNone;
    when (bool_decide (v = VNone)) (set_config kv.1 (VStr kv.2))) ;;
  login ← config_at "tsi.use_login_shell";
  testing ← config_at "tsi.testing";
  when (negb (truthy testing)) (
    cmd ← config_at "tsi.qstat_cmd";
    cmd ← lift (as_str cmd);
    run_command cmd false None (truthy login) ;; mret tt).

Definition run_and_report (cmd : str) (login_shell : bool) : M (world E) unit :=
  '(success, output) ← run_command cmd false None login_shell;
  if negb success then failed output else ok (Some output).

Definition config_str (k : str) : M (world E) str :=
  c ← get_config; lift (cfg_str c k).

(** [os.chdir], [open(name, "w").write(text)] and [open(name).read()]. *)
Definition chdir (path : option str) : M (world E) unit :=
  match path with
  | None => raise TypeError "chdir: path should be string, bytes, os.PathLike or integer, not NoneType"
  | Some d =>
      cwd ← ext_read (fun p => x_chdir p d);
      modify (with_cwd cwd)
  end.
Definition write_file (name text : str) : M (world E) unit :=
  ext_call (fun p => x_write_text p name text).
Definition read_file (name : str) : M (world E) str :=
  text ← ext_read (fun p => x_read_text p name); mret (concat (readlines text)).

(** A string where [None] cannot be concatenated. *)
Definition need (o : option str) : M (world E) str :=
  lift (or_raise o TypeError "can only concatenate str (not NoneType) to str").

(** The commands of a submission, [None] when an error has been reported. *)
Definition submit_commands (job_mode msg : str) : M (world E) (option (list str)) :=
  config ← get_config;
  if str_eqb job_mode "normal" then
    cmds ← lift (create_submit_script msg config); mret (Some cmds)
  else if str_eqb job_mode "raw" then
    match extract_parameter msg "JOB_FILE" None with
    | None => failed "Job mode 'raw' requires TSI_JOB_FILE" ;; mret None
    | Some raw_cmds_file_name =>
        text ← read_file raw_cmds_file_name; mret (Some [text])
    end
  else if startswith job_mode "alloc" then
    try_catch (cmds ← lift (create_alloc_script msg config); mret (Some cmds))
      (fun _ => failed "Allocation mode not (yet) supported!" ;; mret None)
  else failed ("Illegal job mode: " ++ job_mode ++ " ") ;; mret None.

(** The script of an allocation: the commands in the background, the process
    id in a file. *)
Definition alloc_script (msg : str) (submit_cmds : list str) : str :=
  msg ++ nl ++ "{ " ++ (submit_cmds ≫= (fun line => line ++ " ; ")) ++ "} & echo $! > "
  ++ fmt (extract_parameter msg "PID_FILE" (Some "UNICORE_SCRIPT_PID")) ++ " " ++ nl.

(** Write the files of the submission and run the command. *)
Definition run_submit (is_alloc : bool) (uspace_dir msg : str) (submit_cmds : list str)
    : M (world E) (bool * str) :=
  submit_id ← random_string 6;
  let userjob_file_name := "UNICORE_Job_" ++ submit_id in
  if is_alloc then
    let cmd := alloc_script msg submit_cmds in
    write_file userjob_file_name cmd ;;
    run_command cmd true (Some "tsi.child_pids") use_login_shell
  else
    write_file userjob_file_name msg ;;
    addperms userjob_file_name 504 ;;
    let submit_cmds := submit_cmds ++ [uspace_dir ++ "/" ++ userjob_file_name] in
    let submit_file_name := "bss_submit_" ++ submit_id in
    write_file submit_file_name (submit_cmds ≫= (fun line => line ++ nl)) ;;
    addperms submit_file_name 504 ;;
    submit_cmd ← config_str "tsi.submit_cmd";
    run_command (submit_cmd ++ " ./" ++ submit_file_name) false None use_login_shell.

Definition submit (msg : str) : M (world E) unit :=
  msg ← expand msg;
  let uspace_dir := extract_parameter msg "USPACE_DIR" None in
  chdir uspace_dir ;;
  let job_mode := default "normal" (extract_parameter msg "JOB_MODE" (Some "normal")) in
  let is_alloc := startswith job_mode "alloc" in
  cmds ← submit_commands job_mode msg;
  match cmds with
  | None => mret tt
  | Some submit_cmds =>
      '(success, reply) ← run_submit is_alloc (default "" uspace_dir) msg submit_cmds;
      if negb success then failed reply
      else if is_alloc then ok None
      else match extract_job_id reply with
           | Some job_id => ok (Some job_id)
           | None => failed ("Submit failed? Submission result:" ++ reply)
           end
  end.

(** The last of the child processes: [child_pids[-1]]. *)
Definition last_child : M (world E) Z :=
  v ← config_get "tsi.child_pids" VNone;
  match v with
  | VPids l => lift (or_raise (last l) IndexError "list index out of range")
  | _ => raise TypeError "'NoneType' object is not subscriptable"
  end.

Definition run_on_login_node (message : str) : M (world E) unit :=
  message ← expand message;
  let outcome_dir := extract_parameter message "OUTCOME_DIR" None in
  let uspace_dir := extract_parameter message "USPACE_DIR" None in
  let stdout := extract_parameter message "STDOUT" None in
  let stderr := extract_parameter message "STDERR" None in
  chdir uspace_dir ;;
  match outcome_dir with
  | None => raise TypeError "stat: path should be string, bytes, os.PathLike or integer, not NoneType"
  | Some dir =>
      there ← ext_read (fun p e => Ok (x_exists p dir e));
      when (negb there) (ext_call (fun p => x_mkdir p dir) ;; addperms dir 448)
  end ;;
  submit_id ← random_string 6;
  let cmds_file_name := "UNICORE_Job_" ++ submit_id in
  write_file cmds_file_name message ;;
  addperms cmds_file_name 448 ;;
  let cmd := "./" ++ cmds_file_name ++ " > " ++ fmt outcome_dir ++ "/" ++ fmt stdout
             ++ " 2> " ++ fmt outcome_dir ++ "/" ++ fmt stderr in
  '(success, reply) ← run_command cmd true (Some "tsi.child_pids") use_login_shell;
  if (success : bool) then job_pid ← last_child; ok (Some (str_of_Z job_pid))
  else failed ("Submit failed? Submission result:" ++ reply).

Definition get_status_listing (msg : str) : M (world E) unit :=
  qstat_cmd ← config_str "tsi.qstat_cmd";
  '(success, qstat_output) ← run_command qstat_cmd false None true;
  if negb success then failed qstat_output
  else result ← lift (parse_status_listing qstat_output); ok (Some result).

Definition get_process_listing (msg : str) : M (world E) unit :=
  get_processes_cmd ← config_str "tsi.get_processes_cmd";
  run_and_report (default get_processes_cmd (extract_parameter msg "PS" (Some get_processes_cmd))) true.

Definition get_job_details (msg : str) : M (world E) unit :=
  let bssid := extract_parameter msg "BSSID" None in
  details_cmd ← config_str "tsi.details_cmd";
  bssid ← need bssid;
  '(success, output) ← run_command (details_cmd ++ " " ++ bssid) false None true;
  if negb success then failed output
  else ok (Some (json_details (parse_job_details output) ++ nl)).

Definition abort_job (msg : str) : M (world E) unit :=
  let bssid := extract_parameter msg "BSSID" None in
  abort_cmd ← config_str "tsi.abort_cmd";
  cmd ← lift (percent abort_cmd (fmt bssid) false);
  run_and_report cmd use_login_shell.

(** [hold_job] and [resume_job]: a configured command and the job ID. *)
Definition control_job (key msg : str) : M (world E) unit :=
  let bssid := extract_parameter msg "BSSID" None in
  control_cmd ← config_str key;
  bssid ← need bssid;
  run_and_report (control_cmd ++ " " ++ bssid) use_login_shell.
Definition hold_job : str -> M (world E) unit := control_job "tsi.hold_cmd".
Definition resume_job : str -> M (world E) unit := control_job "tsi.resume_cmd".

(** [Quota.get_quota]. *)
Definition get_quota : str := "USER -1".
Definition get_budget (msg : str) : M (world E) unit := ok (Some (get_quota ++ nl)).

Definition get_partitions (msg : str) : M (world E) unit :=
  get_partitions_cmd ← config_str "tsi.get_partitions_cmd";
  '(success, output) ← run_command get_partitions_cmd false None true;
  if negb success then failed output
  else result ← lift (parse_partitions output); ok (Some (json_partitions result ++ nl)).
End operations.

(** ** Specification of a status listing *)

(** The words of [l], each at its first occurrence. *)
Definition firsts (l : list str) : list str :=
  foldl (fun acc x => if bool_decide (x ∈ acc) then acc else acc ++ [x]) [] l.

Definition rank (v : str * str * str) : nat := default O (index_of v.1.1 ustates).

(** [v] is the first of the entries of [id] that have the highest state. *)
Definition best (es : list (str * (str * str * str))) (id : str) (v : str * str * str) : Prop :=
  exists i, es !! i = Some (id, v) /\
    forall j v', es !! j = Some (id, v') ->
      (rank v' <= rank v)%nat /\ ((j < i)%nat -> (rank v' < rank v)%nat).

Section entries.
Context `{BSS}.

(** The entry of a line, if it is about a job. *)
Definition entry_of (line : str) : result (option (str * (str * str * str))) :=
  info ← extract_info line;
  match info with
  | None => Ok None
  | Some (bssid, state, queue_name) =>
      ustate ← convert_status state; Ok (Some (bssid, (ustate, queue_name, state)))
  end.
End entries.

(** The children still running, as [waitpid] reports them. *)
Class Children (E : Type) `{Ext E} := {
  running : E -> list Z;
  wait_law : forall e pid, 0 < pid -> (fst (x_waitpid pid e) = Some 0 <-> pid ∈ running e);
  wait_keeps : forall e pid, running (snd (x_waitpid pid e)) = running e
}.

(** What the loop of [cleanup] leaves of a list of distinct children: it steps
    over the element that follows one it removes. *)
Fixpoint sweep (keep : Z -> bool) (l : list Z) : list Z :=
  match l with
  | [] => []
  | x :: l' =>
      if keep x then x :: sweep keep l'
      else match l' with [] => [] | y :: l'' => y :: sweep keep l'' end
  end.

(** The first run of digits. *)
Fixpoint leading_digits (s : str) : str :=
  match s with
  | [] => []
  | c :: s' => if is_digit c then c :: leading_digits s' else []
  end.
Fixpoint first_digits (s : str) : str :=
  match s with
  | [] => []
  | c :: s' => if is_digit c then leading_digits s else first_digits s'
  end.

(** ** Facts: one reply per request *)

Section replies.
Context {E : Type} `{Ext E} `{ConnectorLaws E} `{BSS}.
Context (use_login_shell : bool).

Lemma append_pid_silent (k : str) (pid : Z) : silent (append_pid (E := E) k pid).
Proof. unfold append_pid. solve_respects. Qed.
#[local] Hint Resolve append_pid_silent : respects.
Lemma run_command_silent (cmd : str) (discard : bool) (key : option str) (login : bool) :
  silent (run_command (E := E) cmd discard key login).
Proof. unfold run_command. solve_respects. Qed.
Lemma addperms_silent (path : str) (mode : Z) : silent (addperms (E := E) path mode).
Proof. unfold addperms. solve_respects. Qed.
Lemma expand_silent (m : str) : silent (expand (E := E) m).
Proof. unfold expand. solve_respects. Qed.
Lemma random_string_silent (n : nat) : silent (random_string (E := E) n).
Proof. induction n; simpl; solve_respects. Qed.
Lemma config_str_silent (k : str) : silent (config_str (E := E) k).
Proof. unfold config_str. solve_respects. Qed.
Lemma chdir_silent (d : option str) : silent (chdir (E := E) d).
Proof. unfold chdir. solve_respects. by apply respects_modify. Qed.
Lemma write_file_silent (n t : str) : silent (write_file (E := E) n t).
Proof. unfold write_file. solve_respects. Qed.
Lemma read_file_silent (n : str) : silent (read_file (E := E) n).
Proof. unfold read_file. solve_respects. Qed.
Lemma need_silent (o : option str) : silent (need (E := E) o).
Proof. unfold need. solve_respects. Qed.
Lemma last_child_silent : silent (last_child (E := E)).
Proof. unfold last_child. solve_respects. Qed.
#[local] Hint Resolve run_command_silent addperms_silent expand_silent random_string_silent
  config_str_silent chdir_silent write_file_silent read_file_silent need_silent
  last_child_silent : respects.

Lemma run_submit_silent is_alloc dir msg cmds :
  silent (run_submit (E := E) use_login_shell is_alloc dir msg cmds).
Proof. unfold run_submit. solve_respects. Qed.
#[local] Hint Resolve run_submit_silent : respects.

Lemma submit_commands_reply job_mode msg : maybe_reply (submit_commands (E := E) job_mode msg).
Proof.
  unfold submit_commands. apply maybe_reply_step; [solve_respects|]. intros config.
  destruct (str_eqb job_mode "normal"); [apply maybe_reply_some; solve_respects|].
  destruct (str_eqb job_mode "raw").
  { destruct (extract_parameter msg "JOB_FILE" None).
    - apply maybe_reply_step; [solve_respects | intros ?; apply maybe_reply_ret].
    - apply maybe_reply_none; auto with respects. }
  destruct (startswith job_mode "alloc").
  - apply maybe_reply_catch; [solve_respects | auto with respects].
  - apply maybe_reply_none; auto with respects.
Qed.

Lemma submit_reply msg : single_reply (submit (E := E) use_login_shell msg).
Proof.
  unfold submit. apply reply_bind; [solve_respects|intros m]. cbv zeta.
  apply reply_bind; [solve_respects|intros _].
  apply maybe_reply_bind; [apply submit_commands_reply | done | intros cmds].
  solve_reply.
Qed.

Lemma run_on_login_node_reply msg : single_reply (run_on_login_node (E := E) use_login_shell msg).
Proof. unfold run_on_login_node. solve_reply. Qed.

Lemma run_and_report_reply cmd login : single_reply (run_and_report (E := E) cmd login).
Proof. unfold run_and_report. solve_reply. Qed.
#[local] Hint Resolve run_and_report_reply : respects.

Lemma bss_handlers_reply msg :
  single_reply (get_status_listing (E := E) msg) /\
  single_reply (get_process_listing (E := E) msg) /\
  single_reply (get_job_details (E := E) msg) /\
  single_reply (abort_job (E := E) use_login_shell msg) /\
  single_reply (hold_job (E := E) use_login_shell msg) /\
  single_reply (resume_job (E := E) use_login_shell msg) /\
  single_reply (get_budget (E := E) msg) /\
  single_reply (get_partitions (E := E) msg).
Proof.
  unfold get_status_listing, get_process_listing, get_job_details, abort_job, hold_job,
    resume_job, control_job, get_budget, get_partitions. split_and!; solve_reply.
Qed.
End replies.

#[export] Hint Resolve append_pid_silent run_command_silent addperms_silent expand_silent
  random_string_silent config_str_silent chdir_silent write_file_silent read_file_silent
  need_silent last_child_silent : respects.
#[export] Hint Resolve run_and_report_reply : respects.

(** ** Facts: status listings *)

Section listing.
Context `{BSSLaws}.

Lemma state_index_known (u : str) : u ∈ ustates -> exists i, state_index u = Ok i /\
  index_of u ustates = Some i.
Proof.
  unfold ustates. rewrite !elem_of_cons. intros [->|[->|[->|[->|[->|[]%elem_of_nil]]]]];
    eexists; split; vm_compute; reflexivity.
Qed.

Lemma firsts_snoc (l : list str) (x : str) :
  firsts (l ++ [x]) = if bool_decide (x ∈ firsts l) then firsts l else firsts l ++ [x].
Proof. unfold firsts. by rewrite foldl_app. Qed.

Lemma firsts_elem (l : list str) (x : str) : x ∈ firsts l <-> x ∈ l.
Proof.
  induction l as [|y l IH] using rev_ind; [done|]. rewrite firsts_snoc, elem_of_app, list_elem_of_singleton.
  case_bool_decide; rewrite ?elem_of_app, ?list_elem_of_singleton, IH; [|done].
  split; [tauto|]. intros [?| ->]; [done | by apply IH].
Qed.

(** The dictionary of states after the entries [es]. *)
Record listed (es : list (str * (str * str * str))) (d : list (str * (str * str * str))) : Prop := {
  ls_known : Forall (fun e => e.2.1.1 ∈ ustates) es;
  ls_keys : d.*1 = firsts es.*1;
  ls_best : forall id v, dict_get d id = Some v -> best es id v
}.

Lemma best_snoc_other es id v id' v' : best es id v -> id <> id' -> best (es ++ [(id', v')]) id v.
Proof.
  intros (i & Hi & Hb) Hne. exists i. split; [by apply lookup_app_l_Some|].
  intros j v2 Hj. apply lookup_app_Some in Hj as [Hj|[_ Hj]]; [by apply Hb|].
  apply list_lookup_singleton_Some in Hj as [_ [= -> _]]. done.
Qed.

Lemma best_snoc_old es id v v' : best es id v -> (rank v' <= rank v)%nat -> best (es ++ [(id, v')]) id v.
Proof.
  intros (i & Hi & Hb) Hr. exists i. split; [by apply lookup_app_l_Some|].
  intros j v2 Hj. apply lookup_app_Some in Hj as [Hj|[Hlen Hj]]; [by apply Hb|].
  apply list_lookup_singleton_Some in Hj as [Hj [= ->]]. split; [done|].
  apply lookup_lt_Some in Hi. lia.
Qed.

Lemma best_snoc_new es id v' :
  (forall v, (id, v) ∈ es -> (rank v < rank v')%nat) -> best (es ++ [(id, v')]) id v'.
Proof.
  intros Hr. exists (length es). split.
  { rewrite lookup_app_r by lia. by rewrite Nat.sub_diag. }
  intros j v Hj. apply lookup_app_Some in Hj as [Hj|[Hlen Hj]].
  - apply list_elem_of_lookup_2, Hr in Hj. split; lia.
  - apply list_lookup_singleton_Some in Hj as [Hj [= <-]]. split; lia.
Qed.

Lemma best_max es id v v' : best es id v -> (id, v') ∈ es -> (rank v' <= rank v)%nat.
Proof. intros (i & _ & Hb) [j Hj]%list_elem_of_lookup. by apply (Hb j v'). Qed.

Lemma add_state_listed es d bssid u q s :
  listed es d -> u ∈ ustates ->
  exists d', add_state d bssid u q s = Ok d' /\ listed (es ++ [(bssid, (u, q, s))]) d'.
Proof.
  intros [Hk Hd Hb] Hu. unfold add_state.
  assert (Forall (fun e => e.2.1.1 ∈ ustates) (es ++ [(bssid, (u, q, s))])) as Hk'.
  { apply Forall_app_2; [done|]. by apply Forall_singleton. }
  assert (forall v, (dict_set d bssid v).*1 = firsts (es ++ [(bssid, (u, q, s))]).*1) as Hset.
  { intros v. rewrite dict_set_keys, fmap_app, Hd. cbn [fmap list_fmap]. by rewrite firsts_snoc. }
  destruct (dict_get d bssid) as [[[u0 q0] s0]|] eqn:Hg.
  - destruct (state_index_known u Hu) as (i & -> & Hi).
    pose proof (Hb _ _ Hg) as Hbest.
    assert (u0 ∈ ustates) as Hu0.
    { destruct Hbest as (k & Hk0 & _). rewrite Forall_lookup in Hk. by specialize (Hk _ _ Hk0). }
    destruct (state_index_known u0 Hu0) as (j & -> & Hj). simpl mbind.
    assert (rank (u, q, s) = i /\ rank (u0, q0, s0) = j) as [Ri Rj] by (unfold rank; cbn [fst snd]; by rewrite Hi, Hj).
    destruct (Nat.ltb_spec j i) as [Hlt|Hge].
    + eexists. split; [done|]. split; [done|apply Hset|].
      intros id v. destruct (decide (bssid = id)) as [<-|Hne].
      * rewrite dict_get_set. intros [= <-]. apply best_snoc_new.
        intros v Hv. pose proof (best_max _ _ _ _ Hbest Hv). lia.
      * rewrite dict_get_set_ne by done. intros Hv. apply best_snoc_other; [by apply Hb | congruence].
    + eexists. split; [done|]. split; [done| |].
      * rewrite fmap_app. cbn [fmap list_fmap]. rewrite firsts_snoc, <-Hd.
        rewrite bool_decide_eq_true_2; [done|]. destruct (decide (bssid ∈ d.*1)) as [|Hn]; [done|].
        apply dict_get_none in Hn. congruence.
      * intros id v Hv. destruct (decide (bssid = id)) as [<-|Hne].
        -- rewrite Hg in Hv. injection Hv as <-. apply best_snoc_old; [done | lia].
        -- apply best_snoc_other; [by apply Hb | congruence].
  - eexists. split; [done|]. split; [done|apply Hset|].
    intros id v. destruct (decide (bssid = id)) as [<-|Hne].
    + rewrite dict_get_set. intros [= <-]. apply best_snoc_new.
      intros v Hv. apply dict_get_none in Hg. rewrite Hd, firsts_elem in Hg.
      destruct Hg. apply list_elem_of_fmap. by exists (bssid, v).
    + rewrite dict_get_set_ne by done. intros Hv. apply best_snoc_other; [by apply Hb | congruence].
Qed.

Lemma collect_states_listed lines es d :
  listed es d -> exists os d', mapR entry_of lines = Ok os /\
    collect_states lines d = Ok d' /\ listed (es ++ omap id os) d'.
Proof.
  revert es d; induction lines as [|line lines IH]; intros es d Hl.
  { exists [], d. by rewrite app_nil_r. }
  cbn [collect_states mapR].
  assert (exists o, extract_info line = Ok o) as [[[[bssid state] queue]|] Hi]
    by apply extract_info_law.
  - destruct (convert_status_law state) as (u & Hc & Hu).
    assert (entry_of line = Ok (Some (bssid, (u, queue, state)))) as ->
      by (unfold entry_of; by rewrite Hi; cbn; rewrite Hc).
    rewrite Hi. cbn [mbind result_bind]. rewrite Hc. cbn [mbind result_bind].
    destruct (add_state_listed es d bssid u queue state Hl Hu) as (d1 & -> & Hl1).
    destruct (IH _ _ Hl1) as (os & d' & -> & Hd & Hl'). cbn [mbind result_bind].
    eexists _, d'. split; [done|]. split; [done|]. simpl. by rewrite <-app_assoc in Hl'.
  - assert (entry_of line = Ok None) as -> by (unfold entry_of; by rewrite Hi).
    rewrite Hi. cbn [mbind result_bind].
    destruct (IH _ _ Hl) as (os & d' & -> & Hd & Hl'). cbn [mbind result_bind].
    by eexists _, d'.
Qed.

Lemma listed_nil : listed [] [].
Proof. by split. Qed.
End listing.

(** ** Facts: the clean-up *)

Section cleanup.
Context {E : Type} `{Children E}.

Lemma remove_first_app (x : Z) (pre r : list Z) :
  x ∉ pre -> remove_first x (pre ++ x :: r) = pre ++ r.
Proof.
  induction pre as [|y pre IH]; intros Hx; simpl.
  - by rewrite Z.eqb_refl.
  - apply not_elem_of_cons in Hx as [Hne Hx]. rewrite (proj2 (Z.eqb_neq x y) Hne). by rewrite IH.
Qed.

Definition keep (rs : list Z) (pid : Z) : bool := bool_decide (pid ∈ rs).

Lemma NoDup_without (x : Z) (l k : list Z) : NoDup (l ++ x :: k) -> NoDup (l ++ k).
Proof.
  intros (Hl & Hd & Hk)%NoDup_app. apply NoDup_app. split; [done|].
  split; [intros z Hz Hin; apply (Hd z Hz); by right|]. by apply NoDup_cons in Hk as [_ ?].
Qed.

Lemma Forall_without (P : Z -> Prop) (x : Z) (l k : list Z) : Forall P (l ++ x :: k) -> Forall P (l ++ k).
Proof. rewrite !Forall_app, Forall_cons. tauto. Qed.

(** One pass from position [length pre]. *)
Lemma cleanup_loop_sweep (fuel : nat) (pre rest : list Z) (w : world E) :
  NoDup (pre ++ rest) -> Forall (fun pid => 0 < pid) (pre ++ rest) -> (length rest < fuel)%nat ->
  w_config w !! "tsi.child_pids" = Some (VPids (pre ++ rest)) ->
  exists e, running e = running (w_ext w) /\
    cleanup_loop fuel (length pre) w
    = (Ok tt, with_ext e (with_config
        (<["tsi.child_pids" := VPids (pre ++ sweep (keep (running (w_ext w))) rest)]> (w_config w)) w)).
Proof.
  revert pre rest w. induction fuel as [|f IH]; intros pre rest w Hnd Hpos Hf Hc; [lia|].
  cbn [cleanup_loop]. unfold config_at, get_config, gets, lift, cfg_at, mbind, M_bind. rewrite Hc.
  cbn [or_raise].
  rewrite lookup_app_r by lia. rewrite Nat.sub_diag.
  destruct rest as [|x rest]; cbn [lookup list_lookup].
  { exists (w_ext w). split; [done|]. cbn [sweep]. rewrite insert_id by done. by destruct w. }
  unfold ext_call. assert (0 < x) as Hx.
  { rewrite Forall_app, Forall_cons in Hpos. tauto. }
  pose proof (wait_law (w_ext w) x Hx) as Hw. pose proof (wait_keeps (w_ext w) x) as Hk.
  destruct (x_waitpid x (w_ext w)) as [r e]. simpl in Hw, Hk.
  cbn [sweep]. unfold keep at 1.
  destruct (decide (r = Some 0)) as [Hr|Hr].
  - rewrite (bool_decide_eq_true_2 (r = Some 0)) by done.
    rewrite (bool_decide_eq_true_2 (x ∈ _)) by (by apply Hw).
    destruct (IH (pre ++ [x]) rest (with_ext e w)) as (e' & He' & Hrun);
      [by rewrite <-app_assoc | by rewrite <-app_assoc | simpl in Hf; lia | by rewrite <-app_assoc |].
    exists e'. simpl in He'. split; [congruence|].
    rewrite length_app, Nat.add_1_r in Hrun. cbn [mret M_ret]. rewrite Hrun. simpl.
    rewrite Hk. by rewrite <-app_assoc.
  - rewrite (bool_decide_eq_false_2 (r = Some 0)) by done.
    rewrite (bool_decide_eq_false_2 (x ∈ _)) by (by rewrite <-Hw).
    assert (x ∉ pre) as Hxp.
    { apply NoDup_app in Hnd as (_ & Hd & _). intros Hin. apply (Hd x Hin). by left. }
    rewrite remove_first_app by done. cbn [set_config modify].
    unfold set_config, modify. simpl.
    destruct rest as [|y rest].
    + destruct f as [|f]; [simpl in Hf; lia|]. cbn [cleanup_loop].
      unfold config_at, get_config, gets, lift, cfg_at, mbind, M_bind. simpl.
      rewrite lookup_insert_eq. cbn [or_raise]. rewrite app_nil_r, lookup_ge_None_2 by lia.
      by exists e.
    + set (w1 := with_config _ _).
      destruct (IH (pre ++ [y]) rest w1) as (e' & He' & Hrun).
      * rewrite <-app_assoc. by eapply NoDup_without.
      * rewrite <-app_assoc. by eapply Forall_without.
      * simpl in Hf. lia.
      * unfold w1. simpl. rewrite lookup_insert_eq. by rewrite <-app_assoc.
      * exists e'. simpl in He'. split; [congruence|].
        rewrite length_app, Nat.add_1_r in Hrun. rewrite Hrun. unfold w1. simpl.
        rewrite Hk, insert_insert_eq. by rewrite <-app_assoc.
Qed.

Lemma sweep_keeps (k : Z -> bool) (l : list Z) (x : Z) : x ∈ l -> k x = true -> x ∈ sweep k l.
Proof.
  remember (length l) as n eqn:Hn. revert l Hn. induction n as [n IH] using lt_wf_ind.
  intros [|y l] Hn Hx Hk; [by apply elem_of_nil in Hx|]. cbn [sweep].
  apply elem_of_cons in Hx as [<-|Hx]; [rewrite Hk; by left|].
  destruct (k y).
  - right. apply (IH (length l)); simpl in *; (lia || done).
  - destruct l as [|z l]; [by apply elem_of_nil in Hx|].
    apply elem_of_cons in Hx as [<-|Hx]; [by left | right].
    apply (IH (length l)); simpl in *; (lia || done).
Qed.

Lemma sweep_sublist (k : Z -> bool) (l : list Z) : sweep k l `sublist_of` l.
Proof.
  remember (length l) as n eqn:Hn. revert l Hn. induction n as [n IH] using lt_wf_ind.
  intros [|y l] Hn; [done|]. cbn [sweep]. destruct (k y).
  - apply sublist_skip, (IH (length l)); simpl in *; (lia || done).
  - apply sublist_cons. destruct l as [|z l]; [done|].
    apply sublist_skip, (IH (length l)); simpl in *; (lia || done).
Qed.
End cleanup.

#[export] Instance bed_children : Children bed.
Proof.
  refine {| running := b_running |}.
  - intros e pid Hp. simpl. case_bool_decide; [done|]. case_bool_decide; simpl; split; try done;
      try (intros [= ->]; lia).
  - intros e pid. simpl. repeat case_bool_decide; done.
Defined.

(** ** Facts: the job ID *)

Lemma leading_digits_spec (s : str) :
  exists r, s = leading_digits s ++ r /\ Forall (fun c => is_digit c = true) (leading_digits s) /\
    match r with [] => True | c :: _ => is_digit c = false end.
Proof.
  induction s as [|c s (r & Hs & Hd & Hr)].
  { exists []. split; [done|]. split; [constructor | done]. }
  simpl.
  destruct (is_digit c) eqn:Hc.
  - exists r. split; [by rewrite Hs at 1|]. split; [by constructor | done].
  - exists (c :: s). split; [done|]. split; [constructor | done].
Qed.

Lemma first_digits_spec (s : str) :
  exists a b, s = a ++ first_digits s ++ b /\ Forall (fun c => is_digit c = false) a /\
    Forall (fun c => is_digit c = true) (first_digits s) /\
    match b with [] => True | c :: _ => is_digit c = false end /\
    (first_digits s = [] -> b = []).
Proof.
  induction s as [|c s (a & b & Hs & Ha & Hd & Hb & Hn)].
  { exists [], []. split; [done|]. split; [constructor|]. split; [constructor | done]. }
  cbn [first_digits]. destruct (is_digit c) eqn:Hc.
  - destruct (leading_digits_spec (c :: s)) as (r & Hr & Hd' & Hr'). exists [], r.
    split; [done|]. split; [done|]. split; [done|]. split; [done|]. simpl. rewrite Hc. done.
  - exists (c :: a), b. split; [by rewrite Hs at 1|]. split; [by constructor | done].
Qed.

Definition digit_set : cset := CSet false [CDigit false].
Definition non_digit_set : cset := CSet false [CDigit true].

Lemma in_digit_set (c : ascii) : in_set c digit_set = is_digit c.
Proof. unfold in_set. simpl. rewrite orb_false_r. by destruct (is_digit c). Qed.
Lemma in_non_digit_set (c : ascii) : in_set c non_digit_set = negb (is_digit c).
Proof. unfold in_set. simpl. rewrite orb_false_r. by destruct (is_digit c). Qed.

(** What follows a position: the digits and what is left, as [\D*(\d+)\D*]
    sees it. *)
Definition id_tail : list tok :=
  [TRep non_digit_set 0 None; TOpen 1; TRep digit_set 1 None; TClose 1; TRep non_digit_set 0 None].

Lemma compile_base_id : compile base_extract_id_expr = Some id_tail.
Proof. vm_compute. reflexivity. Qed.

Lemma span_non_digits (s : str) : exists a b, s = a ++ b /\ all_in non_digit_set a /\
  match b with [] => True | c :: _ => is_digit c = true end.
Proof.
  induction s as [|c s (a & b & -> & Ha & Hb)].
  { exists [], []. split; [done|]. split; [constructor | done]. }
  destruct (is_digit c) eqn:Hc.
  - exists [], (c :: a ++ b). split; [done|]. split; [constructor | done].
  - exists (c :: a), b. split; [done|]. split; [|done].
    constructor; [by rewrite in_non_digit_set, Hc | done].
Qed.

Lemma run_id_tail (op : opens) (cp : caps) (p : option ascii) (s : str) :
  first_digits s <> [] ->
  exists r, run false id_tail op cp p s = Some (r, (1%nat, first_digits s) :: cp).
Proof.
  intros Hne. destruct (first_digits_spec s) as (a & b & Hs & Ha & Hd & Hb & _).
  set (ds := first_digits s) in *. clearbody ds.
  destruct (span_non_digits b) as (b1 & b2 & -> & Hb1 & Hb2). exists b2. subst s. unfold id_tail.
  apply (run_rep_longest _ non_digit_set 0 _ _ _ _ a (ds ++ b1 ++ b2)); [| lia | |].
  { eapply Forall_impl; [exact Ha|]. intros c Hc. by rewrite in_non_digit_set, Hc. }
  { intros c r Hr. destruct ds as [|d ds]; [done|]. injection Hr as -> _.
    apply Forall_cons in Hd as [Hd _]. by rewrite in_non_digit_set, Hd. }
  rewrite run_open.
  apply (run_rep_longest _ digit_set 1 _ _ _ _ ds (b1 ++ b2)).
  { eapply Forall_impl; [exact Hd|]. intros c Hc. by rewrite in_digit_set. }
  { destruct ds; [done | simpl; lia]. }
  { intros c r Hr. rewrite Hr in Hb. by rewrite in_digit_set. }
  rewrite run_close.
  apply (run_rep_longest _ non_digit_set 0 _ _ _ _ b1 b2); [done | lia | | done].
  intros c r ->. by rewrite in_non_digit_set, Hb2.
Qed.

Lemma run_id_tail_none (op : opens) (cp : caps) (p : option ascii) (s : str) :
  first_digits s = [] -> run false id_tail op cp p s = None.
Proof.
  intros Hn. destruct (run false id_tail op cp p s) as [[r cp']|] eqn:Hr; [|done]. exfalso.
  apply run_sound in Hr. unfold id_tail in Hr.
  apply matches_rep in Hr as (a & b & -> & _ & _ & Hr). apply matches_open in Hr.
  apply matches_rep in Hr as (ds & b' & -> & Hds & Hw & _).
  destruct Hw as [Hw _]. destruct ds as [|d ds]; [simpl in Hw; lia|].
  apply Forall_cons in Hds as [Hd _]. rewrite in_digit_set in Hd.
  destruct (first_digits_spec (a ++ (d :: ds) ++ b')) as (x & y & Hs & Hx & _ & _ & Hy).
  rewrite Hn, app_nil_l in Hs. rewrite (Hy Hn), app_nil_r in Hs.
  rewrite <-Hs in Hx. rewrite Forall_app in Hx. destruct Hx as [_ Hx].
  apply Forall_cons in Hx as [Hx _]. congruence.
Qed.

Lemma first_digits_cons_nil (c : ascii) (s : str) : first_digits (c :: s) = [] -> first_digits s = [].
Proof. cbn [first_digits]. destruct (is_digit c) eqn:Hc; [|done]. simpl. by rewrite Hc. Qed.

Lemma search_id_tail (p : option ascii) (s : str) :
  (fun m => group m 1) <$> search_from false id_tail p s
  = if bool_decide (first_digits s = []) then None else Some (first_digits s).
Proof.
  case_bool_decide as Hn.
  - revert p; induction s as [|c s IH]; intros p; cbn [search_from]; unfold run_at;
      rewrite run_id_tail_none by done; [done|]. apply IH. by eapply first_digits_cons_nil.
  - destruct (run_id_tail [] [] p s Hn) as [r Hr].
    destruct s as [|c s]; cbn [search_from]; unfold run_at; by rewrite Hr.
Qed.

Section submit.
Context {E : Type} `{Ext E} `{ConnectorLaws E} `{BSS}.
Context (use_login_shell : bool).

Definition bad_mode (mode : str) : Prop :=
  mode <> "normal" /\ mode <> "raw" /\ startswith mode "alloc" = false.

Lemma submit_commands_bad (mode msg : str) (w : world E) :
  bad_mode mode ->
  submit_commands mode msg w
  = (Ok None, emit (failed_text ("Illegal job mode: " ++ mode ++ " ")) w).
Proof.
  intros (Hn & Hr & Ha). apply str_eqb_neq in Hn, Hr.
  unfold submit_commands, get_config, gets. unfold mbind at 1, M_bind at 1.
  rewrite Hn, Hr, Ha. unfold mbind, M_bind. by rewrite failed_law.
Qed.
End submit.

(** The variant of the unit tests, [tests/MockBSS.py]. *)
#[local] Instance mock_bss : BSS := {|
  get_variant := "Testing"; defaults := [];
  create_submit_script _ _ := Ok ["#!/bin/bash"];
  create_alloc_script := base_script;
  get_extract_id_expr := base_extract_id_expr;
  extract_info line :=
    match split_ws line with
    | [i; s; q] => Ok (Some (i, s, q))
    | _ => Ok None
    end;
  convert_status s := Ok (if bool_decide (s ∈ ustates) then s else "UNKNOWN");
  parse_job_details := base_parse_job_details;
  parse_partitions := base_parse_partitions
|}.

#[local] Instance mock_laws : BSSLaws.
Proof.
  split; try done; intros s; simpl.
  - repeat case_match; by eexists.
  - eexists. split; [reflexivity|]. case_bool_decide; [done|].
    apply (bool_decide_unpack _). by vm_compute.
Defined.

(** * Properties *)

(** C11: The status listing of a variant always succeeds and reports each job
    once: in the order in which the jobs first appear in the output of the
    batch system, each with the first of its entries of the highest state, so
    that the elements of a job array are summed up by the most active one. *)
Theorem parse_status_listing_spec `{BSSLaws} (qstat_result : str) :
  exists es states,
    mapR entry_of (splitlines qstat_result) = Ok es /\
    parse_status_listing qstat_result = Ok ("QSTAT" ++ nl ++ concat (status_line <$> states)) /\
    states.*1 = firsts (omap id es).*1 /\
    forall bssid v, dict_get states bssid = Some v -> best (omap id es) bssid v.
Proof.
  destruct (collect_states_listed (splitlines qstat_result) [] [] listed_nil)
    as (os & d & Hos & Hd & [_ Hk Hb]).
  exists os, d. split; [done|]. split; [|done]. unfold parse_status_listing. by rewrite Hd.
Qed.

Lemma parse_status_listing_spec_witness :
  exists es states,
    mapR entry_of (splitlines ("1 QUEUED q" ++ nl ++ "2 X q" ++ nl ++ "1 RUNNING q")) = Ok es /\
    parse_status_listing ("1 QUEUED q" ++ nl ++ "2 X q" ++ nl ++ "1 RUNNING q")
    = Ok ("QSTAT" ++ nl ++ concat (status_line <$> states)) /\
    states.*1 = firsts (omap id es).*1.
Proof.
  destruct (parse_status_listing_spec ("1 QUEUED q" ++ nl ++ "2 X q" ++ nl ++ "1 RUNNING q"))
    as (es & states & He & Hs & Hk & _).
  exists es, states. split; [exact He|]. split; [exact Hs | exact Hk].
Defined.

(** C28: [cleanup] always completes and never forgets a child that is still
    running; of the others it drops the first of every run of finished ones,
    the third and so on: it removes from the list it iterates over. *)
Theorem cleanup_spec {E : Type} `{Children E} (children : list Z) (w : world E) :
  NoDup children -> Forall (fun pid => 0 < pid) children ->
  w_config w !! "tsi.child_pids" = Some (VPids children) ->
  exists e left,
    cleanup w = (Ok tt, with_ext e (with_config (<["tsi.child_pids" := VPids left]> (w_config w)) w)) /\
    left = sweep (keep (running (w_ext w))) children /\
    left `sublist_of` children /\
    forall pid, pid ∈ children -> pid ∈ running (w_ext w) -> pid ∈ left.
Proof.
  intros Hnd Hpos Hc.
  destruct (cleanup_loop_sweep (S (length children)) [] children w) as (e & _ & Hr); [done|done|lia|done|].
  exists e, (sweep (keep (running (w_ext w))) children). split.
  - unfold cleanup, config_at, get_config, gets, lift, cfg_at, mbind, M_bind. rewrite Hc. exact Hr.
  - split; [done|]. split; [apply sweep_sublist|]. intros pid Hin Hrun. apply sweep_keeps; [done|].
    unfold keep. by apply bool_decide_eq_true_2.
Qed.

Definition busy_world : world bed :=
  with_config (<["tsi.child_pids" := VPids [11; 12; 13; 14]]> bed_config)
    (with_ext (Bed 0 ∅ ∅ [14] [11; 12; 13] 5000 [] []) bed_world).

Lemma cleanup_spec_witness :
  exists e, cleanup busy_world = (Ok tt, with_ext e (with_config
    (<["tsi.child_pids" := VPids [12; 14]]> (w_config busy_world)) busy_world)).
Proof.
  destruct (cleanup_spec [11; 12; 13; 14] busy_world) as (e & left & Hr & Hl & _).
  - apply (bool_decide_unpack _). vm_compute. exact I.
  - repeat (apply Forall_cons_2; [reflexivity|]). apply Forall_nil_2.
  - vm_compute. reflexivity.
  - exists e. rewrite Hr. rewrite Hl. reflexivity.
Defined.

(** With the expression of the base class the job ID is the first number
    in the output of the submit command, whatever surrounds it, and there is
    none exactly when the output has no digit. *)
Theorem extract_job_id_first `{BSS} (submit_result : str) :
  get_extract_id_expr = base_extract_id_expr ->
  extract_job_id submit_result
  = if bool_decide (first_digits submit_result = []) then None else Some (first_digits submit_result).
Proof.
  intros He. unfold extract_job_id, re_search. rewrite He, compile_base_id.
  apply search_id_tail.
Qed.

Lemma extract_job_id_first_witness :
  extract_job_id ("job <4711> is submitted to queue q1" ++ nl) = Some "4711".
Proof.
  rewrite (extract_job_id_first (H := mock_bss) ("job <4711> is submitted to queue q1" ++ nl) eq_refl).
  reflexivity.
Defined.



(** A submission with an unknown job mode is refused: the process moves to
    the job directory, the mode is reported, and no file is written and no
    command run. *)
Theorem submit_illegal_mode {E : Type} `{Ext E} `{ConnectorLaws E} `{BSS} (login : bool)
    (msg dir cwd mode : str) (w : world E) :
  let message := expand_variables (w_env w) msg in
  extract_parameter message "USPACE_DIR" None = Some dir ->
  x_chdir (proc_of w) dir (w_ext w) = Ok cwd ->
  extract_parameter message "JOB_MODE" (Some "normal") = Some mode -> bad_mode mode ->
  submit login msg w
  = (Ok tt, emit (failed_text ("Illegal job mode: " ++ mode ++ " ")) (with_cwd cwd w)).
Proof.
  intros message Hd Hcwd Hm Hbad. assert (expand msg w = (Ok message, w)) as He by done.
  assert (chdir (Some dir) w = (Ok tt, with_cwd cwd w)) as Hch.
  { unfold chdir, ext_read, modify, mbind, M_bind. by rewrite Hcwd. }
  unfold submit. unfold mbind at 1, M_bind at 1. rewrite He. cbv zeta. rewrite Hd, Hm.
  unfold mbind, M_bind. rewrite Hch. cbn [default]. by rewrite submit_commands_bad.
Qed.

Definition mode_msg : str := "#TSI_USPACE_DIR /work" ++ nl ++ "#TSI_JOB_MODE turbo" ++ nl.

Lemma submit_illegal_mode_witness :
  submit (H0 := socket_connector) true mode_msg bed_world
  = (Ok tt, emit ("TSI_FAILED: Illegal job mode: turbo " ++ nl) (with_cwd "/work" bed_world)).
Proof.
  apply (submit_illegal_mode (H0 := socket_connector) true mode_msg "/work" "/work" "turbo" bed_world).
  - vm_compute. reflexivity.
  - vm_compute. reflexivity.
  - vm_compute. reflexivity.
  - split; [discriminate|]. split; [discriminate | vm_compute; reflexivity].
Defined.
