(* ===== verification/IO.v ===== *)
(** * [lib/IO.py]: file transfer and listings

    Reading and writing parts of files over the data channel, the listing of
    files and directories, the free space of a partition. *)

From S2P Require Import Prelude PyStr Regex World Utils UserCache Testbed Connector BSSCommon.
#[local] Open Scope py_scope.
#[local] Open Scope Z_scope.

(** ** Definitions *)

(** [os.path.join(path, entry)]. *)
Definition path_join (path entry : str) : str :=
  if startswith entry "/" then entry
  else if str_eqb path "" || endswith path "/" then path ++ entry
  else path ++ "/" ++ entry.

(** The permissions: a letter for each bit that is set. *)
Definition mode_table : list (Z * ascii) :=
  [(256, "r"%char); (128, "w"%char); (64, "x"%char); (32, "r"%char); (16, "w"%char);
   (8, "x"%char); (4, "r"%char); (2, "w"%char); (1, "x"%char)].

Definition mode_string (mode : Z) : str :=
  (fun fc : Z * ascii => if Z.land mode fc.1 =? 0 then "-"%char else fc.2) <$> mode_table.

(** [stat.S_ISDIR]. *)
Definition is_directory (mode : Z) : bool := Z.land mode 61440 =? 16384.

(** [re.sub(r'[\r\n]', '?', path)]. *)
Definition one_line_path (path : str) : str :=
  (fun c => if Ascii.eqb c NL || Ascii.eqb c CR then "?"%char else c) <$> path.

(** A flag of the listing: the letter or a blank. *)
Definition flag (b : bool) (c : str) : str := if b then c else " ".

(** The position of the process, the offsets and the size of a slice [buf[a:b]]. *)
Definition slice (buf : str) (a b : Z) : str := take (Z.to_nat (b - a)) (drop (Z.to_nat a) buf).

Definition recursion_limit : nat := 1000.

Section operations.
Context {E : Type} `{Ext E} `{Connector E}.

(** [expand_variables(extract_parameter(...))], which fails on [None]. *)
Definition expand_path (o : option str) : M (world E) str :=
  match o with
  | Some path => expand path
  | None => raise AttributeError "'NoneType' object has no attribute 'replace'"
  end.

(** [int(extract_parameter(...))]. *)
Definition int_parameter (msg parameter : str) : M (world E) Z :=
  match extract_parameter msg parameter None with
  | Some s => lift (int_of_str s)
  | None => raise TypeError
      "int() argument must be a string, a bytes-like object or a real number, not 'NoneType'"
  end.

(** The reading loop: every call reads into the beginning of the buffer. *)
Fixpoint read_loop (fuel : nat) (path : str) (pos total remaining : Z) (buf : str)
    : M (world E) (Z * str) :=
  match fuel with
  | O => out_of_fuel
  | S f =>
      if remaining <=? 0 then mret (total, buf) else
      data ← ext_call (fun p => x_readinto p path (pos + total) (Z.of_nat (length buf)));
      if bool_decide (data = []) then mret (total, buf) else
      let n := Z.of_nat (length data) in
      read_loop f path pos (total + n) (remaining - n) (data ++ drop (length data) buf)
  end.

(** The writing loop over [buf[write_offset:total]]. *)
Fixpoint send_loop (fuel : nat) (buf : str) (total write_offset must_write : Z) : M (world E) unit :=
  match fuel with
  | O => out_of_fuel
  | S f =>
      if must_write <=? 0 then mret tt else
      written ← write_data (slice buf write_offset total);
      send_loop f buf total (write_offset + written) (must_write - written)
  end.

Definition get_file_chunk (msg : str) : M (world E) unit :=
  path ← expand_path (extract_parameter msg "FILE" None);
  start ← int_parameter msg "START";
  length ← int_parameter msg "LENGTH";
  ext_call (fun p => x_open p path "rb") ;;
  seekable ← ext_read (fun _ e => Ok (x_seekable path e));
  when (seekable && (start <? 0)) (raise (OSError EINVAL) "[Errno 22] Invalid argument") ;;
  when (length <? 0) (raise ValueError "negative count") ;;
  let buf := replicate (Z.to_nat length) "000"%char in
  '(total_bytes_read, buf) ← read_loop (S (Z.to_nat length)) path
    (if (seekable : bool) then start else 0) 0 length buf;
  ok (Some ("TSI_LENGTH " ++ str_of_Z total_bytes_read ++ nl ++ "ENDOFMESSAGE")) ;;
  send_loop (S (Z.to_nat total_bytes_read)) buf total_bytes_read 0 total_bytes_read.

(** Write one block to the file. *)
Fixpoint store_loop (fuel : nat) (path buf : str) (write_offset must_write : Z) : M (world E) unit :=
  match fuel with
  | O => out_of_fuel
  | S f =>
      if must_write <=? 0 then mret tt else
      written ← ext_call (fun p =>
        x_write p path (slice buf write_offset (Z.of_nat (length buf))));
      store_loop f path buf (write_offset + written) (must_write - written)
  end.

(** Receive until [remaining] bytes have come. *)
Fixpoint receive_loop (fuel : nat) (path : str) (remaining : Z) : M (world E) unit :=
  match fuel with
  | O => out_of_fuel
  | S f =>
      if remaining <=? 0 then mret tt else
      buf ← read_data remaining;
      let bytes_read := Z.of_nat (length buf) in
      store_loop (S (length buf)) path buf 0 bytes_read ;;
      receive_loop f path (remaining - bytes_read)
  end.

Definition put_file_chunk (msg : str) : M (world E) unit :=
  path_and_mode ← lift (or_raise (extract_parameter msg "FILE" None) AttributeError
    "'NoneType' object has no attribute 'rindex'");
  mode_index ← lift (or_raise (rindex " " path_and_mode) ValueError "substring not found");
  path ← expand (take mode_index path_and_mode);
  let mode := drop (S mode_index) path_and_mode in
  let action := default "1" (extract_parameter msg "FILESACTION" None) in
  length ← int_parameter msg "LENGTH";
  let open_mode := if str_eqb action "3" then "ab" else "wb" in
  ext_call (fun p => x_open p path open_mode) ;;
  ok (Some "ENDOFMESSAGE") ;;
  receive_loop (S (Z.to_nat length)) path length ;;
  try_catch (m ← lift (int8_of_str mode); ext_call (fun p => x_chmod p path m))
    (fun e => match exn_kind e with OSError _ => mret tt | _ => lift (Raise e) end).

(** The entry of one file. *)
Definition get_info (path : str) : M (world E) str :=
  statinfo ← ext_read (fun p => x_stat p path);
  let mode := st_mode statinfo in
  can_read ← ext_read (fun p e => Ok (x_access p path 4 e));
  can_write ← ext_read (fun p e => Ok (x_access p path 2 e));
  can_exec ← ext_read (fun p e => Ok (x_access p path 1 e));
  c ← gets w_creds;
  let perms := "--" ++ mode_string mode in
  let size := str_of_Z (st_size statinfo) in
  let modt := str_of_Z (st_mtime statinfo) in
  user ← ext_read (fun _ e => or_raise (x_getpwuid e (st_uid statinfo)) KeyError
    ("getpwuid(): uid not found: " ++ str_of_Z (st_uid statinfo)));
  group ← ext_read (fun _ e => or_raise (x_getgrgid e (st_gid statinfo)) KeyError
    ("getgrgid(): gid not found: " ++ str_of_Z (st_gid statinfo)));
  mret (" " ++ flag (is_directory mode) "D" ++ flag can_read "R" ++ flag can_write "W"
        ++ flag can_exec "X" ++ flag (euid c =? st_uid statinfo) "O" ++ " " ++ size ++ " " ++ modt
        ++ " " ++ one_line_path path ++ nl ++ perms ++ " " ++ user ++ " " ++ group).

(** One entry of a directory: a failure leaves it out. *)
Definition list_entry (full_path : str) : M (world E) unit :=
  try_catch (file_info ← get_info full_path; write_message file_info) (fun _ => mret tt).

(** [depth] is what is left of the recursion limit of the interpreter. *)
Fixpoint list_directory (depth : nat) (path : str) (recursive : bool) : M (world E) unit :=
  match depth with
  | O => raise RuntimeError "maximum recursion depth exceeded"
  | S d =>
      entries ← ext_read (fun p => x_listdir p path);
      for_each entries (fun entry =>
        let full_path := path_join path entry in
        is_dir ← ext_read (fun p e => Ok (recursive && x_isdir p full_path e));
        when is_dir (list_directory d full_path recursive ;; write_message "<") ;;
        list_entry full_path)
  end.

Definition ls_modes : list str := ["R"; "A"; "N"].

Definition ls (msg : str) : M (world E) unit :=
  path ← expand_path (extract_parameter msg "FILE" None);
  let mode := extract_parameter msg "LS_MODE" None in
  if negb (bool_decide (fmt mode ∈ ls_modes)) then
    failed ("Unknown TSI_LS mode: '" ++ fmt mode ++ "', must be one of 'R', 'A' or 'N'.")
  else
    let as_single_file := str_eqb (fmt mode) "A" in
    let recurse := str_eqb (fmt mode) "R" in
    ok (Some "START_LISTING") ;;
    there ← ext_read (fun p e => Ok (x_exists p path e));
    when there (
      try_catch (
        is_dir ← ext_read (fun p e => Ok (x_isdir p path e));
        if is_dir && negb as_single_file then list_directory recursion_limit path recurse
        else info ← get_info path; write_message info)
      (fun e => match exn_kind e with OSError _ => mret tt | _ => lift (Raise e) end)) ;;
    write_message "END_LISTING".

(** The total and the free space in a line of [df]. *)
Definition df_line (acc : str * str) (line : str) : str * str :=
  match re_match "(\S+)\s+(\d+)\s+(\d+)\s+(\d+).+" line with
  | Some m => (group m 2, group m 4)
  | None => acc
  end.

Definition df (msg : str) : M (world E) unit :=
  path ← expand_path (extract_parameter msg "FILE" None);
  login ← config_get "tsi.use_login_shell" (VBool true);
  '(success, result) ← run_command ("df -P -B 1 " ++ path) false None (truthy login);
  if (success : bool) then
    let '(total, free) := foldl df_line ("-1", "-1") (splitlines result) in
    ok (Some "START_DF") ;;
    write_message ("TOTAL " ++ total) ;;
    write_message ("FREE " ++ free) ;;
    write_message "USER -1" ;;
    write_message "END_DF"
  else failed result.
End operations.

Example mode_string_ex : mode_string 33188 = "rw-r--r--".
Proof. vm_compute. reflexivity. Qed.
Example df_ex : foldl df_line ("-1", "-1")
  ["Filesystem 1-blocks Used Available Capacity Mounted on";
   "/dev/sda1 52576092160 20937261056 28937121792 42% /"] = ("52576092160", "28937121792").
Proof. vm_compute. reflexivity. Qed.

(** ** The file system the transfers rely on *)

(** The contents of regular files as a process sees them: opening for writing
    empties, writing appends and takes everything, reading returns what is
    there up to the size asked for. *)
Class Files (E : Type) `{Ext E} := {
  content : E -> proc -> str -> option str;
  open_read_law : forall p f e c, content e p f = Some c -> x_open p f "rb" e = (Ok tt, e);
  open_write_law : forall p f e e', x_open p f "wb" e = (Ok tt, e') -> content e' p f = Some [];
  open_append_law : forall p f e e',
    x_open p f "ab" e = (Ok tt, e') -> content e' p f = Some (default [] (content e p f));
  seek_law : forall p f e c, content e p f = Some c -> x_seekable f e = true;
  read_law : forall p f e c off n, content e p f = Some c -> 0 <= off -> 0 <= n ->
    x_readinto p f off n e = (Ok (take (Z.to_nat n) (drop (Z.to_nat off) c)), e);
  write_law : forall p f e c s, content e p f = Some c -> exists e',
    x_write p f s e = (Ok (Z.of_nat (length s)), e') /\ content e' p f = Some (c ++ s);
  chmod_law : forall p f e m, content (snd (x_chmod p f m e)) p f = content e p f
}.

#[export] Instance bed_file_system : Files bed.
Proof.
  refine {| content := fun e p f => b_files e !! bed_abs p f |}.
  - intros p f e c Hc. simpl. by rewrite Hc.
  - intros p f e e'. simpl. intros [= <-]. simpl. by rewrite lookup_insert_eq.
  - intros p f e e'. simpl. intros [= <-]. simpl. by rewrite lookup_insert_eq.
  - done.
  - intros p f e c off n Hc _ _. simpl. by rewrite Hc.
  - intros p f e c s Hc. eexists. split; [reflexivity|]. simpl. rewrite lookup_insert_eq. by rewrite Hc.
  - done.
Defined.

(** ** Facts: receiving *)

Lemma slice_all (s : str) : slice s 0 (Z.of_nat (length s)) = s.
Proof. unfold slice. rewrite Z.sub_0_r, Nat2Z.id. simpl. by rewrite firstn_all. Qed.

Section receive.
Context {E : Type} `{Files E}.

(** One block is stored by one call. *)
Lemma store_loop_run (path buf c : str) (w : world E) :
  content (w_ext w) (proc_of w) path = Some c ->
  exists e, store_loop (S (length buf)) path buf 0 (Z.of_nat (length buf)) w = (Ok tt, with_ext e w) /\
    content e (proc_of w) path = Some (c ++ buf).
Proof.
  intros Hc. destruct buf as [|b buf].
  { exists (w_ext w). rewrite app_nil_r. split; [by destruct w | done]. }
  destruct (write_law (proc_of w) path (w_ext w) c (b :: buf) Hc) as (e & Hw & He).
  exists e. split; [|done]. cbn [store_loop].
  destruct (Z.leb_spec (Z.of_nat (length (b :: buf))) 0) as [Hl|_]; [simpl in Hl; lia|].
  rewrite slice_all. unfold ext_call. unfold mbind, M_bind. rewrite Hw.
  cbn [length store_loop].
  destruct (Z.leb_spec (Z.of_nat (S (length buf)) - Z.of_nat (S (length buf))) 0); [done | lia].
Qed.

Lemma buffered_read_take (n : Z) (w : world E) :
  0 < n <= buf_size ->
  buffered_read n w = (Ok (take (Z.to_nat n) (w_din w)), with_din (drop (Z.to_nat n) (w_din w)) w).
Proof.
  intros Hn. unfold buffered_read, gets, modify, mbind, M_bind.
  destruct (Z.ltb_spec n (-1)); [lia|]. destruct (Z.eqb_spec n (-1)); [lia|]. done.
Qed.

(** Everything that was announced arrives, block by block. *)
Lemma receive_loop_run (fuel : nat) (path c : str) (remaining : Z) (w : world E) :
  content (w_ext w) (proc_of w) path = Some c ->
  0 <= remaining -> remaining < Z.of_nat fuel -> remaining <= Z.of_nat (length (w_din w)) ->
  exists e, receive_loop (H0 := socket_connector) fuel path remaining w
    = (Ok tt, with_ext e (with_din (drop (Z.to_nat remaining) (w_din w)) w)) /\
    content e (proc_of w) path = Some (c ++ take (Z.to_nat remaining) (w_din w)).
Proof.
  revert c remaining w. induction fuel as [|f IH]; intros c remaining w Hc Hr Hf Hd; [lia|].
  cbn [receive_loop]. destruct (Z.leb_spec remaining 0) as [Hz|Hpos].
  { assert (remaining = 0) as -> by lia. exists (w_ext w). simpl. rewrite app_nil_r, drop_0.
    split; [by destruct w | done]. }
  cbn [read_data socket_connector]. unfold socket_read_data.
  set (n := Z.min remaining buf_size).
  assert (0 < n <= buf_size /\ n <= remaining) as (Hn & Hnr) by (unfold n, buf_size; lia).
  unfold mbind at 1, M_bind at 1. rewrite buffered_read_take by done.
  set (d := take (Z.to_nat n) (w_din w)).
  assert (Z.of_nat (length d) = n) as Hlen by (unfold d; rewrite length_take; lia).
  destruct (store_loop_run path d c (with_din (drop (Z.to_nat n) (w_din w)) w) Hc) as (e & Hs & He).
  unfold mbind, M_bind. rewrite Hs, Hlen.
  destruct (IH (c ++ d) (remaining - n) (with_ext e (with_din (drop (Z.to_nat n) (w_din w)) w)))
    as (e' & Hrun & He'); [done|lia|lia|simpl; rewrite length_drop; lia|].
  exists e'. rewrite Hrun. simpl. rewrite drop_drop.
  replace (Z.to_nat n + Z.to_nat (remaining - n))%nat with (Z.to_nat remaining) by lia.
  split; [done|]. simpl in He'. unfold proc_of in *. simpl in He'. rewrite He', <-app_assoc.
  do 2 f_equal. unfold d.
  rewrite <-(take_drop (Z.to_nat n) (take (Z.to_nat remaining) (w_din w))) at 1.
  rewrite take_take, take_drop_commute.
  replace (Z.to_nat n `min` Z.to_nat remaining)%nat with (Z.to_nat n) by lia.
  by replace (Z.to_nat n + Z.to_nat (remaining - n))%nat with (Z.to_nat remaining) by lia.
Qed.
End receive.

(** ** Facts: sending *)

Section send.
Context {E : Type} `{Files E}.

(** A file is read by one call, and a second one that finds its end. *)
Lemma read_loop_run (path c : str) (start n : Z) (w : world E) :
  content (w_ext w) (proc_of w) path = Some c -> 0 <= start -> 0 <= n ->
  let chunk := slice c start (start + n) in
  exists buf, read_loop (S (Z.to_nat n)) path start 0 n (replicate (Z.to_nat n) "000"%char) w
    = (Ok (Z.of_nat (length chunk), chunk ++ buf), w).
Proof.
  intros Hc Hs Hn. cbn zeta. unfold slice. replace (start + n - start) with n by lia.
  set (chunk := take (Z.to_nat n) (drop (Z.to_nat start) c)).
  assert (length chunk = Nat.min (Z.to_nat n) (length c - Z.to_nat start)) as Hlen
    by (unfold chunk; by rewrite length_take, length_drop).
  assert (forall t, t = Z.of_nat (length chunk) -> 0 < n - t ->
    take (Z.to_nat n) (drop (Z.to_nat (start + t)) c) = []) as Hend.
  { intros t -> Hpos. rewrite drop_ge by lia. by rewrite firstn_nil. }
  assert (forall off, 0 <= off -> forall f : str -> M (world E) (Z * str),
    (ext_call (fun p => x_readinto p path off (Z.of_nat (length (replicate (Z.to_nat n) "000"%char)))) ≫= f) w
    = f (take (Z.to_nat n) (drop (Z.to_nat off) c)) w) as Hread.
  { intros off Hoff f. unfold mbind, M_bind, ext_call. rewrite length_replicate, Z2Nat.id by done.
    rewrite (read_law _ _ _ _ _ _ Hc) by done. by destruct w. }
  cbn [read_loop]. destruct (Z.leb_spec n 0) as [Hz|Hpos].
  { exists []. unfold chunk. assert (n = 0) as -> by lia. done. }
  rewrite Hread by lia. rewrite Z.add_0_r. fold chunk. case_bool_decide as Hnil.
  { exists (replicate (Z.to_nat n) "000"%char). rewrite Hnil. done. }
  assert (0 < length chunk)%nat as Hsome by (destruct chunk; [done | simpl; lia]).
  clearbody chunk. exists (drop (length chunk) (replicate (Z.to_nat n) "000"%char)).
  assert (length (chunk ++ drop (length chunk) (replicate (Z.to_nat n) "000"%char))
    = length (replicate (Z.to_nat n) "000"%char)) as Hbuf
    by (rewrite length_app, length_drop, length_replicate; lia).
  set (buf := chunk ++ _) in *. clearbody buf.
  assert (exists k, Z.to_nat n = S k) as (k & Hk) by (exists (pred (Z.to_nat n)); lia).
  rewrite Hk at 1. cbn [read_loop]. rewrite Z.add_0_l, Hbuf.
  destruct (Z.leb_spec (n - Z.of_nat (length chunk)) 0) as [Hz|Hmore]; [done|].
  rewrite Hread, Hend by lia. done.
Qed.

Lemma send_loop_run (chunk buf : str) (w : world E) :
  let n := Z.of_nat (length chunk) in
  send_loop (H0 := socket_connector) (S (Z.to_nat n)) (chunk ++ buf) n 0 n w
  = (Ok tt, with_dout (w_dout w ++ chunk) w).
Proof.
  cbn zeta. rewrite Nat2Z.id. cbn [send_loop].
  destruct (Z.leb_spec (Z.of_nat (length chunk)) 0) as [Hz|Hpos].
  { destruct chunk; [|simpl in Hz; lia]. rewrite app_nil_r. by destruct w. }
  destruct (length chunk) as [|k] eqn:Hk; [lia|]. rewrite <-Hk.
  unfold slice. rewrite Z.sub_0_r, Nat2Z.id, drop_0, take_app_length.
  cbn [write_data socket_connector]. unfold socket_write_data, modify, mbind, M_bind, mret, M_ret.
  rewrite Hk. cbn [send_loop]. by rewrite (proj2 (Z.leb_le _ 0)) by lia.
Qed.

Lemma receive_loop_starves (fuel : nat) (path c : str) (remaining : Z) (w : world E) :
  content (w_ext w) (proc_of w) path = Some c ->
  Z.of_nat (length (w_din w)) < remaining ->
  fst (receive_loop (H0 := socket_connector) fuel path remaining w) = OutOfFuel.
Proof.
  revert c remaining w. induction fuel as [|f IH]; intros c remaining w Hc Hr; [done|].
  cbn [receive_loop]. destruct (Z.leb_spec remaining 0) as [|Hpos]; [lia|].
  cbn [read_data socket_connector]. unfold socket_read_data.
  set (n := Z.min remaining buf_size).
  assert (0 < n <= buf_size) as Hn by (unfold n, buf_size; lia).
  unfold mbind at 1, M_bind at 1. rewrite buffered_read_take by done.
  set (d := take (Z.to_nat n) (w_din w)).
  destruct (store_loop_run path d c (with_din (drop (Z.to_nat n) (w_din w)) w) Hc) as (e & Hs & He).
  unfold mbind, M_bind. rewrite Hs. apply (IH (c ++ d)); [done|].
  simpl. unfold d. rewrite length_take, length_drop. lia.
Qed.
End send.

(** ** Facts: the requests *)

(** A request names the file and gives the numbers. *)
Definition int_given (msg parameter : str) (n : Z) : Prop :=
  exists s, extract_parameter msg parameter None = Some s /\ int_of_str s = Ok n.

Lemma int_parameter_given {E : Type} (msg parameter : str) (n : Z) (w : world E) :
  int_given msg parameter n -> int_parameter msg parameter w = (Ok n, w).
Proof. intros (s & Hs & Hi). unfold int_parameter. rewrite Hs. unfold lift. by rewrite Hi. Qed.

(** [x] and its mode as the [FILE] parameter of a write request gives them. *)
Lemma rindex_last (c : ascii) (a b : str) : c ∉ b -> rindex c (a ++ c :: b) = Some (length a).
Proof.
  intros Hb. induction a as [|x a IH]; simpl.
  - assert (rindex c b = None) as ->.
    { clear -Hb. induction b as [|x b IH]; [done|]. simpl. apply not_elem_of_cons in Hb as [Hx Hb].
      rewrite (IH Hb). by destruct (Ascii.eqb_spec x c). }
    by rewrite Ascii.eqb_refl.
  - by rewrite IH.
Qed.

(** Nothing that was written to the control channel is taken back. *)
Definition extends {E : Type} (w w' : world E) : Prop := exists t, w_out w' = w_out w ++ t.

#[export] Instance extends_preorder {E : Type} : PreOrder (extends (E := E)).
Proof.
  split; [by intros w; exists []; rewrite app_nil_r|].
  intros w1 w2 w3 [a Ha] [b Hb]. exists (a ++ b). by rewrite Hb, Ha, app_assoc.
Qed.

Section listing.
Context {E : Type} `{Ext E} `{ConnectorLaws E}.

Lemma silent_extends {A} (m : M (world E) A) : silent m -> respects extends m.
Proof. intros Hm w. specialize (Hm w). exists []. unfold same_out in Hm. by rewrite Hm, app_nil_r. Qed.

Lemma write_extends (m : str) : respects extends (write_message (E := E) m).
Proof. intros w. rewrite write_message_law. by exists (line_text m). Qed.

Lemma get_info_silent (path : str) : silent (get_info (E := E) path).
Proof. unfold get_info. solve_respects. Qed.

#[local] Hint Resolve write_extends : respects.
#[local] Hint Extern 2 (respects extends (ext_read _)) => apply silent_extends, ext_read_silent : respects.
#[local] Hint Extern 2 (respects extends (get_info _)) => apply silent_extends, get_info_silent : respects.

Lemma list_entry_extends (path : str) : respects extends (list_entry (E := E) path).
Proof. unfold list_entry. solve_respects. Qed.

#[local] Hint Resolve list_entry_extends : respects.

Lemma list_directory_extends (d : nat) (path : str) (r : bool) :
  respects extends (list_directory (E := E) d path r).
Proof.
  revert path. induction d as [|d IH]; intros path; cbn [list_directory]; solve_respects.
Qed.
End listing.

(** * Properties *)



(** A machine with two files. *)
Definition files_bed : bed :=
  Bed 0 {["/tmp/a" := "0123456789"; "/orphan" := "x"]} ∅ [] [] 5000 [] [].
Definition files_world : world bed := with_din "abcdef" (with_ext files_bed bed_world).

Definition get_msg : str :=
  "#TSI_GETFILECHUNK" ++ nl ++ "#TSI_FILE /tmp/a" ++ nl ++ "#TSI_START 3" ++ nl ++ "#TSI_LENGTH 4" ++ nl.
Definition put_msg : str :=
  "#TSI_PUTFILECHUNK" ++ nl ++ "#TSI_FILE /tmp/a 644" ++ nl ++ "#TSI_FILESACTION 3" ++ nl
  ++ "#TSI_LENGTH 4" ++ nl.
Definition ls_msg : str :=
  "#TSI_LS" ++ nl ++ "#TSI_FILE /orphan" ++ nl ++ "#TSI_LS_MODE A" ++ nl.

Lemma int_given_is (msg parameter s : str) (n : Z) :
  extract_parameter msg parameter None = Some s -> int_of_str s = Ok n -> int_given msg parameter n.
Proof. by exists s. Qed.



(** C33: When the data channel ends before the announced number of bytes has
    come, the receiving loop of [put_file_chunk] never ends: no number of
    iterations completes it. *)
Theorem put_file_chunk_starves {E : Type} `{Files E} (path c : str) (remaining : Z) (w : world E) :
  content (w_ext w) (proc_of w) path = Some c -> Z.of_nat (length (w_din w)) < remaining ->
  forall fuel, fst (receive_loop (H0 := socket_connector) fuel path remaining w) = OutOfFuel.
Proof. intros Hc Hr fuel. by apply (receive_loop_starves fuel path c). Qed.

Lemma put_file_chunk_starves_witness :
  fst (receive_loop (H0 := socket_connector) 1000 "/tmp/a" 7 files_world) = OutOfFuel.
Proof.
  apply (put_file_chunk_starves "/tmp/a" "0123456789" 7 files_world); vm_compute; done.
Defined.

(** A listing that completes is framed: [START_LISTING], the entries,
    [END_LISTING]; an unknown mode gets one error reply and no listing.  A
    listing that raises has written nothing or a listing that is not closed. *)
Theorem ls_framing {E : Type} `{Ext E} `{ConnectorLaws E} (msg : str) (w : world E) :
  let known := bool_decide (fmt (extract_parameter msg "LS_MODE" None) ∈ ls_modes) in
  let start := ok_text (Some "START_LISTING") in
  exists text, w_out (snd (ls msg w)) = w_out w ++ text /\
  match fst (ls msg w) with
  | Ok _ => if known then exists entries, text = start ++ entries ++ line_text "END_LISTING"
            else exists m, text = failed_text m
  | Raise _ => text = [] \/ known = true /\ exists entries, text = start ++ entries
  | _ => True
  end.
Proof.
  intros known start. unfold ls. fold known.
  destruct (extract_parameter msg "FILE" None) as [file|]; cbn [expand_path].
  2: { exists []. rewrite app_nil_r. split; [done | by left]. }
  rewrite (bind_run _ _ _ _ _ (expand_run file w)).
  destruct known; cbn [negb].
  2: { rewrite failed_law. eexists. split; [reflexivity|]. by eexists. }
  cbv zeta. rewrite (bind_run _ _ _ _ _ (ok_law _ w)). fold start. set (w1 := emit _ w).
  set (path := expand_variables _ _).
  rewrite (bind_run _ _ w1 w1 (x_exists (proc_of w1) path (w_ext w1))) by done.
  match goal with |- context [when ?b ?m] => pose (body := when b m); fold body end.
  assert (extends w1 (snd (body w1))) as [entries He].
  { apply respects_when; [exact _|]. apply respects_try; [exact _| |intros e; solve_respects].
    apply respects_bind; [exact _ | by apply silent_extends; intros s | intros d].
    destruct (d && _); [apply list_directory_extends|].
    apply respects_bind; [exact _ | apply silent_extends, get_info_silent | intros i]. apply write_extends. }
  assert (forall tail, w_out w ++ start ++ entries ++ tail = (w_out w1 ++ entries) ++ tail) as Hout
    by (intros tail; unfold w1, emit; cbn [w_out with_out]; by rewrite !app_assoc).
  rewrite bind_match. destruct (body w1) as [[u|e|n|] w2]; cbn [snd] in He.
  - rewrite write_message_law. exists (start ++ entries ++ line_text "END_LISTING").
    rewrite Hout, <-He. split; [reflexivity|]. by exists entries.
  - exists (start ++ entries). rewrite <-(app_nil_r entries), Hout, app_nil_r.
    cbn [fst snd]. split; [done | right]. rewrite app_nil_r. split; [done | by exists entries].
  - exists (start ++ entries). rewrite <-(app_nil_r entries), Hout, app_nil_r. done.
  - exists (start ++ entries). rewrite <-(app_nil_r entries), Hout, app_nil_r. done.
Qed.

(** C34: A single file whose owner has no entry in the user database makes the
    request raise after the listing was opened: the error reply of the caller
    then follows the reply already sent. *)
Theorem ls_unknown_owner {E : Type} `{Ext E} `{ConnectorLaws E} (msg file : str) (st : stat_t) (w : world E) :
  let path := expand_variables (w_env w) file in
  extract_parameter msg "FILE" None = Some file -> extract_parameter msg "LS_MODE" None = Some "A" ->
  x_exists (proc_of w) path (w_ext w) = true ->
  x_stat (proc_of w) path (w_ext w) = Ok st -> x_getpwuid (w_ext w) (st_uid st) = None ->
  exists e, ls msg w = (Raise e, emit (ok_text (Some "START_LISTING")) w) /\ exn_kind e = KeyError.
Proof.
  intros path Hf Hmode Hex Hst Huid. unfold ls. rewrite Hf, Hmode. cbn [expand_path].
  rewrite (bind_run _ _ _ _ _ (expand_run file w)). fold path. cbn [fmt default].
  rewrite bool_decide_eq_true_2 by (right; by left). cbn [negb]. cbv zeta.
  rewrite (bind_run _ _ _ _ _ (ok_law _ w)). set (w1 := emit _ w).
  rewrite (bind_run _ _ w1 w1 true) by (unfold ext_read; by rewrite <-Hex).
  assert (get_info path w1 = (throw KeyError ("getpwuid(): uid not found: " ++ str_of_Z (st_uid st)), w1)) as Hinfo.
  { unfold get_info, ext_read, gets, mbind, M_bind, mret, M_ret. change (w_ext w1) with (w_ext w).
    change (proc_of w1) with (proc_of w). rewrite Hst. cbn zeta. by rewrite Huid. }
  exists (Exn KeyError ("getpwuid(): uid not found: " ++ str_of_Z (st_uid st))). split; [|reflexivity]. cbn [when].
  match goal with |- (try_catch ?m ?h ≫= ?f) w1 = _ => 
    assert (m w1 = (throw KeyError ("getpwuid(): uid not found: " ++ str_of_Z (st_uid st)), w1)) as Hm end.
  { rewrite (bind_run _ _ w1 w1 (x_isdir (proc_of w1) path (w_ext w1))) by done.
    rewrite andb_false_r. apply bind_raises. exact Hinfo. }
  apply bind_raises. unfold try_catch. rewrite Hm. reflexivity.
Qed.

Lemma ls_framing_witness :
  exists text, w_out (snd (ls (H0 := socket_connector) ls_msg files_world)) = "" ++ text.
Proof.
  destruct (ls_framing (H0 := socket_connector) ls_msg files_world) as (text & Ht & _).
  exists text. exact Ht.
Defined.

Lemma ls_unknown_owner_witness :
  exists e, ls (H0 := socket_connector) ls_msg files_world
    = (Raise e, emit (ok_text (Some "START_LISTING")) files_world) /\ exn_kind e = KeyError.
Proof.
  apply (ls_unknown_owner (H0 := socket_connector) ls_msg "/orphan" (Stat 33188 4242 100 1 0) files_world);
    vm_compute; reflexivity.
Defined.
