(* ===== verification/ACL.v ===== *)
(** * [lib/ACL.py]: access control lists of files

    Which kind of ACL a path supports, by the longest configured prefix, and
    the [getfacl] and [setfacl] commands for POSIX ACLs. *)

From S2P Require Import Prelude PyStr Regex World Utils UserCache Testbed Connector BSSCommon.
#[local] Open Scope py_scope.
#[local] Open Scope Z_scope.

(** ** Definitions *)

(** One entry of the table: the longest match so far and its result.  A key
    outside the subset of [Regex] counts as a pattern error. *)
Definition acl_step (path : str) (best : Z * str) (entry : str * str) : result (Z * str) :=
  match compile ("^" ++ entry.1) with
  | None => throw ReError ("bad pattern " ++ entry.1)
  | Some _ =>
      Ok (match re_match ("^" ++ entry.1) path with
          | Some m =>
              let size := Z.of_nat (length (rm_text m)) in
              if best.1 <? size then (size, entry.2) else best
          | None => best
          end)
  end.

Fixpoint acl_loop (path : str) (best : Z * str) (acl : list (str * str)) : result (Z * str) :=
  match acl with
  | [] => Ok best
  | entry :: acl' => best ← acl_step path best entry; acl_loop path best acl'
  end.

(** [os.path.abspath(path)] is computed first and not used. *)
Definition check_support (path : option str) (acl : list (str * str)) : result str :=
  path ← or_raise path TypeError "expected str, bytes or os.PathLike object, not NoneType";
  best ← acl_loop path (0, "") acl;
  Ok (if 0 <? best.1 then best.2 else "NONE").

(** The argument of [setfacl] for a specification such as [DU alice rwx]. *)
Definition prepare_posix_arg (val : str) (remove : bool) : result str :=
  let oargs := split " " val in
  let arg i := or_raise (oargs !! i) IndexError "list index out of range" in
  head ← arg 0%nat;
  ret ← (if bool_decide (is_Some (re_match "[D]?U" head)) then
           a ← arg 1%nat; Ok ("user:" ++ a)
         else if bool_decide (is_Some (re_match "[D]?G" head)) then
           a ← arg 1%nat; Ok ("group:" ++ a)
         else Ok "");
  if remove then Ok ret else a ← arg 2%nat; Ok (ret ++ ":" ++ a).

Definition acl_patterns : list str := ["user"; "group"; "default:user"; "default:group"].

Section operations.
Context {E : Type} `{Ext E} `{Connector E}.

Definition unset_posix : M (world E) unit :=
  modify (fun w => with_env (delete ("POSIXLY_CORRECT" : str) (w_env w)) w).

(** [config.get(k, d)] for a command: a string of the configuration file. *)
Definition command_of (k d : str) : M (world E) str :=
  v ← config_get k (VStr d); lift (as_str v).

Definition getfacl_nfs : M (world E) unit := mret tt.
Definition setfacl_nfs : M (world E) unit := mret tt.

Definition getfacl_posix (path : str) : M (world E) unit :=
  unset_posix ;;
  getfacl_cmd ← command_of "tsi.getfacl" "/bin/false";
  login ← config_at "tsi.use_login_shell";
  '(success, result) ← run_command (getfacl_cmd ++ " " ++ path) false None (truthy login);
  if negb success then failed result
  else
    ok None ;;
    for_each (base.filter (fun line => existsb (startswith line) acl_patterns = true) (splitlines result))
      write_message.

(** The command of [setfacl_posix], [None] for an operation it does not know. *)
Definition setfacl_command (setfacl_cmd path op : str) (val : option str) : result (option str) :=
  let recursive := if contains "RECURSIVE" op then "-R " else "" in
  if contains "RM_ALL" op then Ok (Some (setfacl_cmd ++ " -b " ++ recursive ++ "'" ++ path ++ "'"))
  else
    val ← or_raise val AttributeError "'NoneType' object has no attribute 'startswith'";
    let base_arg := if startswith val "D" then "-d " else "" in
    if contains "MODIFY" op then
      arg ← prepare_posix_arg val false;
      Ok (Some (setfacl_cmd ++ " " ++ recursive ++ " " ++ base_arg ++ "-m " ++ arg ++ " '" ++ path ++ "'"))
    else if contains "RM" op then
      arg ← prepare_posix_arg val true;
      Ok (Some (setfacl_cmd ++ " " ++ recursive ++ " " ++ base_arg ++ "-x " ++ arg ++ " '" ++ path ++ "'"))
    else Ok None.

Definition setfacl_posix (path : str) (op val : option str) : M (world E) unit :=
  unset_posix ;;
  setfacl_cmd ← command_of "tsi.setfacl" "/bin/false";
  op ← lift (or_raise op TypeError "argument of type 'NoneType' is not iterable");
  command ← lift (setfacl_command setfacl_cmd path op val);
  match command with
  | None => failed "WRONG SETFACL SYNTAX"
  | Some command =>
      login ← config_at "tsi.use_login_shell";
      '(success, result) ← run_command command false None (truthy login);
      if negb success then failed result else ok None
  end.

(** [config.get('tsi.acl', {})]. *)
Definition acl_table : M (world E) (list (str * str)) :=
  v ← config_get "tsi.acl" (VDict []);
  match v with VDict d => mret d | _ => raise TypeError "argument is not a table" end.

(** The two tests for a missing parameter report it and go on. *)
Definition process_acl (msg : str) : M (world E) unit :=
  let operation := extract_parameter msg "ACL_OPERATION" None in
  let path := extract_parameter msg "ACL_PATH" None in
  acl ← acl_table;
  if bool_decide (operation = Some "CHECK_SUPPORT") then
    support ← lift (check_support path acl);
    ok (Some (if str_eqb support "NONE" then "false" else "true"))
  else if bool_decide (operation = Some "GETFACL") then
    support ← lift (check_support path acl);
    if str_eqb support "POSIX" then getfacl_posix (default "" path)
    else if str_eqb support "NFS" then getfacl_nfs
    else failed "ERROR: Getting ACL on this file system is unsupported."
  else if bool_decide (operation = Some "SETFACL") then
    support ← lift (check_support path acl);
    let command := extract_parameter msg "ACL_COMMAND" None in
    let command_spec := extract_parameter msg "ACL_COMMAND_SPEC" None in
    when (bool_decide (command_spec = None)) (failed "Missing parameter TSI_ACL_COMMAND_SPEC") ;;
    when (bool_decide (command = None)) (failed "Missing parameter TSI_ACL_COMMAND") ;;
    if str_eqb support "POSIX" then setfacl_posix (default "" path) command command_spec
    else if str_eqb support "NFS" then setfacl_nfs
    else failed "ERROR: Setting ACL on this file system is unsupported."
  else failed ("UNSUPPORTED_OPERATION: '" ++ fmt operation ++ "'").
End operations.

Example prepare_posix_arg_ex : prepare_posix_arg "DU alice rwx" false = Ok "user:alice:rwx".
Proof. vm_compute. reflexivity. Qed.
Example check_support_ex :
  check_support (Some "/home/alice/x") [("/", "NFS"); ("/home", "POSIX"); ("/opt", "NONE")] = Ok "POSIX".
Proof. vm_compute. reflexivity. Qed.

(** ** Reference definition: the longest prefix *)

(** The keys that are prefixes of the path, with their kind. *)
Definition acl_prefixes (path : str) (acl : list (str * str)) : list (str * str) :=
  base.filter (fun entry => startswith path entry.1 = true /\ entry.1 <> "") acl.

(** [kind] belongs to the first of the longest prefixes. *)
Definition longest_prefix (path : str) (acl : list (str * str)) (kind : str) : Prop :=
  exists before key after, acl_prefixes path acl = before ++ (key, kind) :: after /\
    Forall (fun e => (length e.1 < length key)%nat) before /\
    Forall (fun e => (length e.1 <= length key)%nat) after.

(** ** Facts *)

(** The pattern of a key without special characters. *)
Lemma compile_key (key : str) : Forall plain key -> compile ("^" ++ key) = Some (TBol :: lits key).
Proof.
  intros Hk. unfold compile. rewrite length_app. cbn [length Nat.add].
  assert (forall f x, compile_from (S f) 1 [] ("^" ++ x) = cons TBol <$> compile_from f 1 [] x) as -> by done.
  pose proof (compile_lits key 1 1 [] [] Hk I) as Hc. rewrite app_nil_r, Nat.add_1_r in Hc.
  rewrite Hc. simpl. by rewrite app_nil_r.
Qed.

Lemma match_key (key path : str) : Forall plain key ->
  re_match ("^" ++ key) path = if startswith path key then Some (RMatch key []) else None.
Proof.
  intros Hk. unfold re_match. rewrite compile_key by done. unfold run_at.
  change (run false (TBol :: lits key) [] [] None path) with (run false (lits key) [] [] None path).
  rewrite run_lits. destruct (startswith path key) eqn:Hs; [|done].
  apply startswith_spec in Hs as [r ->]. rewrite drop_app_length, length_app.
  do 2 f_equal. replace (length key + length r - length r)%nat with (length key) by lia.
  apply take_app_length.
Qed.

Lemma acl_step_plain (path : str) (best : Z * str) (entry : str * str) : Forall plain entry.1 ->
  acl_step path best entry = Ok (if startswith path entry.1 && (best.1 <? Z.of_nat (length entry.1))
    then (Z.of_nat (length entry.1), entry.2) else best).
Proof.
  intros Hk. unfold acl_step. rewrite compile_key, match_key by done.
  by destruct (startswith path entry.1).
Qed.

(** The state of the loop: the longest prefix so far. *)
Definition best_so_far (path : str) (acl : list (str * str)) (best : Z * str) : Prop :=
  (best.1 = 0 /\ acl_prefixes path acl = []) \/
  (0 < best.1 /\ exists before key after, acl_prefixes path acl = before ++ (key, best.2) :: after /\
    best.1 = Z.of_nat (length key) /\ Forall (fun e => (length e.1 < length key)%nat) before /\
    Forall (fun e => (length e.1 <= length key)%nat) after).

Lemma acl_prefixes_snoc (path : str) (acl : list (str * str)) (e : str * str) :
  acl_prefixes path (acl ++ [e]) = acl_prefixes path acl ++
    (if bool_decide (startswith path e.1 = true /\ e.1 <> "") then [e] else []).
Proof. unfold acl_prefixes. rewrite filter_app. f_equal. unfold base.filter. simpl. by repeat case_decide; case_bool_decide. Qed.

Lemma acl_loop_best (path : str) (done todo : list (str * str)) (best : Z * str) :
  Forall (fun e => Forall plain e.1) todo -> best_so_far path done best ->
  exists best', acl_loop path best todo = Ok best' /\ best_so_far path (done ++ todo) best'.
Proof.
  intros Ht. revert done best.
  induction Ht as [|e todo He _ IH]; intros done best Hb; cbn [acl_loop].
  { exists best. by rewrite app_nil_r. }
  rewrite acl_step_plain by done. cbn [mbind result_bind].
  replace (done ++ e :: todo) with ((done ++ [e]) ++ todo) by (by rewrite <-app_assoc).
  apply IH. unfold best_so_far. rewrite acl_prefixes_snoc.
  destruct (startswith path e.1) eqn:Hs; cbn [andb].
  2: { rewrite bool_decide_eq_false_2, app_nil_r by (by intros [? ?]). exact Hb. }
  destruct (decide (e.1 = "")) as [Hnil|Hne].
  { rewrite bool_decide_eq_false_2, app_nil_r, Hnil by (by intros [? ?]).
    destruct (Z.ltb_spec best.1 (Z.of_nat (length ("" : str)))); [|exact Hb].
    exfalso. simpl in *. destruct Hb as [[? _]|[? _]]; lia. }
  rewrite bool_decide_eq_true_2 by done.
  assert (0 < length e.1)%nat as Hpos by (destruct e.1; [done | simpl; lia]).
  destruct (Z.ltb_spec best.1 (Z.of_nat (length e.1))) as [Hlt|Hge]; cbn [fst snd].
  - right. split; [lia|]. exists (acl_prefixes path done), e.1, []. destruct e as [k v]. split; [done|].
    split; [done|]. split; [|done]. destruct Hb as [[_ ->]|(_ & b & key & a & -> & Hkey & Hbf & Haf)]; [done|].
    simpl in *. rewrite Forall_app, Forall_cons. split_and!.
    + eapply Forall_impl; [exact Hbf|]. simpl. intros; lia.
    + simpl. lia.
    + eapply Forall_impl; [exact Haf|]. simpl. intros; lia.
  - destruct Hb as [[Hz _]|(Hz & b & key & a & -> & Hkey & Hbf & Haf)]; [lia|].
    right. split; [done|]. exists b, key, (a ++ [e]). rewrite <-app_assoc. split; [done|].
    split; [done|]. split; [done|]. rewrite Forall_app. split; [done|]. repeat constructor. lia.
Qed.

(** Setting an ACL sends one reply. *)
Lemma setfacl_posix_reply {E : Type} `{Ext E} `{ConnectorLaws E} (path : str) (op val : option str) :
  single_reply (setfacl_posix (E := E) path op val).
Proof.
  unfold setfacl_posix. apply reply_bind; [by apply respects_modify | intros _].
  apply reply_bind; [unfold command_of; solve_respects | intros cmd]. solve_reply.
Qed.

(** * Properties *)

(** C35: With configured paths that hold no special characters the kind of ACL
    of a path is that of the longest configured path it starts with, and
    [NONE] when there is none. *)
Theorem check_support_longest (path : str) (acl : list (str * str)) :
  Forall (fun e => Forall plain e.1) acl ->
  exists kind, check_support (Some path) acl = Ok kind /\
    (longest_prefix path acl kind \/ acl_prefixes path acl = [] /\ kind = "NONE").
Proof.
  intros Hk. destruct (acl_loop_best path [] acl (0, "") Hk) as (best & Hrun & Hb); [by left|].
  unfold check_support. cbn [or_raise mbind result_bind]. rewrite Hrun. cbn [mbind result_bind].
  eexists. split; [reflexivity|]. cbn [app] in Hb.
  destruct Hb as [[Hz Hnil]|(Hz & b & key & a & Hl & _ & Hbf & Haf)].
  - right. rewrite Hz. done.
  - left. rewrite (proj2 (Z.ltb_lt 0 best.1)) by done. by exists b, key, a.
Qed.

Definition bed_acl : list (str * str) := [("/", "NFS"); ("/home", "POSIX"); ("/opt", "NONE")].

Lemma bed_acl_plain : Forall (fun e => Forall plain e.1) bed_acl.
Proof. repeat constructor. Qed.

Lemma check_support_longest_witness :
  exists kind, check_support (Some "/homes") bed_acl = Ok kind /\
    (longest_prefix "/homes" bed_acl kind \/ acl_prefixes "/homes" bed_acl = [] /\ kind = "NONE").
Proof. exact (check_support_longest "/homes" bed_acl bed_acl_plain). Defined.

(** C36: Setting an ACL without a specification reports the missing parameter
    and goes on: removing all entries, which needs none, still runs the command,
    and the request gets two replies. *)
Theorem setfacl_replies_twice {E : Type} `{Ext E} `{ConnectorLaws E} (msg path command acl_cmd : str)
    (acl : list (str * str)) (login : cval) (w w' : world E) :
  extract_parameter msg "ACL_OPERATION" None = Some "SETFACL" ->
  extract_parameter msg "ACL_PATH" None = Some path ->
  extract_parameter msg "ACL_COMMAND" None = Some command -> contains "RM_ALL" command = true ->
  extract_parameter msg "ACL_COMMAND_SPEC" None = None ->
  w_config w !! ("tsi.acl" : str) = Some (VDict acl) ->
  w_config w !! ("tsi.setfacl" : str) = Some (VStr acl_cmd) ->
  w_config w !! ("tsi.use_login_shell" : str) = Some login ->
  check_support (Some path) acl = Ok "POSIX" ->
  process_acl msg w = (Ok tt, w') ->
  exists reply, is_reply reply /\
    w_out w' = w_out w ++ failed_text "Missing parameter TSI_ACL_COMMAND_SPEC" ++ reply.
Proof.
  intros Hop Hpath Hcmd Hrm Hspec Hacl Hset Hlogin Hsup Hrun.
  unfold process_acl in Hrun. rewrite Hop, Hpath, Hcmd, Hspec in Hrun. cbv zeta in Hrun.
  rewrite (bind_run _ _ w w acl) in Hrun by
    (unfold acl_table, config_get, get_config, gets, cfg_get, mbind, M_bind, mret, M_ret; by rewrite Hacl).
  rewrite (bool_decide_eq_false_2 (Some "SETFACL" = Some "CHECK_SUPPORT")) in Hrun by discriminate.
  rewrite (bool_decide_eq_false_2 (Some "SETFACL" = Some "GETFACL")) in Hrun by discriminate.
  rewrite bool_decide_eq_true_2 in Hrun by done.
  rewrite (bind_run _ _ w w "POSIX") in Hrun by (unfold lift; by rewrite Hsup).
  rewrite (bool_decide_eq_true_2 (None = None)), bool_decide_eq_false_2 in Hrun by done. cbn [when] in Hrun.
  rewrite (bind_run _ _ _ _ _ (failed_law _ w)) in Hrun. cbn [str_eqb] in Hrun.
  set (w1 := emit (failed_text _) w) in *.
  rewrite (bind_run (mret tt) _ w1 w1 tt) in Hrun by done.
  change (str_eqb "POSIX" "POSIX") with true in Hrun. cbn [from_option id] in Hrun.
  pose proof (setfacl_posix_reply path (Some command) None w1) as Hrep. rewrite Hrun in Hrep.
  destruct Hrep as (reply & Hr & Ho). exists reply. split; [done|].
  rewrite Ho. unfold w1, emit. cbn [w_out with_out]. by rewrite app_assoc.
Qed.

Definition acl_msg : str :=
  "#TSI_FILE_ACL" ++ nl ++ "#TSI_ACL_OPERATION SETFACL" ++ nl ++ "#TSI_ACL_PATH /home/x" ++ nl
  ++ "#TSI_ACL_COMMAND RM_ALL" ++ nl.
Definition acl_world : world bed := with_config
  (<["tsi.acl" := VDict bed_acl]> (<["tsi.setfacl" := VStr "setfacl"]> bed_config)) bed_world.

Lemma setfacl_replies_twice_witness :
  exists reply, is_reply reply /\ w_out (snd (process_acl (H0 := socket_connector) acl_msg acl_world))
    = w_out acl_world ++ failed_text "Missing parameter TSI_ACL_COMMAND_SPEC" ++ reply.
Proof.
  assert (is_ok (fst (process_acl (H0 := socket_connector) acl_msg acl_world)) = true) as Hok
    by (vm_compute; reflexivity).
  destruct (process_acl (H0 := socket_connector) acl_msg acl_world) as [r w'] eqn:E.
  destruct r as [[]| | |]; [|discriminate Hok..].
  apply (setfacl_replies_twice (H0 := socket_connector) acl_msg "/home/x" "RM_ALL" "setfacl" bed_acl (VBool true)
    acl_world w'); [..|exact E]; vm_compute; reflexivity.
Defined.
