(* ===== verification/Script.v ===== *)
(** * Pieces of job scripts

    What the batch system variants share in building the directives of a job
    script from the message: parameters with defaults, optional lines, the array
    specification; and the facts that keep every directive on a line of
    its own. *)

From S2P Require Import Prelude PyStr PyNum Regex World Utils UserCache Testbed Connector BSSCommon.
#[local] Open Scope py_scope.
#[local] Open Scope Z_scope.

(** A parameter with a default that is a string. *)
Definition parameter_or (message parameter d : str) : str :=
  default d (extract_parameter message parameter (Some d)).

(** The commands of [if b: cmds.append(c)]. *)
Definition append_if (b : bool) (c : str) : list str := if b then [c] else [].
Definition given (v : str) : bool := negb (str_eqb v "NONE").

(** A configuration value used as a string, with a default. *)
Definition cfg_get_str (config : config_t) (k d : str) : result str := as_str (cfg_get config k (VStr d)).

(** The array specification, shared by the variants: the number, and the
    limit if there is one. *)
Definition array_range (array_spec array_limit : Z) : str :=
  if 0 <? array_limit then str_of_Z array_spec ++ "%" ++ str_of_Z array_limit
  else str_of_Z array_spec.

(** ** Facts: lines *)

(** Injectivity of [Ok] without reducing the value. *)
Lemma Ok_inj {A : Type} (a b : A) : Ok a = Ok b -> a = b.
Proof. by intros [= ->]. Qed.

(** No text spills over to the next line of the script. *)
Definition one_line (l : list str) : Prop := Forall (fun c => NL ∉ c) l.

(** The configuration values come from single lines. *)
Definition clean_config (config : config_t) : Prop :=
  forall k s, config !! k = Some (VStr s) -> NL ∉ s.

Lemma str_of_Z_no_nl (n : Z) : NL ∉ str_of_Z n.
Proof. by apply str_of_Z_not_elem. Qed.

Lemma parameter_or_no_nl (message p d : str) : is_name p -> NL ∉ d -> NL ∉ parameter_or message p d.
Proof.
  intros Hp Hd. unfold parameter_or. destruct (extract_parameter message p (Some d)) as [v|] eqn:E; [|done].
  eapply extract_parameter_no_nl; [exact Hp | exact E | by intros s [= <-]].
Qed.

Lemma parameter_no_nl (message p v : str) :
  is_name p -> extract_parameter message p None = Some v -> NL ∉ v.
Proof. intros Hp Hv. by eapply extract_parameter_no_nl; [exact Hp | exact Hv | ]. Qed.

Lemma fmt_parameter_no_nl (message p : str) : is_name p -> NL ∉ fmt (extract_parameter message p None).
Proof.
  intros Hp. unfold fmt. destruct (extract_parameter message p None) as [v|] eqn:E.
  - by eapply parameter_no_nl.
  - apply (bool_decide_unpack _). by vm_compute.
Qed.

Lemma cfg_str_no_nl (config : config_t) (k s : str) :
  clean_config config -> cfg_str config k = Ok s -> NL ∉ s.
Proof.
  intros Hc. unfold cfg_str, cfg_at, or_raise. destruct (config !! k) as [v|] eqn:Hk; simpl; [|done].
  destruct v; simpl; try discriminate. intros [= <-]. by eapply Hc.
Qed.

Lemma cfg_get_str_no_nl (config : config_t) (k d s : str) :
  clean_config config -> NL ∉ d -> cfg_get_str config k d = Ok s -> NL ∉ s.
Proof.
  intros Hc Hd. unfold cfg_get_str, cfg_get. destruct (config !! k) as [v|] eqn:Hk; simpl.
  - destruct v; simpl; try discriminate. intros [= <-]. by eapply Hc.
  - by intros [= <-].
Qed.

Lemma array_range_no_nl (a b : Z) : NL ∉ array_range a b.
Proof.
  unfold array_range. destruct (0 <? b); rewrite ?not_elem_of_app; repeat split;
    try apply str_of_Z_no_nl. apply (bool_decide_unpack _). by vm_compute.
Qed.

Lemma one_line_append_if (b : bool) (c : str) : (b = true -> NL ∉ c) -> one_line (append_if b c).
Proof. intros Hc. unfold append_if. destruct b; [apply Forall_singleton; auto | apply Forall_nil_2]. Qed.

(** A goal [NL ∉ s] for a text put together from parameters, numbers and
    literals. *)
Ltac no_nl :=
  repeat match goal with
  | H : NL ∉ ?x |- NL ∉ ?x => exact H
  | |- NL ∉ str_of_Z _ => apply str_of_Z_no_nl
  | |- NL ∉ array_range _ _ => apply array_range_no_nl
  | |- NL ∉ parameter_or _ _ _ => apply parameter_or_no_nl; [by repeat constructor|]
  | |- NL ∉ fmt (extract_parameter _ _ None) => apply fmt_parameter_no_nl; by repeat constructor
  | H : extract_parameter _ _ None = Some ?x |- NL ∉ ?x =>
      eapply parameter_no_nl; [|exact H]; by repeat constructor
  | |- NL ∉ ?a ++ ?b => apply not_elem_of_app; split
  | |- NL ∉ (if ?b then _ else _) => destruct b
  | |- NL ∉ dq => apply not_elem_of_cons; split; [discriminate|]
  | |- NL ∉ [] => apply not_elem_of_nil
  | |- NL ∉ _ :: _ => apply not_elem_of_cons; split; [discriminate|]
  end.

(** A goal [one_line l] for a list of directives. *)
Ltac one_lines :=
  repeat match goal with
  | H : one_line ?l |- one_line ?l => exact H
  | H : one_line ?l |- Forall _ ?l => exact H
  | |- one_line (_ ++ _) => apply Forall_app_2
  | |- Forall _ (_ ++ _) => apply Forall_app_2
  | |- one_line [] => apply Forall_nil_2
  | |- Forall _ [] => apply Forall_nil_2
  | |- one_line (append_if _ _) => apply one_line_append_if; intros _
  | |- Forall _ (append_if _ _) => apply one_line_append_if; intros _
  | |- one_line (_ :: _) => apply Forall_cons_2
  | |- Forall _ (_ :: _) => apply Forall_cons_2
  | |- one_line (if ?b then _ else _) => destruct b
  | |- Forall _ (if ?b then _ else _) => destruct b
  | |- one_line (match ?o with _ => _ end) => destruct o eqn:?
  | |- Forall _ (match ?o with _ => _ end) => destruct o eqn:?
  | |- NL ∉ _ => progress no_nl
  end.

(** ** Facts: settling *)

Lemma settles_cfg_get_str (config : config_t) (k d : str) : settles (cfg_get_str config k d).
Proof. apply settles_as_str. Qed.
#[export] Hint Resolve settles_cfg_get_str : settles.

(** ** Facts: the fields of a line *)

Definition word_set : cset := CSet false [CWord false].
Definition non_space_set : cset := CSet false [CSpace true].

Lemma in_space_set (c : ascii) : in_set c space_set = is_space c.
Proof. unfold in_set. simpl. rewrite orb_false_r. by destruct (is_space c). Qed.
Lemma in_word_set (c : ascii) : in_set c word_set = is_word c.
Proof. unfold in_set. simpl. rewrite orb_false_r. by destruct (is_word c). Qed.
Lemma in_non_space_set (c : ascii) : in_set c non_space_set = negb (is_space c).
Proof. unfold in_set. simpl. rewrite orb_false_r. by destruct (is_space c). Qed.
Lemma word_not_space (c : ascii) : is_word c = true -> is_space c = false.
Proof. destruct c as [[] [] [] [] [] [] [] []]; vm_compute; congruence. Qed.
Lemma space_not_word (c : ascii) : is_space c = true -> is_word c = false.
Proof. destruct c as [[] [] [] [] [] [] [] []]; vm_compute; congruence. Qed.
Lemma space_not_digit (c : ascii) : is_space c = true -> is_digit c = false.
Proof. destruct c as [[] [] [] [] [] [] [] []]; vm_compute; congruence. Qed.

(** Characters of a class, and at least one. *)
Definition some_of (p : ascii -> bool) (s : str) : Prop := s <> [] /\ Forall (fun c => p c = true) s.

Lemma some_of_head (p : ascii -> bool) (s r : str) (c : ascii) (t : str) :
  some_of p s -> s ++ r = c :: t -> p c = true.
Proof.
  intros [Hne Hs] He. destruct s as [|d s]; [done|]. injection He as -> _.
  by apply Forall_cons in Hs as [Hs _].
Qed.

Lemma some_of_all (p : ascii -> bool) (cs : cset) (s : str) :
  (forall c, in_set c cs = p c) -> some_of p s -> all_in cs s /\ (1 <= length s)%nat.
Proof.
  intros Hcs [Hne Hs]. split.
  - eapply Forall_impl; [exact Hs|]. intros c Hc. cbn beta in *. by rewrite Hcs.
  - destruct s; [done | simpl; lia].
Qed.

Lemma word_non_space (c : ascii) : is_word c = true -> negb (is_space c) = true.
Proof. intros Hc. by rewrite word_not_space. Qed.
Lemma space_then (c : ascii) : is_space c = true -> negb (is_space c) = false.
Proof. by intros ->. Qed.
Lemma non_space_then (c : ascii) : negb (is_space c) = true -> is_space c = false.
Proof. by destruct (is_space c). Qed.

(** A field that ends where the characters of its class end. *)
Lemma run_field (p : ascii -> bool) (cs : cset) (ml : bool) (ts : list tok) (op : opens) (cp : caps)
    (pv : option ascii) (s rest : str) (x : str * caps) :
  some_of p s -> (forall c, in_set c cs = p c) -> (forall c r, rest = c :: r -> p c = false) ->
  run ml ts op cp (prev_after pv s) rest = Some x ->
  run ml (TRep cs 1 None :: ts) op cp pv (s ++ rest) = Some x.
Proof.
  intros Hs Hcs Hrest Hrun. destruct (some_of_all p cs s Hcs Hs) as [Hall Hlen].
  apply run_rep_longest; try done. intros c r Hc. rewrite Hcs. by eapply Hrest.
Qed.

(** Runs over the next field, with the bounds of groups around it; what is left
    to show is that another kind of character follows. *)
Ltac field_run H Hin :=
  rewrite ?run_close, ?run_open; apply (run_field _ _ _ _ _ _ _ _ _ _ H Hin); [|rewrite ?run_close].
(** The field that follows consists of characters [sep] tells apart. *)
Ltac field_sep H sep :=
  let c := fresh "c" in let r := fresh "r" in let Hc := fresh "Hc" in
  intros c r Hc; apply sep; exact (some_of_head _ _ _ _ _ H Hc).
