(* ===== verification/Slurm.v ===== *)
(** * [slurm/BSS.py]: the Slurm variant

    The options of [sbatch] and [salloc] from the message, the job scripts, the
    parsers of the output of [squeue] and [sinfo]. *)

From S2P Require Import Prelude PyStr PyNum Regex World Utils UserCache Testbed Connector BSSCommon Script.
#[local] Open Scope py_scope.
#[local] Open Scope Z_scope.

(** ** Definitions *)

Definition slurm_defaults : list (str * str) := [
  ("tsi.submit_cmd", "sbatch");
  ("tsi.alloc_cmd", "salloc --no-shell");
  ("tsi.qstat_cmd", "squeue -h -o " ++ dq ++ "%i %T %P" ++ dq);
  ("tsi.details_cmd", "scontrol show jobid");
  ("tsi.abort_cmd", "scancel %s");
  ("tsi.hold_cmd", "scontrol hold");
  ("tsi.resume_cmd", "scontrol release");
  ("tsi.get_partitions_cmd", "sinfo --all --noheader --format " ++ dq ++ "%P %D" ++ dq)
].

(** The node filter: the global one and that of the user. *)
Definition slurm_nodes_filter (message : str) (config : config_t) : result str :=
  nodes_filter ← cfg_get_str config "tsi.nodes_filter" "";
  let user_nodes_filter := parameter_or message "BSS_NODES_FILTER" "NONE" in
  Ok (if given user_nodes_filter
      then if negb (str_eqb nodes_filter "") then nodes_filter ++ "&" ++ user_nodes_filter
           else user_nodes_filter
      else nodes_filter).

Definition slurm_jobname (jobname : str) : str :=
  match re_search "[^0-9a-zA-Z\.:.=~/]" jobname with
  | Some _ => "UNICORE_job"
  | None => jobname
  end.

(** Nodes and tasks. *)
Definition slurm_tasks (message : str) : list str :=
  let nodes := extract_number message "NODES" in
  let processors_per_node := extract_number message "PROCESSORS_PER_NODE" in
  let total_processors := extract_number message "TOTAL_PROCESSORS" in
  if 0 <? nodes then
    ("--nodes=" ++ str_of_Z nodes)
    :: append_if (0 <? processors_per_node) ("--ntasks-per-node=" ++ str_of_Z processors_per_node)
  else append_if (0 <? total_processors) ("--ntasks=" ++ str_of_Z total_processors).

(** Wall time in minutes, at least one. *)
Definition slurm_time (req_time : Z) : result (list str) :=
  if 0 <? req_time then
    minutes ← int_truediv req_time 60;
    Ok ["--time=" ++ str_of_Z (Z.max minutes 1)]
  else Ok [].

Definition slurm_common_options (message : str) (config : config_t) : result (list str) :=
  let email := parameter_or message "EMAIL" "NONE" in
  default_job_name ← cfg_str config "tsi.default_job_name";
  let jobname := parameter_or message "JOBNAME" default_job_name in
  let project := parameter_or message "PROJECT" "NONE" in
  let memory := extract_number message "MEMORY" in
  let queue := parameter_or message "QUEUE" "NONE" in
  let reservation_id := parameter_or message "RESERVATION_REFERENCE" "NONE" in
  let req_time := extract_number message "TIME" in
  nodes_filter ← slurm_nodes_filter message config;
  let gpus_per_node := extract_number message "GPUS_PER_NODE" in
  let qos := parameter_or message "QOS" "NONE" in
  let exclusive := parameter_or message "EXCLUSIVE" "NONE" in
  let exclusive := parameter_or message "SSR_EXCLUSIVE" exclusive in
  let comment := parameter_or message "SSR_COMMENT" "NONE" in
  time ← slurm_time req_time;
  Ok (["--job-name=" ++ slurm_jobname jobname]
      ++ append_if (given queue) ("--partition=" ++ queue)
      ++ append_if (str_eqb (lower exclusive) "true") "--exclusive"
      ++ append_if (given comment) ("--comment=" ++ dq ++ comment ++ dq)
      ++ append_if (given project) ("--account=" ++ project)
      ++ slurm_tasks message
      ++ append_if (0 <? gpus_per_node) ("--gpus-per-node=" ++ str_of_Z gpus_per_node)
      ++ append_if (negb (str_eqb nodes_filter "")) ("--constraint=" ++ nodes_filter)
      ++ append_if (given qos) ("--qos=" ++ qos)
      ++ append_if (0 <=? memory) ("--mem=" ++ str_of_Z memory)
      ++ time
      ++ (if given email then ["--mail-user=" ++ email; "--mail-type=ALL"] else [])
      ++ append_if (given reservation_id) ("--reservation=" ++ reservation_id)).

Definition slurm_submit_script (message : str) (config : config_t) : result (list str) :=
  let outcome_dir := extract_parameter message "OUTCOME_DIR" None in
  let stderr := parameter_or message "STDERR" "stderr" in
  let stdout := parameter_or message "STDOUT" "stdout" in
  let umask := extract_parameter message "UMASK" None in
  let uspace_dir := extract_parameter message "USPACE_DIR" None in
  let array_spec := extract_number message "ARRAY" in
  let array_limit := extract_number message "ARRAY_LIMIT" in
  options ← slurm_common_options message config;
  let array := 0 <? array_spec in
  let stdout := if array then stdout ++ "%a" else stdout in
  let stderr := if array then stderr ++ "%a" else stderr in
  Ok (["#!/bin/bash"]
      ++ ((fun option => "#SBATCH " ++ option) <$> options)
      ++ (if array
          then ["#SBATCH --array=" ++ array_range array_spec array_limit;
                "UC_ARRAY_TASK_ID = " ++ dq ++ "$SLURM_ARRAY_TASK_ID" ++ dq ++ "; export UC_ARRAY_TASK_ID"]
          else [])
      ++ ["#SBATCH --output=" ++ fmt outcome_dir ++ "/" ++ stdout;
          "#SBATCH --error=" ++ fmt outcome_dir ++ "/" ++ stderr;
          "#SBATCH --chdir=" ++ fmt uspace_dir]
      ++ match umask with Some u => ["umask " ++ u] | None => [] end).

Definition slurm_alloc_script (message : str) (config : config_t) : result (list str) :=
  let uspace_dir := extract_parameter message "USPACE_DIR" None in
  let stdout := parameter_or message "STDOUT" "stdout" in
  let alloc_id_file := parameter_or message "ALLOCATION_ID" "UNICORE_ALLOCATION_ID" in
  let exit_code_file := parameter_or message "EXIT_CODE_FILE" "UNICORE_SCRIPT_EXIT_CODE" in
  alloc_options ← slurm_common_options message config;
  alloc_cmd ← cfg_str config "tsi.alloc_cmd";
  let alloc_cmd := foldl (fun cmd opt => cmd ++ " " ++ opt) alloc_cmd alloc_options in
  Ok [alloc_cmd ++ " > " ++ stdout ++ " 2>&1 ; echo $? > " ++ exit_code_file;
      "grep -o '[[:digit:]]*' " ++ fmt uspace_dir ++ "/" ++ stdout ++ " | head -1 > " ++ alloc_id_file].

Definition slurm_extract_id_expr : str := "Submitted\D*(\d+)\D*".

Definition slurm_extract_info (qstat_line : str) : info_t :=
  match re_match "(\d+)_?\S*\s+(\w+)\s+(\w+)" qstat_line with
  | None => None
  | Some m => Some (group m 1, group m 2, group m 3)
  end.

Definition slurm_decoders : list (str * list str) := [
  ("QUEUED", ["CONFIGURING"; "PENDING"; "RESV_DEL_HOLD"; "REQUEUE_FED"; "REQUEUE_HOLD"]);
  ("RUNNING", ["COMPLETING"; "RUNNING"; "SIGNALING"; "STAGE_OUT"]);
  ("SUSPENDED", ["PREEMPTED"; "STOPPED"; "SUSPENDED"]);
  ("COMPLETED", ["BOOT_FAIL"; "CANCELLED"; "COMPLETED"; "DEADLINE"; "FAILED"; "NODE_FAIL";
                 "OUT_OF_MEMORY"; "REVOKED"; "TIMEOUT"])
].

Definition slurm_convert_status (bss_state : str) : str :=
  match find (fun d => bool_decide (bss_state ∈ snd d)) slurm_decoders with
  | Some (ustate, _) => ustate
  | None => "UNKNOWN"
  end.

(** The last character removed if it is a star. *)
Definition strip_star (p_name : str) : str * bool :=
  if endswith p_name "*" then (take (length p_name - 1) p_name, true) else (p_name, false).

(** [have_nodes += int(nodes)] adds to the entry found, which is a dictionary:
    only a partition seen for the first time succeeds. *)
Definition add_partition (result : partitions_t) (line : str) : Prelude.result partitions_t :=
  match split_ws line with
  | [p_name; nodes] =>
      let '(p_name, is_default) := strip_star p_name in
      n ← int_of_str nodes;
      match dict_get result p_name with
      | Some _ => throw TypeError "unsupported operand type(s) for +=: 'dict' and 'int'"
      | None => Ok (dict_set result p_name (n, is_default))
      end
  | _ => Ok result
  end.

Fixpoint add_partitions (result : partitions_t) (lines : list str) : Prelude.result partitions_t :=
  match lines with
  | [] => Ok result
  | line :: lines' => result' ← add_partition result line; add_partitions result' lines'
  end.

Definition slurm_parse_partitions (raw_info : str) : result partitions_t :=
  add_partitions [] (split NL raw_info).

#[local] Instance slurm : BSS := {|
  get_variant := "Slurm"; defaults := slurm_defaults;
  create_submit_script := slurm_submit_script;
  create_alloc_script := slurm_alloc_script;
  get_extract_id_expr := slurm_extract_id_expr;
  extract_info line := Ok (slurm_extract_info line);
  convert_status state := Ok (slurm_convert_status state);
  parse_job_details := base_parse_job_details;
  parse_partitions := slurm_parse_partitions
|}.

Definition slurm_config : config_t := {[
  "tsi.default_job_name" := VStr "UnicoreJob";
  "tsi.nodes_filter" := VStr "gpu";
  "tsi.alloc_cmd" := VStr "salloc --no-shell"
]}.

Definition slurm_msg : str :=
  "#TSI_JOBNAME test" ++ nl ++ "#TSI_OUTCOME_DIR /out" ++ nl ++ "#TSI_USPACE_DIR /work" ++ nl
  ++ "#TSI_NODES 2" ++ nl ++ "#TSI_PROCESSORS_PER_NODE 8" ++ nl ++ "#TSI_TIME 120" ++ nl
  ++ "#TSI_BSS_NODES_FILTER mem" ++ nl ++ "#TSI_ARRAY 100" ++ nl ++ "#TSI_ARRAY_LIMIT 10" ++ nl.

Example slurm_script_ex : slurm_submit_script slurm_msg slurm_config = Ok [
  "#!/bin/bash"; "#SBATCH --job-name=test"; "#SBATCH --nodes=2"; "#SBATCH --ntasks-per-node=8";
  "#SBATCH --constraint=gpu&mem"; "#SBATCH --time=2"; "#SBATCH --array=100%10";
  "UC_ARRAY_TASK_ID = " ++ dq ++ "$SLURM_ARRAY_TASK_ID" ++ dq ++ "; export UC_ARRAY_TASK_ID";
  "#SBATCH --output=/out/stdout%a"; "#SBATCH --error=/out/stderr%a"; "#SBATCH --chdir=/work"].
Proof. vm_compute. reflexivity. Qed.
Example slurm_info_ex : slurm_extract_info "177071_[0-99] PENDING small"
  = Some ("177071", "PENDING", "small").
Proof. vm_compute. reflexivity. Qed.
Example slurm_id_ex : extract_job_id ("Submitted batch job 4711 on 12" ++ nl) = Some "4711".
Proof. vm_compute. reflexivity. Qed.
Example slurm_partitions_ex : slurm_parse_partitions ("batch* 16" ++ nl ++ "gpu 4" ++ nl)
  = Ok [("batch", (16, true)); ("gpu", (4, false))].
Proof. vm_compute. reflexivity. Qed.

(** ** Facts: one directive per line *)

Lemma slurm_jobname_no_nl (j : str) : NL ∉ j -> NL ∉ slurm_jobname j.
Proof. intros Hj. unfold slurm_jobname. destruct (re_search _ j); [|done]. no_nl. Qed.

Lemma slurm_nodes_filter_no_nl (message : str) (config : config_t) (f : str) :
  clean_config config -> slurm_nodes_filter message config = Ok f -> NL ∉ f.
Proof.
  intros Hc. unfold slurm_nodes_filter. intros Hf.
  apply bind_ok in Hf as (a & Ha & Hf). apply Ok_inj in Hf as <-.
  assert (NL ∉ a) as Hn by (eapply cfg_get_str_no_nl; [done | | done]; no_nl).
  no_nl.
Qed.

Lemma slurm_common_one_line (message : str) (config : config_t) (l : list str) :
  clean_config config -> slurm_common_options message config = Ok l -> one_line l.
Proof.
  intros Hc. unfold slurm_common_options. intros Hl.
  apply bind_ok in Hl as (job & Hj & Hl). apply bind_ok in Hl as (filter & Hf & Hl).
  apply bind_ok in Hl as (time & Ht & Hl). apply Ok_inj in Hl as <-.
  assert (NL ∉ job) as Hjob by (by eapply cfg_str_no_nl).
  assert (NL ∉ filter) as Hfilter by (by eapply slurm_nodes_filter_no_nl).
  assert (one_line time) as Htime.
  { unfold slurm_time in Ht. destruct (0 <? _).
    - apply bind_ok in Ht as (minutes & _ & Ht). apply Ok_inj in Ht as <-. one_lines.
    - apply Ok_inj in Ht as <-. one_lines. }
  assert (NL ∉ slurm_jobname (parameter_or message "JOBNAME" job)) as Hname
    by (apply slurm_jobname_no_nl; no_nl).
  unfold slurm_tasks. one_lines.
Qed.

Lemma slurm_submit_one_line (message : str) (config : config_t) (l : list str) :
  clean_config config -> slurm_submit_script message config = Ok l -> one_line l.
Proof.
  intros Hc. unfold slurm_submit_script. intros Hl. apply bind_ok in Hl as (options & Ho & Hl).
  apply Ok_inj in Hl as <-. apply slurm_common_one_line in Ho; [|done].
  assert (one_line ((fun option => "#SBATCH " ++ option) <$> options)) as Hopts.
  { apply Forall_fmap. eapply Forall_impl; [exact Ho|]. intros o Hn.
    cbn beta in Hn. unfold compose. no_nl. }
  one_lines.
Qed.

(** ** Facts: the output of [squeue] *)

Lemma settles_common_options (message : str) (config : config_t) :
  settles (slurm_common_options message config).
Proof. unfold slurm_common_options, slurm_nodes_filter, slurm_time. solve_settles. Qed.
#[local] Hint Resolve settles_common_options : settles.

Lemma settles_add_partitions (acc : partitions_t) (lines : list str) :
  settles (add_partitions acc lines).
Proof.
  revert acc. induction lines as [|l lines IH]; intros acc; [done|]. cbn [add_partitions].
  apply settles_bind; [|done]. unfold add_partition. solve_settles.
Qed.

#[local] Instance slurm_laws : BSSLaws.
Proof.
  split.
  - intros line. by eexists.
  - intros state. eexists. split; [reflexivity|]. simpl. unfold slurm_convert_status.
    destruct (find _ slurm_decoders) as [[u l]|] eqn:E; [|by apply (bool_decide_unpack _); vm_compute].
    apply find_some in E as [Hin _]. apply list_elem_of_In in Hin.
    unfold slurm_decoders in Hin. rewrite !elem_of_cons, elem_of_nil in Hin.
    destruct Hin as [[= -> _]|[[= -> _]|[[= -> _]|[[= -> _]|[]]]]];
      apply (bool_decide_unpack _); by vm_compute.
  - intros msg config. simpl. unfold slurm_submit_script. solve_settles.
  - intros msg config. simpl. unfold slurm_alloc_script. solve_settles.
  - intros raw. apply settles_add_partitions.
Qed.

Lemma compile_slurm_info : compile "(\d+)_?\S*\s+(\w+)\s+(\w+)" = Some
  [TOpen 1; TRep digit_set 1 None; TClose 1; TRep (CSet false [CChar "_"]) 0 (Some 1%nat);
   TRep non_space_set 0 None; TRep space_set 1 None; TOpen 2; TRep word_set 1 None; TClose 2;
   TRep space_set 1 None; TOpen 3; TRep word_set 1 None; TClose 3].
Proof. vm_compute. reflexivity. Qed.

(** What stands between the job number and the state: nothing, or the index of an array
    element. *)
Definition array_suffix (s : str) : Prop :=
  s = [] \/ exists t, s = "_" ++ t /\ Forall (fun c => is_space c = false) t.

(** The state and the partition, behind the number. *)
Lemma slurm_tail_run (ws1 state ws2 queue rest : str) (op : opens) (cp : caps) (p : option ascii) :
  some_of is_space ws1 -> some_of is_word state -> some_of is_space ws2 -> some_of is_word queue ->
  (forall c r, rest = c :: r -> is_word c = false) ->
  run false
    [TRep space_set 1 None; TOpen 2; TRep word_set 1 None; TClose 2;
     TRep space_set 1 None; TOpen 3; TRep word_set 1 None; TClose 3] op cp p
    (ws1 ++ state ++ ws2 ++ queue ++ rest) = Some (rest, (3%nat, queue) :: (2%nat, state) :: cp).
Proof.
  intros Hw1 Hst Hw2 Hq Hrest.
  field_run Hw1 in_space_set. { field_sep Hst word_not_space. }
  field_run Hst in_word_set. { field_sep Hw2 space_not_word. }
  field_run Hw2 in_space_set. { field_sep Hq word_not_space. }
  field_run Hq in_word_set. { done. }
  done.
Qed.

Lemma slurm_info_run (id suffix ws1 state ws2 queue rest : str) :
  some_of is_digit id -> array_suffix suffix -> some_of is_space ws1 -> some_of is_word state ->
  some_of is_space ws2 -> some_of is_word queue ->
  (forall c r, rest = c :: r -> is_word c = false) ->
  slurm_extract_info (id ++ suffix ++ ws1 ++ state ++ ws2 ++ queue ++ rest)
  = Some (id, state, queue).
Proof.
  intros Hid Hsuf Hw1 Hst Hw2 Hq Hrest. unfold slurm_extract_info, re_match. rewrite compile_slurm_info.
  unfold run_at.
  destruct (some_of_all _ digit_set id in_digit_set Hid) as [Ad Ld].
  match goal with |- context [run false ?ts ?op ?cp ?p ?s] =>
    assert (run false ts op cp p s = Some (rest, [(3%nat, queue); (2%nat, state); (1%nat, id)])) as Hrun
  end.
  2: { rewrite Hrun. done. }
  rewrite run_open. apply run_rep_longest; [done|done| |].
  { intros c r Hc. rewrite in_digit_set. destruct Hsuf as [->|(t & -> & _)].
    - apply space_not_digit. exact (some_of_head is_space _ _ _ _ Hw1 Hc).
    - injection Hc as <- _. done. }
  rewrite run_close.
  pose proof (fun op cp p => slurm_tail_run ws1 state ws2 queue rest op cp p Hw1 Hst Hw2 Hq Hrest) as Htail.
  assert (forall c r, ws1 ++ state ++ ws2 ++ queue ++ rest = c :: r -> is_space c = true) as Hsp.
  { intros c r Hc. exact (some_of_head is_space _ _ _ _ Hw1 Hc). }
  destruct Hsuf as [->|(t & -> & Ht)].
  - apply run_opt_skip.
    { intros c r Hc. rewrite in_set_char. apply Hsp in Hc. apply Ascii.eqb_neq. by intros ->. }
    apply (run_rep_longest _ non_space_set 0 _ _ _ _ [] _); [constructor | simpl; lia | | apply Htail].
    intros c r Hc. by rewrite in_non_space_set, (Hsp c r Hc).
  - change (("_" ++ t) ++ ?x) with ("_"%char :: (t ++ x)). apply run_opt_take; [done|].
    apply run_rep_longest; [| lia | | apply Htail].
    + eapply Forall_impl; [exact Ht|]. intros c Hc. cbn beta in *. by rewrite in_non_space_set, Hc.
    + intros c r Hc. by rewrite in_non_space_set, (Hsp c r Hc).
Qed.

(** ** Facts: the output of [sinfo] *)

Abbreviation partition_t := (str * (Z * bool))%type.

(** A line of [sinfo]: the name, starred for the default partition, and the
    number of nodes. *)
Definition partition_line (p : partition_t) : str :=
  p.1 ++ (if p.2.2 then "*" else "") ++ " " ++ str_of_Z p.2.1.

Definition partition_name (name : str) : Prop :=
  some_of (fun c => negb (is_space c)) name /\ endswith name "*" = false.

Lemma strip_star_starred (name : str) : strip_star (name ++ "*") = (name, true).
Proof.
  unfold strip_star, endswith. rewrite reverse_app. simpl.
  rewrite length_app. simpl. by replace (length name + 1 - 1)%nat with (length name) by lia; rewrite take_app_length.
Qed.

Lemma add_partition_line (acc : partitions_t) (p : partition_t) :
  partition_name p.1 ->
  add_partition acc (partition_line p)
  = match dict_get acc p.1 with
    | Some _ => throw TypeError "unsupported operand type(s) for +=: 'dict' and 'int'"
    | None => Ok (dict_set acc p.1 p.2)
    end.
Proof.
  destruct p as [name [n d]]. intros [[Hne Hs] Hstar]. simpl in Hne, Hs, Hstar.
  assert (Forall (fun c => is_space c = false) name) as Hsp.
  { eapply Forall_impl; [exact Hs|]. intros c Hc. by apply negb_true_iff. }
  unfold add_partition, partition_line. cbn [fst snd].
  destruct d.
  - rewrite app_assoc, split_ws_two.
    + rewrite strip_star_starred, int_of_str_of_Z. done.
    + by destruct name.
    + apply str_of_Z_nonempty.
    + apply Forall_app_2; [done | by repeat constructor].
    + apply str_of_Z_no_space.
  - change ("" ++ ?x) with x. rewrite split_ws_two; [| done | apply str_of_Z_nonempty | done | apply str_of_Z_no_space].
    unfold strip_star. rewrite Hstar, int_of_str_of_Z. done.
Qed.

Lemma dict_set_new {V : Type} (d : list (str * V)) (k : str) (v : V) :
  k ∉ d.*1 -> dict_set d k v = d ++ [(k, v)].
Proof.
  induction d as [|[k' v'] d IH]; intros Hk; [done|]. rewrite fmap_cons in Hk.
  apply not_elem_of_cons in Hk as [Hne Hk]. cbn [dict_set].
  apply str_eqb_neq in Hne. cbn [fst] in Hne. rewrite Hne. by rewrite IH.
Qed.

Lemma add_partitions_lines (acc ps : partitions_t) :
  Forall (fun p => partition_name p.1) ps -> NoDup acc.*1 ->
  add_partitions acc ((partition_line <$> ps) ++ [[]])
  = if bool_decide (NoDup (acc ++ ps).*1) then Ok (acc ++ ps)
    else throw TypeError "unsupported operand type(s) for +=: 'dict' and 'int'".
Proof.
  intros Hps. revert acc; induction Hps as [|p ps Hp _ IH]; intros acc Hnd.
  - rewrite app_nil_r. by rewrite bool_decide_eq_true_2.
  - rewrite fmap_cons. cbn [app add_partitions]. rewrite add_partition_line by done.
    destruct (dict_get acc p.1) as [v|] eqn:Hg.
    + rewrite bool_decide_eq_false_2; [done|]. rewrite fmap_app, fmap_cons.
      intros (_ & Hd & _)%NoDup_app. apply (Hd p.1); [|by left].
      destruct (decide (p.1 ∈ acc.*1)) as [|Hn]; [done|]. apply dict_get_none in Hn. congruence.
    + apply dict_get_none in Hg. rewrite dict_set_new by done. cbn [mbind result_bind].
      destruct p as [name v]. rewrite IH.
      * by rewrite <-app_assoc.
      * rewrite fmap_app. apply NoDup_app. split; [done|]. split; [|apply NoDup_singleton].
        intros x Hx ->%list_elem_of_singleton. done.
Qed.

Lemma partition_line_no_nl (p : partition_t) : partition_name p.1 -> NL ∉ partition_line p.
Proof.
  destruct p as [name [n d]]. intros [[_ Hs] _]. unfold partition_line. cbn [fst snd] in *.
  assert (NL ∉ name) as Hn.
  { intros Hin. rewrite Forall_forall in Hs. by specialize (Hs _ Hin). }
  no_nl.
Qed.

(** * Properties *)

(** Every directive of a Slurm job script stands on a line of its own,
    whatever the message contains: no value of the message can add lines to
    the script. *)
Theorem slurm_script_one_line (message : str) (config : config_t) (script : list str) :
  clean_config config -> slurm_submit_script message config = Ok script ->
  Forall (fun line => NL ∉ line) script.
Proof. apply slurm_submit_one_line. Qed.

Lemma slurm_config_clean : clean_config slurm_config.
Proof.
  intros k s. unfold slurm_config.
  rewrite !lookup_insert_Some, lookup_singleton_Some.
  intros [[_ [= <-]]|[_ [[_ [= <-]]|[_ [_ [= <-]]]]]]; apply (bool_decide_unpack _); by vm_compute.
Qed.

Lemma slurm_script_one_line_witness :
  match slurm_submit_script slurm_msg slurm_config with
  | Ok script => Forall (fun line => NL ∉ line) script
  | _ => False
  end.
Proof.
  assert (is_ok (slurm_submit_script slurm_msg slurm_config) = true) as R by (vm_compute; reflexivity).
  destruct (slurm_submit_script slurm_msg slurm_config) as [script|e|n|] eqn:E;
    [|discriminate R|discriminate R|discriminate R].
  exact (slurm_script_one_line slurm_msg slurm_config script slurm_config_clean E).
Defined.

(** C27: The partitions of a listing with distinct names are all reported, with
    their sizes and the default partition; a listing that names a partition
    twice, for nodes in several states, makes [parse_partitions] raise a
    [TypeError]: it adds a number to the entry it stored. *)
Theorem slurm_parse_partitions_spec (ps : partitions_t) :
  Forall (fun p => partition_name p.1) ps ->
  parse_partitions (concat ((fun p => partition_line p ++ nl) <$> ps))
  = if bool_decide (NoDup ps.*1) then Ok ps
    else throw TypeError "unsupported operand type(s) for +=: 'dict' and 'int'".
Proof.
  intros Hps. simpl. unfold slurm_parse_partitions.
  replace ((fun p => partition_line p ++ nl) <$> ps)
    with ((fun l => l ++ nl) <$> (partition_line <$> ps)) by (by rewrite <-list_fmap_compose).
  rewrite split_lines.
  - by rewrite add_partitions_lines by (done || apply NoDup_nil_2).
  - apply Forall_fmap. eapply Forall_impl; [exact Hps|]. intros p. apply partition_line_no_nl.
Qed.

Lemma slurm_parse_partitions_spec_witness :
  parse_partitions ("batch* 16" ++ nl ++ "gpu 4" ++ nl)
    = Ok [("batch", (16, true)); ("gpu", (4, false))] /\
  parse_partitions ("batch 16" ++ nl ++ "batch 4" ++ nl)
    = throw TypeError "unsupported operand type(s) for +=: 'dict' and 'int'".
Proof.
  split.
  - refine (eq_trans (slurm_parse_partitions_spec [("batch", (16, true)); ("gpu", (4, false))] _) _);
      [|reflexivity].
    apply Forall_cons_2; [|apply Forall_cons_2; [|apply Forall_nil_2]];
      (split; [split; [discriminate | by repeat constructor] | reflexivity]).
  - refine (eq_trans (slurm_parse_partitions_spec [("batch", (16, false)); ("batch", (4, false))] _) _).
    + apply Forall_cons_2; [|apply Forall_cons_2; [|apply Forall_nil_2]];
        (split; [split; [discriminate | by repeat constructor] | reflexivity]).
    + reflexivity.
Defined.
