(* ===== verification/Torque.v ===== *)
(** * [torque/BSS.py]: the Torque and OpenPBS variant

    Job scripts with [#PBS] directives, the output of [qstat -a] and of
    [qstat -f]. *)

From S2P Require Import Prelude PyStr PyNum Regex World Utils UserCache Testbed Connector BSSCommon Script.
#[local] Open Scope py_scope.
#[local] Open Scope Z_scope.

(** ** Definitions *)

Definition torque_defaults : list (str * str) := [
  ("tsi.submit_cmd", "qsub"); ("tsi.qstat_cmd", "qstat -a"); ("tsi.details_cmd", "qstat -f");
  ("tsi.abort_cmd", "qdel %s"); ("tsi.hold_cmd", "qhold"); ("tsi.resume_cmd", "qrls")
].

(** The user's filter counts only beside a global one. *)
Definition torque_nodes_filter (message : str) (config : config_t) : result str :=
  nodes_filter ← cfg_get_str config "tsi.nodes_filter" "";
  Ok (if negb (str_eqb nodes_filter "") then
        let user_nodes_filter := parameter_or message "BSS_NODES_FILTER" "NONE" in
        if given user_nodes_filter then ":" ++ nodes_filter ++ ":" ++ user_nodes_filter
        else ":" ++ nodes_filter
      else nodes_filter).

(** The first letter of the name and up to 14 characters after it. *)
Definition short_jobname (jobname : str) : str :=
  match re_search "([a-zA-Z]\S{0,14})" jobname with
  | Some m => group m 1
  | None => "UNICORE_job"
  end.

Definition torque_submit_script (message : str) (config : config_t) : result (list str) :=
  let email := parameter_or message "EMAIL" "NONE" in
  default_job_name ← cfg_str config "tsi.default_job_name";
  let jobname := parameter_or message "JOBNAME" default_job_name in
  let outcome_dir := extract_parameter message "OUTCOME_DIR" None in
  let project := parameter_or message "PROJECT" "NONE" in
  let stderr := parameter_or message "STDERR" "stderr" in
  let stdout := parameter_or message "STDOUT" "stdout" in
  let umask := extract_parameter message "UMASK" None in
  let nodes := extract_number message "NODES" in
  nodes_filter ← torque_nodes_filter message config;
  let processors_per_node := extract_number message "PROCESSORS_PER_NODE" in
  let array_spec := extract_number message "ARRAY" in
  let array_limit := extract_number message "ARRAY_LIMIT" in
  let queue := parameter_or message "QUEUE" "NONE" in
  let reservation_id := parameter_or message "RESERVATION_REFERENCE" "NONE" in
  let req_time := extract_number message "TIME" in
  let spec := "nodes=" ++ str_of_Z nodes
    ++ (if 0 <? processors_per_node then ":ppn=" ++ str_of_Z processors_per_node else "") in
  let array := 0 <? array_spec in
  let stdout := if array then stdout ++ "$PBS_ARRAYID" else stdout in
  let stderr := if array then stderr ++ "$PBS_ARRAYID" else stderr in
  Ok (["#PBS -N " ++ short_jobname jobname]
      ++ append_if (given queue) ("#PBS -q " ++ queue)
      ++ append_if (given project) ("#PBS -A " ++ project)
      ++ append_if (0 <? nodes) ("#PBS -l " ++ spec ++ nodes_filter)
      ++ append_if (0 <? req_time) ("#PBS -l walltime=" ++ str_of_Z req_time)
      ++ ["#PBS -m " ++ (if given email then "abe -M " ++ email else "n")]
      ++ append_if (given reservation_id) ("#PBS -W x=FLAGS:ADVRES:" ++ reservation_id)
      ++ (if array
          then ["#PBS -t " ++ array_range array_spec array_limit;
                "UC_ARRAY_TASK_ID = " ++ dq ++ "$PBS_ARRAYID" ++ dq ++ "; export UC_ARRAY_TASK_ID"]
          else [])
      ++ ["#PBS -o " ++ fmt outcome_dir ++ "/" ++ stdout;
          "#PBS -e " ++ fmt outcome_dir ++ "/" ++ stderr]
      ++ match umask with Some u => ["#PBS -W umask=" ++ u] | None => [] end).

Definition torque_extract_info (qstat_line : str) : info_t :=
  (fun m => (group m 1, group m 3, group m 2)) <$> re_search
    ("\s*(\d+)\.\S+\s+\S+\s+" ++ "(\S+)\s+\S+\s+\S+\s+\S+\s+\S+\s+\S+\s+\S+\s+([CEHQRTWS]+)"
     ++ "\s+\S+") qstat_line.

(** The lines of [qstat -f] with the continuation lines joined: [merged] are
    the lines so far, [last] the line that may be continued, [multi] whether
    it has been. *)
Record merge_state := Merge { merged : list str; last_line : str; multi : bool }.

Definition merge_step (st : merge_state) (line : str) : merge_state :=
  if startswith line [TAB] then Merge (merged st) (last_line st ++ strip line) true
  else if multi st then Merge (merged st ++ [last_line st; line]) "" false
  else Merge (merged st ++ [line]) line false.

Definition merge_lines (lines : list str) : list str :=
  merged (foldl merge_step (Merge [] "" false) (lines ++ ["_end_" ++ nl])).

(** A line without [=] is skipped. *)
Definition add_detail (result : list (str * str)) (line : str) : list (str * str) :=
  match split1 "=" line with
  | [k; v] => dict_set result (strip k) (strip v)
  | _ => result
  end.

Definition torque_parse_job_details (raw_info : str) : list (str * str) :=
  foldl add_detail [] (merge_lines (splitlines raw_info)).

Definition torque_convert_status (bss_state : str) : str :=
  if bool_decide (bss_state ∈ (["Q"; "T"; "W"] : list str)) then "QUEUED"
  else if bool_decide (bss_state ∈ (["E"; "R"] : list str)) then "RUNNING"
  else if bool_decide (bss_state ∈ (["S"; "H"] : list str)) then "SUSPENDED"
  else if bool_decide (bss_state ∈ (["C"; "F"] : list str)) then "COMPLETED"
  else "UNKNOWN".

#[local] Instance torque : BSS := {|
  get_variant := "Torque"; defaults := torque_defaults;
  create_submit_script := torque_submit_script;
  create_alloc_script := base_script;
  get_extract_id_expr := base_extract_id_expr;
  extract_info line := Ok (torque_extract_info line);
  convert_status state := Ok (torque_convert_status state);
  parse_job_details := torque_parse_job_details;
  parse_partitions := base_parse_partitions
|}.

Definition torque_config : config_t := {[
  "tsi.default_job_name" := VStr "UnicoreJob"; "tsi.nodes_filter" := VStr "" ]}.
Definition torque_msg : str :=
  "#TSI_SUBMIT" ++ nl ++ "#TSI_JOBNAME my job" ++ nl ++ "#TSI_OUTCOME_DIR /o" ++ nl
  ++ "#TSI_NODES 2" ++ nl ++ "#TSI_PROCESSORS_PER_NODE 4" ++ nl ++ "#TSI_TIME 60" ++ nl.
Example torque_script_ex : torque_submit_script torque_msg torque_config = Ok
  ["#PBS -N my"; "#PBS -l nodes=2:ppn=4"; "#PBS -l walltime=60"; "#PBS -m n";
   "#PBS -o /o/stdout"; "#PBS -e /o/stderr"].
Proof. vm_compute. reflexivity. Qed.
Example torque_info_ex : torque_extract_info
  "123.host.juelich.de jdoe    batch    New_Script  16522     1  -- 1000mb 00:00 C 00:00"
  = Some ("123", "C", "batch").
Proof. vm_compute. reflexivity. Qed.
Example torque_details_ex : torque_parse_job_details
  ("a = b" ++ nl ++ "v = x," ++ nl ++ [TAB] ++ "y" ++ nl ++ "c = d" ++ nl)
  = [("a", "b"); ("v", "x,y"); ("c", "d")].
Proof. vm_compute. reflexivity. Qed.

(** The continuation of an attribute that follows another continued one is
    lost. *)
Example torque_details_lost_ex : torque_parse_job_details
  ("v = x," ++ nl ++ [TAB] ++ "y" ++ nl ++ "w = 1," ++ nl ++ [TAB] ++ "2" ++ nl)
  = [("v", "x,y"); ("w", "1,")].
Proof. vm_compute. reflexivity. Qed.

(** ** Facts: one directive per line *)

Lemma short_jobname_no_nl (j : str) : NL ∉ j -> NL ∉ short_jobname j.
Proof.
  intros Hj. unfold short_jobname. destruct (re_search _ j) as [m|] eqn:E; [|no_nl].
  apply Forall_not_elem_of. eapply search_group; [exact E | by apply Forall_not_elem_of].
Qed.

Lemma torque_nodes_filter_no_nl (message : str) (config : config_t) (f : str) :
  clean_config config -> torque_nodes_filter message config = Ok f -> NL ∉ f.
Proof.
  intros Hc Hf. unfold torque_nodes_filter in Hf. apply bind_ok in Hf as (a & Ha & Hf).
  apply Ok_inj in Hf as <-.
  assert (NL ∉ a) as Hn by (eapply cfg_get_str_no_nl; [done | | done]; no_nl).
  destruct (negb (str_eqb a "")); [|done]. destruct (given _); no_nl.
Qed.

Lemma torque_one_line (message : str) (config : config_t) (l : list str) :
  clean_config config -> torque_submit_script message config = Ok l -> one_line l.
Proof.
  intros Hc Hl. unfold torque_submit_script in Hl. apply bind_ok in Hl as (job & Hj & Hl).
  apply bind_ok in Hl as (filter & Hf & Hl). apply Ok_inj in Hl as <-.
  assert (NL ∉ job) as Hjob by (by eapply cfg_str_no_nl).
  assert (NL ∉ filter) as Hfilter by (by eapply torque_nodes_filter_no_nl).
  assert (NL ∉ short_jobname (parameter_or message "JOBNAME" job)) as Hname
    by (apply short_jobname_no_nl; no_nl).
  one_lines.
Qed.

(** ** Facts: the laws *)

Lemma torque_states (s : str) : torque_convert_status s ∈ ustates.
Proof.
  unfold torque_convert_status. repeat case_bool_decide; apply (bool_decide_unpack _); by vm_compute.
Qed.

#[local] Instance torque_laws : BSSLaws.
Proof.
  split; try done; intros; simpl.
  - by eexists.
  - eexists. split; [done | apply torque_states].
  - unfold torque_submit_script, torque_nodes_filter. solve_settles.
Qed.

(** ** Facts: job details *)

(** An attribute: the text before and after the sign and the continuation
    lines. *)
Record detail := Detail { d_name : str; d_value : str; d_more : list str }.

Definition detail_head (r : detail) : str := d_name r ++ "=" ++ d_value r.
Definition detail_lines (r : detail) : list str := detail_head r :: (cons TAB <$> d_more r).
Definition detail_ok (r : detail) : Prop :=
  ("="%char ∉ d_name r) /\ startswith (detail_head r) [TAB] = false.
Definition detail_value (r : detail) : str := d_value r ++ concat ((fun c => strip (TAB :: c)) <$> d_more r).

(** No continued attribute follows another one. *)
Fixpoint spaced (after_multi : bool) (rs : list detail) : Prop :=
  match rs with
  | [] => True
  | r :: rs' => (after_multi = true -> d_more r = []) /\ spaced (negb (bool_decide (d_more r = []))) rs'
  end.

Definition detail_entry (d : list (str * str)) (r : detail) : list (str * str) :=
  dict_set d (strip (d_name r)) (strip (detail_value r)).

Lemma add_detail_line (d : list (str * str)) (a b : str) :
  "="%char ∉ a -> add_detail d (a ++ "=" ++ b) = dict_set d (strip a) (strip b).
Proof.
  intros Ha. unfold add_detail, split1. change ("=" ++ b) with ("="%char :: b).
  assert (partition "=" (a ++ "="%char :: b) = Some (a, b)) as ->; [|done].
  induction a as [|c a IH]; [done|]. apply not_elem_of_cons in Ha as [Hc Ha]. simpl.
  destruct (Ascii.eqb_spec c "="); [by subst|]. simpl in IH. by rewrite IH.
Qed.

Lemma dict_set_twice {V : Type} (d : list (str * V)) (k : str) (a b : V) :
  dict_set (dict_set d k a) k b = dict_set d k b.
Proof.
  induction d as [|[k' v] d IH]; simpl; [by rewrite str_eqb_refl|].
  destruct (str_eqb k k') eqn:E; simpl; [by rewrite str_eqb_refl | by rewrite E, IH].
Qed.

(** The continuation lines are appended to the last line. *)
Lemma merge_more (cs : list str) (st : merge_state) :
  cs <> [] -> foldl merge_step st (cons TAB <$> cs)
  = Merge (merged st) (last_line st ++ concat ((fun c => strip (TAB :: c)) <$> cs)) true.
Proof.
  revert st. induction cs as [|c cs IH]; intros st Hne; [done|].
  rewrite !fmap_cons. cbn [foldl concat].
  assert (merge_step st (TAB :: c) = Merge (merged st) (last_line st ++ strip (TAB :: c)) true) as -> by done.
  destruct cs as [|c' cs].
  - cbn [fmap list_fmap foldl concat]. by rewrite app_nil_r.
  - rewrite IH by done. cbn [merged last_line]. by rewrite <-app_assoc.
Qed.

(** What the lines merged so far amount to. *)
Definition details_of (st : merge_state) : list (str * str) :=
  foldl add_detail [] (merged st ++ if multi st then [last_line st] else []).

Lemma merge_record (st : merge_state) (r : detail) :
  detail_ok r -> (multi st = true -> d_more r = []) ->
  let st' := foldl merge_step st (detail_lines r) in
  details_of st' = detail_entry (details_of st) r /\
  multi st' = negb (bool_decide (d_more r = [])).
Proof.
  intros [Hn Ht] Hm. cbn zeta. unfold detail_lines. cbn [foldl]. unfold merge_step at 2 4. rewrite Ht.
  assert (forall d, add_detail d (detail_head r) = dict_set d (strip (d_name r)) (strip (d_value r))) as Hhead.
  { intros d. unfold detail_head. by apply add_detail_line. }
  destruct (multi st) eqn:Hst.
  - rewrite (Hm eq_refl). cbn [fmap list_fmap foldl]. unfold details_of. cbn [merged multi]. rewrite Hst.
    split; [|by rewrite bool_decide_eq_true_2]. rewrite app_nil_r, !foldl_app.
    cbn [foldl]. rewrite Hhead. unfold detail_entry, detail_value. rewrite (Hm eq_refl).
    cbn [fmap list_fmap concat]. by rewrite app_nil_r.
  - destruct (d_more r) as [|c cs] eqn:Hmore.
    + cbn [fmap list_fmap foldl]. unfold details_of. cbn [merged multi]. rewrite Hst, !app_nil_r, foldl_app.
      cbn [foldl]. rewrite Hhead. split; [|by rewrite bool_decide_eq_true_2].
      unfold detail_entry, detail_value. rewrite Hmore. cbn [fmap list_fmap concat]. by rewrite app_nil_r.
    + rewrite merge_more by done. unfold details_of. cbn [merged multi last_line].
      rewrite Hst, app_nil_r, !foldl_app. cbn [foldl]. rewrite Hhead.
      split; [|by rewrite bool_decide_eq_false_2]. unfold detail_head. rewrite <-!app_assoc.
      rewrite add_detail_line by done. rewrite dict_set_twice. unfold detail_entry, detail_value.
      by rewrite Hmore.
Qed.

Lemma merge_records (rs : list detail) (st : merge_state) :
  Forall detail_ok rs -> spaced (multi st) rs ->
  details_of (foldl merge_step st (concat (detail_lines <$> rs))) = foldl detail_entry (details_of st) rs.
Proof.
  intros Hok. revert st. induction Hok as [|r rs Hr _ IH]; intros st Hsp; [done|].
  destruct Hsp as [Hm Hsp]. rewrite fmap_cons. cbn [concat]. rewrite foldl_app. cbn [foldl].
  destruct (merge_record st r Hr Hm) as [He Hmu]. by rewrite IH, He; [|rewrite Hmu].
Qed.

(** * Properties *)

(** C40: The details of a job are read attribute by attribute: each gets the
    text after its sign together with its continuation lines, provided no
    continued attribute directly follows another one. *)
Theorem torque_details_spec (rs : list detail) :
  Forall detail_ok rs -> spaced false rs ->
  foldl add_detail [] (merge_lines (concat (detail_lines <$> rs))) = foldl detail_entry [] rs.
Proof.
  intros Hok Hsp. unfold merge_lines. rewrite foldl_app.
  pose proof (merge_records rs (Merge [] "" false) Hok Hsp) as Hm.
  change (details_of (Merge [] "" false)) with (@nil (str * str)) in Hm.
  set (st := foldl merge_step _ (concat _)) in *. cbn [foldl]. rewrite <-Hm.
  unfold merge_step, details_of. change (startswith ("_end_" ++ nl) [TAB]) with false.
  assert (forall d, add_detail d ("_end_" ++ nl) = d) as Hend by done.
  destruct (multi st); cbn [merged].
  - rewrite !foldl_app. cbn [foldl]. by rewrite Hend.
  - rewrite foldl_app, app_nil_r. cbn [foldl]. by rewrite Hend.
Qed.

Lemma torque_details_spec_witness :
  foldl add_detail [] (merge_lines ["a = b"; "v = x,"; TAB :: "y"; "c = d"])
  = [("a", "b"); ("v", "x,y"); ("c", "d")].
Proof.
  etransitivity; [apply (torque_details_spec
    [Detail "a " " b" []; Detail "v " " x," ["y"]; Detail "c " " d" []])|vm_compute; reflexivity].
  - repeat (apply Forall_cons_2; [split; [apply (bool_decide_unpack _); vm_compute; exact I | done]|]).
    apply Forall_nil_2.
  - by vm_compute.
Defined.

(** ** Facts: a line of [qstat] *)

(** Columns: a text without white space, and the white space behind it. *)
Definition column (c : str * str) : Prop := some_of (fun x => negb (is_space x)) c.1 /\ some_of is_space c.2.
Definition columns_text (cs : list (str * str)) : str := concat ((fun c : str * str => c.1 ++ c.2) <$> cs).
Definition column_toks (n : nat) : list tok :=
  concat (replicate n [TRep non_space_set 1 None; TRep space_set 1 None]).

Definition text_follows (rest : str) : Prop := forall c r, rest = c :: r -> is_space c = false.

Lemma run_columns (ml : bool) (cs : list (str * str)) (ts : list tok) (op : opens) (cp : caps)
    (p : option ascii) (rest : str) (x : str * caps) :
  Forall column cs -> text_follows rest ->
  (forall q, run ml ts op cp q rest = Some x) ->
  run ml (column_toks (length cs) ++ ts) op cp p (columns_text cs ++ rest) = Some x.
Proof.
  intros Hcs Hrest Hrun. revert p. induction Hcs as [|[f w] cs [Hf Hw] Hcs IH]; intros p; [apply Hrun|].
  cbn [fst snd] in Hf, Hw. unfold columns_text, column_toks in *. rewrite fmap_cons.
  cbn [concat length replicate fst snd app]. rewrite <-!app_assoc.
  field_run Hf in_non_space_set. { field_sep Hw space_then. }
  field_run Hw in_space_set; [|apply IH].
  destruct Hcs as [|[f' w'] cs [Hf' _] _]; [exact Hrest|]. rewrite fmap_cons. cbn [concat fst snd] in *.
  rewrite <-!app_assoc. field_sep Hf' non_space_then.
Qed.

Definition state_set : cset :=
  CSet false [CChar "C"; CChar "E"; CChar "H"; CChar "Q"; CChar "R"; CChar "T"; CChar "W"; CChar "S"].
Definition is_state (c : ascii) : bool := in_set c state_set.

Lemma compile_torque_info :
  compile ("\s*(\d+)\.\S+\s+\S+\s+" ++ "(\S+)\s+\S+\s+\S+\s+\S+\s+\S+\s+\S+\s+\S+\s+([CEHQRTWS]+)" ++ "\s+\S+")
  = Some (TRep space_set 0 None :: TOpen 1 :: TRep digit_set 1 None :: TClose 1 :: lit "." ::
      column_toks 2 ++ TOpen 2 :: TRep non_space_set 1 None :: TClose 2 :: TRep space_set 1 None ::
      column_toks 6 ++ TOpen 3 :: TRep state_set 1 None :: TClose 3 :: TRep space_set 1 None ::
      [TRep non_space_set 1 None]).
Proof. vm_compute. reflexivity. Qed.

Lemma digit_not_space (c : ascii) : is_digit c = true -> is_space c = false.
Proof. destruct c as [[] [] [] [] [] [] [] []]; vm_compute; congruence. Qed.
Lemma state_not_space (c : ascii) : is_state c = true -> is_space c = false.
Proof. destruct c as [[] [] [] [] [] [] [] []]; vm_compute; congruence. Qed.
Lemma space_not_state (c : ascii) : is_space c = true -> is_state c = false.
Proof. destruct c as [[] [] [] [] [] [] [] []]; vm_compute; congruence. Qed.

Lemma torque_info_run (id : str) (server user : str * str) (queue ws : str) (cols : list (str * str))
    (state ws' elapsed rest : str) :
  some_of is_digit id -> column server -> column user -> column (queue, ws) -> Forall column cols ->
  length cols = 6%nat -> some_of is_state state -> column (elapsed, ws') ->
  (forall c r, rest = c :: r -> is_space c = true) ->
  torque_extract_info (id ++ "." ++ columns_text [server; user] ++ queue ++ ws ++ columns_text cols
    ++ state ++ ws' ++ elapsed ++ rest) = Some (id, state, queue).
Proof.
  intros Hid Hse Hus [Hq Hws] Hcols Hlen Hst [He Hws'] Hrest. cbn [fst snd] in *.
  unfold torque_extract_info, re_search. rewrite compile_torque_info.
  set (line := id ++ "." ++ columns_text [server; user] ++ queue ++ ws ++ columns_text cols
    ++ state ++ ws' ++ elapsed ++ rest).
  match goal with |- context [search_from false ?ts None line] =>
    assert (run false ts [] [] None line = Some (rest, [(3, state); (2, queue); (1, id)]%nat)) as Hrun
  end.
  { apply (run_rep_longest _ space_set 0 _ _ _ _ [] line); [constructor | simpl; lia | |].
    { intros c t Hc. rewrite in_space_set. apply digit_not_space. exact (some_of_head _ _ _ _ _ Hid Hc). }
    unfold line.
    field_run Hid in_digit_set. { by intros c r [= <- _]. }
    change ("." ++ ?x) with ("."%char :: x). apply run_lit.
    apply (run_columns false [server; user]);
      [exact (Forall_cons_2 _ _ _ Hse (Forall_cons_2 _ _ _ Hus (Forall_nil_2 _))) | field_sep Hq non_space_then | intros q].
    field_run Hq in_non_space_set. { field_sep Hws space_then. }
    assert (text_follows (columns_text cols ++ state ++ ws' ++ elapsed ++ rest)) as Hcol.
    { destruct Hcols as [|[f w] cols [Hf _] _]; [done|]. unfold columns_text. rewrite fmap_cons.
      cbn [concat fst snd] in *. rewrite <-!app_assoc. field_sep Hf non_space_then. }
    field_run Hws in_space_set. { exact Hcol. }
    rewrite <-Hlen. apply run_columns; [done | field_sep Hst state_not_space | intros q'].
    field_run Hst (fun c => eq_refl (is_state c)). { field_sep Hws' space_not_state. }
    field_run Hws' in_space_set. { field_sep He non_space_then. }
    field_run He in_non_space_set. { intros c r Hc. apply space_then. by eapply Hrest. }
    done. }
  unfold search_from. destruct line; unfold run_at; by rewrite Hrun.
Qed.
