(* ===== verification/Lsf.v ===== *)
(** * [lsf/BSS.py]: the LSF variant

    Job scripts with [#BSUB] directives and the output of [bjobs]. *)

From S2P Require Import Prelude PyStr PyNum Regex World Utils UserCache Testbed Connector BSSCommon Script Torque.
#[local] Open Scope py_scope.
#[local] Open Scope Z_scope.

(** ** Definitions *)

Definition lsf_defaults : list (str * str) := [
  ("tsi.submit_cmd", "bsub <"); ("tsi.qstat_cmd", "bjobs -w -u all"); ("tsi.details_cmd", "bjobs -l");
  ("tsi.abort_cmd", "bkill %s"); ("tsi.hold_cmd", "bstop"); ("tsi.resume_cmd", "bresume");
  ("tsi.lsf.memory_conversion_factor", "1")
].

(** Slots: the total, or nodes times processors per node. *)
Definition lsf_slots (message : str) : list str :=
  let nodes := extract_number message "NODES" in
  let processors_per_node := extract_number message "PROCESSORS_PER_NODE" in
  let total_processors := extract_number message "TOTAL_PROCESSORS" in
  if 0 <? total_processors then ["#BSUB -n " ++ str_of_Z total_processors]
  else if (0 <? nodes) && (0 <? processors_per_node) then
    let slots := nodes * processors_per_node in
    ("#BSUB -R " ++ dq ++ "span[ptile=" ++ str_of_Z processors_per_node ++ "]" ++ dq)
    :: append_if (0 <? slots) ("#BSUB -n " ++ str_of_Z slots)
  else [].

Definition lsf_gpus (message : str) : list str :=
  let gpu_count := match int_of_str (parameter_or message "GPUS_PER_NODE" "NONE") with Ok n => n | _ => 0 end in
  append_if (0 <? gpu_count) ("#BSUB -gpu " ++ dq ++ "num=" ++ str_of_Z gpu_count ++ ":j_exclusive=yes" ++ dq).

(** The memory per process: computed, converted and not used. *)
Definition lsf_memory (message : str) (config : config_t) : result Z :=
  let memory := extract_number message "MEMORY" in
  let processors_per_node := extract_number message "PROCESSORS_PER_NODE" in
  memory ← int_truediv memory processors_per_node;
  factor ← match cfg_get config "tsi.lsf.memory_conversion_factor" VNone with
           | VStr s => int_of_str s
           | VInt n => Ok n
           | _ => throw TypeError "int() argument must be a string"
           end;
  Ok (memory * factor).

(** [extract_number] returns numbers: the comparisons of the time and of the
    memory with ["NONE"] always succeed. *)
Definition lsf_submit_script (message : str) (config : config_t) : result (list str) :=
  let email := parameter_or message "EMAIL" "NONE" in
  default_job_name ← cfg_str config "tsi.default_job_name";
  let jobname := parameter_or message "JOBNAME" default_job_name in
  let outcome_dir := extract_parameter message "OUTCOME_DIR" None in
  let project := parameter_or message "PROJECT" "NONE" in
  let stderr := parameter_or message "STDERR" "stderr" in
  let stdout := parameter_or message "STDOUT" "stdout" in
  let umask := parameter_or message "UMASK" "NONE" in
  let array_spec := extract_number message "ARRAY" in
  let array_limit := extract_number message "ARRAY_LIMIT" in
  let queue := parameter_or message "QUEUE" "NONE" in
  let reservation_id := parameter_or message "RESERVATION_REFERENCE" "NONE" in
  let req_time := extract_number message "TIME" in
  time_in_minutes ← int_truediv req_time 60;
  lsf_memory message config ;;
  let jobname := short_jobname jobname in
  let array := 0 <? array_spec in
  let spec := "[" ++ str_of_Z array_spec ++ "]"
    ++ (if 0 <? array_limit then "%" ++ str_of_Z array_limit else "") in
  let stdout := if array then stdout ++ "%I" else stdout in
  let stderr := if array then stderr ++ "%I" else stderr in
  Ok (append_if (given email) ("#BSUB -B -N -u " ++ email)
      ++ append_if (given queue) ("#BSUB -q " ++ queue)
      ++ append_if (given project) ("#BSUB -P " ++ project)
      ++ lsf_slots message
      ++ lsf_gpus message
      ++ ["#BSUB -W " ++ str_of_Z time_in_minutes]
      ++ append_if (given reservation_id) ("#BSUB -U " ++ reservation_id)
      ++ (if array
          then ["#BSUB -J " ++ dq ++ jobname ++ spec ++ dq;
                "UC_ARRAY_TASK_ID = " ++ dq ++ "$LSB_JOB_INDEX" ++ dq ++ "; export UC_ARRAY_TASK_ID"]
          else ["#BSUB -J " ++ jobname])
      ++ ["#BSUB -o " ++ fmt outcome_dir ++ "/" ++ stdout;
          "#BSUB -e " ++ fmt outcome_dir ++ "/" ++ stderr;
          "umask " ++ umask]).

Definition lsf_extract_info (qstat_line : str) : info_t :=
  (fun m => (group m 1, group m 2, group m 3)) <$> re_search "^\s*(\d+)\s+\S+\s+(\w+)\s+(\w+)\.*" qstat_line.

Definition lsf_convert_status (bss_state : str) : str :=
  if bool_decide (bss_state ∈ (["PEND"; "WAIT"; "ZOMBI"] : list str)) then "QUEUED"
  else if bool_decide (bss_state ∈ (["RUN"; "POST_DONE"; "POST_ERR"] : list str)) then "RUNNING"
  else if bool_decide (bss_state ∈ (["PSUSP"; "USUSP"; "SSUSP"] : list str)) then "SUSPENDED"
  else if bool_decide (bss_state ∈ (["DONE"; "EXIT"] : list str)) then "COMPLETED"
  else "UNKNOWN".

#[local] Instance lsf : BSS := {|
  get_variant := "LSF"; defaults := lsf_defaults;
  create_submit_script := lsf_submit_script;
  create_alloc_script := base_script;
  get_extract_id_expr := base_extract_id_expr;
  extract_info line := Ok (lsf_extract_info line);
  convert_status state := Ok (lsf_convert_status state);
  parse_job_details := base_parse_job_details;
  parse_partitions := base_parse_partitions
|}.

(** [init]: the submit command reads the script from its standard input. *)
Definition lsf_init {E : Type} `{Ext E} : M (world E) unit :=
  init ;;
  submit_cmd ← config_get "tsi.submit_cmd" VNone;
  match submit_cmd with
  | VStr cmd => when (negb (endswith (strip cmd) "<")) (set_config "tsi.submit_cmd" (VStr (cmd ++ " <")))
  | _ => raise AttributeError "'NoneType' object has no attribute 'strip'"
  end.

Definition lsf_config : config_t := {[
  "tsi.default_job_name" := VStr "UnicoreJob"; "tsi.lsf.memory_conversion_factor" := VStr "1" ]}.
Definition lsf_msg : str :=
  "#TSI_SUBMIT" ++ nl ++ "#TSI_JOBNAME my job" ++ nl ++ "#TSI_OUTCOME_DIR /o" ++ nl
  ++ "#TSI_NODES 2" ++ nl ++ "#TSI_PROCESSORS_PER_NODE 4" ++ nl ++ "#TSI_MEMORY 64" ++ nl.
Example lsf_script_ex : lsf_submit_script lsf_msg lsf_config = Ok
  ["#BSUB -R " ++ dq ++ "span[ptile=4]" ++ dq; "#BSUB -n 8"; "#BSUB -W 0"; "#BSUB -J my";
   "#BSUB -o /o/stdout"; "#BSUB -e /o/stderr"; "umask NONE"].
Proof. vm_compute. reflexivity. Qed.
Example lsf_info_ex : lsf_extract_info "1652  bob  DONE normal gridnode1  gridnode3   date Jun 19 12:45"
  = Some ("1652", "DONE", "normal").
Proof. vm_compute. reflexivity. Qed.

(** Without a number of processors per node the division is by -1; a number
    of 0 stops the submission. *)
Example lsf_ppn_zero_ex :
  lsf_submit_script (lsf_msg ++ "#TSI_X" ++ nl) lsf_config = lsf_submit_script lsf_msg lsf_config /\
  lsf_submit_script ("#TSI_PROCESSORS_PER_NODE 0" ++ nl) lsf_config = throw ZeroDivisionError "division by zero".
Proof. vm_compute. split; reflexivity. Qed.

(** ** Facts *)

Lemma lsf_one_line (message : str) (config : config_t) (l : list str) :
  clean_config config -> lsf_submit_script message config = Ok l -> one_line l.
Proof.
  intros Hc Hl. unfold lsf_submit_script in Hl. apply bind_ok in Hl as (job & Hj & Hl).
  apply bind_ok in Hl as (time & _ & Hl). apply bind_ok in Hl as (mem & _ & Hl). apply Ok_inj in Hl as <-.
  assert (NL ∉ job) as Hjob by (by eapply cfg_str_no_nl).
  assert (NL ∉ short_jobname (parameter_or message "JOBNAME" job)) as Hname
    by (apply short_jobname_no_nl; no_nl).
  unfold lsf_slots, lsf_gpus. one_lines.
Qed.

Lemma lsf_states (s : str) : lsf_convert_status s ∈ ustates.
Proof.
  unfold lsf_convert_status. repeat case_bool_decide; apply (bool_decide_unpack _); by vm_compute.
Qed.

#[local] Instance lsf_laws : BSSLaws.
Proof.
  split; try done; intros; simpl.
  - by eexists.
  - eexists. split; [done | apply lsf_states].
  - unfold lsf_submit_script, lsf_memory. solve_settles.
Qed.

(** ** Facts: a line of [bjobs] *)

Lemma compile_lsf_info : compile "^\s*(\d+)\s+\S+\s+(\w+)\s+(\w+)\.*" = Some
  [TBol; TRep space_set 0 None; TOpen 1; TRep digit_set 1 None; TClose 1; TRep space_set 1 None;
   TRep non_space_set 1 None; TRep space_set 1 None; TOpen 2; TRep word_set 1 None; TClose 2;
   TRep space_set 1 None; TOpen 3; TRep word_set 1 None; TClose 3; TRep (CSet false [CChar "."]) 0 None].
Proof. vm_compute. reflexivity. Qed.


Lemma lsf_info_run (id ws1 user ws2 state ws3 queue rest : str) :
  some_of is_digit id -> some_of is_space ws1 -> some_of (fun c => negb (is_space c)) user ->
  some_of is_space ws2 -> some_of is_word state -> some_of is_space ws3 -> some_of is_word queue ->
  (forall c r, rest = c :: r -> is_word c = false) ->
  lsf_extract_info (id ++ ws1 ++ user ++ ws2 ++ state ++ ws3 ++ queue ++ rest) = Some (id, state, queue).
Proof.
  intros Hid Hw1 Hu Hw2 Hst Hw3 Hq Hrest. unfold lsf_extract_info, re_search. rewrite compile_lsf_info.
  set (line := id ++ ws1 ++ user ++ ws2 ++ state ++ ws3 ++ queue ++ rest).
  assert (forall ts op cp x, run false ts op cp None line = Some x ->
    run false (TBol :: ts) op cp None line = Some x) as Hbol by done.
  match goal with |- context [search_from false ?ts None line] =>
    assert (exists r, run false ts [] [] None line = Some (r, [(3, queue); (2, state); (1, id)]%nat)) as [r Hrun]
  end.
  { destruct (run_rep_last false (CSet false [CChar "."])
      [(3, queue ++ rest); (2, state ++ ws3 ++ queue ++ rest); (1, line)]%nat [(3, queue); (2, state); (1, id)]%nat
      (prev_after (prev_after (prev_after (prev_after (prev_after (prev_after (prev_after (prev_after None [])
         id) ws1) user) ws2) state) ws3) queue) rest) as [r Hr].
    exists r. apply Hbol. apply (run_rep_longest _ space_set 0 _ _ _ _ [] line); [constructor | simpl; lia | |].
    { intros c t Hc. rewrite in_space_set. apply digit_not_space. exact (some_of_head _ _ _ _ _ Hid Hc). }
    unfold line in *.
    field_run Hid in_digit_set. { field_sep Hw1 space_not_digit. }
    field_run Hw1 in_space_set. { field_sep Hu non_space_then. }
    field_run Hu in_non_space_set. { field_sep Hw2 space_then. }
    field_run Hw2 in_space_set. { field_sep Hst word_not_space. }
    field_run Hst in_word_set. { field_sep Hw3 space_not_word. }
    field_run Hw3 in_space_set. { field_sep Hq word_not_space. }
    field_run Hq in_word_set. { done. }
    exact Hr. }
  unfold search_from. destruct line; unfold run_at; by rewrite Hrun.
Qed.
