(* ===== verification/UFTP.v ===== *)
(** * [lib/UFTP.py]: starting a UFTP transfer

    The launcher: the script that runs the transfer in the background with its
    parameters in the environment; and the plan of the client, the operations
    it performs on the local file and on the FTP session. *)

From S2P Require Import Prelude PyStr World Utils UserCache Testbed Connector BSSCommon IO Script.
#[local] Open Scope py_scope.
#[local] Open Scope Z_scope.

(** ** The launcher *)

Section operations.
Context {E : Type} `{Ext E} `{Connector E}.
(** [__file__]. *)
Context (uftp_client : str).

(** The [export] lines, the working directory and the command. *)
Definition uftp_exports (host secret operation write_mode remote_path local_path python_path : str)
    (port offset length : Z) : list str :=
  ["export UFTP_HOST=" ++ host;
   "export UFTP_PORT=" ++ str_of_Z port;
   "export UFTP_SECRET=" ++ secret;
   "export UFTP_OPERATION=" ++ operation;
   "export UFTP_WRITE_MODE=" ++ write_mode;
   "export UFTP_OFFSET=" ++ str_of_Z offset;
   "export UFTP_LENGTH=" ++ str_of_Z length;
   "export UFTP_WRITE_MODE=" ++ write_mode;
   "export UFTP_REMOTE_FILE=" ++ remote_path;
   "export UFTP_LOCAL_FILE=" ++ local_path;
   "export PYTHONPATH=" ++ python_path].

Definition uftp_command (stdout stderr exit_code_file pid_file : str) : str :=
  "{ python3 " ++ uftp_client ++ " >> " ++ stdout ++ " 2 > " ++ stderr ++ " ; echo $? > "
  ++ exit_code_file ++ " ; } & echo $! > " ++ pid_file ++ " ".

(** [int(extract_parameter(msg, name, d))]. *)
Definition int_parameter_or (msg parameter d : str) : M (world E) Z :=
  lift (int_of_str (parameter_or msg parameter d)).

Definition uftp (msg : str) : M (world E) unit :=
  let host := extract_parameter msg "UFTP_HOST" None in
  port ← int_parameter msg "UFTP_PORT";
  let secret := extract_parameter msg "UFTP_SECRET" None in
  let operation := extract_parameter msg "UFTP_OPERATION" None in
  let write_mode := parameter_or msg "UFTP_WRITE_MODE" "FULL" in
  remote_path ← expand_path (extract_parameter msg "UFTP_REMOTE_FILE" None);
  local_path ← expand_path (extract_parameter msg "UFTP_LOCAL_FILE" None);
  offset ← int_parameter_or msg "UFTP_OFFSET" "0";
  length ← int_parameter_or msg "UFTP_LENGTH" "-1";
  let uspace_dir := extract_parameter msg "USPACE_DIR" None in
  outcome_dir ← lift (or_raise (extract_parameter msg "OUTCOME_DIR" None) TypeError
    "unsupported operand type(s) for +: 'NoneType' and 'str'");
  let stdout := outcome_dir ++ "/" ++ parameter_or msg "STDOUT" "stdout" in
  let stderr := outcome_dir ++ "/" ++ parameter_or msg "STDERR" "stderr" in
  let pid_file := outcome_dir ++ "/" ++ parameter_or msg "PID_FILE" "UNICORE_SCRIPT_PID" in
  let exit_code_file := outcome_dir ++ "/" ++ parameter_or msg "EXIT_CODE_FILE" "UNICORE_SCRIPT_EXIT_CODE" in
  env ← gets w_env;
  python_path ← lift (or_raise (env !! ("PYTHONPATH" : str)) KeyError "'PYTHONPATH'");
  let cmds := [msg] ++ uftp_exports (fmt host) (fmt secret) (fmt operation) write_mode remote_path
      local_path python_path port offset length
    ++ ["cd " ++ fmt uspace_dir; uftp_command stdout stderr exit_code_file pid_file] in
  let cmd := cmds ≫= (fun c => c ++ nl) in
  use_login_shell ← config_get "tsi.use_login_shell" (VBool true);
  '(success, reply) ← run_command cmd true (Some "tsi.child_pids") (truthy use_login_shell);
  if negb success then failed ("Failed to launch uftp command: " ++ reply) else ok None.
End operations.

(** ** The client

    The operations on the local file and on the session, in their order. *)

Inductive uftp_step :=
  | Touch (path : str)
  | OpenFile (path mode : str)
  | Seek (offset : Z)
  | SendCmd (command : str)
  | Retr (remote : str) (rest : option Z)
  | Stor (remote : str)
  | QuitSession.

(** [sendcmd("RANG ..")] and the test of its reply: the steps that follow are
    performed when the server accepts. *)
Definition rang (server : str -> result str) (offset length : Z) (k : list uftp_step)
    : list uftp_step * result unit :=
  let command := "RANG " ++ str_of_Z offset ++ " " ++ str_of_Z length in
  match server command with
  | Ok reply =>
      if startswith reply "350" then (SendCmd command :: k, Ok tt)
      else ([SendCmd command], throw (OSError 0) ("Error setting RANG: " ++ reply))
  | Raise e => ([SendCmd command], Raise e)
  | Exited c => ([SendCmd command], Exited c)
  | OutOfFuel => ([SendCmd command], OutOfFuel)
  end.

Definition prepend (l : list uftp_step) (r : list uftp_step * result unit) : list uftp_step * result unit :=
  (l ++ r.1, r.2).

Definition transfer (server : str -> result str) (operation write_mode remote_path local_path : str)
    (offset length : Z) : list uftp_step * result unit :=
  let partial := str_eqb write_mode "PARTIAL" in
  if str_eqb operation "GET" then
    let opened := (if partial then [Touch local_path] else [])
      ++ [OpenFile local_path (if partial then "r+b" else "wb")] in
    let seek := if ((0 <? offset) || (-1 <? length)) && partial then [Seek offset] else [] in
    if -1 <? length then
      prepend (opened ++ seek) (rang server offset length [Retr remote_path None; QuitSession])
    else (opened ++ seek ++ [Retr remote_path (Some offset); QuitSession], Ok tt)
  else
    let opened := [OpenFile local_path "rb"] in
    if (0 <? offset) || (-1 <? length) then
      prepend (opened ++ [Seek offset])
        (rang server (if partial then offset else 0) length [Stor remote_path; QuitSession])
    else (opened ++ [Stor remote_path; QuitSession], Ok tt).

(** [main]: the parameters come from the environment. *)
Definition uftp_main (env : gmap str str) (server : str -> result str)
    : result (str * Z * str * (list uftp_step * result unit)) :=
  let at_ (k : str) := or_raise (env !! k) KeyError (py_repr k) in
  host ← at_ "UFTP_HOST";
  port ← at_ "UFTP_PORT"; port ← int_of_str port;
  secret ← at_ "UFTP_SECRET";
  remote_path ← at_ "UFTP_REMOTE_FILE";
  local_path ← at_ "UFTP_LOCAL_FILE";
  operation ← at_ "UFTP_OPERATION";
  write_mode ← at_ "UFTP_WRITE_MODE";
  offset ← int_of_str (default "0" (env !! ("UFTP_OFFSET" : str)));
  length ← int_of_str (default "-1" (env !! ("UFTP_LENGTH" : str)));
  Ok (host, port, secret, transfer server operation write_mode remote_path local_path offset length).

(** A transfer to the server, of the whole file and of a range. *)
Example transfer_put_ex :
  transfer (fun _ => Ok "350 ok") "PUT" "FULL" "/r" "/l" 10 5
  = ([OpenFile "/l" "rb"; Seek 10; SendCmd "RANG 0 5"; Stor "/r"; QuitSession], Ok tt).
Proof. vm_compute. reflexivity. Qed.
Example transfer_get_ex :
  transfer (fun _ => Ok "500 no") "GET" "PARTIAL" "/r" "/l" 10 5
  = ([Touch "/l"; OpenFile "/l" "r+b"; Seek 10; SendCmd "RANG 10 5"],
     throw (OSError 0) "Error setting RANG: 500 no").
Proof. vm_compute. reflexivity. Qed.

(** ** Facts *)

Section facts.
Context {E : Type} `{Ext E}.

(** Reading a parameter changes nothing. *)
Definition pure_step (w w' : world E) : Prop := w' = w.

#[local] Instance pure_step_preorder : PreOrder pure_step.
Proof. split; [done|]. unfold pure_step. intros ???. congruence. Qed.

Lemma pure_int_parameter msg p : respects pure_step (int_parameter (E := E) msg p).
Proof. unfold int_parameter. solve_respects. Qed.
Lemma pure_int_parameter_or msg p d : respects pure_step (int_parameter_or (E := E) msg p d).
Proof. unfold int_parameter_or. solve_respects. Qed.
Lemma pure_expand_path o : respects pure_step (expand_path (E := E) o).
Proof. unfold expand_path, expand. solve_respects. Qed.
Lemma pure_config_get k v : respects pure_step (config_get (E := E) k v).
Proof. unfold config_get. solve_respects. Qed.

Lemma pure_ok {A} (m : M (world E) A) w a w' : respects pure_step m -> m w = (Ok a, w') -> w' = w.
Proof. intros Hm Hrun. specialize (Hm w). by rewrite Hrun in Hm. Qed.

(** What [append_pid] changes. *)
Lemma append_pid_run (k : str) (pid : Z) (u : unit) (w w' : world E) :
  append_pid k pid w = (Ok u, w') ->
  w_ext w' = w_ext w /\ w_out w' = w_out w /\
  forall l, w_config w !! k = Some (VPids l) -> w_config w' !! k = Some (VPids (l ++ [pid])).
Proof.
  unfold append_pid. rewrite (bind_run _ _ w w (cfg_get (w_config w) k VNone)) by done.
  unfold cfg_get. destruct (w_config w !! k) as [v|] eqn:Hc; cbn [from_option id].
  2: { intros [= _ <-]. by rewrite Hc. }
  destruct v as [| | | | |l| | | |]; try (intros [=]; fail).
  - intros [= _ <-]. split_and!; done.
  - intros [= _ <-]. split_and!; try done. intros l' [= <-]. apply lookup_insert_eq.
Qed.

(** A background command: one child, remembered in the configuration. *)
Lemma run_background (cmd : str) (login b : bool) (out : str) (w w' : world E) :
  run_command cmd true (Some "tsi.child_pids") login w = (Ok (b, out), w') ->
  b = true /\ exists pid e, x_popen (proc_of w) (shell_argv cmd login) (w_ext w) = (Ok pid, e) /\
    w_ext w' = e /\ w_out w' = w_out w /\
    forall l, w_config w !! ("tsi.child_pids" : str) = Some (VPids l) ->
      w_config w' !! ("tsi.child_pids" : str) = Some (VPids (l ++ [pid])).
Proof.
  unfold run_command. cbn [negb]. cbv zeta. intros Hrun. apply M_bind_ok in Hrun as (pid & w1 & Hp & Hrun).
  unfold ext_call in Hp. destruct (x_popen _ _ _) as [r e] eqn:Hpopen. injection Hp as -> <-.
  apply M_bind_ok in Hrun as (u & w2 & Ha & Hrun). injection Hrun as <- <- <-. split; [done|].
  exists pid, e. split; [done|]. by apply append_pid_run in Ha.
Qed.
End facts.

(** The first step of a run only reads. *)
Ltac skip_pure Hrun :=
  apply M_bind_ok in Hrun as (? & ? & E1 & Hrun);
  apply pure_ok in E1 as ->; [|auto using pure_int_parameter, pure_int_parameter_or,
    pure_expand_path, pure_config_get].

(** * Properties *)

(** C37: A UFTP request that is accepted has started exactly one background
    process, with a script that begins with the message itself, has remembered
    it among the children and has sent one [TSI_OK] at once. *)
Theorem uftp_launch {E : Type} `{Ext E} `{ConnectorLaws E} (client msg : str) (w w' : world E) :
  uftp client msg w = (Ok tt, w') ->
  exists script login pid e,
    x_popen (proc_of w) (shell_argv (msg ++ nl ++ script) login) (w_ext w) = (Ok pid, e) /\
    w_ext w' = e /\ w_out w' = w_out w ++ ok_text None /\
    forall l, w_config w !! ("tsi.child_pids" : str) = Some (VPids l) ->
      w_config w' !! ("tsi.child_pids" : str) = Some (VPids (l ++ [pid])).
Proof.
  unfold uftp. intros Hrun.
  do 5 skip_pure Hrun. cbv zeta in Hrun.
  do 3 apply M_bind_ok in Hrun as (? & ? & [= _ <-] & Hrun).
  skip_pure Hrun.
  apply M_bind_ok in Hrun as ([b out] & w1 & Hcmd & Hrun).
  change ([msg] ++ ?l) with (msg :: l) in Hcmd. rewrite bind_cons, <-app_assoc in Hcmd.
  apply run_background in Hcmd as (-> & pid & e & Hp & He & Ho & Hpids). cbn [negb] in Hrun.
  rewrite ok_law in Hrun. injection Hrun as <-.
  eexists _, _, pid, e. split; [exact Hp|]. split; [done|]. split; [|done].
  unfold emit. cbn [w_out with_out]. by rewrite Ho.
Qed.

Definition uftp_msg : str :=
  "#TSI_UFTP" ++ nl ++ "#TSI_UFTP_PORT 64434" ++ nl ++ "#TSI_UFTP_REMOTE_FILE /r" ++ nl
  ++ "#TSI_UFTP_LOCAL_FILE $HOME/l" ++ nl ++ "#TSI_OUTCOME_DIR /tmp" ++ nl.
Definition uftp_world : world bed := with_env {["PYTHONPATH" := "/lib"]} bed_world.

Lemma uftp_launch_witness :
  exists script login pid e,
    x_popen (proc_of uftp_world) (shell_argv (uftp_msg ++ nl ++ script) login) bed0 = (Ok pid, e) /\
    w_out (snd (uftp (H0 := socket_connector) "UFTP.py" uftp_msg uftp_world)) = "TSI_OK" ++ nl.
Proof.
  assert (is_ok (fst (uftp (H0 := socket_connector) "UFTP.py" uftp_msg uftp_world)) = true) as Hok
    by (vm_compute; reflexivity).
  destruct (uftp (H0 := socket_connector) "UFTP.py" uftp_msg uftp_world) as [[[]| | |] w'] eqn:E;
    [|discriminate Hok..].
  destruct (uftp_launch (H0 := socket_connector) "UFTP.py" uftp_msg uftp_world w' E)
    as (script & login & pid & e & Hp & _ & Ho & _).
  exists script, login, pid, e. split; [exact Hp | exact Ho].
Defined.
