(* ===== verification/Requests.v ===== *)
(** * What every request handler respects

    The handlers of batch system, file, ACL and UFTP requests leave alone what
    the main loop relies on: the credentials, the configuration apart from
    the list of children, the channel with the next requests.  [RequestFrame]
    states which changes a relation has to allow; the handlers respect every
    such relation.  The second part: the handlers that always complete. *)

From S2P Require Import Prelude PyStr PyNum World Utils UserCache Testbed Connector BSSCommon IO ACL Script UFTP.
#[local] Open Scope py_scope.
#[local] Open Scope Z_scope.

(** ** The frame *)

Abbreviation pids_key := ("tsi.child_pids" : str).

Class RequestFrame {E : Type} `{Ext E} `{Connector E} (R : world E -> world E -> Prop) := {
  fr_preorder :: PreOrder R;
  fr_ext : forall w e, R w (with_ext e w);
  fr_env : forall w v, R w (with_env v w);
  fr_cwd : forall w d, R w (with_cwd d w);
  fr_cache : forall w c, R w (with_cache c w);
  fr_pids : forall w l, R w (with_config (<[pids_key := VPids l]> (w_config w)) w);
  fr_write_message : forall m, respects R (write_message m);
  fr_ok : forall m, respects R (ok m);
  fr_failed : forall m, respects R (failed m);
  fr_read_data : forall n, respects R (read_data n);
  fr_write_data : forall d, respects R (write_data d)
}.

(** [Ext E] does not occur in these statements: the instance is searched. *)
#[export] Hint Extern 1 (respects _ (write_message _)) => eapply fr_write_message; exact _ : respects.
#[export] Hint Extern 1 (respects _ (ok _)) => eapply fr_ok; exact _ : respects.
#[export] Hint Extern 1 (respects _ (failed _)) => eapply fr_failed; exact _ : respects.
#[export] Hint Extern 1 (respects _ (read_data _)) => eapply fr_read_data; exact _ : respects.
#[export] Hint Extern 1 (respects _ (write_data _)) => eapply fr_write_data; exact _ : respects.

Section frame.
Context {E : Type} `{RequestFrame E R}.

Lemma fr_ext_call {A} (f : proc -> E -> result A * E) : respects R (ext_call f).
Proof. intros w. unfold ext_call. destruct (f _ _). apply fr_ext. Qed.
Lemma fr_ext_read {A} (f : proc -> E -> result A) : respects R (ext_read f).
Proof. intros w. simpl. reflexivity. Qed.
Lemma fr_config_at k : respects R (config_at k).
Proof. unfold config_at. solve_respects. Qed.
Lemma fr_config_get k d : respects R (config_get k d).
Proof. unfold config_get. solve_respects. Qed.
Lemma fr_set_pids l : respects R (set_config pids_key (VPids l)).
Proof. intros w. apply fr_pids. Qed.
#[local] Hint Resolve fr_ext_call fr_ext_read fr_config_at fr_config_get fr_set_pids : respects.

Lemma fr_expand m : respects R (expand m).
Proof. unfold expand. solve_respects. Qed.
Lemma fr_addperms p m : respects R (addperms p m).
Proof. unfold addperms. solve_respects. Qed.
Lemma fr_append_pid pid : respects R (append_pid pids_key pid).
Proof. unfold append_pid. solve_respects. Qed.
#[local] Hint Resolve fr_expand fr_addperms fr_append_pid : respects.
Lemma fr_run_command cmd login : respects R (run_command cmd false None login).
Proof. unfold run_command. solve_respects. Qed.
Lemma fr_run_background cmd b login : respects R (run_command cmd b (Some pids_key) login).
Proof. unfold run_command. solve_respects. Qed.
Lemma fr_random_string n : respects R (random_string n).
Proof. induction n; simpl; solve_respects. Qed.
Lemma fr_config_str k : respects R (config_str k).
Proof. unfold config_str. solve_respects. Qed.
Lemma fr_chdir d : respects R (chdir d).
Proof. unfold chdir. solve_respects. apply respects_modify. intros w. apply fr_cwd. Qed.
Lemma fr_write_file n t : respects R (write_file n t).
Proof. unfold write_file. solve_respects. Qed.
Lemma fr_read_file n : respects R (read_file n).
Proof. unfold read_file. solve_respects. Qed.
Lemma fr_need o : respects R (need o).
Proof. unfold need. solve_respects. Qed.
Lemma fr_last_child : respects R last_child.
Proof. unfold last_child. solve_respects. Qed.
#[local] Hint Resolve fr_run_command fr_run_background fr_random_string fr_config_str fr_chdir
  fr_write_file fr_read_file fr_need fr_last_child : respects.

(** Batch system requests. *)

Section bss.
Context `{BSS} (use_login_shell : bool).

Lemma fr_cleanup_loop f i : respects R (cleanup_loop f i).
Proof. revert i. induction f as [|f IH]; intros i; simpl; solve_respects. Qed.
#[local] Hint Resolve fr_cleanup_loop : respects.
Lemma fr_cleanup : respects R cleanup.
Proof. unfold cleanup. solve_respects. Qed.
Lemma fr_run_and_report cmd login : respects R (run_and_report cmd login).
Proof. unfold run_and_report. solve_respects. Qed.
#[local] Hint Resolve fr_run_and_report : respects.
Lemma fr_submit msg : respects R (submit use_login_shell msg).
Proof. unfold submit, submit_commands, run_submit. solve_respects. Qed.
Lemma fr_run_on_login_node msg : respects R (run_on_login_node use_login_shell msg).
Proof. unfold run_on_login_node. solve_respects. Qed.
Lemma fr_get_status_listing msg : respects R (get_status_listing msg).
Proof. unfold get_status_listing. solve_respects. Qed.
Lemma fr_get_process_listing msg : respects R (get_process_listing msg).
Proof. unfold get_process_listing. solve_respects. Qed.
Lemma fr_get_job_details msg : respects R (get_job_details msg).
Proof. unfold get_job_details. solve_respects. Qed.
Lemma fr_abort_job msg : respects R (abort_job use_login_shell msg).
Proof. unfold abort_job. solve_respects. Qed.
Lemma fr_control_job k msg : respects R (control_job use_login_shell k msg).
Proof. unfold control_job. solve_respects. Qed.
Lemma fr_get_budget msg : respects R (get_budget msg).
Proof. unfold get_budget. solve_respects. Qed.
Lemma fr_get_partitions msg : respects R (get_partitions msg).
Proof. unfold get_partitions. solve_respects. Qed.
End bss.

(** File requests. *)

Lemma fr_expand_path o : respects R (expand_path o).
Proof. unfold expand_path. solve_respects. Qed.
Lemma fr_int_parameter msg p : respects R (int_parameter msg p).
Proof. unfold int_parameter. solve_respects. Qed.
Lemma fr_read_loop f path pos total remaining buf :
  respects R (read_loop f path pos total remaining buf).
Proof. revert total remaining buf. induction f as [|f IH]; intros; simpl; solve_respects. Qed.
Lemma fr_send_loop f buf total off must : respects R (send_loop f buf total off must).
Proof. revert off must. induction f as [|f IH]; intros; simpl; solve_respects. Qed.
Lemma fr_store_loop f path buf off must : respects R (store_loop f path buf off must).
Proof. revert off must. induction f as [|f IH]; intros; simpl; solve_respects. Qed.
#[local] Hint Resolve fr_expand_path fr_int_parameter fr_read_loop fr_send_loop fr_store_loop : respects.
Lemma fr_receive_loop f path remaining : respects R (receive_loop f path remaining).
Proof. revert remaining. induction f as [|f IH]; intros; cbn [receive_loop]; solve_respects. Qed.
#[local] Hint Resolve fr_receive_loop : respects.
Lemma fr_get_file_chunk msg : respects R (get_file_chunk msg).
Proof. unfold get_file_chunk. solve_respects. Qed.
Lemma fr_put_file_chunk msg : respects R (put_file_chunk msg).
Proof. unfold put_file_chunk. solve_respects. Qed.
Lemma fr_get_info path : respects R (get_info path).
Proof. unfold get_info. solve_respects. Qed.
#[local] Hint Resolve fr_get_info : respects.
Lemma fr_list_directory d path r : respects R (list_directory d path r).
Proof. revert path. induction d as [|d IH]; intros; cbn [list_directory]; unfold list_entry; solve_respects. Qed.
#[local] Hint Resolve fr_list_directory : respects.
Lemma fr_ls msg : respects R (ls msg).
Proof. unfold ls. solve_respects. Qed.
Lemma fr_df msg : respects R (df msg).
Proof. unfold df. solve_respects. Qed.

(** ACL and UFTP requests. *)

Lemma fr_unset_posix : respects R unset_posix.
Proof. intros w. apply fr_env. Qed.
#[local] Hint Resolve fr_unset_posix : respects.
Lemma fr_process_acl msg : respects R (process_acl msg).
Proof.
  unfold process_acl, acl_table, getfacl_posix, setfacl_posix, command_of, getfacl_nfs, setfacl_nfs.
  solve_respects.
Qed.
Lemma fr_uftp client msg : respects R (uftp client msg).
Proof. unfold uftp, int_parameter_or. solve_respects. Qed.
End frame.

(** The interface of the relation is searched, not unified. *)
#[export] Hint Extern 2 (respects _ (ext_call _)) => eapply fr_ext_call; exact _ : respects.
#[export] Hint Extern 2 (respects _ (ext_read _)) => eapply fr_ext_read; exact _ : respects.
#[export] Hint Extern 2 (respects _ (config_at _)) => eapply fr_config_at; exact _ : respects.
#[export] Hint Extern 2 (respects _ (config_get _ _)) => eapply fr_config_get; exact _ : respects.
#[export] Hint Extern 2 (respects _ (set_config _ _)) => eapply fr_set_pids; exact _ : respects.
#[export] Hint Extern 2 (respects _ (expand _)) => eapply fr_expand; exact _ : respects.
#[export] Hint Extern 2 (respects _ (run_command _ false None _)) => eapply fr_run_command; exact _ : respects.
#[export] Hint Extern 2 (respects _ (run_command _ _ (Some _) _)) => eapply fr_run_background; exact _ : respects.
#[export] Hint Extern 2 (respects _ (config_str _)) => eapply fr_config_str; exact _ : respects.
#[export] Hint Extern 2 (respects _ (chdir _)) => eapply fr_chdir; exact _ : respects.
#[export] Hint Extern 2 (respects _ (cleanup)) => eapply fr_cleanup; exact _ : respects.
#[export] Hint Extern 2 (respects _ (submit _ _)) => eapply fr_submit; exact _ : respects.
#[export] Hint Extern 2 (respects _ (run_on_login_node _ _)) => eapply fr_run_on_login_node; exact _ : respects.
#[export] Hint Extern 2 (respects _ (get_status_listing _)) => eapply fr_get_status_listing; exact _ : respects.
#[export] Hint Extern 2 (respects _ (get_process_listing _)) => eapply fr_get_process_listing; exact _ : respects.
#[export] Hint Extern 2 (respects _ (get_job_details _)) => eapply fr_get_job_details; exact _ : respects.
#[export] Hint Extern 2 (respects _ (abort_job _ _)) => eapply fr_abort_job; exact _ : respects.
#[export] Hint Extern 2 (respects _ (hold_job _ _)) => eapply fr_control_job; exact _ : respects.
#[export] Hint Extern 2 (respects _ (resume_job _ _)) => eapply fr_control_job; exact _ : respects.
#[export] Hint Extern 2 (respects _ (get_budget _)) => eapply fr_get_budget; exact _ : respects.
#[export] Hint Extern 2 (respects _ (get_partitions _)) => eapply fr_get_partitions; exact _ : respects.
#[export] Hint Extern 2 (respects _ (get_file_chunk _)) => eapply fr_get_file_chunk; exact _ : respects.
#[export] Hint Extern 2 (respects _ (put_file_chunk _)) => eapply fr_put_file_chunk; exact _ : respects.
#[export] Hint Extern 2 (respects _ (ls _)) => eapply fr_ls; exact _ : respects.
#[export] Hint Extern 2 (respects _ (df _)) => eapply fr_df; exact _ : respects.
#[export] Hint Extern 2 (respects _ (process_acl _)) => eapply fr_process_acl; exact _ : respects.
#[export] Hint Extern 2 (respects _ (uftp _ _)) => eapply fr_uftp; exact _ : respects.

(** ** Handlers that complete

    With system calls that return or fail, every request completes with a
    value or an exception, those that transfer file contents excepted. *)

Section complete.
Context {E : Type} `{SaneExt E} `{ConnectorLaws E}.

Lemma c_ok m : completes (S := world E) (ok m).
Proof. intros w. by rewrite ok_law. Qed.
Lemma c_failed m : completes (S := world E) (failed m).
Proof. intros w. by rewrite failed_law. Qed.
Lemma c_write_message m : completes (S := world E) (write_message m).
Proof. intros w. by rewrite write_message_law. Qed.
Lemma c_x_time : completes (S := world E) time_time.
Proof. intros w. unfold time_time, ext_call. by destruct (x_time _). Qed.
#[local] Hint Resolve c_ok c_failed c_write_message c_x_time : completes.

Lemma c_expand m : completes (S := world E) (expand m).
Proof. unfold expand. solve_completes. Qed.
Lemma c_addperms p m : completes (S := world E) (addperms p m).
Proof. unfold addperms. solve_completes. Qed.
Lemma c_append_pid k pid : completes (S := world E) (append_pid k pid).
Proof. unfold append_pid. solve_completes. Qed.
#[local] Hint Resolve c_expand c_addperms c_append_pid : completes.
Lemma c_run_command cmd b o login : completes (S := world E) (run_command cmd b o login).
Proof. unfold run_command. solve_completes. by destruct (x_check_output _ _ _). Qed.
Lemma c_random_string n : completes (S := world E) (random_string n).
Proof. induction n; simpl; solve_completes. by destruct (x_choice _ _). Qed.
Lemma c_config_str k : completes (S := world E) (config_str k).
Proof. unfold config_str. solve_completes. Qed.
Lemma c_chdir d : completes (S := world E) (chdir d).
Proof. unfold chdir. solve_completes. Qed.
Lemma c_write_file n t : completes (S := world E) (write_file n t).
Proof. unfold write_file. solve_completes. Qed.
Lemma c_read_file n : completes (S := world E) (read_file n).
Proof. unfold read_file. solve_completes. Qed.
Lemma c_need o : completes (S := world E) (need o).
Proof. unfold need. solve_completes. Qed.
Lemma c_last_child : completes (S := world E) last_child.
Proof. unfold last_child. solve_completes. Qed.
#[local] Hint Resolve c_run_command c_random_string c_config_str c_chdir c_write_file c_read_file
  c_need c_last_child : completes.

(** The values the parsers return. *)
Lemma settles_percent t v u : settles (percent t v u).
Proof.
  remember (length t) as n eqn:Hn. revert t u Hn. induction n as [n IH] using lt_wf_ind.
  intros [|c t] u Hn; cbn [percent]; [by destruct u|]. destruct (Ascii.eqb c "%").
  - destruct t as [|[[] [] [] [] [] [] [] []] t]; try done; solve_settles;
      (eapply IH; [|reflexivity]; simpl in Hn; lia).
  - solve_settles. eapply IH; [|reflexivity]. simpl in Hn. lia.
Qed.
#[local] Hint Resolve settles_percent : settles.

Section bss.
Context `{BSSLaws} (use_login_shell : bool).

Lemma settles_collect lines d : settles (collect_states lines d).
Proof.
  revert d. induction lines as [|line lines IH]; intros d; cbn [collect_states]; [done|].
  destruct (extract_info_law line) as [o ->]. cbn [mbind result_bind].
  apply settles_bind; [|done]. destruct o as [[[i s] q]|]; [|done].
  destruct (convert_status_law s) as (u & -> & _). cbn [mbind result_bind].
  unfold add_state, state_index. solve_settles.
Qed.
#[local] Hint Resolve settles_collect submit_script_law alloc_script_law parse_partitions_law : settles.
Lemma settles_status_listing out : settles (parse_status_listing out).
Proof. unfold parse_status_listing. solve_settles. Qed.
#[local] Hint Resolve settles_status_listing : settles.

(** The clean-up ends: the position grows and the list does not. *)
Lemma remove_first_length x l : (length (remove_first x l) <= length l)%nat.
Proof. induction l as [|y l IH]; simpl; [lia|]. destruct (x =? y); simpl; lia. Qed.

Lemma config_at_run k (w : world E) : config_at k w = (cfg_at (w_config w) k, w).
Proof. done. Qed.

Lemma cleanup_loop_run f i l (w : world E) :
  w_config w !! pids_key = Some (VPids l) -> (length l < f + i)%nat -> (0 < f)%nat ->
  exists w', cleanup_loop f i w = (Ok tt, w').
Proof.
  revert i l w. induction f as [|f IH]; intros i l w Hc Hl Hf; [lia|]. cbn [cleanup_loop].
  rewrite bind_match, config_at_run. unfold cfg_at. rewrite Hc. cbn [or_raise].
  destruct (l !! i) as [pid|] eqn:Hi; [|by exists w]. apply lookup_lt_Some in Hi.
  rewrite bind_match. unfold ext_call. destruct (x_waitpid pid (w_ext w)) as [r e].
  rewrite bind_match. case_bool_decide.
  - apply (IH _ l); [done|lia|lia].
  - apply (IH _ (remove_first pid l)); [|pose proof (remove_first_length pid l); lia|lia].
    simpl. by rewrite lookup_insert_eq.
Qed.

Lemma cleanup_run l (w : world E) :
  w_config w !! pids_key = Some (VPids l) -> exists w', cleanup w = (Ok tt, w').
Proof.
  intros Hc. unfold cleanup. rewrite bind_match, config_at_run. unfold cfg_at. rewrite Hc.
  apply (cleanup_loop_run _ _ l); [done|lia|lia].
Qed.

Lemma c_submit msg : completes (S := world E) (submit use_login_shell msg).
Proof. unfold submit, submit_commands, run_submit. solve_completes. Qed.
Lemma c_run_on_login_node msg : completes (S := world E) (run_on_login_node use_login_shell msg).
Proof. unfold run_on_login_node. solve_completes. Qed.
Lemma c_bss_requests msg :
  completes (S := world E) (get_status_listing msg) /\ completes (S := world E) (get_process_listing msg) /\
  completes (S := world E) (get_job_details msg) /\ completes (S := world E) (abort_job use_login_shell msg) /\
  completes (S := world E) (hold_job use_login_shell msg) /\
  completes (S := world E) (resume_job use_login_shell msg) /\
  completes (S := world E) (get_budget msg) /\ completes (S := world E) (get_partitions msg).
Proof.
  unfold get_status_listing, get_process_listing, get_job_details, abort_job, hold_job, resume_job,
    control_job, get_budget, get_partitions, run_and_report. split_and!; solve_completes.
Qed.
End bss.

Lemma c_expand_path o : completes (S := world E) (expand_path o).
Proof. unfold expand_path. solve_completes. Qed.
#[local] Hint Resolve c_expand_path : completes.
Lemma c_df msg : completes (S := world E) (df msg).
Proof. unfold df. solve_completes. Qed.
Lemma c_uftp client msg : completes (S := world E) (uftp client msg).
Proof. unfold uftp, int_parameter, int_parameter_or. solve_completes. Qed.
End complete.

(** ** One reply *)

Section replies.
Context {E : Type} `{Ext E} `{ConnectorLaws E}.

(** A reply followed by more lines is a longer reply. *)
Lemma ok_text_lines (m : option str) (lines : list str) :
  exists m', ok_text m ++ concat (line_text <$> lines) = ok_text m'.
Proof.
  destruct lines as [|l lines]; [exists m; by rewrite app_nil_r|].
  exists (Some (match m with Some m => m ++ nl | None => [] end ++ join nl (l :: lines))).
  assert (forall (l : str) ls, concat (line_text <$> (l :: ls)) = join nl (l :: ls) ++ nl) as Hj.
  { clear. intros l ls. revert l. induction ls as [|l' ls IH]; intros l.
    - cbn. unfold line_text. by rewrite app_nil_r.
    - rewrite fmap_cons. cbn [concat]. rewrite IH. cbn [join]. unfold line_text.
      by rewrite <-!app_assoc. }
  rewrite Hj. unfold ok_text. destruct m; by rewrite <-?app_assoc.
Qed.

(** Statements that answer with [TSI_OK] and go on writing lines. *)
Lemma reply_ok_lines (m : option str) (lines : list str) :
  single_reply (E := E) (ok m ;; for_each lines write_message).
Proof.
  intros w. rewrite (bind_run _ _ _ _ _ (ok_law m w)).
  assert (forall ls (w' : world E), for_each ls write_message w'
    = (Ok tt, emit (concat (line_text <$> ls)) w')) as Hl.
  { induction ls as [|l ls IH]; intros w'; cbn [for_each].
    - unfold emit. rewrite app_nil_r. by destruct w'.
    - rewrite (bind_run _ _ _ _ _ (write_message_law l w')), IH, fmap_cons. cbn [concat].
      unfold emit. simpl. by rewrite app_assoc. }
  rewrite Hl. exists (ok_text m ++ concat (line_text <$> lines)). split.
  - left. destruct (ok_text_lines m lines) as [m' ->]. by exists m'.
  - unfold emit. simpl. by rewrite app_assoc.
Qed.
End replies.
