(* ===== verification/TSI.v ===== *)
(** * [lib/TSI.py]: the worker

    The requests that [TSI.py] answers itself, the table of functions, the
    handling of one request under the identity of its user, and the loop
    that reads requests, dispatches them and ends every answer with
    [ENDOFMESSAGE].  [lib/PAM.py] and [lib/Reservation.py] belong here too. *)

From S2P Require Import Prelude PyStr Regex World Utils UserCache Testbed.
From S2P Require Import BecomeUser Connector BSSCommon IO ACL Script UFTP Requests.
#[local] Open Scope py_scope.
#[local] Open Scope Z_scope.

(** ** PAM sessions *)

(** The functions of [libpam]: a return code each. *)
Class Libpam (E : Type) := {
  pam_load : E -> result unit * E;
  pam_start : str -> str -> E -> Z * E;
  pam_open_session : E -> Z * E;
  pam_close_session : E -> Z * E;
  pam_end : E -> Z * E;
  pam_strerror : Z -> E -> str
}.

Section pam.
Context {E : Type} `{Libpam E}.

(** [bytes(s, encoding="ascii")]. *)
Definition ascii_bytes (s : str) : result str :=
  if forallb (fun c => ord c <? 128) s then Ok s
  else throw UnicodeError "'ascii' codec can't encode character".

(** The constructor of the class [PAM]. *)
Definition pam_init (module_name : str) : M (world E) str :=
  m ← lift (ascii_bytes module_name);
  ext_call (fun _ => pam_load) ;;
  mret m.

Definition pam_call (f : E -> Z * E) : M (world E) Z :=
  ext_call (fun _ e => let '(r, e') := f e in (Ok r, e')).

Definition check_pam_error (method : str) (err : Z) (fail_on_error : bool) : M (world E) unit :=
  text ← ext_read (fun _ e => Ok (pam_strerror err e));
  when (negb (0 =? err) && fail_on_error)
    (raise (OSError 0) ("Error " ++ str_of_Z err ++ " invoking '" ++ method ++ "': " ++ text)).

Definition open_session (module username : str) : M (world E) unit :=
  user ← lift (ascii_bytes username);
  err ← pam_call (pam_start module user);
  check_pam_error "pam_start" err false ;;
  err ← pam_call pam_open_session;
  check_pam_error "pam_open_session" err true.

Definition close_session : M (world E) unit :=
  err ← pam_call pam_close_session;
  check_pam_error "pam_close_session" err false ;;
  err ← pam_call pam_end;
  check_pam_error "pam_end" err false.
End pam.

(** ** The object of the batch system: the requests it answers *)

Record bss_object (E : Type) := BssObject {
  bss_cleanup : M (world E) unit;
  bss_submit : str -> M (world E) unit;
  bss_run_on_login_node : str -> M (world E) unit;
  bss_get_status_listing : str -> M (world E) unit;
  bss_get_process_listing : str -> M (world E) unit;
  bss_get_job_details : str -> M (world E) unit;
  bss_get_partitions : str -> M (world E) unit;
  bss_abort_job : str -> M (world E) unit;
  bss_hold_job : str -> M (world E) unit;
  bss_resume_job : str -> M (world E) unit;
  bss_get_budget : str -> M (world E) unit
}.
Arguments bss_cleanup {E}. Arguments bss_submit {E}. Arguments bss_run_on_login_node {E}.
Arguments bss_get_status_listing {E}. Arguments bss_get_process_listing {E}.
Arguments bss_get_job_details {E}. Arguments bss_get_partitions {E}. Arguments bss_abort_job {E}.
Arguments bss_hold_job {E}. Arguments bss_resume_job {E}. Arguments bss_get_budget {E}.

(** A variant that overrides none of the requests of [BSSBase]. *)
Definition base_object {E : Type} `{Ext E} `{Connector E} `{BSS} (use_login_shell : bool) : bss_object E :=
  BssObject E cleanup (submit use_login_shell) (run_on_login_node use_login_shell) get_status_listing
    get_process_listing get_job_details get_partitions (abort_job use_login_shell)
    (hold_job use_login_shell) (resume_job use_login_shell) get_budget.

(** ** The requests of [TSI.py] *)

Definition MY_VERSION : str := "__VERSION__".

(** [re.search(r".*#TSI_IDENTITY (\S+) (\S+)\n.*", msg, re.M)]: user and groups. *)
Definition identity (msg : str) : option (str * str) :=
  (fun m => (group m 1, group m 2)) <$> re_search_M ".*#TSI_IDENTITY (\S+) (\S+)\n.*" msg.

(** [str(v)] of the configuration values that are formatted. *)
Definition str_of_cval (v : cval) : str :=
  match v with
  | VNone => "None"
  | VBool b => if b then "True" else "False"
  | VInt n => str_of_Z n
  | VStr s => s
  | _ => "[]"
  end.

Fixpoint _add_userkeys (lines : list str) (response : str) (index : Z) : str * Z :=
  match lines with
  | [] => (response, index)
  | line :: lines' =>
      if startswith line "#" then _add_userkeys lines' response index
      else _add_userkeys lines'
        (response ++ "Accepted key " ++ str_of_Z index ++ ": " ++ strip line ++ nl) (index + 1)
  end.

Fixpoint _add_userinfo (lines : list str) (response : str) : str :=
  match lines with
  | [] => response
  | line :: lines' =>
      if startswith line "#" then _add_userinfo lines' response
      else _add_userinfo lines' (response ++ "Attribute: " ++ strip line ++ nl)
  end.

Section operations.
Context {E : Type} `{Ext E} `{Connector E} `{Libpam E}.

Definition ping : M (world E) unit := ok (Some MY_VERSION).

Definition ping_uid (msg : str) : M (world E) unit :=
  ok (Some MY_VERSION) ;;
  uid ← config_get "tsi.effective_uid" (VStr "n/a");
  write_message (" running as UID [" ++ str_of_cval uid ++ "]").

(** The local variables of [get_user_info]. *)
Record info_state := InfoState { i_status : str; i_response : str; i_index : Z }.

(** One key file: [open] fails before the status says [OK], the decoding of
    the text after it. *)
Definition keyfile_step (home : str) (st : info_state) (keyfile : str) : M (world E) info_state :=
  let file := path_join home keyfile in
  let fine := i_status st ++ " keyfile '" ++ file ++ "': OK." in
  let report s e := s ++ " keyfile '" ++ file ++ "': " ++ exn_msg e ++ nl in
  try_catch (
    text ← ext_read (fun p => x_read_text p file);
    let '(response, i) := _add_userkeys (readlines text) (i_response st) (i_index st) in
    mret (InfoState fine response i))
  (fun e =>
    let status := if bool_decide (exn_kind e = UnicodeError) then fine else i_status st in
    mret (InfoState (report status e) (i_response st) (i_index st))).

Fixpoint keyfile_loop (home : str) (keyfiles : list str) (st : info_state) : M (world E) info_state :=
  match keyfiles with
  | [] => mret st
  | k :: ks => st' ← keyfile_step home st k; keyfile_loop home ks st'
  end.

(** An optional command: [what] names it in the status, [add] collects its
    output. *)
Definition info_command (key what : str) (add : list str -> str -> Z -> str * Z) (st : info_state)
    : M (world E) info_state :=
  use_login_shell ← config_get "tsi.use_login_shell" (VBool true);
  cmd ← config_get key VNone;
  match cmd with
  | VNone => mret st
  | _ =>
      try_catch (
        c ← lift (as_str cmd);
        '(success, out) ← run_command c false None (truthy use_login_shell);
        if (success : bool) then
          let '(response, i) := add (splitlines out) (i_response st) (i_index st) in
          mret (InfoState (i_status st ++ " " ++ what ++ ": OK.") response i)
        else
          mret (InfoState (i_status st ++ " " ++ what ++ " '" ++ str_of_cval cmd ++ "': ERROR " ++ out ++ ".")
                  (i_response st) (i_index st)))
      (fun e =>
        mret (InfoState (i_status st ++ " " ++ what ++ " '" ++ str_of_cval cmd ++ "': " ++ exn_msg e ++ ".")
                (i_response st) (i_index st)))
  end.

Definition get_user_info (msg : str) : M (world E) unit :=
  match identity msg with
  | None => failed "No user/group info given"
  | Some (user, _) =>
      home ← get_home_4user user;
      match home with
      | None => raise TypeError "failed() takes 2 positional arguments but 3 were given"
      | Some home =>
          keyfiles ← config_at "tsi.keyfiles";
          keyfiles ← lift (match keyfiles with
                           | VList l => Ok l
                           | _ => throw TypeError "object is not a list of names" end);
          st ← keyfile_loop home keyfiles (InfoState "" ("home: " ++ home ++ nl) 0);
          st ← info_command "tsi.get_userkeys_cmd" "key_cmd" _add_userkeys st;
          st ← info_command "tsi.get_userinfo_cmd" "info_cmd"
                 (fun lines response i => (_add_userinfo lines response, i)) st;
          ok (Some (i_response st ++ "status: " ++ i_status st ++ nl))
      end
  end.

Definition execute_script (msg : str) : M (world E) unit :=
  let discard := contains ("#TSI_DISCARD_OUTPUT true" ++ nl) msg in
  config_at "tsi.child_pids" ;;
  use_login_shell ← config_get "tsi.use_login_shell" (VBool true);
  '(success, output) ← run_command msg discard (Some "tsi.child_pids") (truthy use_login_shell);
  if (success : bool) then ok (Some output) else failed output.

(** The functions of [Reservation.py]. *)
Definition make_reservation (msg : str) : M (world E) unit := failed "Reservation not supported!".
Definition query_reservation (msg : str) : M (world E) unit := failed "Reservation not supported!".
Definition cancel_reservation (msg : str) : M (world E) unit := failed "Reservation not supported!".

(** ** The table of functions *)

Abbreviation handler := (str -> M (world E) unit).

Definition init_functions (uftp_client : str) (bss : bss_object E) : list (str * handler) := [
  ("TSI_PING", fun _ => ping);
  ("TSI_PING_UID", ping_uid);
  ("TSI_GET_USER_INFO", get_user_info);
  ("TSI_EXECUTESCRIPT", execute_script);
  ("TSI_GETFILECHUNK", get_file_chunk);
  ("TSI_PUTFILECHUNK", put_file_chunk);
  ("TSI_LS", ls);
  ("TSI_DF", df);
  ("TSI_UFTP", uftp uftp_client);
  ("TSI_SUBMIT", bss_submit bss);
  ("TSI_RUN_ON_LOGIN_NODE", bss_run_on_login_node bss);
  ("TSI_GETSTATUSLISTING", bss_get_status_listing bss);
  ("TSI_GETPROCESSLISTING", bss_get_process_listing bss);
  ("TSI_GETJOBDETAILS", bss_get_job_details bss);
  ("TSI_GET_PARTITIONS", bss_get_partitions bss);
  ("TSI_ABORTJOB", bss_abort_job bss);
  ("TSI_HOLDJOB", bss_hold_job bss);
  ("TSI_RESUMEJOB", bss_resume_job bss);
  ("TSI_GET_COMPUTE_BUDGET", bss_get_budget bss);
  ("TSI_MAKE_RESERVATION", make_reservation);
  ("TSI_QUERY_RESERVATION", query_reservation);
  ("TSI_CANCEL_RESERVATION", cancel_reservation);
  ("TSI_FILE_ACL", process_acl)
].

(** The first entry of the table whose command is in the message. *)
Definition find_command {A : Type} (functions : list (str * A)) (message : str) : option (str * A) :=
  find (fun f => bool_decide (is_Some (re_search_M (".*#" ++ f.1 ++ "\n") message))) functions.

(** ** One request *)

(** [os.fork] and [os.waitpid]: the child works on a copy of the memory; what
    it wrote and what it did to the outside remains. *)
Definition fork_and_wait (child : M (world E) unit) : M (world E) unit := fun w =>
  let '(r, w') := child w in
  (match r with OutOfFuel => OutOfFuel | _ => Ok tt end,
   with_ext (w_ext w') (with_dout (w_dout w') (with_out (w_out w') w))).

Definition spawning : list str :=
  ["TSI_EXECUTESCRIPT"; "TSI_RUN_ON_LOGIN_NODE"; "TSI_SUBMIT"; "TSI_UFTP"].

(** The beginning of the [try] block, up to the point where [pam_session] is
    bound. *)
Definition request_identity (switch_uid open_user_session : bool) (msg : str)
    : M (world E) (str * list str * str) :=
  if switch_uid then
    match identity msg with
    | None => raise RuntimeError "No user/group info given"
    | Some (user, groups) =>
        if open_user_session then
          pam_module ← config_get "tsi.pam_module" (VStr "unicore-tsi");
          pam_module ← lift (as_str pam_module);
          session ← pam_init pam_module;
          mret (user, split ":" groups, session)
        else mret (user, split ":" groups, "")
    end
  else mret ("", [], "").

(** The rest of the [try] block. *)
Definition run_as_user (function : handler) (switch_uid open_user_session : bool)
    (user : str) (groups : list str) (session msg : str) : M (world E) unit :=
  when switch_uid (
    when open_user_session (open_session session user) ;;
    user_switch_status ← become_user user groups;
    when (negb user_switch_status) (raise RuntimeError "")) ;;
  function msg.

(** Everything but the fork: [true] when [pam_session] was bound. *)
Definition serve (function : handler) (switch_uid open_user_session : bool) (msg : str)
    : M (world E) bool :=
  start ← attempt (request_identity switch_uid open_user_session msg);
  match start with
  | inl e => failed (exn_msg e) ;; mret false
  | inr (user, groups, session) =>
      try_catch (run_as_user function switch_uid open_user_session user groups session msg)
        (fun e => failed (exn_msg e)) ;;
      mret true
  end.

Definition handle_in_process (function : handler) (command : str) (switch_uid open_user_session : bool)
    (msg : str) : M (world E) unit :=
  bound ← serve function switch_uid open_user_session msg;
  when (switch_uid && negb (str_eqb command "_START_FORWARDING")) (
    restore_id ;;
    when open_user_session (
      if (bound : bool) then close_session
      else raise UnboundLocalError "cannot access local variable 'pam_session'")) ;;
  when open_user_session (exit_process 0).

Definition handle_function (function : handler) (command msg : str) : M (world E) unit :=
  switch_uid ← config_get "tsi.switch_uid" (VBool true);
  pam_enabled ← config_get "tsi.open_user_sessions" (VBool false);
  let cmd_spawns := bool_decide (command ∈ spawning) in
  let open_user_session := truthy pam_enabled && cmd_spawns && truthy switch_uid in
  let here := handle_in_process function command (truthy switch_uid) open_user_session msg in
  if open_user_session && negb (str_eqb command "_START_FORWARDING") then fork_and_wait here else here.

(** ** The loop *)

(** What is done with one message. *)
Definition process_message (functions : list (str * handler)) (message : str) : M (world E) unit :=
  safe_dir ← config_str "tsi.safe_dir";
  chdir (Some safe_dir) ;;
  match find_command functions message with
  | None => failed "Unknown #TSI_* command"
  | Some (command, function) =>
      if str_eqb "TSI_PING" command then ping else handle_function function command message
  end ;;
  write_message "ENDOFMESSAGE".

Fixpoint process_loop (fuel : nat) (bss : bss_object E) (functions : list (str * handler)) (one_shot : bool)
    : M (world E) unit :=
  match fuel with
  | O => out_of_fuel
  | S f =>
      bss_cleanup bss ;;
      message ← attempt read_message;
      match message with
      | inl e => match exn_kind e with OSError _ => mret tt | _ => lift (Raise e) end
      | inr message =>
          process_message functions message ;;
          testing ← config_get "tsi.testing" (VBool false);
          if one_shot || truthy testing then mret tt else process_loop f bss functions one_shot
      end
  end.

(** Every round takes at least the terminating line from the channel. *)
Definition process (uftp_client : str) (bss : bss_object E) (one_shot : bool) : M (world E) unit :=
  input ← gets w_in;
  process_loop (S (length input)) bss (init_functions uftp_client bss) one_shot.
End operations.

(** ** Facts: finding the command *)

Lemma lits_app (a b : str) : lits (a ++ b) = lits a ++ lits b.
Proof. apply fmap_app. Qed.

Lemma compile_command (cmd : str) : is_name cmd ->
  compile (".*#" ++ cmd ++ "\n") = Some (TRep dot 0 None :: lits ("#" ++ cmd ++ nl)).
Proof.
  intros Hc. unfold compile.
  assert (Forall plain ("#" ++ cmd)) as Hp by (apply Forall_cons_2; [done | by apply is_name_plain]).
  rewrite !length_app. change (length ".*#") with 3%nat. change (length "\n") with 2%nat.
  replace (S (3 + (length cmd + 2))) with (1 + (length ("#" ++ cmd) + 4))%nat by (simpl; lia).
  assert (forall f x, compile_from (1 + f) 1 [] (".*" ++ x)
            = cons (TRep dot 0 None) <$> compile_from f 1 [] x) as Hstar by done.
  change (".*#" ++ cmd ++ "\n") with (".*" ++ ("#" ++ cmd) ++ "\n").
  rewrite Hstar, compile_lits by (done || by simpl).
  change (compile_from 4 1 [] "\n") with (Some (lits nl)). cbn [fmap option_fmap option_map].
  by rewrite <-lits_app.
Qed.

(** The search for a command finds the line wherever it is in the message. *)
Lemma command_search (cmd message : str) : is_name cmd ->
  is_Some (re_search_M (".*#" ++ cmd ++ "\n") message) <-> contains ("#" ++ cmd ++ nl) message = true.
Proof.
  intros Hc. unfold re_search_M. rewrite compile_command by done. rewrite contains_spec.
  set (w := "#" ++ cmd ++ nl). split.
  - intros [m (a & b & r & cp & -> & Hm & _)%search_some].
    apply matches_rep in Hm as (pre & post & -> & _ & _ & Hm).
    rewrite <-(app_nil_r (lits w)) in Hm. apply matches_lits in Hm as (r' & -> & _).
    exists (a ++ pre), r'. by rewrite <-app_assoc.
  - intros (a & b & ->). eapply (search_is_some true _ None a (w ++ b) b []).
    apply matches_rep. exists [], (w ++ b). split; [done|]. split; [constructor|].
    split; [split; [done|done]|]. rewrite <-(app_nil_r (lits w)). apply matches_lits.
    exists b. split; [done|]. by apply matches_nil.
Qed.

(** ** The relation the requests respect *)

Record same_request {E : Type} (w w' : world E) : Prop := {
  sr_creds : w_creds w' = w_creds w;
  sr_config : forall k, k <> pids_key -> w_config w' !! k = w_config w !! k;
  sr_pids : (exists l, w_config w !! pids_key = Some (VPids l)) ->
            exists l, w_config w' !! pids_key = Some (VPids l);
  sr_in : w_in w' = w_in w
}.

#[export] Instance same_request_preorder {E : Type} : PreOrder (same_request (E := E)).
Proof.
  split; [by split|]. intros w1 w2 w3 [a1 b1 c1 d1] [a2 b2 c2 d2]. split; [congruence| |auto|congruence].
  intros k Hk. by rewrite b2, b1.
Qed.

#[export] Instance socket_frame {E : Type} `{Ext E} :
  RequestFrame (H0 := socket_connector) (same_request (E := E)).
Proof.
  split; simpl; try exact _; try (intros; by split).
  - intros w l. split; simpl; try done.
    + intros k Hk. by rewrite lookup_insert_ne.
    + intros _. exists l. apply lookup_insert_eq.
  - intros n w. unfold socket_read_data, buffered_read. destruct (_ <? -1); by split.
Qed.

(** ** Facts: the requests of [TSI.py] *)

Section requests.
Context {E : Type} `{Ext E}.

Section frame.
Context `{Connector E} (R : world E -> world E -> Prop) `{!RequestFrame R}.

Lemma fr_cache_mod f : respects R (cache_mod (E := E) f).
Proof. intros w. apply fr_cache. Qed.
Lemma fr_time_time : respects R (time_time (E := E)).
Proof. unfold time_time. solve_respects. Qed.
#[local] Hint Resolve fr_cache_mod fr_time_time : respects.
Lemma fr_cache_get {A} (f : ucache -> A) : respects R (cache_get (E := E) f).
Proof. unfold cache_get. solve_respects. Qed.
#[local] Hint Extern 2 (respects _ (cache_get _)) => apply fr_cache_get : respects.
Lemma fr_expired o : respects R (expired (E := E) o).
Proof. unfold expired. solve_respects. Qed.
#[local] Hint Extern 2 (respects _ (expired _)) => apply fr_expired : respects.
Lemma fr_get_home user : respects R (get_home_4user (E := E) user).
Proof.
  unfold get_home_4user, prepare_users, update_user_info, get_gids_4user_nc, get_gids_4user_via_id,
    get_gids_4user_via_getgrall. solve_respects.
Qed.
#[local] Hint Resolve fr_get_home : respects.
Lemma fr_keyfile_loop home ks st : respects R (keyfile_loop (E := E) home ks st).
Proof. revert st. induction ks as [|k ks IH]; intros st; cbn [keyfile_loop]; unfold keyfile_step; solve_respects. Qed.
Lemma fr_info_command k w add st : respects R (info_command (E := E) k w add st).
Proof. unfold info_command. solve_respects. Qed.
#[local] Hint Resolve fr_keyfile_loop fr_info_command : respects.
Lemma fr_get_user_info msg : respects R (get_user_info (E := E) msg).
Proof. unfold get_user_info. solve_respects. Qed.
Lemma fr_execute_script msg : respects R (execute_script (E := E) msg).
Proof. unfold execute_script. solve_respects. Qed.
Lemma fr_ping_uid msg : respects R (ping_uid (E := E) msg).
Proof. unfold ping_uid. solve_respects. Qed.
End frame.

(** The variant's own requests: what the loop expects of the object. *)
Context `{Connector E} (R : world E -> world E -> Prop) `{!RequestFrame R} `{!ConnectorLaws E}
  `{!SaneExt E}.

(** A handler that respects the frame, answers once and completes. *)
Record well_behaved (h : str -> M (world E) unit) : Prop := {
  wb_frame : forall msg, respects R (h msg);
  wb_reply : forall msg, single_reply (h msg);
  wb_completes : forall msg, completes (h msg)
}.

Definition object_ok (bss : bss_object E) : Prop :=
  respects R (bss_cleanup bss) /\ silent (bss_cleanup bss) /\
  (forall l w, w_config w !! pids_key = Some (VPids l) -> exists w', bss_cleanup bss w = (Ok tt, w')) /\
  Forall well_behaved [bss_submit bss; bss_run_on_login_node bss; bss_get_status_listing bss;
    bss_get_process_listing bss; bss_get_job_details bss; bss_get_partitions bss; bss_abort_job bss;
    bss_hold_job bss; bss_resume_job bss; bss_get_budget bss].

Lemma cleanup_silent `{BSS} : silent (cleanup (E := E)).
Proof.
  unfold cleanup. apply respects_bind; [exact _ | solve_respects | intros v].
  destruct v as [| | |[]|?|l| | | |]; try solve_respects.
  generalize (S (length l)) 0%nat. intros f. induction f as [|f IH]; intros i; cbn [cleanup_loop]; solve_respects.
Qed.

Lemma base_object_ok `{BSSLaws} (login : bool) : object_ok (base_object login).
Proof.
  split; [apply fr_cleanup|]. split; [apply cleanup_silent|]. split; [exact cleanup_run|].
  unfold base_object. cbn [bss_submit bss_run_on_login_node bss_get_status_listing
    bss_get_process_listing bss_get_job_details bss_get_partitions bss_abort_job bss_hold_job
    bss_resume_job bss_get_budget].
  apply Forall_cons_2.
  { split; intros msg; [eapply fr_submit; exact _ | apply submit_reply | apply c_submit]. }
  apply Forall_cons_2.
  { split; intros msg;
      [eapply fr_run_on_login_node; exact _ | apply run_on_login_node_reply | apply c_run_on_login_node]. }
  repeat (apply Forall_cons_2; [split; intros msg; [solve_respects | |];
      [destruct (bss_handlers_reply (E := E) login msg) as (? & ? & ? & ? & ? & ? & ? & ?)
      |destruct (c_bss_requests (E := E) login msg) as (? & ? & ? & ? & ? & ? & ? & ?)];
      match goal with H : ?P |- ?P => exact H end|]).
  apply Forall_nil_2.
Qed.

(** The user cache and the change of identity complete. *)
Lemma c_expired o : completes (S := world E) (expired o).
Proof.
  unfold expired, cache_get. solve_completes; [|apply c_x_time]. unfold ttl_ticks. solve_settles.
Qed.
#[local] Hint Resolve c_expired c_run_command : completes.
Lemma c_prepare_users user : completes (S := world E) (prepare_users user).
Proof.
  unfold prepare_users, update_user_info, get_gids_4user_nc, get_gids_4user_via_id,
    get_gids_4user_via_getgrall, cache_get, cache_mod. solve_completes; try apply c_x_time.
Qed.
Lemma c_prepare_groups group : completes (S := world E) (prepare_groups group).
Proof.
  unfold prepare_groups, update_group_info, cache_get, cache_mod.
  solve_completes; try apply c_x_time.
Qed.
#[local] Hint Resolve c_prepare_users c_prepare_groups : completes.
Lemma c_lookups name :
  completes (S := world E) (get_gids_4user name) /\ completes (S := world E) (get_gid_4group name) /\
  completes (S := world E) (get_gid_4user name) /\ completes (S := world E) (get_uid_4user name) /\
  completes (S := world E) (get_home_4user name).
Proof.
  unfold get_gids_4user, get_gid_4group, get_gid_4user, get_uid_4user, get_home_4user, cache_get.
  split_and!; solve_completes.
Qed.
Lemma c_get_gids user : completes (S := world E) (get_gids_4user user).
Proof. apply c_lookups. Qed.
Lemma c_get_gid_4group group : completes (S := world E) (get_gid_4group group).
Proof. apply c_lookups. Qed.
Lemma c_get_gid user : completes (S := world E) (get_gid_4user user).
Proof. apply c_lookups. Qed.
Lemma c_get_uid user : completes (S := world E) (get_uid_4user user).
Proof. apply c_lookups. Qed.
Lemma c_get_home user : completes (S := world E) (get_home_4user user).
Proof. apply c_lookups. Qed.
#[local] Hint Resolve c_get_gids c_get_gid_4group c_get_gid c_get_uid c_get_home : completes.

Lemma c_check_membership gid user config : completes (S := world E) (check_membership gid user config).
Proof. unfold check_membership. solve_completes. Qed.
#[local] Hint Resolve c_check_membership : completes.
Lemma c_supplementary_loop requested added sup user fail config :
  completes (S := world E) (supplementary_loop requested added sup user fail config).
Proof.
  revert added sup. induction requested as [|g rest IH]; intros added sup; cbn [supplementary_loop];
    solve_completes.
Qed.
#[local] Hint Resolve c_supplementary_loop : completes.
Lemma c_become_user user groups : completes (S := world E) (become_user user groups).
Proof.
  unfold become_user, resolve_identity, get_primary_group, get_supplementary_groups, switch_to.
  solve_completes. unfold as_id. solve_settles.
Qed.

(** The requests of [TSI.py]. *)

#[local] Hint Resolve c_ok c_failed c_write_message : completes.

Lemma get_home_silent user : silent (get_home_4user (E := E) user).
Proof. intros w. by destruct (get_home_frame user w) as (c & e & ->). Qed.
Lemma c_keyfile_loop home ks st : completes (S := world E) (keyfile_loop home ks st).
Proof.
  revert st. induction ks as [|k ks IH]; intros st; cbn [keyfile_loop]; unfold keyfile_step; solve_completes.
Qed.
Lemma keyfile_loop_silent home ks st : silent (keyfile_loop (E := E) home ks st).
Proof.
  revert st. induction ks as [|k ks IH]; intros st; cbn [keyfile_loop]; unfold keyfile_step; solve_respects.
Qed.
Lemma c_info_command k w add st : completes (S := world E) (info_command k w add st).
Proof. unfold info_command. solve_completes. Qed.
Lemma info_command_silent k w add st : silent (info_command (E := E) k w add st).
Proof. unfold info_command. solve_respects. Qed.
#[local] Hint Resolve c_keyfile_loop c_info_command : completes.
#[local] Hint Resolve get_home_silent keyfile_loop_silent info_command_silent : respects.

Lemma get_user_info_ok : well_behaved get_user_info.
Proof.
  split; intros msg.
  - apply fr_get_user_info. exact _.
  - unfold get_user_info. solve_reply.
  - unfold get_user_info. solve_completes.
Qed.
Lemma execute_script_ok : well_behaved execute_script.
Proof.
  split; intros msg.
  - apply fr_execute_script. exact _.
  - unfold execute_script. solve_reply.
  - unfold execute_script. solve_completes.
Qed.
Lemma ping_uid_ok : well_behaved ping_uid.
Proof.
  split; intros msg.
  - apply fr_ping_uid. exact _.
  - intros w. unfold ping_uid. rewrite (bind_run _ _ _ _ _ (ok_law _ w)).
    set (uid := cfg_get (w_config w) "tsi.effective_uid" (VStr "n/a")).
    pose proof (reply_ok_lines (Some MY_VERSION) [" running as UID [" ++ str_of_cval uid ++ "]"] w) as Hr.
    rewrite (bind_run _ _ _ _ _ (ok_law _ w)) in Hr. cbn [for_each] in Hr.
    set (w1 := emit _ w) in *. rewrite (bind_run _ _ w1 w1 uid) by done.
    rewrite (bind_run _ _ _ _ _ (write_message_law _ w1)) in Hr. by rewrite write_message_law.
  - unfold ping_uid. solve_completes.
Qed.
Lemma ping_ok : well_behaved (fun _ => ping).
Proof.
  split; intros msg; unfold ping; [solve_respects | apply reply_ok | apply c_ok].
Qed.
Lemma refused_ok (text : str) : well_behaved (fun _ => failed text).
Proof. split; intros msg; [solve_respects | apply reply_failed | apply c_failed]. Qed.
Lemma uftp_ok client : well_behaved (uftp client).
Proof.
  split; intros msg; [solve_respects | | apply c_uftp].
  unfold uftp, int_parameter_or, int_parameter. apply reply_bind; [solve_respects | intros port].
  cbv zeta. apply reply_bind; [unfold expand_path; solve_respects | intros r].
  apply reply_bind; [unfold expand_path; solve_respects | intros l]. solve_reply.
Qed.
Lemma df_ok : well_behaved df.
Proof.
  split; intros msg; [solve_respects | | apply c_df].
  unfold df. apply reply_bind; [unfold expand_path; solve_respects | intros path].
  apply reply_bind; [solve_respects | intros login].
  apply reply_bind; [solve_respects | intros [success result]]. destruct success; [|solve_reply].
  destruct (foldl _ _ _) as [total free].
  intros w.
  pose proof (reply_ok_lines (Some "START_DF") ["TOTAL " ++ total; "FREE " ++ free; "USER -1"; "END_DF"] w) as Hr.
  cbn [for_each] in Hr. rewrite (bind_run _ _ _ _ _ (ok_law _ w)) in Hr.
  rewrite (bind_run _ _ _ _ _ (ok_law _ w)).
  rewrite !(bind_run (write_message _) _ _ _ _ (write_message_law _ _)) in Hr.
  rewrite !(bind_run (write_message _) _ _ _ _ (write_message_law _ _)), write_message_law. exact Hr.
Qed.

(** The requests that transfer file contents, list files or deal with ACLs
    have replies of their own; all others are well-behaved. *)
Definition special_commands : list str := ["TSI_GETFILECHUNK"; "TSI_PUTFILECHUNK"; "TSI_LS"; "TSI_FILE_ACL"].

Lemma functions_ok client bss : object_ok bss ->
  Forall (fun f => f.1 ∈ special_commands \/ well_behaved f.2) (init_functions client bss).
Proof.
  intros (_ & _ & _ & Hb). rewrite !Forall_cons in Hb.
  destruct Hb as (h1 & h2 & h3 & h4 & h5 & h6 & h7 & h8 & h9 & h10 & _).
  unfold init_functions. pose proof ping_ok. pose proof ping_uid_ok. pose proof get_user_info_ok.
  pose proof execute_script_ok. pose proof df_ok. pose proof (uftp_ok client).
  pose proof (refused_ok "Reservation not supported!").
  repeat (apply Forall_cons_2; [cbn [fst snd]; first [right; assumption
    | left; apply (bool_decide_unpack _); vm_compute; exact I] |]).
  apply Forall_nil_2.
Qed.
End requests.

(** ** Facts: one request *)

(** The configuration but for the list of children. *)
Record same_config {E : Type} (w w' : world E) : Prop := {
  sc_other : forall k, k <> pids_key -> w_config w' !! k = w_config w !! k;
  sc_pids : (exists l, w_config w !! pids_key = Some (VPids l)) ->
            exists l, w_config w' !! pids_key = Some (VPids l)
}.

#[export] Instance same_config_preorder {E : Type} : PreOrder (same_config (E := E)).
Proof.
  split; [by split|]. intros w1 w2 w3 [a1 b1] [a2 b2]. split; [|auto].
  intros k Hk. by rewrite a2, a1.
Qed.

Lemma same_config_eq {E : Type} (w w' : world E) : w_config w' = w_config w -> same_config w w'.
Proof. intros He. split; by rewrite He. Qed.

Lemma same_request_config {E : Type} (w w' : world E) : same_request w w' -> same_config w w'.
Proof. by intros []. Qed.

Lemma switching_same {E : Type} (w w' : world E) u g :
  same_config w w' -> switching (w_config w) u g -> switching (w_config w') u g.
Proof.
  intros [Hc _] [(v & Hv & Ht) Hu Hg]. split; [exists v|..]; by rewrite Hc.
Qed.

Section handle.
Context {E : Type} `{Ext E} `{!SaneExt E} `{Libpam E}.
#[local] Existing Instance socket_connector.

Lemma same_config_trans_emit (w w1 : world E) : same_config w w1 -> forall text, same_config w (emit text w1).
Proof. by intros [] text. Qed.

(** What serving a request leaves behind, before the credentials are
    restored. *)
Record served (u : Z) (w w' : world E) : Prop := {
  se_reply : exists text, is_reply text /\ w_out w' = w_out w ++ text;
  se_back : recoverable u (w_creds w');
  se_config : same_config w w';
  se_in : w_in w' = w_in w
}.

Lemma served_failed u (w w1 : world E) (text : str) :
  w_out w1 = w_out w -> recoverable u (w_creds w1) -> same_config w w1 -> w_in w1 = w_in w ->
  exists w', failed text w1 = (Ok tt, w') /\ served u w w'.
Proof.
  intros Ho Hb Hc Hi. rewrite failed_law. eexists. split; [reflexivity|].
  split; [|exact Hb | exact (same_config_trans_emit w w1 Hc _) | exact Hi].
  exists (failed_text text). split; [right; by exists text|]. unfold emit. simpl. by rewrite Ho.
Qed.

(** The user's part of a request: it completes, and one reply is written
    unless it raises. *)
Lemma run_as_user_run (function : str -> M (world E) unit) user groups session msg u g (w : world E) :
  well_behaved same_request function -> valid_id u -> switching (w_config w) u g ->
  recoverable u (w_creds w) ->
  exists w', (run_as_user function true false user groups session msg w = (Ok tt, w') /\ served u w w') \/
    (exists e, run_as_user function true false user groups session msg w = (Raise e, w') /\
      w_out w' = w_out w /\ recoverable u (w_creds w') /\ same_config w w' /\ w_in w' = w_in w).
Proof.
  intros [Hf Hr Hcp] Hu Hsw Hback. unfold run_as_user. cbn [when].
  rewrite M_bind_assoc. rewrite (bind_run (mret tt) _ w w tt) by done. rewrite M_bind_assoc.
  pose proof (become_user_switched user groups u g w Hsw Hu) as [Hcfg _ Hin Hout _ _ Hrec].
  pose proof (c_become_user user groups w) as Hdone.
  rewrite bind_match. destruct (become_user user groups w) as [[b|e|n|] w1];
    cbn [fst snd settles] in *; try done.
  2: { exists w1. right. exists e. split_and!; auto using same_config_eq. }
  rewrite bind_match. destruct b; cbn [negb when mret M_ret].
  2: { exists w1. right. eexists. split; [reflexivity|]. auto using same_config_eq. }
  specialize (Hf msg w1). specialize (Hr msg w1). specialize (Hcp msg w1).
  destruct (function msg w1) as [[[]|e|n|] w2]; cbn [fst snd settles] in *; try done.
  - exists w2. left. split; [done|]. destruct Hf as [f1 f2 f3 f4]. split.
    + destruct Hr as (text & Ht & Ho). exists text. by rewrite Ho, Hout.
    + rewrite f1. auto.
    + transitivity w1; [by apply same_config_eq | by split].
    + congruence.
  - exists w2. right. exists e. destruct Hf as [f1 f2 f3 f4]. split_and!; [done|congruence| | |congruence].
    + rewrite f1. auto.
    + transitivity w1; [by apply same_config_eq | by split].
Qed.

Lemma serve_run (function : str -> M (world E) unit) msg u g (w : world E) :
  well_behaved same_request function -> valid_id u -> switching (w_config w) u g ->
  recoverable u (w_creds w) ->
  exists b w', serve function true false msg w = (Ok b, w') /\ served u w w'.
Proof.
  intros Hf Hu Hsw Hback. unfold serve, request_identity.
  destruct (identity msg) as [[user groups]|].
  - rewrite (bind_run _ _ w w (inr (user, split ":" groups, ""))) by done.
    destruct (run_as_user_run function user (split ":" groups) "" msg u g w Hf Hu Hsw Hback)
      as (w' & [[Hrun Hs]|(e & Hrun & Ho & Hb & Hc & Hi)]).
    + exists true, w'. split; [|done]. rewrite (bind_run _ _ w w' tt); [done|].
      unfold try_catch. by rewrite Hrun.
    + destruct (served_failed u w w' (exn_msg e) Ho Hb Hc Hi) as (w2 & Hfail & Hs).
      exists true, w2. split; [|done]. rewrite (bind_run _ _ w w2 tt); [done|].
      unfold try_catch. by rewrite Hrun.
  - rewrite (bind_run _ _ w w (inl (Exn RuntimeError "No user/group info given"))) by done.
    destruct (served_failed u w w "No user/group info given" eq_refl Hback) as (w2 & Hfail & Hs);
      [done|done|]. exists false, w2. split; [|done]. by rewrite (bind_run _ _ _ _ _ Hfail).
Qed.

(** The worker after a request: its own identity again. *)
Record answered (u g : Z) (w w' : world E) : Prop := {
  an_reply : exists text, is_reply text /\ w_out w' = w_out w ++ text;
  an_creds : exists gs, w_creds w' = privileged u g gs;
  an_config : same_config w w';
  an_in : w_in w' = w_in w
}.

Definition sessions_off (config : config_t) : Prop :=
  truthy (cfg_get config "tsi.open_user_sessions" (VBool false)) = false.

Lemma handle_run (function : str -> M (world E) unit) command msg u g gs (w : world E) :
  well_behaved same_request function -> w_creds w = privileged u g gs -> valid_id u -> valid_id g ->
  switching (w_config w) u g -> sessions_off (w_config w) -> command <> "_START_FORWARDING" ->
  exists w', handle_function function command msg w = (Ok tt, w') /\ answered u g w w' /\
    w_creds w' = privileged u g [g].
Proof.
  intros Hf Hc Hu Hg Hsw Hoff Hcmd. unfold handle_function.
  destruct Hsw as [(v & Hv & Ht) Huid Hgid] eqn:Heq. clear Heq.
  assert (switching (w_config w) u g) as Hsw' by (split; eauto).
  rewrite (bind_run _ _ w w v) by (unfold config_get, get_config, gets, cfg_get, mbind, M_bind, mret, M_ret; by rewrite Hv).
  rewrite (bind_run _ _ w w (cfg_get (w_config w) "tsi.open_user_sessions" (VBool false))) by done.
  unfold sessions_off in Hoff. rewrite Hoff, Ht. cbn [andb]. unfold handle_in_process.
  destruct (serve_run function msg u g w Hf Hu Hsw') as (b & w1 & Hrun & Hs).
  { rewrite Hc. apply privileged_recoverable. }
  rewrite (bind_run _ _ _ _ _ Hrun). rewrite (proj2 (str_eqb_neq command "_START_FORWARDING")) by done.
  cbn [andb negb when]. destruct Hs as [Hrep Hback Hcfg Hin].
  destruct (restore_id_recoverable u g w1 (switching_same _ _ _ _ Hcfg Hsw') Hu Hg Hback)
    as (w2 & Hres & Hcr & Hcf & Ho & Hi & _ & _).
  exists w2. split; [|split; [|done]].
  - rewrite (bind_run _ _ w1 w2 tt); [done|]. by rewrite (bind_run _ _ _ _ _ Hres).
  - split; [by rewrite Ho | by exists [g] | | congruence].
    transitivity w1; [done | by apply same_config_eq].
Qed.
End handle.

(** ** Facts: the loop *)

(** A worker between two requests. *)
Record ready {E : Type} (u g : Z) (dir : str) (w : world E) : Prop := {
  rd_creds : exists gs, w_creds w = privileged u g gs;
  rd_switching : switching (w_config w) u g;
  rd_sessions : sessions_off (w_config w);
  rd_testing : truthy (cfg_get (w_config w) "tsi.testing" (VBool false)) = false;
  rd_dir : w_config w !! ("tsi.safe_dir" : str) = Some (VStr dir);
  rd_pids : exists l, w_config w !! pids_key = Some (VPids l)
}.

Lemma ready_same {E : Type} u g dir (w w' : world E) :
  (exists gs, w_creds w' = privileged u g gs) -> same_config w w' -> ready u g dir w -> ready u g dir w'.
Proof.
  intros Hc Hs [_ H2 H3 H4 H5 H6]. pose proof Hs as [Ho Hp]. split; [done| | | | |auto].
  - by eapply switching_same.
  - unfold sessions_off, cfg_get in *. by rewrite Ho.
  - unfold cfg_get in *. by rewrite Ho.
  - by rewrite Ho.
Qed.

(** The answer to a message. *)
Definition answer_to {A : Type} (functions : list (str * A)) (message reply : str) : Prop :=
  match find_command functions message with
  | None => reply = failed_text "Unknown #TSI_* command"
  | Some (command, _) => is_reply reply /\ (command = "TSI_PING" -> reply = ok_text (Some MY_VERSION))
  end.

Definition end_of_message : str := "ENDOFMESSAGE" ++ nl.

Section loop.
Context {E : Type} `{Ext E} `{!SaneExt E} `{Libpam E}.
#[local] Existing Instance socket_connector.
Context (u g : Z) (Hu : valid_id u) (Hg : valid_id g).
Context (dir : str) (Hdir : forall p (e : E), exists d, x_chdir p dir e = Ok d).

(** Messages whose command is answered by a well-behaved function. *)
Definition plain_message {A : Type} (functions : list (str * A)) (message : str) : Prop :=
  match find_command functions message with
  | None => True
  | Some (command, _) => command ∉ special_commands
  end.

Lemma find_command_elem {A : Type} (functions : list (str * A)) message f :
  find_command functions message = Some f -> f ∈ functions.
Proof. intros Hf. apply find_some in Hf as [Hf _]. by apply list_elem_of_In. Qed.

Lemma process_message_run functions message (w : world E) :
  Forall (fun f => f.1 ∈ special_commands \/ well_behaved same_request f.2) functions ->
  Forall (fun f => f.1 <> "_START_FORWARDING") functions ->
  plain_message functions message -> ready u g dir w ->
  exists reply w', process_message functions message w = (Ok tt, w') /\
    answer_to functions message reply /\ w_out w' = w_out w ++ (reply ++ end_of_message) /\
    ready u g dir w' /\ w_in w' = w_in w.
Proof.
  intros Hfun Hfwd Hplain Hready. unfold process_message.
  rewrite (bind_run _ _ w w dir).
  2: { unfold config_str, get_config, gets, lift, cfg_str, cfg_at, mbind, M_bind.
       rewrite (rd_dir _ _ _ _ Hready). done. }
  destruct (Hdir (proc_of w) (w_ext w)) as [d Hd].
  rewrite (bind_run _ _ w (with_cwd d w) tt).
  2: { unfold chdir, ext_read, modify, mbind, M_bind. by rewrite Hd. }
  set (w1 := with_cwd d w).
  assert (ready u g dir w1) as Hready1 by (apply (ready_same _ _ _ w); [apply Hready | by split | done]).
  unfold answer_to, plain_message in *.
  destruct (find_command functions message) as [[command function]|] eqn:Hfind.
  - apply find_command_elem in Hfind. rewrite Forall_forall in Hfun, Hfwd.
    specialize (Hfwd _ Hfind). destruct (Hfun _ Hfind) as [Hsp|Hok]; [done|]. cbn [fst snd] in *.
    destruct (str_eqb "TSI_PING" command) eqn:Hping.
    + apply str_eqb_eq in Hping as <-. unfold ping.
      rewrite (bind_run _ _ _ _ _ (ok_law _ w1)), write_message_law.
      eexists (ok_text (Some MY_VERSION)), _. split; [reflexivity|]. split; [split; [left; by eexists | done]|].
      split; [unfold emit; simpl; by rewrite <-app_assoc|]. split; [|done].
      apply (ready_same _ _ _ w1); [apply Hready1 | by split | done].
    + apply str_eqb_neq in Hping. destruct (rd_creds _ _ _ _ Hready1) as [gs Hc].
      destruct (handle_run function command message u g gs w1 Hok Hc Hu Hg) as (w2 & Hrun & [Hrep Hcr Hcf Hin] & _);
        [apply Hready1 | apply Hready1 | done|].
      rewrite (bind_run _ _ _ _ _ Hrun), write_message_law. destruct Hrep as (text & Ht & Ho).
      exists text, (emit (line_text "ENDOFMESSAGE") w2). split; [done|].
      split; [split; [done | by intros ->]|].
      split; [unfold emit; cbn [w_out with_out]; rewrite Ho; unfold w1; cbn [w_out with_cwd];
        by rewrite <-app_assoc|]. split; [|done].
      apply (ready_same _ _ _ w1); [exact Hcr | | exact Hready1]. by destruct Hcf.
  - rewrite (bind_run _ _ _ _ _ (failed_law _ w1)), write_message_law.
    eexists _, _. split; [reflexivity|]. split; [reflexivity|].
    split; [unfold emit; simpl; by rewrite <-app_assoc|]. split; [|done].
    apply (ready_same _ _ _ w1); [apply Hready1 | by split | done].
Qed.

Lemma process_loop_run bss functions msgs fuel (w : world E) :
  object_ok same_request bss ->
  Forall (fun f => f.1 ∈ special_commands \/ well_behaved same_request f.2) functions ->
  Forall (fun f => f.1 <> "_START_FORWARDING") functions ->
  Forall (fun m => message_lines m /\ plain_message functions (message_text m)) msgs ->
  w_in w = concat ((fun m => message_text m ++ end_of_message) <$> msgs) ->
  ready u g dir w -> (length msgs < fuel)%nat ->
  exists replies w', process_loop fuel bss functions false w = (Ok tt, w') /\
    Forall2 (fun m => answer_to functions (message_text m)) msgs replies /\
    w_out w' = w_out w ++ concat ((fun r => r ++ end_of_message) <$> replies) /\
    ready u g dir w' /\ w_in w' = [].
Proof.
  intros Hbss Hfun Hfwd Hmsgs. destruct Hbss as (Hfr & Hsil & Hclean & _).
  revert fuel w. induction Hmsgs as [|m msgs [Hl Hp] _ IH]; intros fuel w Hin Hready Hf;
    (destruct fuel as [|f]; [simpl in Hf; lia|]); cbn [process_loop].
  all: destruct (rd_pids _ _ _ _ Hready) as [l Hpids]; destruct (Hclean l w Hpids) as [w1 Hrun];
    rewrite (bind_run _ _ _ _ _ Hrun); specialize (Hfr w); specialize (Hsil w);
    rewrite Hrun in Hfr, Hsil; cbn [snd] in Hfr, Hsil; unfold same_out in Hsil;
    assert (ready u g dir w1) as Hready1 by (apply (ready_same _ _ _ w);
      [destruct Hfr as [-> _ _ _]; apply Hready | by apply same_request_config | done]);
    destruct Hfr as [_ _ _ Hin1].
  - assert (attempt read_message w1 = (Ok (inl (Exn (OSError 0) "Socket closed")), with_in [] w1)) as Hread.
    { unfold attempt. cbn [read_message socket_connector]. unfold socket_read_message, gets, mbind, M_bind.
      rewrite Hin1, Hin. done. }
    rewrite (bind_run _ _ _ _ _ Hread). exists [], (with_in [] w1). split; [done|]. split; [constructor|].
    split; [cbn; by rewrite app_nil_r|]. split; [|done].
    apply (ready_same _ _ _ w1); [apply Hready1 | by split | done].
  - set (rest := concat ((fun m => message_text m ++ end_of_message) <$> msgs)).
    assert (attempt read_message w1 = (Ok (inr (message_text m)), with_in rest w1)) as Hread.
    { unfold attempt. cbn [read_message socket_connector]. rewrite (read_message_lines m rest w1 Hl); [done|].
      rewrite Hin1, Hin, fmap_cons. cbn [concat]. by rewrite <-app_assoc. }
    rewrite (bind_run _ _ _ _ _ Hread).
    destruct (process_message_run functions (message_text m) (with_in rest w1) Hfun Hfwd Hp)
      as (reply & w2 & Hmsg & Hans & Ho & Hready2 & Hin2).
    { apply (ready_same _ _ _ w1); [apply Hready1 | by split | done]. }
    rewrite (bind_run _ _ _ _ _ Hmsg).
    rewrite (bind_run _ _ w2 w2 (cfg_get (w_config w2) "tsi.testing" (VBool false))) by done.
    rewrite (rd_testing _ _ _ _ Hready2). cbn [orb].
    destruct (IH f w2) as (replies & w3 & Hloop & Hall & Hout & Hr3 & Hi3); [done|done|simpl in Hf; lia|].
    exists (reply :: replies), w3. split; [done|]. split; [by constructor|]. split; [|done].
    rewrite fmap_cons. cbn [concat]. rewrite Hout, Ho. cbn [w_out with_in]. by rewrite Hsil, <-!app_assoc.
Qed.
End loop.

(** ** Facts: any request *)

Section any_request.
Context {E : Type} `{Ext E} `{!SaneExt E} `{Libpam E}.
#[local] Existing Instance socket_connector.

(** The way back stays open whatever the request did, as long as it respects
    the frame. *)
Definition back_open {A : Type} (u : Z) (w : world E) (r : result A * world E) : Prop :=
  match r with
  | (Ok _, w') | (Raise _, w') =>
      recoverable u (w_creds w') /\ same_config w w' /\ w_in w' = w_in w
  | _ => True
  end.

Lemma run_as_user_back (function : str -> M (world E) unit) user groups session msg u g (w : world E) :
  respects same_request (function msg) -> valid_id u -> switching (w_config w) u g ->
  recoverable u (w_creds w) ->
  back_open u w (run_as_user function true false user groups session msg w).
Proof.
  intros Hf Hu Hsw Hback. unfold run_as_user. cbn [when].
  rewrite M_bind_assoc. rewrite (bind_run (mret tt) _ w w tt) by done. rewrite M_bind_assoc.
  pose proof (become_user_switched user groups u g w Hsw Hu) as [Hcfg _ Hin _ _ _ Hrec].
  rewrite bind_match. destruct (become_user user groups w) as [[b|e|n|] w1]; cbn [snd] in *; try done.
  2: { split_and!; auto using same_config_eq. }
  rewrite bind_match. destruct b; cbn [negb when mret M_ret].
  2: { split_and!; auto using same_config_eq. }
  specialize (Hf w1). destruct (function msg w1) as [r w2]. destruct Hf as [f1 f2 f3 f4]. cbn [snd] in *.
  assert (recoverable u (w_creds w2) /\ same_config w w2 /\ w_in w2 = w_in w) as Hres.
  { split_and!; [rewrite f1; auto | | congruence].
    transitivity w1; [by apply same_config_eq | by split]. }
  by destruct r.
Qed.

Lemma serve_back (function : str -> M (world E) unit) msg u g (w : world E) :
  respects same_request (function msg) -> valid_id u -> switching (w_config w) u g ->
  recoverable u (w_creds w) ->
  match serve function true false msg w with
  | (Ok _, w') => recoverable u (w_creds w') /\ same_config w w' /\ w_in w' = w_in w
  | (Raise _, _) => False
  | _ => True
  end.
Proof.
  intros Hf Hu Hsw Hback. unfold serve, request_identity.
  destruct (identity msg) as [[user groups]|].
  - rewrite (bind_run _ _ w w (inr (user, split ":" groups, ""))) by done.
    pose proof (run_as_user_back function user (split ":" groups) "" msg u g w Hf Hu Hsw Hback) as Hb.
    rewrite bind_match. unfold try_catch.
    destruct (run_as_user _ _ _ _ _ _ _ w) as [[[]|e|n|] w1]; try done.
    rewrite failed_law. destruct Hb as (Hb1 & Hb2 & Hb3). split; [done|]. split; [|done].
    by apply same_config_trans_emit.
  - rewrite (bind_run _ _ w w (inl (Exn RuntimeError "No user/group info given"))) by done.
    rewrite bind_match, failed_law. cbn. split; [done|]. split; [by split | done].
Qed.
End any_request.

(** * Properties *)

Section properties.
#[local] Existing Instance socket_connector.


(** The whole of [process], for the callers. *)
Lemma process_run {E : Type} `{Ext E} `{!SaneExt E} `{Libpam E} (client : str)
    (bss : bss_object E) (u g : Z) (dir : str) (msgs : list (list str)) (w : world E) :
  object_ok same_request bss -> valid_id u -> valid_id g ->
  (forall p e, exists d, x_chdir p dir e = Ok d) -> ready u g dir w ->
  Forall (fun m => message_lines m /\ plain_message (init_functions client bss) (message_text m)) msgs ->
  w_in w = concat ((fun m => message_text m ++ end_of_message) <$> msgs) ->
  exists replies w', process client bss false w = (Ok tt, w') /\
    Forall2 (fun m => answer_to (init_functions client bss) (message_text m)) msgs replies /\
    w_out w' = w_out w ++ concat ((fun r => r ++ end_of_message) <$> replies) /\
    ready u g dir w' /\ w_in w' = [].
Proof.
  intros Hbss Hu Hg Hdir Hready Hmsgs Hin. unfold process.
  rewrite (bind_run _ _ w w (w_in w)) by done.
  apply (process_loop_run u g Hu Hg dir Hdir); try done.
  - apply (functions_ok same_request client bss Hbss).
  - repeat (apply Forall_cons_2; [discriminate|]). apply Forall_nil_2.
  - rewrite Hin. clear. induction msgs as [|m msgs IH]; [simpl; lia|].
    rewrite fmap_cons. cbn [concat length]. rewrite !length_app.
    assert (length end_of_message = 13)%nat as -> by (vm_compute; reflexivity). lia.
Qed.


(** C39: The function of a message is the first of the table whose command
    stands, followed by a line end, somewhere in the message. *)
Theorem find_command_first {A : Type} (functions : list (str * A)) (message : str) :
  Forall (fun f => is_name f.1) functions ->
  find_command functions message = find (fun f => contains ("#" ++ f.1 ++ nl) message) functions.
Proof.
  intros Hn. unfold find_command. induction Hn as [|f functions Hf _ IH]; [done|]. cbn [find].
  rewrite IH. pose proof (command_search f.1 message Hf) as Hs.
  destruct (contains ("#" ++ f.1 ++ nl) message).
  - by rewrite bool_decide_eq_true_2 by (by apply Hs).
  - by rewrite bool_decide_eq_false_2 by (by intros ?%Hs).
Qed.


(** Concrete runs: a worker of the test machine with two requests. *)
#[local] Instance bed_pam : Libpam bed := {|
  pam_load e := (Ok tt, e); pam_start _ _ e := (0, e); pam_open_session e := (0, e);
  pam_close_session e := (0, e); pam_end e := (0, e); pam_strerror _ _ := ""
|}.

Definition two_msgs : list (list str) :=
  [["#TSI_IDENTITY alice NONE"; "#TSI_GET_COMPUTE_BUDGET"]; ["#TSI_NOTHING"]].
Definition loop_world : world bed :=
  with_in (concat ((fun m => message_text m ++ end_of_message) <$> two_msgs)) bed_world.
#[local] Instance mock_bss : BSS := {|
  get_variant := "Testing"; defaults := [];
  create_submit_script _ _ := Ok ["#!/bin/bash"]; create_alloc_script := base_script;
  get_extract_id_expr := base_extract_id_expr; extract_info _ := Ok None;
  convert_status _ := Ok "UNKNOWN"; parse_job_details := base_parse_job_details;
  parse_partitions := base_parse_partitions
|}.
#[local] Instance mock_laws : BSSLaws.
Proof.
  split; try done; intros s; [by eexists|]. exists "UNKNOWN". split; [done|].
  apply (bool_decide_unpack _). by vm_compute.
Defined.

Lemma bed_object_ok : object_ok same_request (base_object (E := bed) true).
Proof. apply base_object_ok; exact _. Qed.

Lemma loop_world_ready : ready 0 0 "/tmp" loop_world.
Proof.
  split; [by exists [0] | exact bed_switching | vm_compute; reflexivity | vm_compute; reflexivity
    | vm_compute; reflexivity | exists []; vm_compute; reflexivity].
Qed.

Lemma plain_message_is {A : Type} (functions : list (str * A)) (message : str) (o : option str) :
  fst <$> find_command functions message = o ->
  match o with Some c => c ∉ special_commands | None => True end -> plain_message functions message.
Proof. unfold plain_message. intros <-. by destruct (find_command functions message) as [[]|]. Qed.

Definition bed_functions : list (str * (str -> M (world bed) unit)) :=
  init_functions "UFTP.py" (base_object true).

Lemma two_msgs_plain :
  Forall (fun m => message_lines m /\ plain_message bed_functions (message_text m)) two_msgs.
Proof.
  unfold two_msgs, message_lines.
  apply Forall_cons_2; [|apply Forall_cons_2; [|apply Forall_nil_2]]; (split;
    [repeat (apply Forall_cons_2; [split_and!; [apply (bool_decide_unpack _); vm_compute; exact I
      | apply (bool_decide_unpack _); vm_compute; exact I | discriminate]|]); apply Forall_nil_2 |]).
  - apply (plain_message_is _ _ (Some "TSI_GET_COMPUTE_BUDGET")); [vm_compute; reflexivity|].
    apply (bool_decide_unpack _). vm_compute. exact I.
  - apply (plain_message_is _ _ None); [vm_compute; reflexivity | exact I].
Qed.



Lemma find_command_first_witness :
  fst <$> find_command bed_functions ("#TSI_SUBMIT" ++ nl ++ "#TSI_PING" ++ nl)
  = fst <$> find (fun f => contains ("#" ++ f.1 ++ nl) ("#TSI_SUBMIT" ++ nl ++ "#TSI_PING" ++ nl)) bed_functions.
Proof.
  rewrite (find_command_first bed_functions ("#TSI_SUBMIT" ++ nl ++ "#TSI_PING" ++ nl)); [reflexivity|].
  unfold bed_functions, init_functions. repeat (apply Forall_cons_2; [by repeat constructor|]).
  apply Forall_nil_2.
Defined.

Definition session_world : world bed :=
  with_config (<["tsi.open_user_sessions" := VBool true]> bed_config) bed_world.

End properties.
