(* ===== verification/NoBatch.v ===== *)
(** * [lib/BSS.py]: no batch system

    The variant that runs jobs as processes of the machine: submission starts a
    shell in the background, the status comes from [ps]. *)

From S2P Require Import Prelude PyStr PyNum Regex World Utils UserCache Testbed Connector BSSCommon Script Requests TSI.
#[local] Open Scope py_scope.
#[local] Open Scope Z_scope.

(** ** Definitions *)

(** [0.01]. *)
Definition one_percent : pyfloat := FFin 5764607523034235 (-59).

(** The command that limits the wall time: killed a little after the limit. *)
Definition timeout_cmd (req_time : Z) : result str :=
  if 0 <? req_time then
    grace ← float_times one_percent req_time;
    g ← int_of_float grace;
    Ok ("timeout -k " ++ str_of_Z g ++ " " ++ str_of_Z req_time)
  else Ok "".

Definition ulimit_cmd (memory : Z) : str :=
  if 0 <? memory then "ulimit -v " ++ str_of_Z (1024 * memory) ++ ";" else "".

(** [str(os.getpid()) + str(int(time() * 1000))[5:]]; the time is the float
    next to the clock's microseconds. *)
Definition job_id_of (pid micros : Z) : result str :=
  ms ← int_of_float (float_mul (round_ratio micros 1000000) (FFin 1000 0));
  Ok (str_of_Z pid ++ drop 5 (str_of_Z ms)).

Definition job_command (ulimits timeoutcmd cmds_file_name outcome_dir stdout stderr : str) : str :=
  ulimits ++ " ionice -c 3 nice -n 100 " ++ timeoutcmd ++ " ./" ++ cmds_file_name ++ " > "
  ++ outcome_dir ++ "/" ++ stdout ++ " 2> " ++ outcome_dir ++ "/" ++ stderr.

Definition nobatch_extract_info (qstat_line : str) : info_t :=
  (fun m => (group m 2, group m 1, "NOBATCH" : str)) <$> re_search "(\w) .*UNICORE_Job_(\d+).*" qstat_line.

Definition nobatch_convert_status (bss_state : str) : str :=
  if str_eqb bss_state "T" then "SUSPENDED" else "RUNNING".

#[local] Instance nobatch : BSS := {|
  get_variant := "NOBATCH"; defaults := [];
  create_submit_script := base_script; create_alloc_script := base_script;
  get_extract_id_expr := base_extract_id_expr;
  extract_info line := Ok (nobatch_extract_info line);
  convert_status state := Ok (nobatch_convert_status state);
  parse_job_details := base_parse_job_details;
  parse_partitions := base_parse_partitions
|}.

Section operations.
Context {E : Type} `{Ext E} `{Connector E}.

(** [config['tsi.child_pids'].append(pid)]. *)
Definition remember_child (pid : Z) : M (world E) unit :=
  v ← config_at "tsi.child_pids";
  match v with
  | VPids l => set_config "tsi.child_pids" (VPids (l ++ [pid]))
  | _ => raise AttributeError "object has no attribute 'append'"
  end.

Definition nobatch_submit (message : str) : M (world E) unit :=
  message ← expand message;
  let outcome_dir := extract_parameter message "OUTCOME_DIR" None in
  let uspace_dir := extract_parameter message "USPACE_DIR" None in
  let stdout := extract_parameter message "STDOUT" None in
  let stderr := extract_parameter message "STDERR" None in
  let req_time := extract_number message "TIME" in
  let memory := extract_number message "MEMORY" in
  timeoutcmd ← lift (timeout_cmd req_time);
  let ulimits := ulimit_cmd memory in
  chdir uspace_dir ;;
  outcome_dir ← lift (or_raise outcome_dir TypeError
    "stat: path should be string, bytes, os.PathLike or integer, not NoneType");
  there ← ext_read (fun p e => Ok (x_exists p outcome_dir e));
  when (negb there) (ext_call (fun p => x_mkdir p outcome_dir)) ;;
  addperms outcome_dir 448 ;;
  pid ← ext_read (fun _ e => Ok (x_getpid e));
  now ← time_time;
  job_id ← lift (job_id_of pid now);
  let cmds_file_name := "UNICORE_Job_" ++ job_id in
  write_file cmds_file_name message ;;
  addperms cmds_file_name 493 ;;
  let cmd := job_command ulimits timeoutcmd cmds_file_name outcome_dir (fmt stdout) (fmt stderr) in
  child ← ext_call (fun p => x_popen p ["/bin/sh"; "-c"; cmd]);
  remember_child child ;;
  ok (Some job_id).

Definition nobatch_get_job_details (msg : str) : M (world E) unit :=
  ok (Some ("No info available for job " ++ fmt (extract_parameter msg "BSSID" None) ++ " " ++ nl)).
Definition nobatch_hold_job (msg : str) : M (world E) unit := ok (Some nl).
Definition nobatch_resume_job (msg : str) : M (world E) unit := ok (Some nl).

(** The object: the overridden requests, the others from the base class. *)
Definition nobatch_object (use_login_shell : bool) : bss_object E :=
  let base := base_object use_login_shell in
  BssObject E (bss_cleanup base) nobatch_submit (bss_run_on_login_node base)
    (bss_get_status_listing base) (bss_get_process_listing base) nobatch_get_job_details
    (bss_get_partitions base) (bss_abort_job base) nobatch_hold_job nobatch_resume_job
    (bss_get_budget base).
End operations.

Example timeout_ex : timeout_cmd 3600 = Ok "timeout -k 36 3600".
Proof. vm_compute. reflexivity. Qed.
Example timeout_short_ex : timeout_cmd 90 = Ok "timeout -k 0 90".
Proof. vm_compute. reflexivity. Qed.
Example nobatch_info_ex : nobatch_extract_info
  "S /bin/sh -c  ionice -c 3 nice -n 100  ./UNICORE_Job_471112345 > /o/stdout 2> /o/stderr"
  = Some ("471112345", "S", "NOBATCH").
Proof. vm_compute. reflexivity. Qed.

(** ** Facts: the line of [ps] *)

Definition job_prefix : str := "UNICORE_Job_".

Definition job_toks : list tok :=
  lits job_prefix ++ [TOpen 2; TRep digit_set 1 None; TClose 2; TRep dot 0 None]%nat.

Lemma compile_job_info : compile "(\w) .*UNICORE_Job_(\d+).*"
  = Some (TOpen 1%nat :: TRep (CSet false [CWord false]) 1 (Some 1%nat) :: TClose 1 :: lit " " :: TRep dot 0 None :: job_toks).
Proof. vm_compute. reflexivity. Qed.

(** A text that starts with [u] lies behind the [x] that has none. *)
Lemma app_skip {A : Type} (u : A) (x a y r : list A) :
  u ∉ x -> x ++ y = a ++ u :: r -> exists z, y = z ++ u :: r.
Proof.
  revert a. induction x as [|c x IH]; intros a Hx Hy; [by exists a|].
  apply not_elem_of_cons in Hx as [Hc Hx]. destruct a as [|c' a].
  - by injection Hy as -> _.
  - injection Hy as _ Hy. exact (IH a Hx Hy).
Qed.

(** A later start of the prefix lies behind the job ID. *)
Lemma prefix_not_later (id rest a b : str) :
  Forall (fun c => is_digit c = true) id -> contains job_prefix rest = false ->
  job_prefix ++ id ++ rest = a ++ b -> a <> [] -> startswith b job_prefix = false.
Proof.
  intros Hid Hrest Heq Ha. destruct (startswith b job_prefix) eqn:Hb; [exfalso|done].
  apply startswith_spec in Hb as [r ->].
  destruct a as [|u a]; [done|]. injection Heq as <- Heq.
  destruct (app_skip "U"%char (drop 1 job_prefix ++ id) a rest (drop 1 job_prefix ++ r)) as [z Hz].
  - apply not_elem_of_app. split; [apply (bool_decide_unpack _); by vm_compute|].
    intros Hin. rewrite Forall_forall in Hid. by specialize (Hid _ Hin).
  - rewrite <-app_assoc. exact Heq.
  - assert (contains job_prefix rest = true); [|congruence]. apply contains_spec. by exists z, r.
Qed.

(** The process of a job is recognised by the name of its script. *)
Lemma nobatch_info_run (state : ascii) (a id rest : str) :
  is_word state = true -> NL ∉ a -> id <> [] -> Forall (fun c => is_digit c = true) id ->
  contains job_prefix rest = false -> (forall c r, rest = c :: r -> is_digit c = false) ->
  nobatch_extract_info ([state] ++ " " ++ a ++ job_prefix ++ id ++ rest) = Some (id, [state], "NOBATCH").
Proof.
  intros Hst Ha Hne Hid Hrest Hhead. unfold nobatch_extract_info, re_search. rewrite compile_job_info.
  set (line := a ++ job_prefix ++ id ++ rest).
  assert (exists r, run false (TOpen 1 :: TRep (CSet false [CWord false]) 1 (Some 1%nat) :: TClose 1
    :: lit " " :: TRep dot 0 None :: job_toks) [] [] None (state :: " "%char :: line)
    = Some (r, [(2%nat, id); (1%nat, [state])])) as (r & Hrun).
  { assert (forall op p, exists r, run false (TRep dot 0 None :: job_toks) op [(1%nat, [state])] p line
      = Some (r, [(2%nat, id); (1%nat, [state])])) as Htail.
    { intros op p.
      destruct (run_rep_last false dot ((2%nat, id ++ rest) :: op) [(2%nat, id); (1%nat, [state])]
        (prev_after (prev_after (prev_after p a) job_prefix) id) rest) as [r Hr].
      exists r. apply run_rep_split; [by apply all_in_dot | simpl; lia | |].
      - unfold job_toks. apply run_lits_app. rewrite run_open.
        apply run_rep_longest.
        + eapply Forall_impl; [exact Hid|]. intros c Hc. cbn beta in Hc. by rewrite in_digit_set.
        + destruct id; [done | simpl; lia].
        + intros c r' Hc. rewrite in_digit_set. by eapply Hhead.
        + rewrite run_close. exact Hr.
      - intros x y Hxy Hx. unfold job_toks. apply run_lits_fail. by eapply prefix_not_later. }
    destruct (Htail [(1%nat, state :: " "%char :: line)] (Some " "%char)) as [r Hr]. exists r.
    rewrite run_open. apply run_one; [unfold in_set; simpl; by rewrite Hst|].
    change (state :: " "%char :: line) with ([state] ++ (" "%char :: line)) in Hr |- *.
    rewrite run_close. by apply run_lit. }
  cbn [app search_from]. unfold run_at. rewrite Hrun. done.
Qed.

(** ** Facts: the parts of the command *)

Lemma timeout_cmd_no_nl (t : Z) (cmd : str) : timeout_cmd t = Ok cmd -> NL ∉ cmd.
Proof.
  unfold timeout_cmd. destruct (0 <? t); [|intros [= <-]; apply (bool_decide_unpack _); by vm_compute].
  intros Hc. apply bind_ok in Hc as (x & _ & Hc). apply bind_ok in Hc as (g & _ & Hc).
  apply Ok_inj in Hc as <-.
  assert ((NL ∉ str_of_Z g) /\ (NL ∉ str_of_Z t)) as [? ?] by (split; by apply (str_of_Z_not_elem _ NL)).
  rewrite !not_elem_of_app. split; [apply (bool_decide_unpack _); by vm_compute|]. split; [done|].
  split; [apply (bool_decide_unpack _); by vm_compute | done].
Qed.

Lemma ulimit_cmd_no_nl (m : Z) : NL ∉ ulimit_cmd m.
Proof.
  unfold ulimit_cmd. destruct (0 <? m); [|apply (bool_decide_unpack _); by vm_compute].
  assert (NL ∉ str_of_Z (1024 * m)) by (by apply str_of_Z_not_elem).
  rewrite !not_elem_of_app. split; [apply (bool_decide_unpack _); by vm_compute|].
  split; [done | apply (bool_decide_unpack _); by vm_compute].
Qed.

Lemma str_of_nat_digits (n : Z) : 0 <= n -> Forall (fun c => is_digit c = true) (str_of_Z n).
Proof.
  intros Hn. destruct (str_of_Z_digits n Hn) as (_ & Hd & _). eapply Forall_impl; [exact Hd|].
  intros c (d & Hr & ->). by apply digit_char_is_digit.
Qed.

(** The job ID consists of digits: a sign of the time is dropped. *)
Lemma job_id_digits (pid micros : Z) (id : str) :
  0 <= pid -> job_id_of pid micros = Ok id -> id <> [] /\ Forall (fun c => is_digit c = true) id.
Proof.
  intros Hp Hid. apply bind_ok in Hid as (ms & _ & Hid). apply Ok_inj in Hid as <-. split.
  - intros He. apply app_eq_nil in He as [He _]. by apply str_of_Z_nonempty in He.
  - apply Forall_app. split; [by apply str_of_nat_digits|].
    destruct (Z.ltb_spec ms 0).
    + replace (str_of_Z ms) with ("-"%char :: str_of_Z (- ms)); [by apply (Forall_drop _ 4), str_of_nat_digits; lia|].
      unfold str_of_Z. destruct (Z.ltb_spec ms 0), (Z.ltb_spec (- ms) 0); try lia. done.
    + apply Forall_drop, str_of_nat_digits. lia.
Qed.

(** ** Facts: the requests *)

(** What the steps before the job starts leave alone. *)
Definition unanswered {E : Type} (w w' : world E) : Prop :=
  w_out w' = w_out w /\ w_config w' = w_config w.

#[export] Instance unanswered_preorder {E : Type} : PreOrder (unanswered (E := E)).
Proof. split; [done|]. intros w1 w2 w3 [] []. split; congruence. Qed.

Section requests.
Context {E : Type} `{Ext E}.

Lemma unanswered_ext_call {A} (f : proc -> E -> result A * E) : respects unanswered (ext_call f).
Proof. intros w. unfold ext_call. by destruct (f _ _). Qed.
Lemma unanswered_ext_read {A} (f : proc -> E -> result A) : respects unanswered (ext_read f).
Proof. by intros w. Qed.
#[local] Hint Resolve unanswered_ext_call unanswered_ext_read : respects.
Lemma unanswered_chdir d : respects unanswered (chdir (E := E) d).
Proof. unfold chdir. solve_respects. by apply respects_modify. Qed.
Lemma unanswered_addperms p m : respects unanswered (addperms p m).
Proof. unfold addperms. solve_respects. Qed.
Lemma unanswered_write p t : respects unanswered (write_file p t).
Proof. unfold write_file. solve_respects. Qed.
Lemma unanswered_time : respects unanswered time_time.
Proof. unfold time_time. solve_respects. Qed.

Lemma unanswered_run {A} (m : M (world E) A) (w w' : world E) (a : A) :
  respects unanswered m -> m w = (Ok a, w') -> unanswered w w'.
Proof. intros Hm Hr. specialize (Hm w). by rewrite Hr in Hm. Qed.
End requests.
#[local] Hint Resolve unanswered_ext_call unanswered_ext_read unanswered_chdir unanswered_addperms
  unanswered_write unanswered_time : respects.

#[local] Instance nobatch_laws : BSSLaws.
Proof.
  split; try done; intros; simpl.
  - by eexists.
  - eexists. split; [done|]. unfold nobatch_convert_status. case_match; apply (bool_decide_unpack _); by vm_compute.
Qed.

Section object.
Context {E : Type} `{SaneExt E} `{ConnectorLaws E}.

Lemma nobatch_submit_ok `{!RequestFrame R} : well_behaved R (nobatch_submit (E := E)).
Proof.
  assert (respects same_out (time_time (E := E))) by (unfold time_time; solve_respects).
  assert (forall pid, respects same_out (remember_child (E := E) pid)).
  { intros pid. unfold remember_child. solve_respects. }
  split; intros msg; unfold nobatch_submit.
  - unfold time_time, remember_child, addperms, write_file. solve_respects.
  - solve_reply.
  - unfold timeout_cmd, job_id_of, remember_child, addperms, write_file, chdir, expand.
    pose proof (fun o => c_ok (E := E) o). pose proof (c_x_time (E := E)) as Ht. unfold time_time in Ht.
    solve_completes; first [exact Ht | auto].
Qed.

Lemma nobatch_object_ok `{!RequestFrame R} (login : bool) : object_ok R (nobatch_object (E := E) login).
Proof.
  destruct (base_object_ok (E := E) R login) as (H1' & H2' & H3' & Hb). repeat split; try assumption.
  rewrite !Forall_cons in Hb. destruct Hb as (_ & h2 & h3 & h4 & _ & h6 & h7 & _ & _ & h10 & _).
  assert (forall o, well_behaved R (fun _ : str => ok (E := E) o)) as Hok.
  { intros o. split; intros msg; [solve_respects | apply reply_ok | apply c_ok]. }
  unfold nobatch_object. cbn [bss_submit bss_run_on_login_node bss_get_status_listing
    bss_get_process_listing bss_get_job_details bss_get_partitions bss_abort_job bss_hold_job
    bss_resume_job bss_get_budget].
  apply Forall_cons_2; [exact nobatch_submit_ok|]. do 3 (apply Forall_cons_2; [done|]).
  apply Forall_cons_2.
  { split; intros msg; unfold nobatch_get_job_details; [solve_respects | apply reply_ok | apply c_ok]. }
  do 2 (apply Forall_cons_2; [done|]). do 2 (apply Forall_cons_2; [exact (Hok (Some nl))|]).
  apply Forall_cons_2; [done | apply Forall_nil_2].
Qed.
End object.

(** The command of a job: what precedes the name of the script, and what
    follows the job ID. *)
Definition job_lead (ulimits timeoutcmd : str) : str :=
  ulimits ++ " ionice -c 3 nice -n 100 " ++ timeoutcmd ++ " ./".
Definition job_rest (message outcome_dir : str) : str :=
  " > " ++ outcome_dir ++ "/" ++ fmt (extract_parameter message "STDOUT" None)
  ++ " 2> " ++ outcome_dir ++ "/" ++ fmt (extract_parameter message "STDERR" None).

(** A successful submission: the command it has started and what it leaves. *)
Lemma nobatch_submit_run {E : Type} `{Ext E} `{ConnectorLaws E} (msg : str) (w w' : world E) :
  nobatch_submit msg w = (Ok tt, w') ->
  exists outcome_dir timeoutcmd ulimits e0 now id p e pid l,
    let message := expand_variables (w_env w) msg in
    let cmd := job_lead ulimits timeoutcmd ++ job_prefix ++ id ++ job_rest message outcome_dir in
    extract_parameter message "OUTCOME_DIR" None = Some outcome_dir /\
    timeout_cmd (extract_number message "TIME") = Ok timeoutcmd /\
    ulimits = ulimit_cmd (extract_number message "MEMORY") /\
    job_id_of (x_getpid e0) now = Ok id /\
    x_popen p ["/bin/sh"; "-c"; cmd] e = (Ok pid, w_ext w') /\
    w_config w !! ("tsi.child_pids" : str) = Some (VPids l) /\
    w_config w' !! ("tsi.child_pids" : str) = Some (VPids (l ++ [pid])) /\
    w_out w' = w_out w ++ ok_text (Some id).
Proof.
  intros Hr. unfold nobatch_submit in Hr.
  rewrite (bind_run _ _ w w (expand_variables (w_env w) msg)) in Hr by done. cbv zeta in Hr.
  set (message := expand_variables (w_env w) msg) in *. inv_run.
  assert (respects unanswered (when (negb a2) (ext_call (fun p : proc => x_mkdir p a1)))) as Hmk
    by solve_respects.
  assert (unanswered w s9) as [Ho Hc].
  { pose proof (unanswered_run _ _ _ _ (unanswered_chdir _) Ha0).
    pose proof (unanswered_run _ _ _ _ (unanswered_ext_read _) Ha2).
    pose proof (unanswered_run _ _ _ _ Hmk Ha3).
    pose proof (unanswered_run _ _ _ _ (unanswered_addperms _ _) Ha4).
    pose proof (unanswered_run _ _ _ _ (unanswered_ext_read _) Ha5).
    pose proof (unanswered_run _ _ _ _ unanswered_time Ha6).
    pose proof (unanswered_run _ _ _ _ (unanswered_write _ _) Ha8).
    pose proof (unanswered_run _ _ _ _ (unanswered_addperms _ _) Ha9).
    do 8 (etransitivity; [eassumption|]). reflexivity. }
  unfold ext_call in Ha10. destruct (x_popen _ _ _) as [r e1] eqn:Hp. injection Ha10 as -> <-.
  unfold ext_read in Ha5. injection Ha5 as <- <-.
  unfold remember_child, config_at, get_config in Ha11. inv_run. cbn [with_ext w_config] in *.
  unfold cfg_at in Ha5. rewrite Hc in Ha5.
  destruct (w_config w !! ("tsi.child_pids" : str)) as [v|] eqn:Hv; [|discriminate]. injection Ha5 as ->.
  destruct a5 as [| | | | |l| | | |]; try discriminate Ha11. injection Ha11 as _ <-. rewrite ok_law in Hr. injection Hr as <-.
  destruct (extract_parameter message "OUTCOME_DIR" None) as [d|] eqn:Hd; [|discriminate]. injection Ha1 as ->.
  exists a1, a, (ulimit_cmd (extract_number message "MEMORY")), (w_ext s4), a6, a7, (proc_of s9),
    (w_ext s9), a10, l.
  cbv zeta. repeat (split; [first [done | exact Ha7]|]).
  split; [etransitivity; [|exact Hp]; f_equal; unfold job_command, job_lead, job_rest; by rewrite <-!app_assoc|].
  split; [done|]. split; [unfold emit; simpl; by rewrite lookup_insert_eq|].
  unfold emit. simpl. by rewrite Ho.
Qed.

(** * Properties *)

(** C12: A successful submission answers with a job ID, starts one shell that
    runs the script in the background, and remembers it for the clean-up; and
    the line [ps] prints for that shell is read back as the very job ID that
    the client was given, with the state of the process, whatever the limits
    of the job (unless a directory or file of the job has a name that looks
    like a script). *)
Theorem nobatch_submit_listed {E : Type} `{Ext E} `{ConnectorLaws E} (msg : str) (w w' : world E) :
  (forall e : E, 0 <= x_getpid e) -> nobatch_submit msg w = (Ok tt, w') ->
  exists id cmd outcome_dir p e pid l,
    w_out w' = w_out w ++ ok_text (Some id) /\
    x_popen p ["/bin/sh"; "-c"; cmd] e = (Ok pid, w_ext w') /\
    w_config w !! ("tsi.child_pids" : str) = Some (VPids l) /\
    w_config w' !! ("tsi.child_pids" : str) = Some (VPids (l ++ [pid])) /\
    extract_parameter (expand_variables (w_env w) msg) "OUTCOME_DIR" None = Some outcome_dir /\
    forall state, is_word state = true ->
      contains job_prefix (job_rest (expand_variables (w_env w) msg) outcome_dir) = false ->
      extract_info ([state] ++ " /bin/sh -c " ++ cmd) = Ok (Some (id, [state], "NOBATCH")).
Proof.
  intros Hpid Hr.
  destruct (nobatch_submit_run msg w w' Hr)
    as (dir & t & u & e0 & now & id & p & e & pid & l & Hd & Ht & Hu & Hid & Hp & Hl & Hl' & Ho).
  destruct (job_id_digits _ _ _ (Hpid e0) Hid) as [Hne Hdigits].
  eexists id, _, dir, p, e, pid, l. do 5 (split; [eassumption|]). intros state Hst Hrest.
  cbn [extract_info nobatch]. f_equal.
  pose proof (nobatch_info_run state ("/bin/sh -c " ++ job_lead u t) id
    (job_rest (expand_variables (w_env w) msg) dir) Hst) as Hinfo.
  rewrite <-!app_assoc in Hinfo. apply Hinfo; try done.
  - apply timeout_cmd_no_nl in Ht. pose proof (ulimit_cmd_no_nl (extract_number (expand_variables (w_env w) msg) "MEMORY")).
    subst u. unfold job_lead. rewrite !not_elem_of_app.
    repeat split; try assumption; apply (bool_decide_unpack _); by vm_compute.
  - intros c r [= <- _]. done.
Qed.

Definition job_msg : str :=
  "#TSI_SUBMIT" ++ nl ++ "#TSI_OUTCOME_DIR /o" ++ nl ++ "#TSI_USPACE_DIR /work" ++ nl
  ++ "#TSI_STDOUT stdout" ++ nl ++ "#TSI_STDERR stderr" ++ nl ++ "#TSI_TIME 3600" ++ nl ++ "date" ++ nl.

Lemma nobatch_submit_listed_witness :
  exists w' id cmd, nobatch_submit (H0 := socket_connector) job_msg bed_world = (Ok tt, w') /\
    w_out w' = "TSI_OK" ++ nl ++ id ++ nl /\
    extract_info ("S" ++ " /bin/sh -c " ++ cmd) = Ok (Some (id, "S", "NOBATCH")).
Proof.
  assert (is_ok (fst (nobatch_submit (H0 := socket_connector) job_msg bed_world)) = true) as Hok
    by (vm_compute; reflexivity).
  destruct (nobatch_submit (H0 := socket_connector) job_msg bed_world) as [[[]| | |] w'] eqn:Hr;
    try discriminate Hok.
  assert (forall e : bed, 0 <= x_getpid e) as Hpid by (intros e; vm_compute; discriminate).
  destruct (nobatch_submit_listed (H0 := socket_connector) job_msg bed_world w' Hpid Hr)
    as (id & cmd & dir & p & e & pid & l & Ho & _ & _ & _ & Hd & Hi).
  exists w', id, cmd. split; [reflexivity|]. split; [exact Ho|].
  apply (Hi "S"%char); [reflexivity|].
  assert (dir = "/o") as -> by (vm_compute in Hd; injection Hd as <-; reflexivity).
  vm_compute. reflexivity.
Defined.
