(* ===== verification/Variants.v ===== *)
(** * The batch system variants

    What the worker expects of the object [bss], for each of the four modules
    [BSS.py]: their requests are well-behaved, their scripts hold no more
    lines than directives, and they read the lines of their listings back. *)

From S2P Require Import Prelude PyStr World Testbed Connector BSSCommon Script Slurm Torque Lsf.
From S2P Require Import Requests TSI NoBatch.
#[local] Open Scope py_scope.
#[local] Open Scope Z_scope.
#[local] Existing Instance socket_connector.
#[local] Existing Instance slurm_laws.
#[local] Existing Instance torque_laws.
#[local] Existing Instance lsf_laws.
#[local] Existing Instance nobatch_laws.

(** The variants that write job scripts. *)
Definition script_variants : list BSS := [slurm; torque; lsf].

(** The objects a worker may be installed with. *)
Definition variant_objects {E : Type} `{Ext E} (login : bool) : list (bss_object E) :=
  ((fun v => base_object (H1 := v) login) <$> script_variants) ++ [nobatch_object login].

(** C17: Whichever batch system the TSI is installed for, the worker can rely on
    its object: every request to it answers once (or raises before it answered),
    completes, and leaves the credentials, the configuration and the channel
    with the next requests alone; and its clean-up always completes in silence. *)
Theorem variants_serve {E : Type} `{SaneExt E} (login : bool) :
  Forall (object_ok same_request) (variant_objects (E := E) login).
Proof.
  unfold variant_objects, script_variants. cbn [fmap list_fmap app].
  apply Forall_cons_2; [apply base_object_ok; exact _|].
  apply Forall_cons_2; [apply base_object_ok; exact _|].
  apply Forall_cons_2; [apply base_object_ok; exact _|].
  apply Forall_cons_2; [apply nobatch_object_ok; exact _ | apply Forall_nil_2].
Qed.

Lemma variants_serve_witness : object_ok same_request (base_object (E := bed) (H1 := slurm) true).
Proof. exact (Forall_inv (variants_serve (E := bed) true)). Defined.

(** C18: The script for a job has one line per directive, in every variant and
    whatever the message contains: no value of a message can add a line, and so
    a command, to the script. *)
Theorem scripts_one_line (v : BSS) (message : str) (config : config_t) (script : list str) :
  v ∈ script_variants -> clean_config config ->
  create_submit_script (BSS := v) message config = Ok script -> one_line script.
Proof.
  unfold script_variants. rewrite !elem_of_cons, elem_of_nil. intros Hv Hc Hs.
  destruct Hv as [->|[->|[->|[]]]].
  - by eapply slurm_submit_one_line.
  - by eapply torque_one_line.
  - by eapply lsf_one_line.
Qed.

Lemma lsf_config_clean : clean_config lsf_config.
Proof.
  intros k s. unfold lsf_config. rewrite lookup_insert_Some, lookup_singleton_Some.
  intros [[_ [= <-]]|[_ [_ [= <-]]]]; apply (bool_decide_unpack _); by vm_compute.
Qed.

Lemma scripts_one_line_witness :
  one_line ["#BSUB -R " ++ dq ++ "span[ptile=4]" ++ dq; "#BSUB -n 8"; "#BSUB -W 0"; "#BSUB -J my";
            "#BSUB -o /o/stdout"; "#BSUB -e /o/stderr"; "umask NONE"].
Proof.
  apply (scripts_one_line lsf lsf_msg lsf_config); [|exact lsf_config_clean|].
  - unfold script_variants. right. right. left.
  - vm_compute. reflexivity.
Defined.

(** C19: The line of a job in the listing is read back as the job number, the
    state and the queue, in each format: [squeue] (with the number of the array
    for its elements, and any text behind the partition), [bjobs] and [qstat]
    (where the queue follows the server and the user, and the state the six
    columns behind it), whatever the amount of white space between the fields. *)
Theorem listing_lines (id suffix ws1 ws2 ws3 state queue user rest : str) (server owner : str * str)
    (cols : list (str * str)) (time : str) :
  some_of is_digit id -> some_of is_space ws1 -> some_of is_space ws2 -> some_of is_space ws3 ->
  some_of is_word state -> some_of is_word queue -> some_of (fun c => negb (is_space c)) user ->
  some_of (fun c => negb (is_space c)) time ->
  array_suffix suffix -> column server -> column owner -> Forall column cols -> length cols = 6%nat ->
  (forall c r, rest = c :: r -> is_space c = true) ->
  slurm_extract_info (id ++ suffix ++ ws1 ++ state ++ ws2 ++ queue ++ rest) = Some (id, state, queue) /\
  lsf_extract_info (id ++ ws1 ++ user ++ ws2 ++ state ++ ws3 ++ queue ++ rest) = Some (id, state, queue) /\
  (some_of is_state state ->
   torque_extract_info (id ++ "." ++ columns_text [server; owner] ++ queue ++ ws1 ++ columns_text cols
     ++ state ++ ws2 ++ time ++ rest) = Some (id, state, queue)).
Proof.
  intros Hid Hw1 Hw2 Hw3 Hst Hq Hu Ht Hsuf Hse How Hcols Hlen Hrest.
  assert (forall c r, rest = c :: r -> is_word c = false) as Hword.
  { intros c r Hc. apply space_not_word. by eapply Hrest. }
  split; [by apply slurm_info_run|]. split; [by apply lsf_info_run|].
  intros Hs. apply torque_info_run; try done. split; [|done].
  destruct Hq as [Hne Hq]. split; [exact Hne|]. eapply Forall_impl; [exact Hq | exact word_non_space].
Qed.

Lemma listing_lines_witness :
  torque_extract_info "42.host jdoe batch job 16522 1 -- 1000mb 00:00 C 00:00" = Some ("42", "C", "batch").
Proof.
  pose (sp (s : str) := (s, " ")).
  assert (forall s, forallb (fun c => negb (is_space c)) s = true -> s <> [] -> column (sp s)) as Hcol.
  { intros s Hs Hne. split; [|split; [discriminate | by repeat constructor]].
    split; [exact Hne|]. by apply List.Forall_forall, List.forallb_forall. }
  destruct (listing_lines "42" [] " " " " " " "C" "batch" "jdoe" [] (sp "host") (sp "jdoe")
    (sp <$> ["job"; "16522"; "1"; "--"; "1000mb"; "00:00"]) "00:00") as (_ & _ & H);
    try (split; [discriminate | by repeat constructor]); try (apply Hcol; [reflexivity | discriminate]).
  - by left.
  - repeat (apply Forall_cons_2; [apply Hcol; [reflexivity | discriminate]|]). apply Forall_nil_2.
  - reflexivity.
  - intros c r Hc. discriminate Hc.
  - apply H. split; [discriminate | by repeat constructor].
Defined.
