(* ===== verification/Server.v ===== *)
(** * [lib/Server.py]: the connection to UNICORE/X

    The server process waits for connections, checks where they come from,
    reads one control message from each and acts on it: it calls UNICORE/X
    back and forks a worker, or stores a setting, or stops.  [Net] is the
    interface to the sockets; the checks of [lib/SSL.py] belong here too. *)

From S2P Require Import Prelude PyStr World Utils Testbed.
#[local] Open Scope py_scope.
#[local] Open Scope Z_scope.

(** ** Sockets *)

Abbreviation sock := Z.

(** The operations of the sockets, on the state of the environment.  An
    address is a host and a port, a number or the text of one. *)
Class Net (E : Type) := {
  net_getaddrinfo : str -> Z -> E -> result (list bool);   (** per address: is it IPv6? *)
  net_create_server : str -> Z -> bool -> E -> result sock * E;   (** with the IPv6 dual stack? *)
  net_port : sock -> E -> Z;
  net_listen : sock -> Z -> E -> result unit * E;
  net_accept : sock -> E -> result (sock * str) * E;
  net_settimeout : sock -> E -> result unit * E;
  net_setsockopt : sock -> str -> Z -> E -> result unit * E;
  net_recv : sock -> Z -> E -> result str * E;
  net_sendall : sock -> str -> E -> result unit * E;
  net_connect : str -> cval -> Z -> Z -> E -> result sock * E;   (** host, port, timeout, local port *)
  net_connect_unix : str -> E -> result sock * E;
  net_wrap : cval -> cval -> cval -> cval -> bool -> sock -> E -> result sock * E;
  net_subject : sock -> E -> result subject_t;
  net_peername : sock -> E -> result str;
  net_close : sock -> E -> result unit * E;
  net_sleep : Z -> E -> E;
  net_fork : E -> result Z * E;
  net_wait3 : E -> result Z * E
}.

Definition EADDRINUSE : Z := 98.

(** [bytes.decode("UTF-8")], on the code points of the model. *)
Fixpoint utf8_decode (s : str) : result str :=
  let bad := throw UnicodeError "'utf-8' codec can't decode byte" in
  match s with
  | [] => Ok []
  | c :: s' =>
      if ord c <? 128 then cons c <$> utf8_decode s'
      else if between 194 195 (ord c) then
        match s' with
        | d :: s'' =>
            if between 128 191 (ord d)
            then cons (chr ((ord c - 192) * 64 + (ord d - 128))) <$> utf8_decode s''
            else bad
        | [] => bad
        end
      else bad
  end.

Section operations.
Context {E : Type} `{Net E}.

Definition close (s : sock) : M (world E) unit := ext_call (fun _ => net_close s).
Definition close_quietly (s : sock) : M (world E) unit := attempt (close s) ;; mret tt.
Definition sleep (seconds : Z) : M (world E) unit := ext_call (fun _ e => (Ok tt, net_sleep seconds e)).

(** The socket options on Linux. *)
Definition configure_socket (s : sock) : M (world E) unit :=
  let after_idle := 5 in
  let interval := 1 in
  let max_fails := 3 in
  ext_call (fun _ => net_settimeout s) ;;
  ext_call (fun _ => net_setsockopt s "SO_KEEPALIVE" 1) ;;
  ext_call (fun _ => net_setsockopt s "TCP_KEEPIDLE" after_idle) ;;
  ext_call (fun _ => net_setsockopt s "TCP_KEEPINTVL" interval) ;;
  ext_call (fun _ => net_setsockopt s "TCP_KEEPCNT" max_fails).

(** The handler of SIGCHLD: it reaps children until none is left. *)
Fixpoint wait_children (fuel : nat) : M (world E) unit :=
  match fuel with
  | O => out_of_fuel
  | S f =>
      pid ← ext_call (fun _ => net_wait3);
      if pid =? 0 then mret tt else wait_children f
  end.
Definition worker_completed (fuel : nat) : M (world E) unit := attempt (wait_children fuel) ;; mret tt.

(** What a [for] loop over a value of the configuration runs through. *)
Definition elements (v : cval) : result (list str) :=
  match v with
  | VIps l | VList l => Ok l
  | VStr s => Ok ((fun c => [c]) <$> s)
  | VDict d => Ok d.*1
  | _ => throw TypeError "object is not iterable"
  end.

Definition verify_ip (unicorex_host : str) : M (world E) bool :=
  config ← get_config;
  match config !! ("tsi.allowed_ips" : str) with
  | None => mret true
  | Some v =>
      allowed_ips ← lift (elements v);
      if bool_decide (unicorex_host ∈ allowed_ips) then mret true
      else raise (OSError 0) "Connecting IP not in list of allowed IPs"
  end.

(** [SSL.setup_ssl] and [SSL.verify_peer]. *)
Definition setup_ssl (server_mode : bool) (s : sock) : M (world E) sock :=
  keystore ← config_get "tsi.keystore" VNone;
  keypass ← config_get "tsi.keypass" VNone;
  cert ← config_get "tsi.certificate" VNone;
  truststore ← config_get "tsi.truststore" VNone;
  ext_call (fun _ => net_wrap cert keystore keypass truststore server_mode s).
Definition verify_peer (s : sock) : M (world E) unit :=
  acl ← config_get "tsi.allowed_dns" (VDns []);
  subject ← ext_read (fun _ => net_subject s);
  match acl with
  | VDns acl =>
      accept ← lift (check_access subject acl);
      when (negb accept) (raise (OSError 0) "Connection not allowed by ACL")
  | _ => raise TypeError "object is not iterable"
  end.

(** ** Callbacks *)

(** The next local port: the range is used cyclically. *)
Definition next_port (local lower upper : Z) : Z := if upper <? local + 1 then lower else local + 1.

(** The loop of [open_connection], with the attempts left. *)
Fixpoint connect_attempts (n : nat) (host : str) (port : cval) (timeout : Z) (use_port_range : bool)
    (local lower upper : Z) : M (world E) sock :=
  match n with
  | O => raise BaseExn ("Cannot connect - no free local ports in configured range "
           ++ str_of_Z lower ++ ":" ++ str_of_Z upper)
  | S n' =>
      r ← attempt_os (ext_call (fun _ => net_connect host port timeout local));
      match r with
      | inr s =>
          when use_port_range
            (set_config "tsi.local_portrange" (VRange (next_port local lower upper) lower upper)) ;;
          mret s
      | inl e =>
          if use_port_range && bool_decide (exn_kind e = OSError EADDRINUSE)
          then connect_attempts n' host port timeout use_port_range (next_port local lower upper) lower upper
          else lift (Raise e)
      end
  end.

Definition open_connection (host : str) (port : cval) (timeout : Z) : M (world E) sock :=
  port_range ← config_at "tsi.local_portrange";
  match port_range with
  | VRange local lower upper =>
      let use_port_range := 0 <? local in
      let max_attempts := if use_port_range then upper - lower + 1 else 1 in
      connect_attempts (Z.to_nat max_attempts) host port timeout use_port_range local lower upper
  | _ => raise TypeError "'NoneType' object is not subscriptable"
  end.

(** The port of UNICORE/X: the configured one, or the first word of the
    parameters. *)
Definition get_unicorex_port (config : config_t) (params : str) : cval :=
  match cfg_get config "tsi.unicorex_port" VNone with
  | VNone => VStr (hd params (split1 " " params))
  | port => port
  end.

(** ** The server *)

Definition _check_ipv6_support (host : str) (port : Z) (config : config_t) : M (world E) bool :=
  if truthy (cfg_get config "tsi.disable_ipv6" (VBool false)) then mret false
  else if str_eqb host [] || str_eqb host "*" then mret true
  else
    infos ← ext_read (fun _ => net_getaddrinfo host port);
    mret (existsb id infos).

Definition create_server (host : str) (port : Z) (config : config_t) : M (world E) sock :=
  dual ← _check_ipv6_support host port config;
  ext_call (fun _ => net_create_server host port dual).

(** What one round of the loop in [connect] comes to: it waits again, or it
    returns: [None], or the sockets of the child and the message of a
    forwarder. *)
Inductive outcome :=
  | Again
  | Returned (r : option (sock * option sock * option str)).

(** [n] callback connections. *)
Fixpoint open_sockets (n : nat) (host : str) (port : cval) (ssl_mode : bool) : M (world E) (list sock) :=
  match n with
  | O => mret []
  | S n' =>
      new_socket ← open_connection host port 10;
      new_socket ← (if ssl_mode then setup_ssl false new_socket else mret new_socket);
      configure_socket new_socket ;;
      rest ← open_sockets n' host port ssl_mode;
      mret (new_socket :: rest)
  end.

(** The callback to UNICORE/X. *)
Definition callback (unicorex : sock) (host params : str) (num_conns : nat) (ssl_mode : bool)
    : M (world E) (list sock) :=
  ext_call (fun _ => net_sendall unicorex ("OK" ++ nl)) ;;
  config ← get_config;
  let unicorex_port := get_unicorex_port config params in
  sleep 1 ;;
  open_sockets num_conns host unicorex_port ssl_mode.

(** What the child of the fork returns. *)
Definition child_result (cmd params : str) (xnjs_sockets : list sock)
    : result (option (sock * option sock * option str)) :=
  command ← or_raise (xnjs_sockets !! 0%nat) IndexError "list index out of range";
  if str_eqb cmd "newtsiprocess" then
    data ← or_raise (xnjs_sockets !! 1%nat) IndexError "list index out of range";
    Ok (Some (command, Some data, None))
  else
    match split1 " " params with
    | [_; rest] =>
        match split1 " " rest with
        | [service_spec; user_spec] =>
            Ok (Some (command, None, Some ("#TSI_FORWARDING_CONNECT_TO " ++ service_spec ++ nl
                                           ++ "#TSI_IDENTITY " ++ user_spec ++ nl)))
        | _ => throw ValueError "not enough values to unpack (expected 3, got 2)"
        end
    | _ => throw ValueError "not enough values to unpack (expected 3, got 1)"
    end.

(** The fork: the child keeps the sockets, the parent closes them and counts
    the worker. *)
Definition fork_worker (server : sock) (cmd params : str) (xnjs_sockets : list sock) : M (world E) outcome :=
  worker_id ← config_get "tsi.worker.id" (VInt 1);
  worker_id ← lift match worker_id with
    | VInt n => Ok n
    | VBool b => Ok (Z.b2z b)
    | _ => throw TypeError "%d format: a real number is required, not str"
    end;
  pid ← ext_call (fun _ => net_fork);
  if pid =? 0 then
    close server ;;
    r ← lift (child_result cmd params xnjs_sockets);
    mret (Returned r)
  else
    for_each xnjs_sockets close ;;
    set_config "tsi.worker.id" (VInt (worker_id + 1)) ;;
    mret Again.

(** [set key value]. *)
Definition set_setting (unicorex : sock) (params : str) : M (world E) outcome :=
  settings ← config_get "settings" (VDict []);
  match split1 " " params with
  | [key; value] =>
      match settings with
      | VDict d =>
          set_config "settings" (VDict (dict_set d key value)) ;;
          close_quietly unicorex ;;
          mret Again
      | _ => raise TypeError "object does not support item assignment"
      end
  | _ => raise ValueError "not enough values to unpack (expected 2, got 1)"
  end.

(** [cmd, params = msg.split(" ", 1)], [cmd] being empty when there are no
    parameters. *)
Definition control_command (msg : str) : str * str :=
  match split1 " " msg with [cmd; params] => (cmd, params) | _ => ([], []) end.

Definition start_worker (server unicorex : sock) (host cmd params : str) (num_conns : nat) (ssl_mode : bool)
    : M (world E) outcome :=
  r ← attempt_os (callback unicorex host params num_conns ssl_mode);
  match r with
  | inl _ => close_quietly unicorex ;; mret Again
  | inr xnjs_sockets =>
      close_quietly unicorex ;;
      fork_worker server cmd params xnjs_sockets
  end.

Definition control (server unicorex : sock) (host msg : str) (ssl_mode : bool) : M (world E) outcome :=
  let '(cmd, params) := control_command msg in
  if str_eqb cmd "shutdown" then close server ;; exit_process 0
  else if str_eqb cmd "start-forwarding" then start_worker server unicorex host cmd params 1 ssl_mode
  else if str_eqb cmd "newtsiprocess" then start_worker server unicorex host cmd params 2 ssl_mode
  else if str_eqb cmd "set" then set_setting unicorex params
  else close_quietly unicorex ;; mret Again.

(** [recv], decoded and stripped. *)
Definition receive (unicorex : sock) : M (world E) str :=
  msg ← ext_call (fun _ => net_recv unicorex 1024);
  msg ← lift (utf8_decode msg);
  mret (strip msg).

(** What to do about a connection that has been accepted. *)
Definition accepted (server unicorex : sock) (host : str) (ssl_mode : bool) : M (world E) outcome :=
  peer ← attempt_os (when ssl_mode (verify_peer unicorex));
  match peer with
  | inl _ => close_quietly unicorex ;; mret Again
  | inr _ =>
      ip ← attempt_os (verify_ip host);
      match ip with
      | inl _ => close_quietly unicorex ;; mret Again
      | inr _ =>
          configure_socket unicorex ;;
          msg ← attempt_os (receive unicorex);
          match msg with
          | inl _ => close_quietly unicorex ;; mret Again
          | inr msg => control server unicorex host msg ssl_mode
          end
      end
  end.

Definition connect_step (server : sock) (ssl_mode : bool) : M (world E) outcome :=
  connection ← attempt_os (ext_call (fun _ => net_accept server));
  match connection with
  | inl _ => mret (Returned None)
  | inr (unicorex, host) => accepted server unicorex host ssl_mode
  end.

(** The loop, with a bound on the connections it accepts. *)
Fixpoint connect_loop (fuel : nat) (server : sock) (ssl_mode : bool)
    : M (world E) (option (sock * option sock * option str)) :=
  match fuel with
  | O => out_of_fuel
  | S f =>
      o ← connect_step server ssl_mode;
      match o with
      | Again => connect_loop f server ssl_mode
      | Returned r => mret r
      end
  end.

Definition connect (fuel : nat) : M (world E) (option (sock * option sock * option str)) :=
  host ← config_at "tsi.my_addr";
  host ← lift (as_str host);
  port ← config_at "tsi.my_port";
  port ← lift match port with
    | VStr s => int_of_str s
    | VInt n => Ok n
    | _ => throw TypeError "int() argument must be a string"
    end;
  keystore ← config_get "tsi.keystore" VNone;
  let ssl_mode := negb (bool_decide (keystore = VNone)) in
  config ← get_config;
  server ← create_server host port config;
  when (port =? 0) (
    p ← ext_read (fun _ e => Ok (net_port server e));
    set_config "tsi.my_port" (VInt p)) ;;
  server ← (if ssl_mode then setup_ssl true server else mret server);
  ext_call (fun _ => net_listen server 2) ;;
  connect_loop fuel server ssl_mode.
End operations.

(** ** Facts: the callback connections *)

(** The ports from [local] on, [n] of them, in cyclic order. *)
Fixpoint ports_from (n : nat) (local lower upper : Z) : list Z :=
  match n with
  | O => []
  | S n' => local :: ports_from n' (next_port local lower upper) lower upper
  end.

Lemma next_port_in (local lower upper : Z) :
  lower <= local <= upper -> lower <= next_port local lower upper <= upper.
Proof. intros Hl. unfold next_port. destruct (Z.ltb_spec upper (local + 1)); lia. Qed.

Lemma ports_in_range (n : nat) (local lower upper : Z) :
  lower <= local <= upper -> Forall (fun p => lower <= p <= upper) (ports_from n local lower upper).
Proof.
  revert local. induction n as [|n IH]; intros local Hl; cbn [ports_from]; [constructor|].
  constructor; [done|]. by apply IH, next_port_in.
Qed.

(** The port reached after [k] steps. *)
Lemma ports_lookup (n k : nat) (local lower upper : Z) :
  lower <= local <= upper -> (k < n)%nat ->
  ports_from n local lower upper !! k = Some (lower + (local - lower + Z.of_nat k) mod (upper - lower + 1)).
Proof.
  revert local k. induction n as [|n IH]; intros local k Hl Hk; [lia|]. cbn [ports_from].
  destruct k as [|k].
  - simpl. f_equal. rewrite Z.add_0_r, Z.mod_small by lia. lia.
  - cbn [lookup list_lookup]. rewrite IH by (lia || by apply next_port_in).
    do 2 f_equal. unfold next_port. destruct (Z.ltb_spec upper (local + 1)); [|f_equal; lia].
    replace local with upper by lia.
    replace (upper - lower + Z.of_nat (S k)) with (lower - lower + Z.of_nat k + 1 * (upper - lower + 1)) by lia.
    by rewrite Z_mod_plus_full.
Qed.

(** As many ports as the range has are all different: every port is tried. *)
Lemma ports_nodup (local lower upper : Z) :
  lower <= local <= upper -> NoDup (ports_from (Z.to_nat (upper - lower + 1)) local lower upper).
Proof.
  intros Hl. apply NoDup_alt. intros i j p Hi Hj.
  assert (forall k q, ports_from (Z.to_nat (upper - lower + 1)) local lower upper !! k = Some q ->
    (k < Z.to_nat (upper - lower + 1))%nat) as Hlt.
  { intros k q Hq. apply lookup_lt_Some in Hq.
    assert (forall n x, length (ports_from n x lower upper) = n) as Hlen
      by (induction n; intros; simpl; auto). by rewrite Hlen in Hq. }
  pose proof (Hlt _ _ Hi) as Hi'. pose proof (Hlt _ _ Hj) as Hj'.
  rewrite ports_lookup in Hi, Hj by done. injection Hi as <-. injection Hj as Hj.
  set (n := upper - lower + 1) in *. set (a := local - lower) in *.
  assert ((a + Z.of_nat j) mod n = (a + Z.of_nat i) mod n) as Hmod by lia. clear Hj Hlt.
  pose proof (Z.div_mod (a + Z.of_nat i) n ltac:(lia)) as Hdi.
  pose proof (Z.div_mod (a + Z.of_nat j) n ltac:(lia)) as Hdj.
  rewrite Hmod in Hdj. clear Hmod.
  set (q1 := (a + Z.of_nat i) / n) in *. set (q2 := (a + Z.of_nat j) / n) in *.
  assert (q1 = q2) by nia. subst q2. nia.
Qed.

(** With finitely many children to reap the handler ends, whatever [wait3]
    reports in the end: 0 or an error. *)
Lemma worker_completed_ends {E : Type} `{Net E} (zombies : E -> nat) (w : world E) :
  (forall e, settles (fst (net_wait3 e))) ->
  (forall e pid e', net_wait3 e = (Ok pid, e') -> pid <> 0 -> (zombies e' < zombies e)%nat) ->
  exists w', worker_completed (S (zombies (w_ext w))) w = (Ok tt, w').
Proof.
  intros Hset Hdec. unfold worker_completed.
  assert (forall n (v : world E), (zombies (w_ext v) < n)%nat -> settles (fst (wait_children n v))) as Hw.
  { induction n as [|n IH]; intros v Hn; [lia|]. cbn [wait_children]. rewrite bind_match. unfold ext_call.
    specialize (Hset (w_ext v)). destruct (net_wait3 (w_ext v)) as [r e] eqn:Hr.
    destruct r as [pid|x|k|]; cbn [fst settles] in *; try done.
    destruct (pid =? 0) eqn:Hp; [done|]. apply IH. cbn [w_ext with_ext].
    apply Z.eqb_neq in Hp. specialize (Hdec _ _ _ Hr Hp). lia. }
  specialize (Hw (S (zombies (w_ext w))) w ltac:(lia)). rewrite bind_match. unfold attempt.
  destruct (wait_children _ w) as [[[]|e|n|] w']; cbn [fst settles] in Hw; try done; by exists w'.
Qed.

Section callbacks.
Context {E : Type} `{Net E}.

(** Connecting from each of the ports fails because the port is in use. *)
Fixpoint all_busy (host : str) (port : cval) (timeout : Z) (ports : list Z) (e e' : E) : Prop :=
  match ports with
  | [] => e' = e
  | p :: ports' => exists x e1, net_connect host port timeout p e = (Raise x, e1) /\
      exn_kind x = OSError EADDRINUSE /\ all_busy host port timeout ports' e1 e'
  end.

Lemma attempt_os_ok {A} (m : M (world E) A) (w w' : world E) (a : A) :
  m w = (Ok a, w') -> attempt_os m w = (Ok (inr a), w').
Proof. intros Hm. unfold attempt_os, attempt, mbind, M_bind. by rewrite Hm. Qed.
Lemma attempt_os_raise {A} (m : M (world E) A) (w w' : world E) (e : exn) :
  m w = (Raise e, w') ->
  attempt_os m w = match exn_kind e with OSError _ => (Ok (inl e), w') | _ => (Raise e, w') end.
Proof. intros Hm. unfold attempt_os, attempt, mbind, M_bind. rewrite Hm. by destruct (exn_kind e). Qed.
Lemma attempt_quiet {A} (m : M (world E) A) (w w' : world E) :
  settles (fst (m w)) -> w' = snd (m w) -> (attempt m ;; mret tt) w = (Ok tt, w').
Proof. intros Hs ->. unfold attempt, mbind, M_bind. by destruct (m w) as [[] ?]. Qed.

Lemma ext_call_run {A} (f : proc -> E -> result A * E) (w : world E) :
  ext_call f w = (fst (f (proc_of w) (w_ext w)), with_ext (snd (f (proc_of w) (w_ext w))) w).
Proof. unfold ext_call. by destruct (f _ _). Qed.

Definition no_free_port (lower upper : Z) : result sock :=
  throw BaseExn ("Cannot connect - no free local ports in configured range "
    ++ str_of_Z lower ++ ":" ++ str_of_Z upper).

(** How the search for a port ends, after the ports in use have been tried:
    with a connection from the next port, or its error, or no port is left. *)
Definition search_end (host : str) (port : cval) (timeout lower upper : Z) (rest : list Z) (e : E)
    (w : world E) (run : result sock * world E) : Prop :=
  match rest with
  | [] => run = (no_free_port lower upper, with_ext e w)
  | p :: _ =>
      (exists s e', net_connect host port timeout p e = (Ok s, e') /\
         run = (Ok s, with_config (<["tsi.local_portrange" := VRange (next_port p lower upper) lower upper]>
                        (w_config w)) (with_ext e' w))) \/
      (exists x e', net_connect host port timeout p e = (Raise x, e') /\
         exn_kind x <> OSError EADDRINUSE /\ run = (Raise x, with_ext e' w))
  end.

Lemma connect_attempts_run (n : nat) (host : str) (port : cval) (timeout local lower upper : Z) (w : world E) :
  (forall p e, settles (fst (net_connect host port timeout p e))) ->
  exists busy rest e, ports_from n local lower upper = busy ++ rest /\
    all_busy host port timeout busy (w_ext w) e /\
    search_end host port timeout lower upper rest e w
      (connect_attempts n host port timeout true local lower upper w).
Proof.
  intros Hs. revert local w. induction n as [|n IH]; intros local w.
  { exists [], [], (w_ext w). split; [done|]. split; [done|]. by destruct w. }
  cbn [ports_from connect_attempts]. specialize (Hs local (w_ext w)) as Hs'.
  destruct (net_connect host port timeout local (w_ext w)) as [r e1] eqn:Hc.
  pose proof (ext_call_run (fun _ => net_connect host port timeout local) w) as Hrun.
  cbn beta in Hrun. rewrite Hc in Hrun. cbn [fst snd] in Hrun.
  destruct r as [s|x| |]; try done.
  - exists [], (local :: ports_from n (next_port local lower upper) lower upper), (w_ext w).
    split; [done|]. split; [done|]. left. exists s, e1. split; [done|].
    rewrite (bind_run _ _ _ _ _ (attempt_os_ok _ _ _ _ Hrun)). done.
  - destruct (decide (exn_kind x = OSError EADDRINUSE)) as [Hx|Hx].
    + destruct (IH (next_port local lower upper) (with_ext e1 w)) as (busy & rest & e & Hp & Hb & He).
      exists (local :: busy), rest, e. split; [by rewrite Hp|]. split; [by exists x, e1|].
      pose proof (attempt_os_raise _ _ _ _ Hrun) as Ha. rewrite Hx in Ha.
      rewrite (bind_run _ _ _ _ _ Ha), bool_decide_eq_true_2 by done. exact He.
    + exists [], (local :: ports_from n (next_port local lower upper) lower upper), (w_ext w).
      split; [done|]. split; [done|]. right. exists x, e1. split; [done|]. split; [done|].
      rewrite bind_match, (attempt_os_raise _ _ _ _ Hrun).
      destruct (exn_kind x) eqn:Hk; try done.
      rewrite bool_decide_eq_false_2 by congruence. done.
Qed.
End callbacks.

(** ** Facts: how a round of the loop can end *)

(** A call that returns or raises an [OSError]. *)
Definition os_only {A : Type} (r : result A) : Prop :=
  match r with Ok _ => True | Raise x => exists n, exn_kind x = OSError n | _ => False end.

(** What Linux promises about open sockets and [fork]. *)
Class SoundNet (E : Type) `{Net E} := {
  close_ok : forall s e, is_ok (fst (net_close s e)) = true;
  fork_ok : forall e, is_ok (fst (net_fork e)) = true;
  timeout_ok : forall s e, is_ok (fst (net_settimeout s e)) = true;
  option_ok : forall s o v e, is_ok (fst (net_setsockopt s o v e)) = true;
  sendall_os : forall s d e, os_only (fst (net_sendall s d e));
  connect_os : forall h p t l e, os_only (fst (net_connect h p t l e))
}.

Section ends.
Context {E : Type}.

(** From a state with [I] a statement ends in one with [I], or raises an
    exception with [P]; it does not stop the process. *)
Definition ends {A : Type} (I : world E -> Prop) (P : exn -> Prop) (m : M (world E) A) : Prop :=
  forall w, I w -> match m w with
  | (Ok _, w') => I w'
  | (Raise x, w') => P x /\ I w'
  | _ => False
  end.

Implicit Types (I : world E -> Prop) (P : exn -> Prop).

Lemma ends_ret {A} I P (a : A) : ends I P (mret a).
Proof. by intros w. Qed.
Lemma ends_raise {A} I P k msg : P (Exn k msg) -> ends (A := A) I P (raise k msg).
Proof. by intros ? w. Qed.
Lemma ends_bind {A B} I P (m : M (world E) A) (f : A -> M (world E) B) :
  ends I P m -> (forall a, ends I P (f a)) -> ends I P (m ≫= f).
Proof.
  intros Hm Hf w Hw. specialize (Hm w Hw). unfold mbind, M_bind.
  destruct (m w) as [[a|x|c|] w1]; try done. by apply Hf.
Qed.
Lemma ends_weaken {A} I (P P' : exn -> Prop) (m : M (world E) A) :
  (forall x, P x -> P' x) -> ends I P m -> ends I P' m.
Proof.
  intros HP Hm w Hw. specialize (Hm w Hw). destruct (m w) as [[a|x|c|] w1]; try done.
  destruct Hm. auto.
Qed.
Lemma ends_attempt {A} I P (m : M (world E) A) : ends I (fun _ => True) m -> ends I P (attempt m).
Proof.
  intros Hm w Hw. specialize (Hm w Hw). unfold attempt.
  destruct (m w) as [[a|x|c|] w1]; try done. by destruct Hm.
Qed.
Lemma ends_attempt_os {A} I P (m : M (world E) A) :
  ends I (fun x => (exists n, exn_kind x = OSError n) \/ P x) m -> ends I P (attempt_os m).
Proof.
  intros Hm w Hw. specialize (Hm w Hw). destruct (m w) as [[a|x|c|] w1] eqn:Hr; try done.
  - by rewrite (attempt_os_ok _ _ _ _ Hr).
  - rewrite (attempt_os_raise _ _ _ _ Hr). destruct Hm as [[[n Hk]|HP] Hi].
    + by rewrite Hk.
    + by destruct (exn_kind x).
Qed.
Lemma ends_for_each {A} I P (l : list A) (f : A -> M (world E) unit) :
  (forall a, ends I P (f a)) -> ends I P (for_each l f).
Proof. intros Hf. induction l as [|x l IH]; cbn [for_each]; [apply ends_ret | by apply ends_bind]. Qed.
Lemma ends_when I P (b : bool) (m : M (world E) unit) : ends I P m -> ends I P (when b m).
Proof. intros Hm. destruct b; [done | apply ends_ret]. Qed.
Lemma ends_config_get I P k d : ends I P (config_get k d).
Proof. by intros w. Qed.
Lemma ends_get_config I P : ends I P get_config.
Proof. by intros w. Qed.
End ends.

(** The configuration entries the loop works with; [ranged]: local ports are
    taken from a range. *)
Record serving {E : Type} (ranged : bool) (w : world E) : Prop := {
  sv_range : exists f l u, w_config w !! ("tsi.local_portrange" : str) = Some (VRange f l u) /\
    (if ranged then 0 < l <= f /\ f <= u else f <= 0);
  sv_worker : exists n, cfg_get (w_config w) "tsi.worker.id" (VInt 1) = VInt n;
  sv_settings : exists d, cfg_get (w_config w) "settings" (VDict []) = VDict d;
  sv_ips : match w_config w !! ("tsi.allowed_ips" : str) with Some (VIps _) | None => True | _ => False end
}.

Section rounds.
Context {E : Type} `{SoundNet E} (ranged : bool).
#[local] Abbreviation I := (serving (E := E) ranged).

Lemma serving_ext (e : E) (w : world E) : I w -> I (with_ext e w).
Proof. by intros []. Qed.

(** An entry the loop updates. *)
Lemma serving_set (k : str) (v : cval) (w : world E) :
  I w ->
  match v with
  | VRange f l u => k = "tsi.local_portrange" /\ (if ranged then 0 < l <= f /\ f <= u else f <= 0)
  | VInt _ => k = "tsi.worker.id"
  | VDict _ => k = "settings"
  | _ => False
  end ->
  I (with_config (<[k := v]> (w_config w)) w).
Proof.
  intros [Hr Hw Hs Hi] Hv. unfold cfg_get in *.
  destruct v as [| |n| | | | |d| |f l u]; try done; [subst k | subst k | destruct Hv as [-> Hv]];
    split; cbn [with_config w_config]; unfold cfg_get;
    rewrite ?lookup_insert_eq, ?lookup_insert_ne by done; try assumption.
  - by exists n.
  - by exists d.
  - by exists f, l, u.
Qed.

Lemma ends_ok {A} P (f : proc -> E -> result A * E) :
  (forall p e, is_ok (fst (f p e)) = true) -> ends I P (ext_call f).
Proof.
  intros Hf w Hw. rewrite ext_call_run. specialize (Hf (proc_of w) (w_ext w)).
  destruct (f (proc_of w) (w_ext w)) as [[] e]; try discriminate. by apply serving_ext.
Qed.
Lemma ends_os {A} P (f : proc -> E -> result A * E) :
  (forall p e, os_only (fst (f p e))) ->
  ends I (fun x => (exists n, exn_kind x = OSError n) \/ P x) (ext_call f).
Proof.
  intros Hf w Hw. rewrite ext_call_run. specialize (Hf (proc_of w) (w_ext w)).
  destruct (f (proc_of w) (w_ext w)) as [[] e]; try done; cbn [fst snd] in *.
  - by apply serving_ext.
  - split; [by left | by apply serving_ext].
Qed.

Lemma ends_close P s : ends I P (close (E := E) s).
Proof. apply ends_ok. intros p e. apply close_ok. Qed.
Lemma ends_close_quietly P s : ends I P (close_quietly (E := E) s).
Proof. apply ends_bind; [apply ends_attempt, ends_close | intros ?; apply ends_ret]. Qed.
Lemma ends_configure P s : ends I P (configure_socket (E := E) s).
Proof.
  unfold configure_socket.
  repeat (apply ends_bind; [apply ends_ok; intros ? ?; first [apply timeout_ok | apply option_ok] | intros ?]).
  apply ends_ok. intros ? ?. apply option_ok.
Qed.

Lemma ends_connect_attempts n host port timeout local lower upper P :
  (if ranged then 0 < lower <= local /\ local <= upper else n <> O /\ local <= 0) ->
  (ranged = true -> forall msg, P (Exn BaseExn msg)) ->
  ends I (fun x => (exists k, exn_kind x = OSError k) \/ P x)
    (connect_attempts (E := E) n host port timeout ranged local lower upper).
Proof.
  intros Hr HP. revert local Hr. induction n as [|n IH]; intros local Hr; cbn [connect_attempts].
  - destruct ranged; [|by destruct Hr]. apply ends_raise. right. by apply HP.
  - intros w Hw. rewrite bind_match. pose proof (connect_os host port timeout local (w_ext w)) as Hos.
    pose proof (ext_call_run (fun _ => net_connect host port timeout local) w) as Hrun. cbn beta in Hrun.
    destruct (net_connect host port timeout local (w_ext w)) as [[s|x| |] e]; try done; cbn [fst snd] in *.
    + rewrite (attempt_os_ok _ _ _ _ Hrun). apply (serving_ext e) in Hw. revert Hw.
      generalize (with_ext e w). clear w Hrun Hos. intros w Hw.
      assert (I (with_config (<["tsi.local_portrange" := VRange (next_port local lower upper) lower upper]>
        (w_config w)) w) \/ ranged = false) as [Hset|Hrg].
      { destruct (decide (ranged = true)) as [Hrg|Hrg]; [left | right; by destruct ranged].
        apply serving_set; [done|]. split; [done|]. rewrite Hrg in Hr |- *.
        pose proof (next_port_in local lower upper ltac:(lia)). lia. }
      { by destruct ranged. }
      { by rewrite Hrg in *. }
    + rewrite (attempt_os_raise _ _ _ _ Hrun). destruct Hos as [k Hk]. rewrite Hk.
      destruct (ranged && _) eqn:Hb.
      * apply andb_true_iff in Hb as [Hb _]. apply (IH (next_port local lower upper)); [|by apply serving_ext].
        rewrite Hb in *. pose proof (next_port_in local lower upper ltac:(lia)). lia.
      * split; [left; by exists k | by apply serving_ext].
Qed.

Lemma ends_open_connection host port timeout P :
  (ranged = true -> forall msg, P (Exn BaseExn msg)) ->
  ends I (fun x => (exists k, exn_kind x = OSError k) \/ P x) (open_connection (E := E) host port timeout).
Proof.
  intros HP w Hw. pose proof Hw as [(f & l & u & Hc & Hr) _ _ _]. unfold open_connection.
  assert (config_at "tsi.local_portrange" w = (Ok (VRange f l u), w)) as Hat.
  { unfold config_at, get_config, gets, lift, mbind, M_bind, cfg_at. by rewrite Hc. }
  rewrite (bind_run _ _ _ _ _ Hat). cbv zeta.
  assert ((0 <? f) = ranged) as -> by (destruct ranged; lia).
  apply ends_connect_attempts; [|done|done]. destruct ranged; [lia|]. split; [discriminate | lia].
Qed.

Lemma ends_open_sockets n host port P :
  (ranged = true -> forall msg, P (Exn BaseExn msg)) ->
  ends I (fun x => (exists k, exn_kind x = OSError k) \/ P x) (open_sockets (E := E) n host port false).
Proof.
  intros HP. induction n as [|n IH]; cbn [open_sockets]; [apply ends_ret|].
  apply ends_bind; [by apply ends_open_connection | intros s].
  apply ends_bind; [apply ends_ret | intros s'].
  apply ends_bind; [apply ends_configure | intros ?].
  apply ends_bind; [exact IH | intros ?; apply ends_ret].
Qed.

Lemma ends_callback unicorex host params n P :
  (ranged = true -> forall msg, P (Exn BaseExn msg)) ->
  ends I (fun x => (exists k, exn_kind x = OSError k) \/ P x)
    (callback (E := E) unicorex host params n false).
Proof.
  intros HP. unfold callback.
  apply ends_bind; [apply ends_os; intros; apply sendall_os | intros ?].
  apply ends_bind; [apply ends_get_config | intros ?]. cbv zeta.
  apply ends_bind; [by apply ends_ok | intros ?]. by apply ends_open_sockets.
Qed.

Lemma ends_fork server cmd params socks P :
  (forall x, child_result cmd params socks = Raise x -> P x) ->
  ends I P (fork_worker (E := E) server cmd params socks).
Proof.
  intros HP w Hw. pose proof Hw as [_ [n Hn] _ _]. unfold fork_worker.
  rewrite (bind_run _ _ w w (VInt n)) by (unfold config_get, get_config, gets, mbind, M_bind; by rewrite <-Hn).
  rewrite (bind_run _ _ w w n) by done. revert w Hw Hn.
  assert (ends I P (pid ← ext_call (fun _ => net_fork);
    if pid =? 0 then close server ;; r ← lift (child_result cmd params socks); mret (Returned r)
    else for_each socks close ;; set_config "tsi.worker.id" (VInt (n + 1)) ;; mret Again)) as Hf.
  { apply ends_bind; [apply ends_ok; intros; apply fork_ok | intros pid]. destruct (pid =? 0).
    - apply ends_bind; [apply ends_close | intros ?]. apply ends_bind; [|intros ?; apply ends_ret].
      intros w Hw. unfold lift. destruct (child_result cmd params socks) as [r|x| |] eqn:Hc; try done.
      + auto.
      + revert Hc. unfold child_result, or_raise, throw. by repeat case_match.
      + revert Hc. unfold child_result, or_raise, throw. by repeat case_match.
    - apply ends_bind; [apply ends_for_each, ends_close | intros ?].
      apply ends_bind; [|intros ?; apply ends_ret]. intros w Hw. by apply serving_set. }
  intros w Hw _. by apply Hf.
Qed.

Lemma ends_set unicorex params (P : exn -> Prop) :
  (length (split1 " " params) <> 2%nat -> forall msg, P (Exn ValueError msg)) ->
  ends I P (set_setting (E := E) unicorex params).
Proof.
  intros HP w Hw. pose proof Hw as [_ _ [d Hd] _]. unfold set_setting.
  rewrite (bind_run _ _ w w (VDict d)) by (unfold config_get, get_config, gets, mbind, M_bind; by rewrite <-Hd).
  destruct (split1 " " params) as [|key [|value [|]]];
    try (split; [apply HP; simpl; discriminate | done]).
  revert w Hw Hd. enough (ends I P (set_config "settings" (VDict (dict_set d key value)) ;;
    close_quietly unicorex ;; mret Again)) as He by (intros w Hw _; by apply He).
  apply ends_bind; [intros w Hw; by apply serving_set | intros ?].
  apply ends_bind; [apply ends_close_quietly | intros ?; apply ends_ret].
Qed.

(** A text of at least two words. *)
Definition two_words (params : str) : bool := bool_decide (length (split1 " " params) = 2%nat).
Definition three_words (params : str) : bool :=
  match split1 " " params with [_; rest] => two_words rest | _ => false end.

(** The messages that end the server, or its child, with a [ValueError]. *)
Definition incomplete (msg : str) : Prop :=
  let '(cmd, params) := control_command msg in
  (cmd = "set" /\ two_words params = false) \/ (cmd = "start-forwarding" /\ three_words params = false).

Lemma child_worker params a b : child_result "newtsiprocess" params [a; b] = Ok (Some (a, Some b, None)).
Proof. done. Qed.
Lemma child_forwarder params a x :
  child_result "start-forwarding" params [a] = Raise x ->
  exn_kind x = ValueError /\ three_words params = false.
Proof.
  unfold child_result, three_words, two_words. cbn [lookup list_lookup or_raise mbind result_bind].
  change (str_eqb "start-forwarding" "newtsiprocess") with false. cbv iota.
  destruct (split1 " " params) as [|a1 [|b1 [|]]]; try by intros [= <-].
  destruct (split1 " " b1) as [|a2 [|b2 [|]]]; try by intros [= <-].
Qed.

Lemma open_sockets_length n host port ssl (w w' : world E) socks :
  open_sockets n host port ssl w = (Ok socks, w') -> length socks = n.
Proof.
  revert w w' socks. induction n as [|n IH]; intros w w' socks Hr; cbn [open_sockets] in Hr; inv_run; [done|].
  cbn [length]. f_equal. by eapply IH.
Qed.

Lemma callback_length unicorex host params n ssl (w w' : world E) socks :
  callback unicorex host params n ssl w = (Ok socks, w') -> length socks = n.
Proof. intros Hr. unfold callback in Hr. inv_run. by eapply open_sockets_length. Qed.

(** What a control message can raise. *)
Definition control_errors (msg : str) (x : exn) : Prop :=
  (exn_kind x = BaseExn /\ ranged = true) \/ (exn_kind x = ValueError /\ incomplete msg).

Lemma ends_start server unicorex host cmd params n (P : exn -> Prop) :
  (ranged = true -> forall msg, P (Exn BaseExn msg)) ->
  (forall socks x, length socks = n -> child_result cmd params socks = Raise x -> P x) ->
  ends I P (start_worker (E := E) server unicorex host cmd params n false).
Proof.
  intros HB HP w Hw. unfold start_worker. rewrite bind_match.
  pose proof (ends_attempt_os I P _ (ends_callback unicorex host params n P HB) w Hw) as Ha.
  destruct (callback unicorex host params n false w) as [r w1] eqn:Hc.
  destruct r as [socks|x| |].
  - rewrite (attempt_os_ok _ _ _ _ Hc) in Ha |- *. apply callback_length in Hc. revert w1 Ha Hc.
    enough (length socks = n -> ends I P (close_quietly unicorex ;; fork_worker server cmd params socks)) as He
      by (intros w1 Ha Hc; by apply He).
    intros Hn. apply ends_bind; [apply ends_close_quietly | intros ?]. apply ends_fork. by intros; eapply HP.
  - rewrite (attempt_os_raise _ _ _ _ Hc) in Ha |- *. destruct (exn_kind x); try exact Ha. revert w1 Ha Hc.
    enough (ends I P (close_quietly unicorex ;; mret Again)) as He by (intros w1 Ha _; by apply He).
    apply ends_bind; [apply ends_close_quietly | intros ?; apply ends_ret].
  - unfold attempt_os, attempt, mbind, M_bind in Ha. by rewrite Hc in Ha.
  - unfold attempt_os, attempt, mbind, M_bind in Ha. by rewrite Hc in Ha.
Qed.

Lemma ends_control server unicorex host msg :
  fst (control_command msg) <> "shutdown" ->
  ends I (control_errors msg) (control (E := E) server unicorex host msg false).
Proof.
  intros Hsd. unfold control, control_errors, incomplete.
  destruct (control_command msg) as [cmd params]. cbn [fst] in Hsd.
  apply str_eqb_neq in Hsd. rewrite Hsd.
  destruct (str_eqb cmd "start-forwarding") eqn:Hsf; [|destruct (str_eqb cmd "newtsiprocess") eqn:Hnp;
    [|destruct (str_eqb cmd "set") eqn:Hset]].
  - apply str_eqb_eq in Hsf as ->. apply ends_start; [by left|].
    intros [|a [|]] x Hl Hx; try discriminate Hl. apply child_forwarder in Hx as [Hk Ht].
    right. split; [done|]. by right.
  - apply str_eqb_eq in Hnp as ->. apply ends_start; [by left|].
    intros [|a [|b [|]]] x Hl Hx; try discriminate Hl. by rewrite child_worker in Hx.
  - apply str_eqb_eq in Hset as ->. apply ends_set. intros Hl m. right. split; [done|]. left.
    split; [done|]. by apply bool_decide_eq_false_2.
  - apply ends_bind; [apply ends_close_quietly | intros ?; apply ends_ret].
Qed.
End rounds.

Lemma utf8_decode_raises (s : str) :
  match utf8_decode s with Ok _ => True | Raise x => exn_kind x = UnicodeError | _ => False end.
Proof.
  remember (length s) as n eqn:Hn. revert s Hn. induction n as [n IH] using lt_wf_ind.
  intros [|c s] Hn; [done|]. cbn [utf8_decode].
  destruct (ord c <? 128).
  { specialize (IH (length s) ltac:(simpl in Hn; lia) s eq_refl). by destruct (utf8_decode s). }
  destruct (between 194 195 (ord c)); [|done]. destruct s as [|d s]; [done|].
  destruct (between 128 191 (ord d)); [|done].
  specialize (IH (length s) ltac:(simpl in Hn; lia) s eq_refl). by destruct (utf8_decode s).
Qed.

(** How a round may end, for the bytes the peer has sent. *)
Definition round_end (ranged : bool) (bytes : str) {A : Type} (r : result A) : Prop :=
  match r with
  | Ok _ => True
  | Raise x =>
      (exn_kind x = UnicodeError /\ is_ok (utf8_decode bytes) = false) \/
      (exn_kind x = BaseExn /\ ranged = true) \/
      (exn_kind x = ValueError /\ exists msg, utf8_decode bytes = Ok msg /\ incomplete (strip msg))
  | Exited c => c = 0 /\ exists msg, utf8_decode bytes = Ok msg /\ fst (control_command (strip msg)) = "shutdown"
  | OutOfFuel => False
  end.

Section round.
Context {E : Type} `{SoundNet E} (ranged : bool).

Lemma verify_ip_run host (w : world E) :
  serving ranged w ->
  verify_ip host w = (Ok true, w) \/ exists x, verify_ip host w = (Raise x, w) /\ exn_kind x = OSError 0.
Proof.
  intros [_ _ _ Hi]. unfold verify_ip, get_config, gets, mbind, M_bind.
  destruct (w_config w !! ("tsi.allowed_ips" : str)) as [v|]; [|by left]. destruct v; try done.
  cbn [elements lift]. case_bool_decide; [by left | right; by eexists].
Qed.

(** After the checks: the message is read and acted upon. *)
Lemma control_round server unicorex host bytes (w : world E) :
  serving ranged w -> (forall s e, fst (net_recv s 1024 e) = Ok bytes) ->
  round_end ranged bytes (fst ((configure_socket unicorex ;; msg ← attempt_os (receive unicorex);
    match msg with
    | inl _ => close_quietly unicorex ;; mret Again
    | inr msg => control server unicorex host msg false
    end) w)).
Proof.
  intros Hw Hrecv. pose proof (ends_configure ranged (fun _ => False) unicorex w Hw) as Hc. rewrite bind_match.
  destruct (configure_socket unicorex w) as [[[]|x| |] w1]; try done; [|by destruct Hc].
  rewrite bind_match.
  assert (exists w2, receive unicorex w1 = (msg ← utf8_decode bytes; Ok (strip msg), w2) /\ serving ranged w2)
    as (w2 & Hr & Hw2).
  { exists (with_ext (snd (net_recv unicorex 1024 (w_ext w1))) w1). split; [|by apply serving_ext].
    unfold receive. rewrite bind_match, ext_call_run, Hrecv. unfold lift, mbind, M_bind, mret, M_ret.
    by destruct (utf8_decode bytes). }
  pose proof (utf8_decode_raises bytes) as Hu.
  destruct (utf8_decode bytes) as [msg|x| |] eqn:Hdec; try done; cbn [mbind result_bind] in Hr.
  2: { rewrite (attempt_os_raise _ _ _ _ Hr), Hu. cbn [fst round_end]. left. by rewrite Hdec. }
  rewrite (attempt_os_ok _ _ _ _ Hr).
  destruct (decide (fst (control_command (strip msg)) = "shutdown")) as [Hsd|Hsd].
  - unfold control. destruct (control_command (strip msg)) as [cmd params] eqn:Hcmd. cbn [fst] in Hsd. subst cmd.
    change (str_eqb "shutdown" "shutdown") with true. cbv iota. unfold close.
    rewrite bind_match, ext_call_run. pose proof (close_ok server (w_ext w2)) as Hcl.
    destruct (net_close server (w_ext w2)) as [[] e]; try done. cbn [fst snd exit_process round_end].
    split; [done|]. exists msg. by rewrite Hcmd.
  - pose proof (ends_control ranged server unicorex host (strip msg) Hsd w2 Hw2) as Hend.
    destruct (control server unicorex host (strip msg) false w2) as [[o|x| |] w3]; try done.
    cbn [fst round_end]. destruct Hend as [[[Hk Hr']|[Hk Hinc]] _]; [right; by left | right; right].
    split; [done|]. by exists msg.
Qed.
End round.

(** * Properties *)


(** A peer the server must turn away: its certificate does not match the
    access control list, or its address is not an allowed one. *)
Definition stranger {E : Type} `{Net E} (ssl_mode : bool) (s : sock) (host : str) (w : world E) (e : E) : Prop :=
  (exists ips, w_config w !! ("tsi.allowed_ips" : str) = Some (VIps ips) /\ (host ∉ ips)) /\ ssl_mode = false \/
  ssl_mode = true /\ exists subject acl, net_subject s e = Ok subject /\
    cfg_get (w_config w) "tsi.allowed_dns" (VDns []) = VDns acl /\
    (check_access subject acl = Ok false \/
     check_access subject acl = Ok true /\
     exists ips, w_config w !! ("tsi.allowed_ips" : str) = Some (VIps ips) /\ (host ∉ ips)).


(** C22: With a range of local ports a callback tries the ports of the range in
    cyclic order, starting where the last one stopped, each at most once: it
    gives the connection from the first port that is free and remembers the
    next one, or the first error of another kind; and only if every port of the
    range is in use it gives up, with an exception that is not an [OSError]. *)
Theorem open_connection_ports {E : Type} `{Net E} (host : str) (port : cval) (timeout local lower upper : Z)
    (w : world E) :
  (forall p e, settles (fst (net_connect host port timeout p e))) ->
  w_config w !! ("tsi.local_portrange" : str) = Some (VRange local lower upper) ->
  0 < local -> lower <= local <= upper ->
  let ports := ports_from (Z.to_nat (upper - lower + 1)) local lower upper in
  NoDup ports /\
  Forall (fun p => lower <= p <= upper /\ lower <= next_port p lower upper <= upper) ports /\
  exists busy rest e, ports = busy ++ rest /\
    all_busy host port timeout busy (w_ext w) e /\
    search_end host port timeout lower upper rest e w (open_connection host port timeout w).
Proof.
  intros Hs Hc Hpos Hl ports. split; [by apply ports_nodup|]. split.
  { eapply Forall_impl; [by apply ports_in_range|]. intros p Hp. split; [done | by apply next_port_in]. }
  destruct (connect_attempts_run (Z.to_nat (upper - lower + 1)) host port timeout local lower upper w Hs)
    as (busy & rest & e & Hp & Hb & He).
  exists busy, rest, e. split; [done|]. split; [done|]. unfold open_connection.
  rewrite (bind_run _ _ w w (VRange local lower upper))
    by (unfold config_at, get_config, gets, lift, mbind, M_bind, cfg_at; by rewrite Hc).
  cbv zeta. by rewrite (proj2 (Z.ltb_lt 0 local) Hpos).
Qed.

(** A network for concrete runs: every connection comes from [host] and brings
    [msg]; the local ports of [busy] are in use; [fork] returns [pid].  What is
    done to the sockets is kept in the list of commands. *)
Definition bed_did (what : str) (n : Z) (b : bed) : bed :=
  Bed (b_clock b) (b_files b) (b_modes b) (b_running b) (b_finished b) (b_next_pid b) (b_replies b)
    ([what; str_of_Z n] :: b_ran b).
Definition bed_new (what : str) (b : bed) : sock * bed :=
  (b_next_pid b,
   Bed (b_clock b) (b_files b) (b_modes b) (b_running b) (b_finished b) (b_next_pid b + 1) (b_replies b)
     ([what; str_of_Z (b_next_pid b)] :: b_ran b)).

Definition bed_net (host msg : str) (busy : list Z) (pid : Z) : Net bed := {|
  net_getaddrinfo _ _ _ := Ok [false];
  net_create_server _ _ _ b := let '(s, b) := bed_new "server" b in (Ok s, b);
  net_port _ _ := 4433;
  net_listen _ _ b := (Ok tt, b);
  net_accept _ b := let '(s, b) := bed_new "accept" b in (Ok (s, host), b);
  net_settimeout _ b := (Ok tt, b);
  net_setsockopt _ _ _ b := (Ok tt, b);
  net_recv _ _ b := (Ok msg, b);
  net_sendall s _ b := (Ok tt, bed_did "send" s b);
  net_connect _ _ _ local b :=
    if bool_decide (local ∈ busy) then (os_error EADDRINUSE "Address already in use", b)
    else let '(s, b) := bed_new ("connect from " ++ str_of_Z local) b in (Ok s, b);
  net_connect_unix _ b := let '(s, b) := bed_new "connect" b in (Ok s, b);
  net_wrap _ _ _ _ _ s b := (Ok s, b);
  net_subject _ _ := Ok [[("commonName", "ux")]];
  net_peername _ _ := Ok host;
  net_close s b := (Ok tt, bed_did "close" s b);
  net_sleep _ b := b;
  net_fork b := (Ok pid, b);
  net_wait3 b := (os_error 10 "No child processes", b)
|}.

#[local] Instance bed_net_sound host msg busy pid : SoundNet (H := bed_net host msg busy pid) bed.
Proof.
  split; try done. intros h p t l e. simpl. case_bool_decide; [by exists EADDRINUSE | done].
Qed.

Definition server_config : config_t := {[
  "tsi.allowed_ips" := VIps ["10.0.0.1"]; "tsi.local_portrange" := VRange 50 50 52;
  "tsi.worker.id" := VInt 1 ]}.
Definition server_world : world bed := with_config server_config bed_world.

Lemma server_world_serving : serving true server_world.
Proof.
  split; [exists 50, 50, 52; split; [vm_compute; reflexivity | lia] | exists 1; vm_compute; reflexivity
    | exists []; vm_compute; reflexivity | vm_compute; exact I].
Qed.

(** A worker is started: two sockets from the free ports, in the parent and in
    the child. *)
Example newtsiprocess_parent_ex :
  let '(r, w) := connect_step (H := bed_net "10.0.0.1" ("newtsiprocess 7654" ++ nl) [50] 9) 3 false server_world in
  r = Ok Again /\ w_config w !! ("tsi.worker.id" : str) = Some (VInt 2) /\
  w_config w !! ("tsi.local_portrange" : str) = Some (VRange 50 50 52) /\
  b_ran (w_ext w) = [["close"; "5002"]; ["close"; "5001"]; ["close"; "5000"]; ["connect from 52"; "5002"];
                     ["connect from 51"; "5001"]; ["send"; "5000"]; ["accept"; "5000"]].
Proof. vm_compute. repeat split. Qed.
Example newtsiprocess_child_ex :
  fst (connect_step (H := bed_net "10.0.0.1" ("newtsiprocess 7654" ++ nl) [] 0) 3 false server_world)
  = Ok (Returned (Some (5001, Some 5002, None))).
Proof. vm_compute. reflexivity. Qed.
(** [shutdown] is not understood without a parameter. *)
Example shutdown_ex :
  fst (connect_step (H := bed_net "10.0.0.1" ("shutdown" ++ nl) [] 9) 3 false server_world) = Ok Again /\
  fst (connect_step (H := bed_net "10.0.0.1" ("shutdown now" ++ nl) [] 9) 3 false server_world) = Exited 0.
Proof. vm_compute. repeat split. Qed.
(** A setting is given as [key value]; [key=value] ends the server. *)
Example set_ex :
  w_config (snd (connect_step (H := bed_net "10.0.0.1" "set a b" [] 9) 3 false server_world)) !! ("settings" : str)
    = Some (VDict [("a", "b")]) /\
  fst (connect_step (H := bed_net "10.0.0.1" "set a=b" [] 9) 3 false server_world)
    = throw ValueError "not enough values to unpack (expected 2, got 1)".
Proof. vm_compute. repeat split. Qed.
(** No port is free: the exception escapes. *)
Example no_port_ex :
  fst (connect_step (H := bed_net "10.0.0.1" "newtsiprocess 7654" [50; 51; 52] 9) 3 false server_world)
    = throw BaseExn "Cannot connect - no free local ports in configured range 50:52".
Proof. vm_compute. repeat split. Qed.



Lemma open_connection_ports_witness :
  exists e, open_connection (H := bed_net "10.0.0.1" "" [50; 51; 52] 9) "10.0.0.1" (VStr "7654") 10 server_world
    = (no_free_port 50 52, with_ext e server_world).
Proof.
  destruct (open_connection_ports (H := bed_net "10.0.0.1" "" [50; 51; 52] 9) "10.0.0.1" (VStr "7654") 10
    50 50 52 server_world) as (_ & _ & busy & rest & e & Hp & Hb & He).
  - intros p e. simpl. case_bool_decide; exact I.
  - vm_compute. reflexivity.
  - reflexivity.
  - split; discriminate.
  - exists e. destruct rest as [|p rest]; [exact He|]. exfalso.
    assert (p ∈ [50; 51; 52]) as Hin.
    { change (ports_from (Z.to_nat (52 - 50 + 1)) 50 50 52) with [50; 51; 52] in Hp. rewrite Hp.
      apply elem_of_app. right. by left. }
    destruct He as [(s & e' & Hc & _)|(x & e' & Hc & Hx & _)]; cbn [net_connect bed_net] in Hc;
      rewrite bool_decide_eq_true_2 in Hc by exact Hin;
      [discriminate Hc | injection Hc as <- <-; by apply Hx].
Defined.
