(* ===== verification/Forwarder.v ===== *)
(** * [lib/Connector.py], class [Forwarder]: TCP forwarding

    The child that the server forks for [start-forwarding] connects to the
    service and copies bytes in both directions, each in a thread of its own,
    until one of them ends.  The threads are steps of a transition relation. *)

From S2P Require Import Prelude PyStr PyNum Regex World Utils Connector TSI Server.
#[local] Open Scope py_scope.
#[local] Open Scope Z_scope.

(** ** Starting *)

Section operations.
Context {E : Type} `{Net E}.

(** [close]: the process ends. *)
Definition forwarder_close {A : Type} (client : sock) (service : option sock) (status : Z) : M (world E) A :=
  close_quietly client ;;
  match service with Some s => close_quietly s | None => mret tt end ;;
  exit_process status.

(** The rate limit, from the constructor. *)
Definition rate_limit (config : config_t) : result Z :=
  match cfg_get config "tsi.port_forwarding.rate_limit" (VInt 0) with
  | VInt n => Ok n
  | VBool b => Ok (Z.b2z b)
  | VStr s => int_of_str s
  | _ => throw TypeError "int() argument must be a string"
  end.

(** The connection to the service; the threads start when it is made. *)
Definition start_forwarding (client : sock) (message : str) : M (world E) sock :=
  match extract_parameter message "FORWARDING_CONNECT_TO" None with
  | None => forwarder_close client None 1
  | Some service =>
      service_socket ←
        (if startswith service "file:" then
           match split1 "file:" service with
           | [_; socket_file] => ext_call (fun _ => net_connect_unix socket_file)
           | _ => raise ValueError "not enough values to unpack (expected 2, got 1)"
           end
         else
           match split ":" service with
           | [service_host; service_port] =>
               s ← open_connection service_host (VStr service_port) 10;
               configure_socket s ;;
               mret s
           | _ => raise ValueError "unpack"
           end);
      ext_read (fun _ => net_peername client) ;;
      ext_read (fun _ => net_peername service_socket) ;;
      mret service_socket
  end.

(** What the main loop's function sees of the forwarder: only [failed] is
    defined, which logs the message and ends the process. *)
Definition no_attribute {A : Type} : M (world E) A := raise AttributeError "'Forwarder' object has no attribute".
Definition forwarder_connector (client : sock) : Connector E := {|
  write_message _ := no_attribute;
  read_message := no_attribute;
  read_data _ := no_attribute;
  write_data _ := no_attribute;
  ok _ := no_attribute;
  failed _ := forwarder_close client None 1
|}.
End operations.

(** ** Copying *)

(** One direction: what its source will still send before it closes, what its
    destination has got, the counters of the thread, and whether it lives. *)
Record direction := Direction {
  d_incoming : str;
  d_delivered : str;
  d_total : Z;
  d_sleep : Z;
  d_alive : bool
}.

(** Both directions of the process, and its exit status when it has ended. *)
Record forwarder := Forwarder {
  f_up : direction;
  f_down : direction;
  f_exit : option Z
}.

(** A float below an integer. *)
Definition float_lt (f : pyfloat) (n : Z) : bool :=
  match f with
  | FFin m e => m * 2 ^ (Z.max 0 e) <? n * 2 ^ (Z.max 0 (- e))
  | FInf neg => neg
  | FNaN => false
  end.

(** [0.5]. *)
Definition one_half : pyfloat := FFin 1 (-1).

(** The delay after a block, [elapsed] milliseconds after the start: halved
    below the limit, longer by 5 at or above it. *)
Definition throttle (limit elapsed total sleep_time : Z) : result Z :=
  if 0 <? limit then
    let interval := elapsed + 1 in
    current_rate ← truediv (1000 * total) interval;
    if float_lt current_rate limit
    then half ← float_times one_half sleep_time; int_of_float half
    else Ok (sleep_time + 5)
  else Ok sleep_time.

(** One block: [n] bytes are received, of which [send] takes [k].  An exception
    of the rate computation, outside the [try], ends the thread. *)
Definition transfer_block (limit elapsed : Z) (n k : nat) (d : direction) : direction :=
  let buffer := take n (d_incoming d) in
  let total := d_total d + Z.of_nat (length buffer) in
  let delivered := d_delivered d ++ take k buffer in
  match throttle limit elapsed total (d_sleep d) with
  | Ok sleep_time => Direction (drop n (d_incoming d)) delivered total sleep_time true
  | _ => Direction (drop n (d_incoming d)) delivered total (d_sleep d) false
  end.

(** A thread's step: [recv] returns at least one byte and at most 4096; [send]
    takes at least one. *)
Inductive copies (limit : Z) : direction -> direction -> Prop :=
  | copy_block d elapsed n k :
      d_alive d = true -> (0 < n <= 4096)%nat -> (n <= length (d_incoming d))%nat -> (0 < k <= n)%nat ->
      copies limit d (transfer_block limit elapsed n k d).

(** The steps of the process: a block in one direction; or a thread, at the end
    of its stream or on an error of a socket, closes both sockets and ends the
    process. *)
Inductive transfer (limit : Z) : forwarder -> forwarder -> Prop :=
  | transfer_up u d u' : copies limit u u' -> transfer limit (Forwarder u d None) (Forwarder u' d None)
  | transfer_down u d d' : copies limit d d' -> transfer limit (Forwarder u d None) (Forwarder u d' None)
  | transfer_eof u d :
      (d_alive u = true /\ d_incoming u = [] \/ d_alive d = true /\ d_incoming d = []) ->
      transfer limit (Forwarder u d None) (Forwarder u d (Some 0))
  | transfer_error u d :
      (d_alive u = true \/ d_alive d = true) ->
      transfer limit (Forwarder u d None) (Forwarder u d (Some 0)).

Definition fresh_direction (s : str) : direction := Direction s [] 0 0 true.
Definition started (up down : str) : forwarder := Forwarder (fresh_direction up) (fresh_direction down) None.
Definition reachable (limit : Z) (up down : str) (f : forwarder) : Prop :=
  rtc (transfer limit) (started up down) f.

Example throttle_ex : throttle 1000 499 400 10 = Ok 5 /\ throttle 1000 399 500 10 = Ok 15 /\
  throttle 1000 (-1) 500 10 = throw ZeroDivisionError "division by zero" /\ throttle 0 5 5 0 = Ok 0.
Proof. vm_compute. repeat split. Qed.

(** ** Facts: the delay *)

Lemma round_ratio_nonneg (n d : Z) : 0 <= n -> 0 < d ->
  match round_ratio n d with FFin m _ => 0 <= m | FInf neg => neg = false | FNaN => False end.
Proof.
  intros Hn Hd. unfold round_ratio. destruct (n =? 0); [lia|]. cbv zeta. destruct (_ <=? _); [done|].
  unfold round_at. cbv zeta.
  assert (0 < 2 ^ Z.max 0 (- float_exp n d) /\ 0 < 2 ^ Z.max 0 (float_exp n d)) as [Hp Hq]
    by (split; apply Z.pow_pos_nonneg; lia).
  pose proof (Z.div_pos (n * 2 ^ Z.max 0 (- float_exp n d)) (d * 2 ^ Z.max 0 (float_exp n d))
    ltac:(nia) ltac:(nia)) as Hdiv. destruct (_ || _); lia.
Qed.

Lemma half_nonneg (z y : Z) (f : pyfloat) :
  0 <= z -> float_times one_half z = Ok f -> int_of_float f = Ok y -> 0 <= y.
Proof.
  intros Hz Hf Hy. unfold float_times in Hf. destruct (z <? 0) eqn:Hlt; [lia|].
  pose proof (round_ratio_nonneg z 1 Hz ltac:(lia)) as Hr.
  destruct (round_ratio z 1) as [m e|neg|]; [|discriminate|done]. injection Hf as <-.
  unfold float_mul, one_half in Hy. cbv zeta in Hy.
  assert ((1 * m <? 0) = false) as Hm by lia. rewrite Hm in Hy.
  pose proof (round_ratio_nonneg (Z.abs (1 * m) * 2 ^ Z.max 0 (-1 + e)) (2 ^ Z.max 0 (- (-1 + e)))) as Hq.
  destruct (round_ratio _ _) as [m' e'| |] in Hy, Hq; try discriminate. injection Hy as <-.
  unfold trunc_me. apply Z.quot_pos; [|apply Z.pow_pos_nonneg; lia].
  assert (0 <= 2 ^ Z.max 0 e') by (apply Z.pow_nonneg; lia).
  assert (0 <= m') by (apply Hq; [|apply Z.pow_pos_nonneg; lia];
    apply Z.mul_nonneg_nonneg; [lia | apply Z.pow_nonneg; lia]). nia.
Qed.

Lemma throttle_delay (limit elapsed total z y : Z) :
  0 <= z -> throttle limit elapsed total z = Ok y -> 0 <= y /\ (limit <= 0 -> y = z).
Proof.
  intros Hz Hy. unfold throttle in Hy. destruct (Z.ltb_spec 0 limit); [|injection Hy as <-; lia].
  split; [|lia]. apply bind_ok in Hy as (rate & _ & Hy). destruct (float_lt rate limit).
  - apply bind_ok in Hy as (f & Hf & Hy). by eapply half_nonneg.
  - injection Hy as <-. lia.
Qed.

(** ** Facts: the invariant of a direction *)

(** What has been received is the beginning of the source's stream; what was
    delivered is what [send] took of it, in order. *)
Record copied (limit : Z) (source : str) (d : direction) : Prop := {
  co_bytes : exists received, source = received ++ d_incoming d /\
    d_delivered d `sublist_of` received /\ d_total d = Z.of_nat (length received);
  co_sleep : 0 <= d_sleep d /\ (limit <= 0 -> d_sleep d = 0)
}.

Lemma copied_fresh (limit : Z) (s : str) : copied limit s (fresh_direction s).
Proof. split; [by exists [] | done]. Qed.

Lemma copied_step (limit : Z) (s : str) (d d' : direction) :
  copies limit d d' -> copied limit s d -> copied limit s d'.
Proof.
  intros [d0 elapsed n k Ha Hn Hl Hk] [(received & -> & Hsub & Ht) [Hs Hz]]. unfold transfer_block. cbv zeta.
  set (buffer := take n (d_incoming d0)).
  assert (exists received', received ++ d_incoming d0 = received' ++ drop n (d_incoming d0) /\
    d_delivered d0 ++ take k buffer `sublist_of` received' /\
    d_total d0 + Z.of_nat (length buffer) = Z.of_nat (length received')) as Hb.
  { exists (received ++ buffer). split; [unfold buffer; by rewrite <-app_assoc, take_drop|].
    split; [apply sublist_app; [done | apply sublist_take] | rewrite length_app; lia]. }
  destruct (throttle limit elapsed _ (d_sleep d0)) as [y| | |] eqn:Hy; split; try exact Hb; try done.
  pose proof (throttle_delay _ _ _ _ _ Hs Hy) as [Hy0 Hyz]. cbn [d_sleep]. split; [done|].
  intros Hlim. rewrite Hyz; auto.
Qed.

Lemma sublist_whole {A : Type} (l k : list A) : l `sublist_of` k -> length k = length l -> l = k.
Proof.
  intros Hs. induction Hs as [|x l k Hs IH|x l k Hs IH]; intros Hl; simpl in *; [done| |].
  - f_equal. apply IH. lia.
  - apply sublist_length in Hs. lia.
Qed.

(** Nothing is lost where every [send] took the whole block. *)
Lemma copied_whole (limit : Z) (s : str) (d : direction) :
  copied limit s d -> d_total d = Z.of_nat (length (d_delivered d)) -> s = d_delivered d ++ d_incoming d.
Proof.
  intros [(received & -> & Hsub & Ht) _] Hl. f_equal. symmetry.
  apply sublist_whole; [done | lia].
Qed.

(** ** Facts: the message from the server *)

(** A word of a message: not empty, without white space. *)
Definition word (s : str) : Prop := s <> [] /\ Forall (fun c => is_space c = false) s.

Lemma word_no_space (s : str) (c : ascii) : word s -> is_space c = true -> c ∉ s.
Proof. intros [_ Hs] Hc Hin. rewrite Forall_forall in Hs. specialize (Hs c Hin). congruence. Qed.

Lemma partition_word (s rest : str) : word s -> partition " " (s ++ " " ++ rest) = Some (s, rest).
Proof.
  intros Hs. pose proof (word_no_space s " " Hs eq_refl) as Hn. clear Hs. induction s as [|c s IH]; [done|].
  apply not_elem_of_cons in Hn as [Hc Hn]. cbn [app partition startswith] in IH |- *.
  rewrite (proj2 (Ascii.eqb_neq c " ")) by congruence. cbn [andb]. by rewrite IH.
Qed.

Lemma split1_word (s rest : str) : word s -> split1 " " (s ++ " " ++ rest) = [s; rest].
Proof. intros Hs. unfold split1. by rewrite partition_word. Qed.

Definition forwarding_message (service user groups : str) : str :=
  "#TSI_FORWARDING_CONNECT_TO " ++ service ++ nl ++ "#TSI_IDENTITY " ++ user ++ " " ++ groups ++ nl.

Lemma no_nl (s : str) : bool_decide (NL ∉ s) = true -> NL ∉ s.
Proof. by intros ?%bool_decide_eq_true. Qed.

Lemma forwarding_service (service user groups : str) :
  word service -> word user -> word groups ->
  extract_parameter (forwarding_message service user groups) "FORWARDING_CONNECT_TO" None = Some service.
Proof.
  intros Hs Hu Hg. rewrite extract_parameter_lines by (by repeat constructor).
  assert ((NL ∉ service) /\ (NL ∉ user) /\ (NL ∉ groups)) as (Hs' & Hu' & Hg')
    by (split_and!; by apply word_no_space).
  assert (forwarding_message service user groups = concat ((fun l => l ++ nl) <$>
    ["#TSI_FORWARDING_CONNECT_TO " ++ service; "#TSI_IDENTITY " ++ user ++ " " ++ groups])) as ->.
  { cbn [fmap list_fmap concat]. rewrite app_nil_r, <-!app_assoc. done. }
  unfold extract_parameter_ref, terminated_lines. rewrite split_lines.
  2: { repeat constructor; rewrite !not_elem_of_app; split_and!; try done; apply no_nl; by vm_compute. }
  rewrite removelast_last. unfold first_param. set (prefix := param_prefix "FORWARDING_CONNECT_TO").
  change ("#TSI_FORWARDING_CONNECT_TO " ++ service) with (prefix ++ service).
  cbn [find]. rewrite startswith_app. cbn [fmap option_fmap option_map]. rewrite drop_app_length.
  destruct Hs as [Hne _]. by destruct service.
Qed.

Definition non_space : cset := CSet false [CSpace true].
Definition identity_tag : str := "#TSI_IDENTITY ".
Definition identity_toks : list tok :=
  TRep dot 0 None :: lits identity_tag
  ++ TOpen 1 :: TRep non_space 1 None :: TClose 1 :: lits " "
  ++ TOpen 2 :: TRep non_space 1 None :: TClose 2 :: lits nl ++ [TRep dot 0 None].

Lemma compile_identity : compile ".*#TSI_IDENTITY (\S+) (\S+)\n.*" = Some identity_toks.
Proof. vm_compute. reflexivity. Qed.

Lemma all_in_non_space (s : str) : all_in non_space s <-> Forall (fun c => is_space c = false) s.
Proof.
  unfold all_in. split; intros Hs; (eapply Forall_impl; [exact Hs|]); intros c; cbn beta;
    unfold in_set; simpl; rewrite orb_false_r; by destruct (is_space c).
Qed.

Lemma within_word (s : str) : within 1 None (length s) <-> s <> [].
Proof. unfold within. destruct s; simpl; split; try done; try (intros [? _]; lia). intros _. split; [lia | done]. Qed.

Lemma matches_identity (ml : bool) (p : option ascii) (s s' : str) (cp : caps) :
  matches ml identity_toks [] [] p s s' cp <->
  exists pre user groups post, s = pre ++ identity_tag ++ user ++ " " ++ groups ++ nl ++ post ++ s' /\
    all_in dot pre /\ word user /\ word groups /\ all_in dot post /\ cp = [(2, groups); (1, user)]%nat.
Proof.
  unfold identity_toks. setoid_rewrite matches_rep. setoid_rewrite matches_lits. setoid_rewrite matches_open.
  setoid_rewrite matches_rep. setoid_rewrite matches_close. setoid_rewrite matches_lits.
  setoid_rewrite matches_open. setoid_rewrite matches_rep. setoid_rewrite matches_close.
  setoid_rewrite matches_lits. setoid_rewrite matches_rep. setoid_rewrite matches_nil. split.
  - intros (pre & x1 & -> & Hpre & _ & x2 & -> & user & x3 & -> & Hu & Hu' & x4 & -> & groups & x5 & -> & Hg & Hg'
      & x6 & -> & post & x7 & -> & Hpost & _ & <- & ->).
    exists pre, user, groups, post. rewrite !close_group_here. split; [done|]. split; [done|].
    rewrite all_in_non_space in Hu, Hg. rewrite within_word in Hu', Hg'. done.
  - intros (pre & user & groups & post & -> & Hpre & [Hu' Hu] & [Hg' Hg] & Hpost & ->).
    eexists pre, _. split; [reflexivity|]. split; [done|]. split; [split; [lia | done]|].
    eexists. split; [reflexivity|]. eexists user, _. split; [reflexivity|].
    rewrite all_in_non_space, within_word. split; [done|]. split; [done|].
    eexists. split; [reflexivity|]. eexists groups, _. split; [reflexivity|].
    rewrite all_in_non_space, within_word. split; [done|]. split; [done|].
    eexists. split; [reflexivity|]. eexists post, _. split; [reflexivity|]. split; [done|].
    split; [split; [lia | done]|]. by rewrite !close_group_here.
Qed.

(** Splitting at the spaces: the words around a tag that ends in a space. *)
Lemma split_after (P rest : str) : exists l x, split " " P = l ++ [x] /\ split " " (P ++ " " ++ rest) = l ++ x :: split " " rest.
Proof.
  induction P as [|c P (l & x & Hl & Hr)].
  { by exists [], []. }
  cbn [app split]. cbn [app] in Hr. rewrite Hl, Hr. destruct (Ascii.eqb c " ").
  - by exists ([] :: l), x.
  - destruct l as [|w l].
    + by exists [], (c :: x).
    + by exists ((c :: w) :: l), x.
Qed.

Lemma identity_unique (service user groups P U G R : str) :
  word service -> word user -> word groups -> word U -> word G ->
  forwarding_message service user groups = P ++ identity_tag ++ U ++ " " ++ G ++ nl ++ R ->
  U = user /\ G = groups.
Proof.
  intros Hs Hu Hg HU HG Heq. apply (f_equal (split " ")) in Heq.
  assert (forall w r, word w -> split " " (w ++ " " ++ r) = w :: split " " r) as Hword.
  { intros w r Hw. apply (split_app_sep " " w r). by apply word_no_space. }
  assert (forall w r, word w -> split " " (w ++ NL :: r) <> []) as Hne by (intros; apply split_nonempty).
  unfold forwarding_message in Heq.
  change ("#TSI_FORWARDING_CONNECT_TO " ++ ?x) with ("#TSI_FORWARDING_CONNECT_TO" ++ " " ++ x) in Heq.
  rewrite Hword in Heq by (split; [done | by repeat constructor]).
  replace (service ++ nl ++ "#TSI_IDENTITY " ++ user ++ " " ++ groups ++ nl)
    with ((service ++ nl ++ "#TSI_IDENTITY") ++ " " ++ user ++ " " ++ groups ++ nl) in Heq by (by rewrite <-!app_assoc).
  assert (" "%char ∉ service ++ nl ++ "#TSI_IDENTITY") as Hsp.
  { rewrite !not_elem_of_app. split; [by apply word_no_space|]. split; apply (bool_decide_unpack _); by vm_compute. }
  change ((service ++ nl ++ "#TSI_IDENTITY") ++ " " ++ ?x)
    with ((service ++ nl ++ "#TSI_IDENTITY") ++ (" "%char :: x)) in Heq.
  rewrite (split_app_sep " " _ _ Hsp), (Hword user) in Heq by done.
  assert (split " " (groups ++ nl) = [groups ++ nl]) as Hlast.
  { apply split_absent. rewrite not_elem_of_app. split; [by apply word_no_space|].
    apply (bool_decide_unpack _). by vm_compute. }
  rewrite Hlast in Heq.
  replace (P ++ identity_tag ++ U ++ " " ++ G ++ nl ++ R)
    with ((P ++ "#TSI_IDENTITY") ++ " " ++ U ++ " " ++ G ++ nl ++ R) in Heq by (by rewrite <-!app_assoc).
  destruct (split_after (P ++ "#TSI_IDENTITY") (U ++ " " ++ G ++ nl ++ R)) as (l & x & Hx & Hr).
  rewrite Hr, (Hword U) in Heq by done.
  destruct (split " " (G ++ nl ++ R)) as [|y ys] eqn:Hys; [by apply split_nonempty in Hys|].
  destruct l as [|l0 [|l1 [|l2 l]]].
  - exfalso. injection Heq as Hx' _. pose proof (join_split " " (P ++ "#TSI_IDENTITY")) as Hj.
    rewrite Hx in Hj. cbn [app join] in Hj. rewrite <-Hx' in Hj.
    apply (f_equal reverse) in Hj. rewrite reverse_app in Hj. discriminate Hj.
  - injection Heq as _ _ <- Hy <-. split; [done|]. apply (f_equal (join " ")) in Hys.
    rewrite (join_split " ") in Hys. cbn [join] in Hys. rewrite <-Hy in Hys.
    apply (f_equal (split NL)) in Hys. change (G ++ nl ++ R) with (G ++ (NL :: R)) in Hys.
    change (groups ++ nl) with (groups ++ (NL :: [])) in Hys.
    rewrite !(split_app_sep NL) in Hys by (by apply word_no_space). by injection Hys as -> _.
  - discriminate Heq.
  - apply (f_equal length) in Heq. cbn [length app] in Heq. rewrite length_app in Heq. simpl in Heq. lia.
Qed.

(** * Properties *)

(** C13: A request to forward reaches its service under the right identity: from
    the parameters of [start-forwarding] the child of the server makes a message
    from which the forwarder reads back the very service, and the handler of
    the request the very user and groups. *)
Theorem forwarding_roundtrip (port service user groups : str) (client : sock) :
  word port -> word service -> word user -> word groups ->
  exists message,
    child_result "start-forwarding" (port ++ " " ++ service ++ " " ++ user ++ " " ++ groups) [client]
    = Ok (Some (client, None, Some message)) /\
    extract_parameter message "FORWARDING_CONNECT_TO" None = Some service /\
    identity message = Some (user, groups).
Proof.
  intros Hp Hs Hu Hg. exists (forwarding_message service user groups). split; [|split].
  - unfold child_result. cbn [lookup list_lookup or_raise mbind result_bind].
    change (str_eqb "start-forwarding" "newtsiprocess") with false. cbv iota.
    rewrite split1_word, split1_word by done. unfold forwarding_message. by rewrite <-!app_assoc.
  - by apply forwarding_service.
  - set (message := forwarding_message service user groups). unfold identity, re_search_M.
    rewrite compile_identity. destruct (search_from true identity_toks None message) as [m|] eqn:Hm.
    + destruct (search_some _ _ _ _ _ Hm) as (a & b & r & cp & Hab & Hmt & _ & Hcp).
      apply matches_identity in Hmt as (pre & U & G & post & -> & _ & HU & HG & _ & ->).
      destruct (identity_unique service user groups (a ++ pre) U G (post ++ r)) as [-> ->]; try done.
      * rewrite <-app_assoc. exact Hab.
      * cbn. unfold group. by rewrite Hcp.
    + exfalso. destruct (search_is_some true identity_toks None ("#TSI_FORWARDING_CONNECT_TO " ++ service ++ nl)
        (identity_tag ++ user ++ " " ++ groups ++ nl) [] [(2, groups); (1, user)]%nat) as [m Hm'].
      * apply matches_identity. exists [], user, groups, []. rewrite app_nil_r.
        split; [done|]. split; [constructor|]. split; [done|]. split; [done|]. split; [constructor | done].
      * enough (message = ("#TSI_FORWARDING_CONNECT_TO " ++ service ++ nl)
          ++ (identity_tag ++ user ++ " " ++ groups ++ nl)) as Heq by (rewrite Heq in Hm; congruence).
        unfold message, forwarding_message. by rewrite <-!app_assoc.
Qed.

Lemma forwarding_roundtrip_witness :
  exists message,
    child_result "start-forwarding" ("7654" ++ " " ++ "localhost:8080" ++ " " ++ "alice" ++ " " ++ "users") [5]
    = Ok (Some (5, None, Some message)) /\
    extract_parameter message "FORWARDING_CONNECT_TO" None = Some ("localhost:8080" : str) /\
    identity message = Some ("alice" : str, "users" : str).
Proof.
  apply (forwarding_roundtrip "7654" "localhost:8080" "alice" "users" 5);
    (split; [discriminate | by repeat constructor]).
Defined.

(** C16: Whatever the interleaving of the two threads, each direction has
    received a beginning of its source's stream and delivered a part of that, in
    order and without additions; where every [send] took its whole block,
    exactly the bytes received; the delay is never negative and stays 0 without a
    rate limit; and the process ends with status 0 only. *)
Theorem forwarding_copies (limit : Z) (up down : str) (f : forwarder) :
  reachable limit up down f ->
  copied limit up (f_up f) /\ copied limit down (f_down f) /\
  (d_total (f_up f) = Z.of_nat (length (d_delivered (f_up f))) -> up = d_delivered (f_up f) ++ d_incoming (f_up f)) /\
  (d_total (f_down f) = Z.of_nat (length (d_delivered (f_down f))) -> down = d_delivered (f_down f) ++ d_incoming (f_down f)) /\
  (f_exit f = None \/ f_exit f = Some 0).
Proof.
  intros Hr.
  assert (copied limit up (f_up f) /\ copied limit down (f_down f) /\ (f_exit f = None \/ f_exit f = Some 0))
    as (Hu & Hd & He).
  { unfold reachable in Hr.
    assert (copied limit up (f_up (started up down)) /\ copied limit down (f_down (started up down)) /\
      (f_exit (started up down) = None \/ f_exit (started up down) = Some 0)) as Hs
      by (split_and!; [apply copied_fresh | apply copied_fresh | by left]).
    induction Hr as [|f0 f1 f2 Hstep _ IH]; [done|]. apply IH. destruct Hs as (Hu & Hd & _).
    destruct Hstep; cbn [f_up f_down f_exit] in *; split_and!; try done; try (by left); try (by right);
      by eapply copied_step. }
  split_and!; try done; by apply (copied_whole limit).
Qed.

(** A run: the request goes up in one block, and the end of the client's stream
    ends the process before the answer has come down. *)
Definition cut_state : forwarder :=
  Forwarder (Direction [] "GET /" 5 0 true) (fresh_direction "answer") (Some 0).

Lemma cut_reachable : reachable 0 "GET /" "answer" cut_state.
Proof.
  eapply rtc_l with (Forwarder (Direction [] "GET /" 5 0 true) (fresh_direction "answer") None).
  - apply transfer_up. apply (copy_block 0 (fresh_direction "GET /") 0 5 5); simpl; (done || lia).
  - apply rtc_once, transfer_eof. by left.
Qed.

Lemma forwarding_copies_witness :
  copied 0 "GET /" (f_up cut_state) /\ ("GET /" : str) = d_delivered (f_up cut_state) ++ d_incoming (f_up cut_state).
Proof.
  destruct (forwarding_copies 0 "GET /" "answer" cut_state cut_reachable) as (Hu & _ & Hw & _).
  split; [exact Hu | apply Hw; reflexivity].
Defined.
