(* ===== verification/Main.v ===== *)
(** * [lib/TSI.py], [main]: the server

    It reads its configuration, waits for UNICORE/X and, in the child that
    [connect] leaves, serves one worker or one forwarder. *)

From S2P Require Import Prelude PyStr World Utils UserCache Testbed BecomeUser.
From S2P Require Import Config Connector BSSCommon Script Requests TSI Server Forwarder.
#[local] Open Scope py_scope.
#[local] Open Scope Z_scope.

Section main.
Context {E : Type} `{Ext E} `{Net E} `{Libpam E}.
(** The Python version is recent enough; [socket.getaddrinfo]; the location of
    the UFTP client; the batch system object and its [init]; what the peer of a
    socket will send on it. *)
Context (version_ok : bool) (getaddrinfo : str -> result (list str)) (client : str).
Context (bss_init : M (world E) unit) (incoming : sock -> E -> str).

Definition assert_version : bool := version_ok.

(** From the command line to the wait for UNICORE/X. *)
Definition startup (argv : list str) : M (world E) unit :=
  when (negb assert_version) (raise RuntimeError "Unsupported version of Python!") ;;
  config_file ← lift (or_raise (argv !! 1%nat) RuntimeError "Please specify the config file!");
  config ← read_config_file config_file;
  modify (with_config config) ;;
  config_at "tsi.debug" ;;
  config_at "tsi.use_syslog" ;;
  config_at "tsi.open_user_sessions" ;;
  config ← lift (finish_setup getaddrinfo config);
  modify (with_config config) ;;
  initialize ;;
  safe_dir ← config_at "tsi.safe_dir";
  safe_dir ← lift (as_str safe_dir);
  chdir (Some safe_dir) ;;
  bss_init.

(** The constructor of [Connector]: the streams of the sockets. *)
Definition attach (command data : sock) : M (world E) unit :=
  modify (fun w => with_din (incoming data (w_ext w)) (with_in (incoming command (w_ext w))
    (with_dout [] (with_out [] w)))).

Definition main (fuel : nat) (bss : bss_object E) (argv : list str) : M (world E) unit :=
  startup argv ;;
  r ← connect fuel;
  match r with
  | None => raise TypeError "cannot unpack non-iterable NoneType object"
  | Some (command, Some data, None) =>
      attach command data ;;
      process (H0 := socket_connector) client bss false
  | Some (command, None, None) => raise AttributeError "'NoneType' object has no attribute 'makefile'"
  | Some (client_socket, _, Some msg) =>
      config ← get_config;
      lift (rate_limit config) ;;
      handle_function (H0 := forwarder_connector client_socket)
        (fun msg => start_forwarding client_socket msg ;; mret tt) "_START_FORWARDING" msg
  end.
End main.

(** ** Facts: what the way to the worker leaves alone *)

(** The entries a worker relies on. *)
Definition worker_keys : list str :=
  ["tsi.switch_uid"; "tsi.effective_uid"; "tsi.effective_gid"; "tsi.open_user_sessions"; "tsi.testing";
   "tsi.safe_dir"; "tsi.child_pids"].

Record keeps_worker {E : Type} (w w' : world E) : Prop := {
  kw_creds : w_creds w' = w_creds w;
  kw_config : forall k, k ∈ worker_keys -> w_config w' !! k = w_config w !! k
}.

#[export] Instance keeps_worker_preorder {E : Type} : PreOrder (keeps_worker (E := E)).
Proof.
  split; [by split|]. intros w1 w2 w3 [a1 b1] [a2 b2]. split; [congruence|].
  intros k Hk. by rewrite b2, b1.
Qed.

Section keeps.
Context {E : Type} `{Ext E} `{Net E}.

Lemma kw_ext_call {A} (f : proc -> E -> result A * E) : respects keeps_worker (ext_call f).
Proof. intros w. unfold ext_call. destruct (f _ _). by split. Qed.
Lemma kw_ext_read {A} (f : proc -> E -> result A) : respects keeps_worker (ext_read f).
Proof. by intros w. Qed.
Lemma kw_set (k : str) (v : cval) : k ∉ worker_keys -> respects keeps_worker (set_config (E := E) k v).
Proof.
  intros Hk w. split; [done|]. intros k' Hk'. simpl. apply lookup_insert_ne. by intros ->.
Qed.
Lemma kw_config_at k : respects keeps_worker (config_at (E := E) k).
Proof. by intros w. Qed.
Lemma kw_config_get k d : respects keeps_worker (config_get (E := E) k d).
Proof. by intros w. Qed.
Lemma kw_chdir d : respects keeps_worker (chdir (E := E) d).
Proof.
  unfold chdir. destruct d; [|apply respects_raise; exact _].
  apply respects_bind; [exact _ | apply kw_ext_read|]. intros cwd. by apply respects_modify.
Qed.
#[local] Hint Resolve kw_ext_call kw_ext_read kw_config_at kw_config_get kw_chdir : respects.
#[local] Hint Extern 2 (respects keeps_worker (set_config _ _)) =>
  apply kw_set, (bool_decide_unpack _); vm_compute; exact I : respects.

Lemma kw_connect_attempts n host port timeout b local lower upper :
  respects keeps_worker (connect_attempts (E := E) n host port timeout b local lower upper).
Proof. revert local. induction n as [|n IH]; intros local; cbn [connect_attempts]; solve_respects. Qed.
#[local] Hint Resolve kw_connect_attempts : respects.
Lemma kw_open_sockets n host port ssl : respects keeps_worker (open_sockets (E := E) n host port ssl).
Proof.
  induction n as [|n IH]; cbn [open_sockets]; unfold open_connection, setup_ssl, configure_socket; solve_respects.
Qed.
#[local] Hint Resolve kw_open_sockets : respects.
Lemma kw_step server ssl : respects keeps_worker (connect_step (E := E) server ssl).
Proof.
  unfold connect_step, accepted, control, start_worker, callback, fork_worker, set_setting, receive,
    verify_peer, verify_ip, configure_socket, close_quietly, close, sleep. solve_respects.
Qed.
#[local] Hint Resolve kw_step : respects.
Lemma kw_connect fuel : respects keeps_worker (connect (E := E) fuel).
Proof.
  assert (forall server ssl, respects keeps_worker (connect_loop (E := E) fuel server ssl)).
  { intros server ssl. induction fuel as [|f IH]; cbn [connect_loop]; solve_respects. }
  unfold connect, create_server, _check_ipv6_support, setup_ssl. solve_respects.
Qed.

(** [init] of the base class, for defaults that are none of those entries. *)
Lemma kw_init `{BSS} : Forall (fun kv => kv.1 ∉ worker_keys) all_defaults -> respects keeps_worker (init (E := E)).
Proof.
  intros Hd. unfold init.
  assert (forall cmd login, respects keeps_worker (run_command (E := E) cmd false None login))
    by (intros; unfold run_command; solve_respects).
  apply respects_bind; [exact _ | | intros ?; solve_respects].
  induction Hd as [|kv l Hk _ IH]; cbn [for_each]; [apply respects_ret; exact _|].
  apply respects_bind; [exact _ | | intros _; exact IH].
  pose proof (kw_set kv.1 (VStr kv.2) Hk). solve_respects.
Qed.
End keeps.

(** The options of a server whose workers switch the identity for each request
    and have no user sessions, as [startup] leaves them. *)
Record worker_options (dir : str) (config : config_t) : Prop := {
  wo_switch : exists v, config !! ("tsi.switch_uid" : str) = Some v /\ truthy v = true;
  wo_sessions : sessions_off config;
  wo_testing : truthy (cfg_get config "tsi.testing" (VBool false)) = false;
  wo_dir : config !! ("tsi.safe_dir" : str) = Some (VStr dir);
  wo_pids : exists l, config !! pids_key = Some (VPids l)
}.

Lemma initialize_ids {E : Type} (w w' : world E) :
  initialize w = (Ok tt, w') ->
  w_creds w' = w_creds w /\ w_config w' !! ("tsi.effective_uid" : str) = Some (VInt (euid (w_creds w))) /\
  w_config w' !! ("tsi.effective_gid" : str) = Some (VInt (egid (w_creds w))).
Proof.
  intros Hr. unfold initialize in Hr. rewrite (bind_run _ _ w w (w_creds w)) in Hr by done.
  set (w1 := with_config (<["tsi.effective_uid" := VInt (euid (w_creds w))]> (w_config w)) w).
  set (w2 := with_config (<["tsi.effective_gid" := VInt (egid (w_creds w))]> (w_config w1)) w1).
  rewrite (bind_run _ _ w w1 tt) in Hr by done. rewrite (bind_run _ _ w1 w2 tt) in Hr by done.
  assert (respects (fun a b : world E => w_creds b = w_creds a /\
      forall k, k = "tsi.effective_uid" \/ k = "tsi.effective_gid" -> w_config b !! k = w_config a !! k)
    (switch_uid ← config_at "tsi.switch_uid";
     (if truthy switch_uid || (euid (w_creds w) =? 0) then set_config "tsi.switch_uid" (VBool true)
      else set_config "tsi.switch_uid" (VBool false)) ;;
     config_at "tsi.enforce_os_gids" ;;
     cache_ttl ← config_at "tsi.userCacheTtl";
     use_id ← config_at "tsi.use_id_to_resolve_gids";
     modify (fun w => with_cache (new_cache cache_ttl (truthy use_id)) w))) as Hk.
  { assert (PreOrder (fun a b : world E => w_creds b = w_creds a /\
      forall k, k = "tsi.effective_uid" \/ k = "tsi.effective_gid" -> w_config b !! k = w_config a !! k)).
    { split; [done|]. intros a b c [H1 H2] [H3 H4]. split; [congruence|]. intros k Hk. by rewrite H4, H2. }
    assert (forall b, respects (fun a b : world E => w_creds b = w_creds a /\
      forall k, k = "tsi.effective_uid" \/ k = "tsi.effective_gid" -> w_config b !! k = w_config a !! k)
      (set_config "tsi.switch_uid" (VBool b))).
    { intros b s. split; [done|]. intros k Hk. simpl. apply lookup_insert_ne. by intros <-; destruct Hk. }
    unfold config_at. solve_respects; by apply respects_modify. }
  specialize (Hk w2). rewrite Hr in Hk. destruct Hk as [Hc Hk]. cbn [snd] in Hc, Hk.
  split; [by rewrite Hc|]. rewrite !Hk by auto. split.
  - unfold w2, w1. simpl. rewrite lookup_insert_ne by done. apply lookup_insert_eq.
  - unfold w2. simpl. apply lookup_insert_eq.
Qed.

#[local] Existing Instance socket_connector.

Section properties.
Context {E : Type} `{Ext E} `{!SaneExt E} `{Net E} `{Libpam E}.
Context (version_ok : bool) (getaddrinfo : str -> result (list str)) (client : str).
Context (bss_init : M (world E) unit) (incoming : sock -> E -> str).

(** What [startup] leaves: the credentials and their ids in the configuration. *)
Lemma startup_ids argv (w w' : world E) :
  respects keeps_worker bss_init -> startup version_ok getaddrinfo bss_init argv w = (Ok tt, w') ->
  w_creds w' = w_creds w /\ w_config w' !! ("tsi.effective_uid" : str) = Some (VInt (euid (w_creds w))) /\
  w_config w' !! ("tsi.effective_gid" : str) = Some (VInt (egid (w_creds w))).
Proof.
  intros Hinit Hr. unfold startup, read_config_file in Hr. inv_run.
  repeat match goal with Hx : modify _ _ = (Ok _, _) |- _ => injection Hx as _ <- end.
  unfold config_at, get_config in *. inv_run. unfold ext_read in Ha12. injection Ha12 as _ <-.
  destruct a8. apply initialize_ids in Ha8 as (Hc & Hu & Hg). cbn [with_config w_creds] in Hc, Hu, Hg.
  pose proof (kw_chdir (Some a10) s8) as Hd. rewrite Ha11 in Hd. pose proof (Hinit s11) as Hi. rewrite Hr in Hi.
  destruct Hd as [Hd1 Hd2], Hi as [Hi1 Hi2]. cbn [snd] in *. split; [congruence|].
  split; (rewrite Hi2, Hd2; [assumption|..]; apply (bool_decide_unpack _); by vm_compute).
Qed.

(** A worker starts ready. *)
Lemma worker_ready fuel argv u g gs dir (w w0 w1 : world E) r :
  w_creds w = privileged u g gs -> respects keeps_worker bss_init ->
  startup version_ok getaddrinfo bss_init argv w = (Ok tt, w0) -> worker_options dir (w_config w0) ->
  connect fuel w0 = (Ok r, w1) -> ready u g dir w1.
Proof.
  intros Hc Hinit Hs [Hsw Hse Ht Hd Hp] Hr. apply startup_ids in Hs as (Hc0 & Hu & Hg); [|done].
  pose proof (kw_connect fuel w0) as Hk. rewrite Hr in Hk. destruct Hk as [Hk1 Hk2]. cbn [snd] in Hk1, Hk2.
  assert (forall k, bool_decide (k ∈ worker_keys) = true -> w_config w1 !! k = w_config w0 !! k) as Hkey
    by (intros k Hin%bool_decide_eq_true; auto).
  assert (forall k d, bool_decide (k ∈ worker_keys) = true -> cfg_get (w_config w1) k d = cfg_get (w_config w0) k d)
    as Hget by (intros k d Hin; unfold cfg_get; by rewrite Hkey).
  rewrite Hc in *. split.
  - exists gs. congruence.
  - split; rewrite Hkey by (by vm_compute); done.
  - unfold sessions_off in *. by rewrite Hget by (by vm_compute).
  - by rewrite Hget by (by vm_compute).
  - by rewrite Hkey by (by vm_compute).
  - by rewrite Hkey by (by vm_compute).
Qed.

(** * Properties *)

End properties.

(** ** A concrete server *)

#[local] Existing Instance TSI.mock_bss.
#[local] Existing Instance TSI.mock_laws.
#[local] Existing Instance TSI.bed_pam.
#[local] Instance ux_net : Net bed := bed_net "10.0.0.1" ("newtsiprocess 7654" ++ nl) [] 0.

Definition conf_file : str := "tsi.unicorex_machine=ux.example.org" ++ nl ++ "tsi.safe_dir=/tmp" ++ nl.
Definition start_world : world bed :=
  with_config ∅ (with_ext (Bed 0 {["/etc/tsi.conf" := conf_file]} ∅ [] [] 5000 [] []) bed_world).
Definition ux_stream : str := concat ((fun m => message_text m ++ end_of_message) <$> two_msgs).
Definition ux_incoming (s : sock) (e : bed) : str := if s =? 5002 then ux_stream else "".
Definition ux_addrinfo (host : str) : result (list str) := Ok ["10.0.0.1"].
Definition start_argv : list str := ["TSI.py"; "/etc/tsi.conf"].
Definition bed_startup : M (world bed) unit := startup true ux_addrinfo init start_argv.
Definition startup_out : result unit * world bed := bed_startup start_world.
Definition connect_out : result (option (sock * option sock * option str)) * world bed :=
  connect 1 (snd startup_out).

Example startup_ex : fst startup_out = Ok tt.
Proof. vm_compute. reflexivity. Qed.
Example connect_ex : fst connect_out = Ok (Some (5002, Some 5003, None)).
Proof. vm_compute. reflexivity. Qed.

Lemma start_options : worker_options "/tmp" (w_config (snd startup_out)).
Proof.
  split; [exists (VBool true); split; [vm_compute; reflexivity | reflexivity] | vm_compute; reflexivity
    | vm_compute; reflexivity | vm_compute; reflexivity | exists []; vm_compute; reflexivity].
Qed.

Lemma bed_init_keeps : respects keeps_worker (init (E := bed)).
Proof.
  apply kw_init. assert (forallb (fun kv => bool_decide (kv.1 ∉ worker_keys)) all_defaults = true) as Hf
    by (vm_compute; reflexivity).
  rewrite forallb_forall in Hf. apply Forall_forall. intros kv Hin. apply (bool_decide_unpack _).
  apply Is_true_true, Hf. by apply list_elem_of_In.
Qed.

