(* ===== verification/Runner.v ===== *)
(** * [lib/Runner.py]: one request from standard input to standard output

    The runner changes no identity: it serves the request of the user who
    started it, over a [StreamConnector]. *)

From S2P Require Import Prelude PyStr World Utils UserCache Testbed BecomeUser.
From S2P Require Import Config Connector BSSCommon Script Requests TSI Main.
#[local] Open Scope py_scope.
#[local] Open Scope Z_scope.
#[local] Existing Instance stream_connector.

Section runner.
Context {E : Type} `{Ext E} `{Libpam E}.
Context (version_ok : bool) (getaddrinfo : str -> result (list str)) (client : str).
Context (bss_init : M (world E) unit).

Definition runner_config : config_t :=
  <["tsi.open_user_sessions" := VBool false]> (<["tsi.switch_uid" := VBool false]> get_default_config).

(** Up to the [Connector]. *)
Definition runner_startup : M (world E) unit :=
  when (negb (assert_version version_ok)) (raise RuntimeError "Unsupported version of Python!") ;;
  config ← lift (finish_setup getaddrinfo runner_config);
  modify (with_config config) ;;
  initialize ;;
  bss_init.

Definition runner_main (bss : bss_object E) : M (world E) unit :=
  runner_startup ;;
  process client bss true.
End runner.

(** ** Facts: the start *)

(** The entries [finish_setup] sets. *)
Definition setup_keys : list str :=
  ["tsi.posixacl_enabled"; "tsi.nfsacl_enabled"; "tsi.allowed_ips"; "tsi.local_portrange"].

Lemma finish_setup_keeps (getaddrinfo : str -> result (list str)) (c c' : config_t) (k : str) :
  finish_setup getaddrinfo c = Ok c' -> k ∉ setup_keys -> c' !! k = c !! k.
Proof.
  unfold setup_keys, finish_setup, setup_allowed_ips, setup_portrange, setup_acl. intros Hc Hk.
  rewrite !not_elem_of_cons in Hk. destruct Hk as (K1 & K2 & K3 & K4 & _).
  apply bind_ok in Hc as (c1 & H1 & Hc). apply bind_ok in H1 as (v & _ & H1).
  destruct v; try discriminate H1. apply Ok_inj in H1 as <-.
  apply bind_ok in Hc as (range & _ & Hc). apply bind_ok in Hc as ([[first lower] upper] & _ & Hc).
  apply Ok_inj in Hc as <-. by rewrite !lookup_insert_ne by congruence.
Qed.

(** The process of a runner: not privileged, and told not to switch. *)
Record runner_ready {E : Type} (w : world E) : Prop := {
  rr_switch : w_config w !! ("tsi.switch_uid" : str) = Some (VBool false);
  rr_dir : w_config w !! ("tsi.safe_dir" : str) = Some (VStr "/tmp");
  rr_pids : exists l, w_config w !! pids_key = Some (VPids l)
}.

Lemma initialize_unprivileged {E : Type} (w w' : world E) :
  euid (w_creds w) <> 0 -> w_config w !! ("tsi.switch_uid" : str) = Some (VBool false) ->
  initialize w = (Ok tt, w') ->
  w_creds w' = w_creds w /\ w_config w' !! ("tsi.switch_uid" : str) = Some (VBool false) /\
  (forall k, k ∉ (["tsi.switch_uid"; "tsi.effective_uid"; "tsi.effective_gid"] : list str) ->
     w_config w' !! k = w_config w !! k).
Proof.
  intros Hu Hsw Hr. unfold initialize, config_at, get_config in Hr. inv_run.
  injection Ha0 as _ <-. injection Ha1 as _ <-.
  assert (a2 = VBool false) as ->.
  { cbn [with_config w_config] in Ha2. unfold cfg_at in Ha2.
    rewrite !lookup_insert_ne, Hsw in Ha2 by done. by injection Ha2 as <-. }
  rewrite (proj2 (Z.eqb_neq _ _) Hu) in Ha3. cbn [truthy orb] in Ha3. injection Ha3 as _ <-. injection Hr as <-.
  cbn [with_cache with_config w_creds w_config]. split; [done|]. split; [apply lookup_insert_eq|].
  intros k Hk. rewrite !not_elem_of_cons in Hk. destruct Hk as (K1 & K2 & K3 & _).
  by rewrite !lookup_insert_ne by congruence.
Qed.

Lemma runner_startup_ready {E : Type} version_ok getaddrinfo (bss_init : M (world E) unit) (w w0 : world E) :
  euid (w_creds w) <> 0 -> respects keeps_worker bss_init ->
  runner_startup version_ok getaddrinfo bss_init w = (Ok tt, w0) ->
  w_creds w0 = w_creds w /\ runner_ready w0.
Proof.
  intros Hu Hinit Hr. unfold runner_startup in Hr.
  remember runner_config as conf eqn:Hconf. inv_run.
  injection Ha1 as _ <-. destruct a2.
  apply initialize_unprivileged in Ha2 as (Hc & Hsw & Hk); [|exact Hu|].
  2: { cbn [with_config w_config]. rewrite (finish_setup_keeps _ _ _ _ Ha0), Hconf; [by vm_compute|].
       apply (bool_decide_unpack _); by vm_compute. }
  pose proof (Hinit s2) as Hi. rewrite Hr in Hi. destruct Hi as [Hi1 Hi2]. cbn [snd] in *.
  split; [by rewrite Hi1, Hc|].
  assert (forall k, bool_decide (k ∈ worker_keys /\
      k ∉ (["tsi.switch_uid"; "tsi.effective_uid"; "tsi.effective_gid"] ++ setup_keys : list str)) = true ->
    w_config w0 !! k = conf !! k) as Hkey.
  { intros k [K1 [K2 K3]%not_elem_of_app]%bool_decide_eq_true.
    rewrite Hi2, Hk by done. by apply (finish_setup_keeps _ _ _ _ Ha0). }
  split.
  - rewrite Hi2; [done|]. apply (bool_decide_unpack _); by vm_compute.
  - rewrite Hkey, ?Hconf; by vm_compute.
  - exists []. rewrite Hkey, ?Hconf; by vm_compute.
Qed.

(** ** Facts: the request *)

(** What the next steps of the runner rely on; its input stream may lose the
    data that a request reads. *)
Record same_process {E : Type} (w w' : world E) : Prop := {
  sp_creds : w_creds w' = w_creds w;
  sp_config : forall k, k <> pids_key -> w_config w' !! k = w_config w !! k;
  sp_pids : (exists l, w_config w !! pids_key = Some (VPids l)) ->
            exists l, w_config w' !! pids_key = Some (VPids l)
}.

#[local] Instance same_process_preorder {E : Type} : PreOrder (same_process (E := E)).
Proof.
  split; [by split|]. intros w1 w2 w3 [a1 b1 c1] [a2 b2 c2]. split; [congruence| |auto].
  intros k Hk. by rewrite b2, b1.
Qed.

Lemma stream_read_until_same {E : Type} (t : str) : respects same_process (stream_read_until (E := E) t).
Proof.
  unfold stream_read_until. apply respects_bind; [exact _ | by intros w | intros s].
  destruct (read_lines_until _ _ _ _) as [[[m r] ?]|]; [|by intros w].
  apply respects_bind; [exact _ | by apply respects_modify | by intros ? w].
Qed.

#[local] Instance stream_frame {E : Type} `{Ext E} : RequestFrame (same_process (E := E)).
Proof.
  split; try exact _; try (intros; by split).
  - intros w l. split; simpl; [done | |].
    + intros k Hk. by rewrite lookup_insert_ne.
    + intros _. exists l. apply lookup_insert_eq.
  - intros [m|] w; unfold ok, stream_connector, stream_ok, stream_write_message, modify, mbind, M_bind; by split.
  - intros n. cbn [read_data stream_connector]. unfold stream_read_data.
    apply respects_bind; [exact _ | apply stream_read_until_same | intros msg w].
    destruct (split1 _ _) as [|h [|m []]]; try by split. destruct (startswith _ _); by split.
Qed.

Lemma runner_ready_same {E : Type} (w w' : world E) : same_process w w' -> runner_ready w -> runner_ready w'.
Proof. intros [_ Hc Hp] [H1 H2 H3]. split; [by rewrite Hc | by rewrite Hc | auto]. Qed.

(** The lines of a request: none of them is the end marker, blanks aside. *)
Definition request_lines (lines : list str) : Prop :=
  Forall (fun l => (NL ∉ l) /\ (CR ∉ l) /\ strip (l ++ nl) <> "ENDOFMESSAGE") lines.

Lemma stream_message_lines {E : Type} (lines : list str) (rest : str) (w : world E) :
  request_lines lines -> w_in w = message_text lines ++ end_of_message ++ rest ->
  stream_read_message w = (Ok (message_text lines), with_in rest w).
Proof.
  intros Hlines Hin. unfold stream_read_message, stream_read_until, gets, mbind, M_bind.
  unfold message_text, end_of_message in *. rewrite Hin. rewrite <-(app_assoc "ENDOFMESSAGE" nl rest).
  change (nl ++ rest) with (NL :: rest). rewrite read_lines_until_lines.
  - done.
  - eapply Forall_impl; [exact Hlines|]. intros l (H1 & H2 & H3). split; [done|]. split; [done|].
    by apply str_eqb_neq.
  - apply (bool_decide_unpack _). by vm_compute.
  - apply (bool_decide_unpack _). by vm_compute.
  - by vm_compute.
  - unfold read_fuel. rewrite length_app. pose proof (concat_lines_length lines). lia.
Qed.

Definition same_input {E : Type} (w w' : world E) : Prop := w_in w' = w_in w.

Section request.
Context {E : Type} `{Ext E} `{!SaneExt E} `{Libpam E}.

(** Without a change of identity a request is its function, with its errors
    reported. *)
Lemma handle_unswitched (function : str -> M (world E) unit) command msg (w : world E) :
  well_behaved same_process function -> runner_ready w ->
  exists text w', handle_function function command msg w = (Ok tt, w') /\ is_reply text /\
    w_out w' = w_out w ++ text /\ same_process w w'.
Proof.
  intros [Hf Hr Hc] [Hsw _ _]. unfold handle_function.
  rewrite (bind_run _ _ w w (VBool false))
    by (unfold config_get, get_config, gets, cfg_get, mbind, M_bind, mret, M_ret; by rewrite Hsw).
  rewrite (bind_run _ _ w w (cfg_get (w_config w) "tsi.open_user_sessions" (VBool false))) by done.
  cbn [truthy]. rewrite andb_false_r. cbn [andb]. unfold handle_in_process.
  assert (exists text w', serve function false false msg w = (Ok true, w') /\ is_reply text /\
    w_out w' = w_out w ++ text /\ same_process w w') as (text & w' & Hrun & Hrest).
  { unfold serve, request_identity. rewrite (bind_run _ _ w w (inr ("", [], ""))) by done.
    unfold try_catch.
    assert (run_as_user function false false "" [] "" msg w = function msg w) as Hfun
      by (unfold run_as_user; cbn [when]; by rewrite (bind_run (mret tt) _ w w tt)).
    specialize (Hf msg w). specialize (Hr msg w). specialize (Hc msg w). rewrite bind_match, Hfun.
    destruct (function msg w) as [[[]|e|n|] w1]; cbn [fst snd settles] in *; try done.
    - destruct Hr as (text & Ht & Ho). by exists text, w1.
    - rewrite failed_law. exists (failed_text (exn_msg e)), (emit (failed_text (exn_msg e)) w1).
      split; [done|]. split; [right; by eexists|]. split; [unfold emit; simpl; by rewrite Hr|].
      transitivity w1; [exact Hf | by split]. }
  exists text, w'. split; [|exact Hrest]. by rewrite (bind_run _ _ _ _ _ Hrun).
Qed.

Lemma runner_message (functions : list (str * (str -> M (world E) unit))) message (w : world E) :
  Forall (fun f => f.1 ∈ special_commands \/ well_behaved same_process f.2) functions ->
  (forall p e, exists d, x_chdir p "/tmp" e = Ok d) ->
  plain_message functions message -> runner_ready w ->
  exists reply w', process_message functions message w = (Ok tt, w') /\
    answer_to functions message reply /\ w_out w' = w_out w ++ (reply ++ end_of_message) /\
    same_process w w'.
Proof.
  intros Hfun Hdir Hplain Hready. unfold process_message.
  rewrite (bind_run _ _ w w "/tmp").
  2: { unfold config_str, get_config, gets, lift, cfg_str, cfg_at, mbind, M_bind.
       rewrite (rr_dir _ Hready). done. }
  destruct (Hdir (proc_of w) (w_ext w)) as [d Hd].
  rewrite (bind_run _ _ w (with_cwd d w) tt).
  2: { unfold chdir, ext_read, modify, mbind, M_bind. by rewrite Hd. }
  set (w1 := with_cwd d w).
  assert (same_process w w1) as Hsame by (by split).
  unfold answer_to, plain_message in *.
  destruct (find_command functions message) as [[command function]|] eqn:Hfind.
  - apply find_command_elem in Hfind. rewrite Forall_forall in Hfun.
    destruct (Hfun _ Hfind) as [Hsp|Hok]; [done|]. cbn [fst snd] in *.
    destruct (str_eqb "TSI_PING" command) eqn:Hping.
    + unfold ping. rewrite (bind_run _ _ _ _ _ (ok_law _ w1)), write_message_law.
      eexists (ok_text (Some MY_VERSION)), _. split; [reflexivity|]. split; [split; [left; by eexists | done]|].
      split; [unfold emit; simpl; by rewrite <-app_assoc | by split].
    + apply str_eqb_neq in Hping.
      destruct (handle_unswitched function command message w1 Hok (runner_ready_same _ _ Hsame Hready))
        as (text & w2 & Hrun & Ht & Ho & Hs).
      rewrite (bind_run _ _ _ _ _ Hrun), write_message_law.
      exists text, (emit (line_text "ENDOFMESSAGE") w2). split; [done|].
      split; [split; [done | by intros ->]|].
      split; [unfold emit; cbn [w_out with_out]; rewrite Ho; by rewrite <-app_assoc|].
      transitivity w1; [done|]. transitivity w2; [done | by split].
  - rewrite (bind_run _ _ _ _ _ (failed_law _ w1)), write_message_law.
    eexists _, _. split; [reflexivity|]. split; [reflexivity|].
    split; [unfold emit; simpl; by rewrite <-app_assoc | by split].
Qed.

(** * Properties *)

End request.

(** ** A concrete run *)

#[local] Existing Instance TSI.mock_bss.
#[local] Existing Instance TSI.mock_laws.
#[local] Existing Instance TSI.bed_pam.

(** [alice] asks for the budget; a second message follows. *)
Definition alice_creds : creds := Creds 1000 1000 1000 1000 1000 1000 [1000] false false false false.
Definition budget_request : list str := ["#TSI_IDENTITY bob NONE"; "#TSI_GET_COMPUTE_BUDGET"].
Definition runner_world : world bed :=
  with_creds alice_creds
    (with_in (message_text budget_request ++ end_of_message ++ "#TSI_PING" ++ nl) bed_world).
Definition runner_out : result unit * world bed := runner_startup true ux_addrinfo init runner_world.

Example runner_startup_ex : fst runner_out = Ok tt.
Proof. vm_compute. reflexivity. Qed.

Lemma cleanup_same_input : respects same_input (cleanup (E := bed)).
Proof.
  intros w. destruct (fr_cleanup (H0 := socket_connector) (R := same_request) w) as [_ _ _ Hin]. exact Hin.
Qed.

